(* ===== verification/_CoqProject ===== *)
-Q . S2P
Prelude.v
Align.v
Config.v
IList.v
Buddy.v
BuddySpec.v
BuddyProofs.v
BuddyInit.v
BuddyProps.v
Allocator.v
AllocSizes.v
AllocProofs.v
AllocFree.v
AllocHeap.v
AllocProps.v
Heap.v
HeapInst.v
Mmu.v
MmuProofs.v
MmuProps.v
PgdProps.v
PgdCopy.v
CString.v
VfsData.v
Stdio.v
StdioProps.v
Cpio.v
CpioProps.v
BootLib.v
Fdt.v
FdtProps.v
BootFdt.v
Bootloader.v
Tmpfs.v
Ramfs.v
Vfs.v
LookupSpec.v
VfsProps.v
Uart.v
UartProps.v
Plic.v
Video.v
VideoProps.v
Vma.v
VmaProps.v
Kernel.v
Sched.v
SchedProps.v
Timer.v
TimerProps.v
Thread.v
Syscall.v
Exception.v
ThreadProps.v
FaultProps.v
SignalProps.v
ForkProps.v
ReapProps.v
FdProps.v
Sbi.v
Board.v
BoardProps.v
Main.v
MainProps.v
Start.v
StartProps.v
