(* ===== verification/Prelude.v ===== *)
(** * Bare-Metal-OS: a verification library (root file)

    A model of the RISC-V kernel under [src/src/] and [src/lib/], and of the
    boot loader under [src/bootloader/], with the theorems that make
    its parts correct.

    ** How the code is rendered

    A C integer of width [w] is a [Z]; an operation that can leave the width is
    written with its wrap-around: [⊞ ⊟ ⊠ ⋘] are [unsigned long] arithmetic,
    [u32], [i32], [u64] the conversions.  State is a [Record] passed along; a
    function of the C code is a [Definition] or [Fixpoint] on it of the same
    name.  The result is an [option]: [None] is behaviour that has no outcome
    (an access outside of an object, a NULL pointer followed, a buffer overrun,
    or fuel run out), so a theorem that a function answers [Some] also says that
    it stays inside its objects and that its loops end.  Error returns of the
    code ([-1], NULL) are values.

    ** The parts

    Memory.  [Align] is [lib/align.c] and [lib/endian.c]; [IList] is
    [lib/list.h], circular lists over a store of links; [Buddy] is
    [lib/buddy.c] ([buddy] holds the globals [G_*], [frame_array] and the free
    lists), [BuddySpec] the abstract pool of blocks it refines, [BuddyProofs],
    [BuddyInit] and [BuddyProps] the proofs; [Allocator] is [src/allocator.c]
    (reservation, the bump search, chunk pools, [allocate], [free] and the page
    reference counts), [AllocSizes], [AllocProofs], [AllocFree], [AllocHeap] and
    [AllocProps] its proofs.  [Heap] is what the rest of the kernel is told of
    it: the class [HeapOps] of the four operations called, the class [HeapSpec]
    of the contract (the live objects, their sizes and reference counts, never
    overlapping), and the contents of the pages as words by address; [HeapInst]
    proves that the allocator keeps the contract, so that all theorems below
    hold of the real allocator as well as of any other that keeps it.

    Address spaces.  [Mmu] is [src/mmu.c]; [MmuProofs] defines the hardware's
    Sv39 walk [sv39] and the invariant [pt_ok] of a tree of tables; [MmuProps]
    relates the two; [PgdProps] and [PgdCopy] are the release and the
    copy-on-write copy of a whole address space.  [Vma] and [VmaProps] are the memory areas of
    [src/syscall.c].

    Libraries.  [CString] is [lib/string.c]; [Stdio] and [StdioProps] are
    [lib/stdio.c]; [Cpio] and [CpioProps] are [lib/cpio.c]; [Fdt] and
    [FdtProps] are [lib/fdt.c].

    Files.  [VfsData] holds the vnodes, mounts and open files (a store by
    address, since they are shared), [Tmpfs], [Ramfs] and [Vfs] are
    [src/tmpfs.c], [src/ramfs.c], [src/vfs.c] and [src/devfs.c]; [LookupSpec] says
    in relations of its own what a path names, and [VfsProps] that [vfs_lookup]
    finds that.

    The kernel proper.  [Kernel] is the state: the heap and memory, the file
    system, the threads by address, the run queue as the [t_next] pointers of
    the threads, [tp], [satp], the timer list, the task queue, the clock.
    [Sched] is [schedule] of [src/thread.c], [Timer] is [src/timer.c] and
    [src/task.c], [Thread] the rest of [src/thread.c], [Syscall] the system
    calls and their dispatch, [Exception] is [src/exception.c]: page faults,
    signals, [do_trap] and [exec].  Where the code switches to another thread
    the definition answers that it did, and what is left to do when the thread
    runs again is a definition of its own ([finish_syscall], [resume_trap]).
    Proofs: [SchedProps], [TimerProps], [ThreadProps], [FaultProps],
    [SignalProps], [ForkProps], [ReapProps] for [kill_zombies], and [FdProps] for
    the descriptors of the threads and the files they name.

    Devices.  [Uart] and [UartProps] are [src/uart.c], [Plic] is [src/plic.c],
    [Video] and [VideoProps] are [src/video.c], [Sbi] is [lib/sbi.c].  [Board] puts
    the serial port, the interrupt controller and the screen together and makes
    them what the system calls, the device files and [do_trap] reach: it is the
    instance of the classes [DevIO], [Display] and [ExternalInterrupts]
    ([BoardProps]).

    The program.  [Main] and [MainProps] are the shell of [main.c] with its
    commands, over the kernel and the board; [Start] and [StartProps] are
    [start_kernel], which runs the initialisations of the parts above in order.

    The boot loader.  [BootLib] is its copy of the libraries ([bootloader/lib/]:
    strings, [printf], the ram disk), [BootFdt] its device tree parser, each with
    the proof that it does what the kernel's does or of what it does otherwise;
    [Bootloader] is its shell, the reception of the kernel image and the jump to
    it ([bootloader/main.c], [bootloader/src/uart.c]).

    ** What the theorems show

    - Allocation: [buddy_alloc_pages] and [buddy_free_pages] refine the abstract
      pool; [allocate] adds a fresh object, [free] removes exactly the one it is
      given, rejects everything else, and live objects never overlap; the boot
      code leaves the allocator ready.
    - Address spaces: [map_pages_at] makes the hardware translate as asked and
      changes no other translation; the kernel's own tables are exactly the
      linear map of its ranges, never writable and executable at once; copy-on-write
      faults copy a shared page and leave it alone, demand faults map a fresh page
      with the bytes of the file, illegal accesses end the thread.
    - Running out of memory: wherever a theorem allows that something was not
      made (a table, a thread, a timer, a task), it says that the allocator
      answered 0 to the request for it at that point ([no_page] of [MmuProofs] for
      the pages of tables, [fires] of [TimerProps] for the tasks of timers).
    - Threads: [schedule] is round robin, with a single running thread and a
      well-formed queue; waiting is bounded; exit wakes the parent and [waitpid]
      waits; timers are kept sorted and fire when they are due, each queueing its
      task and freeing its node ([fires]); tasks run one after the other in the
      order of their priorities, each at its own priority, with its effect and its
      node freed ([tasks_ran]), and the queue empties; sleepers wake.
    - Processes: [sys_fork] makes a copy of its parent or loses nothing, with the
      pages shared copy-on-write and counted; a signal enters its handler and
      [sys_sigreturn] undoes that; [kill_zombies] takes dead threads out of the
      queue and gives back all they held.
    - Descriptors: each names an open file, which counts exactly the descriptors
      that name it; opening, closing, inheriting and the end of a thread keep that.
    - Files and data: path lookup finds what the path names ([resolves] of
      [LookupSpec]); what is written to a file is read back; a format prints what it
      says ([prints] of [StdioProps]: numerals of numbers, strings, characters);
      archives, device trees and the serial protocol of the boot loader round
      trip; the walks over a device tree of any bytes end ([ends] of [FdtProps]); the
      device tree parser implements the class [BootInfo] that the allocator is proved against.
    - Devices: the rings refine bounded queues; a text of any length leaves the
      console in order; a read of [/dev/uart] answers what was received; an
      external interrupt is claimed, served and completed; an image is drawn in
      the centre of the screen and nowhere else.
    - The boot loader: its parser finds the ram disk and the serial port where
      the kernel finds them when addresses are two cells, and the image that the
      host sends is what it jumps to.
    - The program: the shell reads commands as they are spelled, [exec] makes a
      thread that enters the program, [setTimeout] says its message and leaves
      nothing behind; the threads made at the boot end up in the shell.

    ** Parameters

    [HeapOps]/[HeapSpec] (discharged by [HeapInst]), [BootInfo] (the device tree
    and linker symbols, discharged by [FdtProps.tree_boot]), [Device] and
    [DeviceLaws] (the UART's registers), [DevIO] and [Display] (what lies behind
    [/dev] and the display), [Clock] (the successive readings of the time
    counter), [KernelText] (addresses of assembly entry points), [UserMem]
    (loads and stores through user addresses), [Initrd] (where the ram disk is
    and its bytes), [Trampoline] (the bytes of the signal stub),
    [ExternalInterrupts] (discharged by [Board]), [PlicDevice] and [PlicLaws] (the
    registers of the interrupt controller), [FwCfg] and its laws (the DMA of
    QEMU's configuration device), [Platform] (which build it is), [Frames] (where
    the compiler puts locals whose address is taken), [Surroundings] (what
    happens to the devices while the processor waits or other threads run),
    [Firmware] (the SBI), [Console], [MainText], [OtherThreads], [Linker] and [Blob]
    (addresses and callers around the shell).  Witnesses instantiate them.

    ** Fuel

    Loops over lists are bounded by a number that is proved enough: the number
    of threads for walks of the run queue, of reserved regions plus one for the
    bump search, of areas for the search of a free region, of pages for
    mappings, the length of a buffer for loops over it (the walks of the device
    tree come to an answer or to a read that has no outcome before theirs is used
    up, which [FdtProps] proves against one turn of each walk), 64 digits for
    64-bit numbers.  [run_tasks] runs callbacks that may queue more tasks, so its
    fuel is an argument and the theorem says how much is enough.

    ** Not modelled

    The assembly files are the entry points, the trap frame and the register
    switch.  TLB flushes, and interrupts that arrive while interrupts are enabled
    inside a callback or during the boot, have no effect here. *)

From stdpp Require Export base option list gmap numbers sorting.
From Stdlib Require Export ZArith Lia.

#[global] Open Scope Z_scope.

(** ** Machine integers

    A C integer of width [w] is a [Z]; every operation that can leave the
    width is written with its wrap-around. *)

Definition u64 (z : Z) : Z := z mod 2 ^ 64.
Definition u32 (z : Z) : Z := z mod 2 ^ 32.
Definition i32 (z : Z) : Z := (z + 2 ^ 31) mod 2 ^ 32 - 2 ^ 31.

Declare Scope c_scope.
Delimit Scope c_scope with c.
Notation "a ⊞ b" := (u64 (a + b)) (at level 50, left associativity) : c_scope.
Notation "a ⊟ b" := (u64 (a - b)) (at level 50, left associativity) : c_scope.
Notation "a ⊠ b" := (u64 (a * b)) (at level 40, left associativity) : c_scope.
Notation "a ⋘ n" := (u64 (Z.shiftl a n)) (at level 45, left associativity) : c_scope.
Notation "a ⋙ n" := (Z.shiftr a n) (at level 45, left associativity) : c_scope.
#[global] Open Scope c_scope.

Lemma u64_small z : 0 <= z < 2 ^ 64 -> u64 z = z.
Proof. apply Z.mod_small. Qed.

Lemma u32_small z : 0 <= z < 2 ^ 32 -> u32 z = z.
Proof. apply Z.mod_small. Qed.

Lemma i32_small z : - 2 ^ 31 <= z < 2 ^ 31 -> i32 z = z.
Proof. intros. unfold i32. rewrite Z.mod_small by lia. lia. Qed.

Lemma u64_range z : 0 <= u64 z < 2 ^ 64.
Proof. apply Z.mod_pos_bound. lia. Qed.

Lemma u32_range z : 0 <= u32 z < 2 ^ 32.
Proof. apply Z.mod_pos_bound. lia. Qed.

Lemma i32_range z : - 2 ^ 31 <= i32 z < 2 ^ 31.
Proof. unfold i32. pose proof (Z.mod_pos_bound (z + 2 ^ 31) (2 ^ 32)). lia. Qed.

Create HintDb c_arith.
Create Rewrite HintDb c_arith.
#[export] Hint Rewrite u64_small u32_small i32_small using lia : c_arith.
#[export] Hint Resolve u64_range u32_range i32_range : c_arith.

(** ** Powers of two and bit masks *)

Lemma shiftl_1 n : 0 <= n -> Z.shiftl 1 n = 2 ^ n.
Proof. intros. rewrite Z.shiftl_mul_pow2 by done. lia. Qed.

Lemma pow2_pos n : 0 <= n -> 1 <= 2 ^ n.
Proof. intros. pose proof (Z.pow_pos_nonneg 2 n). lia. Qed.

Lemma pow2_mono m n : 0 <= m <= n -> 2 ^ m <= 2 ^ n.
Proof. intros. apply Z.pow_le_mono_r; lia. Qed.

Lemma pow2_succ n : 0 <= n -> 2 ^ (n + 1) = 2 * 2 ^ n.
Proof. intros. rewrite Z.pow_add_r; lia. Qed.

Lemma pow2_divide m n : 0 <= m <= n -> (2 ^ m | 2 ^ n).
Proof.
  intros. exists (2 ^ (n - m)). rewrite <- Z.pow_add_r by lia. f_equal. lia.
Qed.

Lemma land_mask x n : 0 <= n -> Z.land x (2 ^ n - 1) = x mod 2 ^ n.
Proof.
  intros. replace (2 ^ n - 1) with (Z.ones n) by (rewrite Z.ones_equiv; lia).
  by apply Z.land_ones.
Qed.

Lemma divide_mod x n : 0 <= n -> (2 ^ n | x) <-> x mod 2 ^ n = 0.
Proof.
  intros. pose proof (pow2_pos n). split.
  - intros. apply Z.mod_divide; [lia | done].
  - intros. apply Z.mod_divide; [lia | done].
Qed.

(** A mask [~(2^n - 1)] truncated to 64 bits clears the low [n] bits. *)
Lemma land_lnot_mask x n :
  0 <= x < 2 ^ 64 -> 0 <= n <= 64 ->
  Z.land x (u64 (Z.lnot (2 ^ n - 1))) = x - x mod 2 ^ n.
Proof.
  intros Hx Hn. unfold u64.
  rewrite <- (Z.land_ones _ 64), <- (Z.land_ones x n) by lia.
  replace (2 ^ n - 1) with (Z.ones n) by (rewrite Z.ones_equiv; lia).
  rewrite (Z.land_comm (Z.lnot _)), Z.land_assoc, Z.land_ones by lia.
  rewrite (Z.mod_small x) by lia.
  rewrite <- Z.ldiff_land, Z.ldiff_ones_r, Z.shiftr_div_pow2, Z.shiftl_mul_pow2 by lia.
  rewrite Z.land_ones by lia. pose proof (Z.div_mod x (2 ^ n)). lia.
Qed.

(** The buddy of an aligned index: flipping bit [o] adds or subtracts [2^o]. *)
Lemma lxor_pow2_cases x o :
  0 <= x -> 0 <= o -> (2 ^ o | x) ->
  ((2 ^ (o + 1) | x) /\ Z.lxor x (2 ^ o) = x + 2 ^ o) \/
  ((2 ^ (o + 1) | x - 2 ^ o) /\ 2 ^ o <= x /\ Z.lxor x (2 ^ o) = x - 2 ^ o).
Proof.
  intros Hx Ho [q ->]. pose proof (pow2_pos o Ho) as Hp.
  assert (0 <= q) by nia.
  assert (Hxor : Z.lxor (q * 2 ^ o) (2 ^ o) = Z.lxor q 1 * 2 ^ o).
  { rewrite <- !(Z.shiftl_mul_pow2 _ o) by done.
    rewrite Z.shiftl_lxor. f_equal. rewrite shiftl_1; done. }
  rewrite Hxor, pow2_succ by done.
  destruct (Z.Even_or_Odd q) as [[k ->] | [k ->]].
  - left. split; [exists k; lia |].
    replace (Z.lxor (2 * k) 1) with (2 * k + 1); [lia |].
    symmetry. apply Z.bits_inj'. intros i Hi. rewrite Z.lxor_spec.
    destruct (decide (i = 0)) as [-> |].
    + by rewrite Z.testbit_even_0, Z.testbit_odd_0.
    + replace i with (Z.succ (i - 1)) by lia.
      rewrite Z.testbit_even_succ, Z.testbit_odd_succ by lia.
      rewrite (Z.bits_above_log2 1) by (simpl; lia). by destruct (Z.testbit k _).
  - right. split; [exists k; lia |]. split; [nia |].
    replace (Z.lxor (2 * k + 1) 1) with (2 * k); [lia |].
    symmetry. apply Z.bits_inj'. intros i Hi. rewrite Z.lxor_spec.
    destruct (decide (i = 0)) as [-> |].
    + by rewrite Z.testbit_even_0, Z.testbit_odd_0.
    + replace i with (Z.succ (i - 1)) by lia.
      rewrite Z.testbit_even_succ, Z.testbit_odd_succ by lia.
      rewrite (Z.bits_above_log2 1) by (simpl; lia). by destruct (Z.testbit k _).
Qed.

(** ** Tactics *)

(** Runs an option-valued computation: every bind whose head is known is
    reduced, every test that is decided by the context is taken. *)
Ltac run_option := repeat (progress simpl || case_guard || case_decide || simplify_option_eq).

(** Case analysis on a boolean integer test, with its specification. *)
Ltac zcase :=
  match goal with
  | |- context [?a <? ?b] => destruct (Z.ltb_spec a b)
  | |- context [?a <=? ?b] => destruct (Z.leb_spec a b)
  | |- context [?a =? ?b] => destruct (Z.eqb_spec a b)
  end.

Ltac zcase_in H :=
  match type of H with
  | context [?a <? ?b] => destruct (Z.ltb_spec a b)
  | context [?a <=? ?b] => destruct (Z.leb_spec a b)
  | context [?a =? ?b] => destruct (Z.eqb_spec a b)
  end.

(** Drops the conversions of integers that are in range, innermost first. *)
Ltac unwrap :=
  repeat match goal with
  | |- context [u64 ?x] => rewrite (u64_small x) by lia
  | |- context [u32 ?x] => rewrite (u32_small x) by lia
  | |- context [i32 ?x] => rewrite (i32_small x) by lia
  end.

(** Linear arithmetic with division and remainder by constants. *)
Ltac dlia := Z.to_euclidean_division_equations; lia.

(** ** Options *)

Lemma bind_ext {A B} (f g : A -> option B) m : (forall x, f x = g x) -> m ≫= f = m ≫= g.
Proof. intros E. destruct m as [x |]; [exact (E x) | reflexivity]. Qed.

Lemma bind_some {A B} (x : A) (f : A -> option B) : (Some x ≫= f) = f x.
Proof. reflexivity. Qed.

(** ** Counted loops *)

(** [for (i = i0; i < i0 + n; i++) body], where the body may fail. *)
Fixpoint for_range {S : Type} (n : nat) (i : Z) (body : Z -> S -> option S) (s : S) : option S :=
  match n with O => Some s | Datatypes.S n => s ← body i s; for_range n (i + 1) body s end.

(** The same loop with an early exit: the body answers false to leave it. *)
Fixpoint for_until {S : Type} (n : nat) (i : Z) (body : Z -> S -> option (bool * S)) (s : S) : option (bool * S) :=
  match n with
  | O => Some (true, s)
  | Datatypes.S n =>
      '(ok, s) ← body i s;
      if (ok : bool) then for_until n (i + 1) body s else Some (false, s)
  end.

(** An invariant of the counter and the state carries a loop through, to its end
    or to an early exit. *)
Lemma for_until_inv {S : Type} (P : Z -> S -> Prop) (Q : S -> Prop) n i body (s : S) :
  P i s ->
  (forall j s, i <= j < i + Z.of_nat n -> P j s ->
     exists s', (body j s = Some (true, s') /\ P (j + 1) s') \/ (body j s = Some (false, s') /\ Q s')) ->
  exists s', (for_until n i body s = Some (true, s') /\ P (i + Z.of_nat n) s') \/ (for_until n i body s = Some (false, s') /\ Q s').
Proof.
  revert i s. induction n as [| n IH]; intros i s Hs Hb; simpl.
  - exists s. left. by rewrite Z.add_0_r.
  - destruct (Hb i s) as (s1 & [[-> Hs1] | [-> Hs1]]); [lia | done | |]; simpl.
    + destruct (IH (i + 1) s1 Hs1) as (s2 & Hs2).
      { intros j s' Hj. apply Hb. lia. }
      exists s2. by replace (i + Z.of_nat (Datatypes.S n)) with (i + 1 + Z.of_nat n) by lia.
    + exists s1. by right.
Qed.

(** An invariant of the counter and the state carries a loop through. *)
Lemma for_range_inv {S : Type} (P : Z -> S -> Prop) n i body (s : S) :
  P i s ->
  (forall j s, i <= j < i + Z.of_nat n -> P j s -> exists s', body j s = Some s' /\ P (j + 1) s') ->
  exists s', for_range n i body s = Some s' /\ P (i + Z.of_nat n) s'.
Proof.
  revert i s. induction n as [| n IH]; intros i s Hs Hb; simpl.
  - exists s. by rewrite Z.add_0_r.
  - destruct (Hb i s) as (s1 & -> & Hs1); [lia | done |]. simpl.
    destruct (IH (i + 1) s1 Hs1) as (s2 & -> & Hs2).
    { intros j s' Hj. apply Hb. lia. }
    exists s2. split; [done |]. by replace (i + Z.of_nat (Datatypes.S n)) with (i + 1 + Z.of_nat n) by lia.
Qed.
