(* ===== verification/Align.v ===== *)
(** * Alignment and byte order: [lib/align.c], [lib/endian.c]

    Rounding to a power of two on [unsigned long], [int] and pointers, and the
    byte swaps the device tree parser uses, with their arithmetic meaning. *)

From S2P Require Import Prelude.

(** ** Definitions *)

Definition align_down_ul (value alignment : Z) : Z :=
  Z.land value (u64 (Z.lnot (alignment ⊟ 1))).

Definition align_up_ul (value alignment : Z) : Z :=
  Z.land (value ⊞ alignment ⊟ 1) (u64 (Z.lnot (alignment ⊟ 1))).

Definition align_up_int (value alignment : Z) : Z :=
  i32 (Z.land (i32 (i32 (value + alignment) - 1)) (Z.lnot (i32 (alignment - 1)))).

Definition align_up_ptr (ptr alignment : Z) : Z :=
  Z.land (ptr ⊞ alignment ⊟ 1) (u64 (Z.lnot (alignment ⊟ 1))).

Definition bswap32 (x : Z) : Z :=
  Z.lor (Z.lor (Z.lor (Z.land x 0xff000000 ⋙ 24)
                      (Z.land x 0x00ff0000 ⋙ 8))
               (u32 (Z.shiftl (Z.land x 0x0000ff00) 8)))
        (u32 (Z.shiftl (Z.land x 0x000000ff) 24)).

Definition bswap64 (x : Z) : Z :=
  Z.lor (bswap32 (u32 (Z.land x 0xFFFFFFFF)) ⋘ 32) (bswap32 (u32 (x ⋙ 32))).

(** ** Rounding *)

(** [n] rounded up to a multiple of [2^k], as arithmetic. *)
Definition round_up (n k : Z) : Z := n + (- n) mod 2 ^ k.

Lemma round_up_spec n k :
  0 <= k -> (2 ^ k | round_up n k) /\ n <= round_up n k < n + 2 ^ k.
Proof.
  intros. unfold round_up. pose proof (pow2_pos k).
  pose proof (Z.mod_pos_bound (- n) (2 ^ k)). split; [| lia].
  apply divide_mod; [done |].
  rewrite Z.add_mod_idemp_r by lia. rewrite Z.add_opp_diag_r. apply Z.mod_0_l. lia.
Qed.

Lemma round_up_unique n k m :
  0 <= k -> (2 ^ k | m) -> n <= m < n + 2 ^ k -> round_up n k = m.
Proof.
  intros ? [q ->] ?. destruct (round_up_spec n k) as [[r Hr] ?]; [done |].
  rewrite Hr in *. pose proof (pow2_pos k). assert (r = q) by nia. congruence.
Qed.

Lemma round_up_id n k : 0 <= k -> (2 ^ k | n) -> round_up n k = n.
Proof. intros. pose proof (pow2_pos k). apply round_up_unique; [done | done | lia]. Qed.

Lemma round_up_mask n k : 0 <= k ->
  (n + 2 ^ k - 1) - (n + 2 ^ k - 1) mod 2 ^ k = round_up n k.
Proof.
  intros. pose proof (pow2_pos k). symmetry. apply round_up_unique; [done | |].
  - exists ((n + 2 ^ k - 1) / 2 ^ k). pose proof (Z.div_mod (n + 2 ^ k - 1) (2 ^ k)). lia.
  - pose proof (Z.mod_pos_bound (n + 2 ^ k - 1) (2 ^ k)). lia.
Qed.

Lemma pow2_sub1_u64 k : 0 <= k < 64 -> u64 (2 ^ k - 1) = 2 ^ k - 1.
Proof.
  intros. pose proof (pow2_pos k). pose proof (pow2_mono k 63). apply u64_small. lia.
Qed.

Lemma align_down_arith v k :
  0 <= v < 2 ^ 64 -> 0 <= k < 64 -> align_down_ul v (2 ^ k) = v - v mod 2 ^ k.
Proof.
  intros. unfold align_down_ul. rewrite pow2_sub1_u64 by done.
  apply land_lnot_mask; lia.
Qed.

Lemma align_up_arith v k :
  0 <= v -> 0 <= k < 64 -> v + 2 ^ k <= 2 ^ 64 ->
  align_up_ul v (2 ^ k) = round_up v k.
Proof.
  intros. pose proof (pow2_pos k). unfold align_up_ul.
  rewrite pow2_sub1_u64 by done.
  replace (v ⊞ 2 ^ k ⊟ 1) with (v + 2 ^ k - 1).
  - rewrite land_lnot_mask by lia. apply round_up_mask. lia.
  - unfold u64. rewrite Zminus_mod_idemp_l, Z.mod_small; lia.
Qed.

Lemma align_up_int_arith v k :
  0 <= v -> 0 <= k < 31 -> v + 2 ^ k <= 2 ^ 31 ->
  align_up_int v (2 ^ k) = i32 (round_up v k).
Proof.
  intros. pose proof (pow2_pos k). pose proof (pow2_mono k 30). unfold align_up_int.
  replace (i32 (i32 (v + 2 ^ k) - 1)) with (v + 2 ^ k - 1).
  2: { destruct (decide (v + 2 ^ k = 2 ^ 31)) as [Hw | ];
       [by rewrite Hw |]. rewrite (i32_small (v + 2 ^ k)), i32_small by lia. done. }
  rewrite (i32_small (2 ^ k - 1)) by lia. f_equal.
  replace (2 ^ k - 1) with (Z.ones k) by (rewrite Z.ones_equiv; lia).
  rewrite <- Z.ldiff_land, Z.ldiff_ones_r, Z.shiftr_div_pow2, Z.shiftl_mul_pow2 by lia.
  rewrite <- round_up_mask by lia. pose proof (Z.div_mod (v + 2 ^ k - 1) (2 ^ k)). lia.
Qed.

(** ** Byte order *)

Lemma land_byte x k : 0 <= k ->
  Z.land x (255 * 2 ^ k) = ((x / 2 ^ k) mod 256) * 2 ^ k.
Proof.
  intros. rewrite <- !Z.shiftl_mul_pow2, <- Z.shiftr_div_pow2 by done.
  change 256 with (2 ^ 8). rewrite <- Z.land_ones by lia. change 255 with (Z.ones 8).
  apply Z.bits_inj'. intros i Hi. rewrite Z.land_spec.
  destruct (Z.ltb_spec i k).
  - rewrite !(Z.shiftl_spec_low _ _ i) by lia. apply andb_false_r.
  - rewrite !Z.shiftl_spec_high, Z.land_spec, Z.shiftr_spec by lia.
    by replace (i - k + k) with i by lia.
Qed.

Lemma lor_add_disjoint a b k :
  0 <= k -> 0 <= b < 2 ^ k -> Z.lor (a * 2 ^ k) b = a * 2 ^ k + b.
Proof.
  intros. rewrite Z.add_nocarry_lxor, Z.lxor_lor; [done | |].
  all: apply Z.bits_inj'; intros i Hi; rewrite Z.land_spec, Z.bits_0.
  all: rewrite <- Z.shiftl_mul_pow2 by done; destruct (Z.ltb_spec i k).
  1,3: by rewrite Z.shiftl_spec_low by lia.
  all: rewrite andb_comm, <- (Z.mod_small b (2 ^ k)), Z.mod_pow2_bits_high by lia; done.
Qed.

(** The bytes of a 32-bit value, least significant first. *)
Definition le32 (b0 b1 b2 b3 : Z) : Z := b0 + b1 * 2 ^ 8 + b2 * 2 ^ 16 + b3 * 2 ^ 24.

Definition byte (b : Z) : Prop := 0 <= b < 256.

Lemma le32_range b0 b1 b2 b3 :
  byte b0 -> byte b1 -> byte b2 -> byte b3 -> 0 <= le32 b0 b1 b2 b3 < 2 ^ 32.
Proof. unfold byte, le32. lia. Qed.

(** The byte at bit [k] of a value written as low part, byte, high part. *)
Lemma digit x lo b hi k :
  0 <= k -> 0 <= lo < 2 ^ k -> byte b -> x = lo + b * 2 ^ k + hi * 2 ^ k * 256 ->
  x / 2 ^ k mod 256 = b.
Proof.
  unfold byte. intros ? ? ? ->.
  replace ((lo + b * 2 ^ k + hi * 2 ^ k * 256) / 2 ^ k) with (b + hi * 256).
  - rewrite Z.mod_add by lia. apply Z.mod_small. lia.
  - apply Z.div_unique with lo; lia.
Qed.

Lemma bswap32_le32 b0 b1 b2 b3 :
  byte b0 -> byte b1 -> byte b2 -> byte b3 ->
  bswap32 (le32 b0 b1 b2 b3) = le32 b3 b2 b1 b0.
Proof.
  intros. unfold bswap32.
  change 0xff000000 with (255 * 2 ^ 24). change 0x00ff0000 with (255 * 2 ^ 16).
  change 0x0000ff00 with (255 * 2 ^ 8). change 0x000000ff with (255 * 2 ^ 0).
  rewrite !land_byte, !Z.shiftr_div_pow2, !Z.shiftl_mul_pow2 by lia. unfold le32.
  unfold byte in *. rewrite (digit _ (b0 + b1 * 2 ^ 8 + b2 * 2 ^ 16) b3 0 24) by (unfold byte; lia).
  rewrite (digit _ (b0 + b1 * 2 ^ 8) b2 b3 16) by (unfold byte; lia).
  rewrite (digit _ b0 b1 (b2 + b3 * 256) 8) by (unfold byte; lia).
  rewrite (digit _ 0 b0 (b1 + b2 * 256 + b3 * 65536) 0) by (unfold byte; lia).
  rewrite !u32_small by lia.
  rewrite Z.div_mul by lia.
  change (2 ^ 16) with (2 ^ 8 * 2 ^ 8) at 1. rewrite Z.mul_assoc, Z.div_mul by lia.
  rewrite (Z.lor_comm b3), lor_add_disjoint by lia.
  replace (b1 * 2 ^ 8 * 2 ^ 8) with (b1 * 2 ^ 16) by lia.
  rewrite (Z.lor_comm (_ + b3)), lor_add_disjoint by lia.
  replace (b0 * 2 ^ 0 * 2 ^ 24) with (b0 * 2 ^ 24) by lia.
  rewrite (Z.lor_comm (_ + (_ + b3))), lor_add_disjoint by lia. lia.
Qed.

(** Every 32-bit value is the little-endian reading of four bytes. *)
Lemma le32_surj x : 0 <= x < 2 ^ 32 ->
  exists b0 b1 b2 b3, byte b0 /\ byte b1 /\ byte b2 /\ byte b3 /\ x = le32 b0 b1 b2 b3.
Proof.
  intros. exists (x mod 256), (x / 256 mod 256), (x / 256 / 256 mod 256), (x / 256 / 256 / 256).
  unfold byte. split_and!; try (apply Z.mod_pos_bound; lia); [apply Z.div_pos; [| lia] | |].
  - repeat apply Z.div_pos; lia.
  - rewrite !Z.div_div by lia. apply Z.div_lt_upper_bound; lia.
  - unfold le32. pose proof (Z.div_mod x 256). pose proof (Z.div_mod (x / 256) 256).
    pose proof (Z.div_mod (x / 256 / 256) 256). lia.
Qed.

Lemma bswap32_range x : 0 <= x < 2 ^ 32 -> 0 <= bswap32 x < 2 ^ 32.
Proof.
  intros (b0 & b1 & b2 & b3 & ? & ? & ? & ? & ->)%le32_surj.
  rewrite bswap32_le32 by done. by apply le32_range.
Qed.

Lemma bswap32_involutive x : 0 <= x < 2 ^ 32 -> bswap32 (bswap32 x) = x.
Proof.
  intros (b0 & b1 & b2 & b3 & ? & ? & ? & ? & ->)%le32_surj.
  by rewrite !bswap32_le32.
Qed.

Lemma bswap64_split hi lo : 0 <= hi < 2 ^ 32 -> 0 <= lo < 2 ^ 32 ->
  bswap64 (lo + hi * 2 ^ 32) = bswap32 lo * 2 ^ 32 + bswap32 hi.
Proof.
  intros. unfold bswap64.
  change 0xFFFFFFFF with (2 ^ 32 - 1).
  rewrite land_mask, Z.shiftr_div_pow2 by lia.
  rewrite Z.mod_add, Z.mod_small by lia.
  replace ((lo + hi * 2 ^ 32) / 2 ^ 32) with hi by (apply Z.div_unique with lo; lia).
  rewrite !u32_small by lia.
  pose proof (bswap32_range lo). pose proof (bswap32_range hi).
  rewrite Z.shiftl_mul_pow2, u64_small by lia. apply lor_add_disjoint; lia.
Qed.

(** ** Properties *)

(** Rounding up and down bracket the value by multiples of the alignment that
    are less than one alignment away, for every power of two below the word
    size, when the rounded value fits in an [unsigned long]. *)
Theorem align_ul_bounds v k :
  0 <= v -> 0 <= k < 64 -> v + 2 ^ k <= 2 ^ 64 ->
  (2 ^ k | align_down_ul v (2 ^ k)) /\ v - 2 ^ k < align_down_ul v (2 ^ k) <= v /\
  (2 ^ k | align_up_ul v (2 ^ k)) /\ v <= align_up_ul v (2 ^ k) < v + 2 ^ k /\
  align_up_ptr v (2 ^ k) = align_up_ul v (2 ^ k).
Proof.
  intros. pose proof (pow2_pos k). rewrite align_down_arith, align_up_arith by lia.
  pose proof (Z.mod_pos_bound v (2 ^ k)).
  destruct (round_up_spec v k); [lia |].
  split_and!; try lia; try done.
  - exists (v / 2 ^ k). pose proof (Z.div_mod v (2 ^ k)). lia.
  - rewrite <- align_up_arith by done. reflexivity.
Qed.

Lemma align_ul_bounds_witness :
  (0 <= 5000 /\ 5000 + 2 ^ 12 <= 2 ^ 64) /\
  (2 ^ 12 | align_down_ul 5000 (2 ^ 12)) /\ align_up_ul 5000 (2 ^ 12) < 5000 + 2 ^ 12.
Proof.
  split; [lia |].
  destruct (align_ul_bounds 5000 12) as (? & ? & ? & ? & ?); [lia | lia | lia |].
  split; [done | lia].
Defined.

(** [bswap64] reverses the eight bytes: swapping twice is the identity, and the
    swap of a value stored big-endian is the value. *)
Theorem bswap64_involutive x : 0 <= x < 2 ^ 64 -> bswap64 (bswap64 x) = x.
Proof.
  intros. pose proof (Z.div_mod x (2 ^ 32)). pose proof (Z.mod_pos_bound x (2 ^ 32)).
  assert (0 <= x / 2 ^ 32 < 2 ^ 32) by (split; [apply Z.div_pos | apply Z.div_lt_upper_bound]; lia).
  set (lo := x mod 2 ^ 32) in *. set (hi := x / 2 ^ 32) in *.
  replace x with (lo + hi * 2 ^ 32) by lia.
  pose proof (bswap32_range lo). pose proof (bswap32_range hi).
  rewrite bswap64_split, Z.add_comm, bswap64_split by lia.
  rewrite !bswap32_involutive by lia. lia.
Qed.

Lemma bswap64_involutive_witness :
  (0 <= 0x0102030405060708 < 2 ^ 64) /\
  bswap64 0x0102030405060708 = 0x0807060504030201 /\
  bswap64 (bswap64 0x0102030405060708) = 0x0102030405060708.
Proof.
  split; [lia |]. split; [reflexivity |]. apply bswap64_involutive. lia.
Defined.
