(* ===== verification/Config.v ===== *)
(** * Compile-time configuration: [src/config.h], [src/mmu.h]

    The constants of the QEMU build, and the lemmas that turn the macros into
    powers of two. *)

From S2P Require Import Prelude.

Definition PAGE_SHIFT : Z := 12.
Definition PAGE_SIZE : Z := Z.shiftl 1 PAGE_SHIFT.
Definition BUDDY_MAX_ORDER : Z := 10.
Definition MAX_ALLOC_SIZE : Z := 2147483647.
Definition BUDDY_MAX_POOL_SIZE : Z := 2 * 1024 * 1024 * 1024.
Definition BUDDY_TOTAL_PAGES : Z := BUDDY_MAX_POOL_SIZE ⋙ PAGE_SHIFT.
Definition BUDDY_DEFAULT_POOL_START : Z := 0x81000000.
Definition BUDDY_DEFAULT_POOL_SIZE : Z := 16 * 1024 * 1024.

(** Kernel virtual addresses start here; [0 .. PAGE_OFFSET) is user space and
    the identity-mapped physical range. *)
Definition PAGE_OFFSET : Z := 0xffffffc000000000.

Lemma PAGE_SIZE_pow : PAGE_SIZE = 2 ^ PAGE_SHIFT.
Proof. reflexivity. Qed.

Lemma PAGE_SIZE_val : PAGE_SIZE = 4096.
Proof. reflexivity. Qed.

#[export] Hint Rewrite PAGE_SIZE_val : c_arith.
