(* ===== verification/IList.v ===== *)
(** * Intrusive doubly linked circular lists: [lib/list.h]

    The [next] and [prev] fields of every [struct list_head] of a store, the
    pointer updates of [list.h], and the proof that they implement finite
    sequences: [list_add] is cons, [list_add_tail] is snoc, [list_del] removes
    an element, and lists that share no node do not disturb each other. *)

From S2P Require Import Prelude.

(** ** Definitions *)

(** The memory of the list nodes named by [K]: a field that was never written
    has no value, and reading it fails. *)
Record store (K : Type) `{Countable K} := Store { next : gmap K K; prev : gmap K K }.
Arguments Store {K _ _} _ _.
Arguments next {K _ _} _.
Arguments prev {K _ _} _.

Section ListOps.
  Context {K : Type} `{Countable K}.
  Implicit Types (st : store K) (x h n p : K).

Definition empty_store : store K := Store ∅ ∅.

Definition set_next x n st : store K := Store (<[x := n]> (next st)) (prev st).
Definition set_prev x p st : store K := Store (next st) (<[x := p]> (prev st)).

Definition INIT_LIST_HEAD x st : store K := set_prev x x (set_next x x st).

Definition __list_add new p n st : store K :=
  set_next p new (set_prev new p (set_next new n (set_prev n new st))).

Definition list_add new h st : option (store K) :=
  n ← next st !! h; Some (__list_add new h n st).

Definition list_add_tail new h st : option (store K) :=
  p ← prev st !! h; Some (__list_add new p h st).

Definition __list_del p n st : store K := set_next p n (set_prev n p st).

Definition list_del x st : option (store K) :=
  p ← prev st !! x; n ← next st !! x;
  let st := __list_del p n st in
  Some (set_prev x x (set_next x x st)).

Definition list_empty h st : option bool :=
  n ← next st !! h; Some (bool_decide (n = h)).

(** [list_for_each]: the nodes from [pos] up to the head, in order.  The fuel
    bounds the number of nodes visited. *)
Fixpoint list_for_each (fuel : nat) (pos h : K) st : option (list K) :=
  if decide (pos = h) then Some []
  else match fuel with
       | O => None
       | S fuel => n ← next st !! pos; xs ← list_for_each fuel n h st; Some (pos :: xs)
       end.

(** ** Representation of a sequence *)

(** [p], then the nodes [xs], then [q], linked in both directions. *)
Fixpoint chain st p (xs : list K) q : Prop :=
  match xs with
  | [] => next st !! p = Some q /\ prev st !! q = Some p
  | x :: xs => next st !! p = Some x /\ prev st !! x = Some p /\ chain st x xs q
  end.

Definition is_list st h (xs : list K) : Prop := NoDup (h :: xs) /\ chain st h xs h.

(** [st'] agrees with [st] on every node not in [dom]. *)
Definition same_outside (dom : list K) st st' : Prop :=
  forall x, x ∉ dom -> next st' !! x = next st !! x /\ prev st' !! x = prev st !! x.

(** ** Lemmas *)

Lemma same_outside_refl D st : same_outside D st st.
Proof. done. Qed.

Lemma same_outside_trans D1 D2 st1 st2 st3 :
  same_outside D1 st1 st2 -> same_outside D2 st2 st3 -> same_outside (D1 ++ D2) st1 st3.
Proof. intros H1 H2 x Hx. destruct (H1 x), (H2 x); set_solver by congruence. Qed.

Lemma same_outside_mono D1 D2 st st' :
  D1 ⊆ D2 -> same_outside D1 st st' -> same_outside D2 st st'.
Proof. intros Hs H1 x Hx. apply H1. set_solver. Qed.

Lemma chain_app st p xs y ys q :
  chain st p (xs ++ y :: ys) q <-> chain st p xs y /\ chain st y ys q.
Proof. revert p. induction xs as [| x xs IH]; intros p; simpl; [naive_solver |]. rewrite IH. naive_solver. Qed.

(** A chain reads [next] on [p :: xs] and [prev] on [xs ++ [q]] only. *)
Lemma chain_frame st st' p xs q :
  (forall x, x ∈ p :: xs -> next st' !! x = next st !! x) ->
  (forall x, x ∈ xs ++ [q] -> prev st' !! x = prev st !! x) ->
  chain st p xs q -> chain st' p xs q.
Proof.
  revert p. induction xs as [| x xs IH]; intros p Hn Hp; simpl.
  - intros [??]. rewrite Hn, Hp by set_solver. done.
  - intros (? & ? & ?). rewrite Hn, Hp by set_solver. split_and!; [done | done |].
    apply IH; [| | done]; intros; [apply Hn | apply Hp]; set_solver.
Qed.

Lemma is_list_frame D st st' h xs :
  same_outside D st st' -> (forall x, x ∈ h :: xs -> x ∉ D) -> is_list st h xs -> is_list st' h xs.
Proof.
  intros Hs HD [? Hc]. split; [done |].
  eapply chain_frame; [| | exact Hc]; intros x Hx; apply Hs, HD; set_solver.
Qed.

Lemma is_list_nodup st h xs : is_list st h xs -> NoDup xs /\ h ∉ xs.
Proof. intros [[??]%NoDup_cons _]. done. Qed.

Lemma INIT_LIST_HEAD_spec st h : is_list (INIT_LIST_HEAD h st) h [].
Proof. split; [apply NoDup_singleton |]. simpl. by rewrite !lookup_insert_eq. Qed.

Lemma INIT_LIST_HEAD_outside st h : same_outside [h] st (INIT_LIST_HEAD h st).
Proof. intros x Hx. simpl. rewrite !lookup_insert_ne by set_solver. done. Qed.

Lemma __list_add_outside st new p n :
  same_outside [new; p; n] st (__list_add new p n st).
Proof. intros x Hx. simpl. rewrite !lookup_insert_ne by set_solver. done. Qed.

(** Linking a fresh node between two neighbours of a chain. *)
Lemma __list_add_chain st new p xs q :
  new ∉ p :: xs -> new <> q -> NoDup (p :: xs) ->
  (forall x, x ∈ xs -> x <> q) ->
  chain st p xs q -> chain (__list_add new p (default q (head xs)) st) p (new :: xs) q.
Proof.
  intros Hnew Hq [Hp Hxs]%NoDup_cons Hxq Hc. destruct xs as [| x xs]; simpl in *.
  - rewrite !lookup_insert_eq. rewrite (lookup_insert_ne _ p new) by set_solver.
    rewrite (lookup_insert_ne _ new q) by done. rewrite !lookup_insert_eq. done.
  - destruct Hc as (_ & _ & Hc). rewrite !lookup_insert_eq.
    rewrite (lookup_insert_ne _ p new) by set_solver.
    rewrite (lookup_insert_ne _ new x) by set_solver. rewrite !lookup_insert_eq.
    split_and!; try done.
    eapply chain_frame; [| | exact Hc]; intros y Hy; simpl;
      rewrite !lookup_insert_ne; try done; try set_solver.
    all: apply NoDup_cons in Hxs as [??].
    all: apply elem_of_app in Hy as [? | ->%list_elem_of_singleton]; set_solver.
Qed.

(** The link before the suffix [ys] of a chain. *)
Lemma chain_mid st p xs ys q :
  chain st p (xs ++ ys) q ->
  next st !! (default p (last xs)) = Some (default q (head ys)) /\
  prev st !! (default q (head ys)) = Some (default p (last xs)).
Proof.
  revert p. induction xs as [| x xs IH]; intros p; simpl.
  - destruct ys; simpl; [done |]. intros (? & ? & ?). done.
  - intros (? & ? & Hc). apply IH in Hc. destruct xs; simpl in *; [done |].
    by destruct (last (_ :: _)) eqn:E; [| apply last_None in E].
Qed.

(** The neighbours chosen by an insertion or a deletion are nodes of the list. *)
Lemma last_or_head h (xs : list K) : default h (last xs) ∈ h :: xs.
Proof.
  destruct (last xs) eqn:E; simpl; [| set_solver]. apply last_Some in E as [? ->]. set_solver.
Qed.

Lemma head_or_head h (ys : list K) : default h (head ys) ∈ h :: ys.
Proof. destruct ys; set_solver. Qed.

(** Inserting a fresh node anywhere in a circular list. *)
Lemma __list_add_spec st h xs new ys :
  is_list st h (xs ++ ys) -> new ∉ h :: xs ++ ys ->
  is_list (__list_add new (default h (last xs)) (default h (head ys)) st) h (xs ++ new :: ys).
Proof.
  intros [Hnd Hc] Hnew. split.
  { rewrite <- Permutation_middle, Permutation_swap. apply NoDup_cons. set_solver. }
  destruct xs as [| x xs _] using rev_ind; simpl in *.
  { apply __list_add_chain; try set_solver. intros y Hy ->. apply NoDup_cons in Hnd as [??]. done. }
  rewrite last_snoc, <- !app_assoc in *. simpl in *.
  apply chain_app in Hc as [Hc1 Hc2].
  assert (Hh : h ∉ xs /\ h ∉ x :: ys /\ NoDup (x :: ys) /\ (forall y, y ∈ xs -> y ∉ x :: ys)).
  { apply NoDup_cons in Hnd as [Hh (? & ? & ?)%NoDup_app]. set_solver. }
  destruct Hh as (? & ? & Hys & Hsep).
  apply chain_app. split; [| apply __list_add_chain; try done; set_solver].
  pose proof (head_or_head h ys) as Hn. apply NoDup_cons in Hys as [Hx _].
  generalize dependent (default h (head ys)). intros n Hn.
  eapply chain_frame; [| | exact Hc1]; intros y Hy; simpl.
  - rewrite !lookup_insert_ne; [done | set_solver..].
  - rewrite !lookup_insert_ne; [done | ..]; [set_solver | intros <-].
    apply elem_of_app in Hy as [Hy | Hy%list_elem_of_singleton]; [specialize (Hsep _ Hy) |]; set_solver.
Qed.

(** [list_add] prepends. *)
Lemma list_add_spec st h xs new :
  is_list st h xs -> new ∉ h :: xs ->
  exists st', list_add new h st = Some st' /\ is_list st' h (new :: xs) /\
    same_outside (new :: h :: xs) st st'.
Proof.
  intros Hl Hnew. destruct (chain_mid st h [] xs h (proj2 Hl)) as [Hn _]. simpl in Hn.
  unfold list_add. rewrite Hn. simpl. eexists. split; [done |]. split.
  - by apply (__list_add_spec st h [] new xs).
  - eapply same_outside_mono; [| apply __list_add_outside]. pose proof (head_or_head h xs). set_solver.
Qed.

(** [list_add_tail] inserts before any node of the list, the head included. *)
Lemma list_add_tail_spec st h xs new ys :
  is_list st h (xs ++ ys) -> new ∉ h :: xs ++ ys ->
  exists st', list_add_tail new (default h (head ys)) st = Some st' /\
    is_list st' h (xs ++ new :: ys) /\ same_outside (new :: h :: xs ++ ys) st st'.
Proof.
  intros Hl Hnew. destruct (chain_mid st h xs ys h (proj2 Hl)) as [_ Hp].
  unfold list_add_tail. rewrite Hp. simpl. eexists. split; [done |]. split.
  - by apply __list_add_spec.
  - eapply same_outside_mono; [| apply __list_add_outside].
    pose proof (last_or_head h xs). pose proof (head_or_head h ys). set_solver.
Qed.

(** Relinking the suffix after a removed node [x] to the node [p] before it. *)
Lemma chain_unlink st st' p x ys q :
  NoDup ys -> q ∉ ys -> p ∉ ys -> x ∉ ys -> x <> q -> p <> x ->
  (forall y, y ∈ ys -> next st' !! y = next st !! y) ->
  (forall y, y ∈ tail (ys ++ [q]) -> prev st' !! y = prev st !! y) ->
  next st' !! p = Some (default q (head ys)) -> prev st' !! (default q (head ys)) = Some p ->
  chain st x ys q -> chain st' p ys q.
Proof.
  intros Hnd Hq Hp Hx Hxq Hpx Hn Hpr Hnp Hpn Hc. destruct ys as [| y ys]; simpl in *; [done |].
  destruct Hc as (_ & _ & Hc). split_and!; [done | done |].
  eapply chain_frame; [| | exact Hc]; auto.
Qed.

Lemma tail_not_head (q y : K) (ys : list K) :
  NoDup ys -> q ∉ ys -> y ∈ tail (ys ++ [q]) -> y <> default q (head ys) /\ y ∈ q :: ys.
Proof.
  intros Hnd Hq Hy. destruct ys as [| z ys]; simpl in *; [set_solver |].
  apply NoDup_cons in Hnd as [? _]. split; [intros -> | ]; set_solver.
Qed.

(** What [list_del] writes. *)
Lemma list_del_lookup st x p n :
  p <> x -> n <> x ->
  let st' := set_prev x x (set_next x x (__list_del p n st)) in
  next st' !! p = Some n /\ prev st' !! n = Some p /\
  next st' !! x = Some x /\ prev st' !! x = Some x /\
  (forall y, y <> p -> y <> x -> next st' !! y = next st !! y) /\
  (forall y, y <> n -> y <> x -> prev st' !! y = prev st !! y).
Proof.
  intros ???. subst st'. simpl. rewrite !lookup_insert_eq.
  rewrite (lookup_insert_ne _ x p), (lookup_insert_ne _ x n), !lookup_insert_eq by done.
  split_and!; try done; intros; by rewrite !lookup_insert_ne.
Qed.

(** Removing [x] from a chain, given the two links that bridge it. *)
Lemma chain_del st st' p xs x ys q n :
  NoDup (p :: xs ++ x :: ys) -> q ∉ xs ++ x :: ys -> n = default q (head ys) ->
  next st' !! (default p (last xs)) = Some n -> prev st' !! n = Some (default p (last xs)) ->
  (forall y, y <> default p (last xs) -> y <> x -> next st' !! y = next st !! y) ->
  (forall y, y <> n -> y <> x -> prev st' !! y = prev st !! y) ->
  chain st p (xs ++ x :: ys) q -> chain st' p (xs ++ ys) q.
Proof.
  revert p. induction xs as [| z xs IH]; intros p Hnd Hq Hn Hnp Hpn Hfn Hfp Hc; simpl in *.
  - destruct Hc as (_ & _ & Hc). apply NoDup_cons in Hnd as [Hp [Hx Hys]%NoDup_cons].
    rewrite Hn in Hpn, Hnp.
    eapply (chain_unlink st); [.. | exact Hc]; try done; try (clear -Hp Hq Hx; set_solver).
    + intros y Hy. apply Hfn; intros ->; clear -Hp Hx Hy; set_solver.
    + intros y Hy. apply tail_not_head in Hy as [? Hy]; [| done | clear -Hq; set_solver].
      apply Hfp; [by rewrite Hn | intros ->; clear -Hq Hx Hy; set_solver].
  - destruct Hc as (Hnx & Hpx & Hc). apply NoDup_cons in Hnd as [Hp Hnd].
    assert (Hl : default p (last (z :: xs)) = default z (last xs))
      by (destruct xs; [done |]; simpl; by destruct (last (_ :: _)) eqn:E; [| apply last_None in E]).
    pose proof (last_or_head z xs) as Hl'. pose proof (head_or_head q ys) as Hn'. rewrite <- Hn in Hn'.
    change (match xs with [] => Some z | _ :: _ => last xs end) with (last (z :: xs)) in *.
    rewrite Hl in *. split_and!.
    + rewrite Hfn; [done | intros -> | intros ->]; clear -Hp Hl'; set_solver.
    + apply NoDup_cons in Hnd as [Hz _].
      rewrite Hfp; [done | intros -> | intros ->]; clear -Hz Hq Hn'; set_solver.
    + apply IH; try done. clear -Hq; set_solver.
Qed.

(** [list_del] removes a node and leaves it a list of its own. *)
Lemma list_del_spec st h xs x ys :
  is_list st h (xs ++ x :: ys) ->
  exists st', list_del x st = Some st' /\ is_list st' h (xs ++ ys) /\
    is_list st' x [] /\ same_outside (h :: xs ++ x :: ys) st st'.
Proof.
  intros [Hnd Hc].
  destruct (chain_mid st h xs (x :: ys) h Hc) as [_ Hp].
  destruct (chain_mid st h (xs ++ [x]) ys h) as [Hn _]; [by rewrite <- app_assoc |].
  rewrite last_snoc in Hn. simpl in Hp, Hn.
  unfold list_del. rewrite Hp, Hn. cbn [mbind option_bind]. eexists. split; [done |].
  pose proof (last_or_head h xs) as Hp'. pose proof (head_or_head h ys) as Hn'.
  pose proof Hnd as Hnd'. apply NoDup_cons in Hnd' as [Hh Hnd'].
  apply NoDup_app in Hnd' as (Hxs & Hsep & [Hx Hys]%NoDup_cons).
  assert (Hpx : default h (last xs) <> x) by (intros E; rewrite E in Hp'; clear -Hp' Hh Hsep; set_solver).
  assert (Hnx : default h (head ys) <> x) by (intros E; rewrite E in Hn'; clear -Hn' Hh Hx; set_solver).
  pose proof (list_del_lookup st x _ _ Hpx Hnx) as Hl.
  generalize dependent (set_prev x x (set_next x x (__list_del (default h (last xs)) (default h (head ys)) st))).
  intros st' (Hnp & Hpn & Hnx' & Hpx' & Hfn & Hfp). split_and!.
  - split; [| by eapply chain_del].
    apply NoDup_cons; split; [clear -Hh; set_solver |].
    apply NoDup_app. split_and!; [done | clear -Hsep; set_solver | done].
  - split; [apply NoDup_singleton | done].
  - intros y Hy. split; [apply Hfn | apply Hfp]; intros ->; clear -Hy Hp' Hn'; set_solver.
Qed.

(** ** Observers *)

Lemma list_empty_spec st h xs :
  is_list st h xs -> list_empty h st = Some (bool_decide (xs = [])).
Proof.
  intros [Hnd Hc]. destruct (chain_mid st h [] xs h Hc) as [Hn _]. simpl in Hn.
  unfold list_empty. rewrite Hn. simpl. f_equal. apply bool_decide_ext.
  destruct xs; simpl; [done |]. apply NoDup_cons in Hnd as [Hh _]. set_solver.
Qed.

Lemma list_first_spec st h x xs : is_list st h (x :: xs) -> next st !! h = Some x.
Proof. intros [_ (? & _)]. done. Qed.

Lemma list_for_each_chain st p xs h n fuel :
  h ∉ xs -> chain st p xs h -> next st !! p = Some n -> (length xs <= fuel)%nat ->
  list_for_each fuel n h st = Some xs.
Proof.
  revert p n fuel. induction xs as [| x xs IH]; intros p n fuel Hh Hc Hn Hlen; simpl in *.
  - destruct Hc as [? _]. assert (n = h) as -> by congruence. destruct fuel; simpl; by rewrite decide_True.
  - destruct Hc as (? & _ & Hc). assert (n = x) as -> by congruence.
    destruct fuel as [| fuel]; [lia |]. simpl. rewrite decide_False by set_solver.
    destruct (chain_mid st x [] xs h Hc) as [Hx _]. simpl in Hx. rewrite Hx. simpl.
    rewrite (IH x); [done | set_solver | done | done | lia].
Qed.

(** Walking a list from its head visits exactly its elements, in order, and
    stops: any fuel of at least the length is enough. *)
Lemma list_for_each_spec st h xs fuel n :
  is_list st h xs -> next st !! h = Some n -> (length xs <= fuel)%nat ->
  list_for_each fuel n h st = Some xs.
Proof.
  intros Hl Hn ?. pose proof (is_list_nodup _ _ _ Hl) as [_ ?].
  eapply list_for_each_chain; [done | apply Hl | done | done].
Qed.

End ListOps.

#[export] Hint Resolve list_first_spec INIT_LIST_HEAD_spec : core.

(** ** Properties *)

(** [list.h] implements a sequence: starting from a list that holds [xs], adding
    a node at the front and deleting it again, or adding it at the back, gives
    the sequences [new :: xs], [xs] and [xs ++ [new]], and every list that shares
    no node with it is unchanged. *)
Theorem list_ops_refine_sequence {K} `{Countable K} (st : store K) h k xs ys new :
  is_list st h xs -> is_list st k ys -> new ∉ h :: xs -> (forall x, x ∈ k :: ys -> x ∉ new :: h :: xs) ->
  exists st1 st2 st3,
    list_add new h st = Some st1 /\ is_list st1 h (new :: xs) /\ is_list st1 k ys /\
    list_del new st1 = Some st2 /\ is_list st2 h xs /\ is_list st2 k ys /\
    list_add_tail new h st = Some st3 /\ is_list st3 h (xs ++ [new]) /\ is_list st3 k ys.
Proof.
  intros Hh Hk Hnew Hsep.
  destruct (list_add_spec st h xs new) as (st1 & ? & Hl1 & Ho1); [done.. |].
  assert (Hk1 : is_list st1 k ys) by (eapply is_list_frame; [exact Ho1 | | done]; set_solver).
  destruct (list_del_spec st1 h [] new xs Hl1) as (st2 & ? & Hl2 & _ & Ho2).
  destruct (list_add_tail_spec st h xs new []) as (st3 & ? & Hl3 & Ho3); rewrite ?app_nil_r; [done.. |].
  rewrite app_nil_r in Ho3. exists st1, st2, st3. split_and!; try done.
  - eapply is_list_frame; [exact Ho2 | | done]. set_solver.
  - eapply is_list_frame; [exact Ho3 | | done]. set_solver.
Qed.

Lemma list_ops_refine_sequence_witness :
  exists st1 st2 st3 : store Z,
    list_add 5 1 (INIT_LIST_HEAD 2 (INIT_LIST_HEAD 1 empty_store)) = Some st1 /\
    list_del 5 st1 = Some st2 /\ is_list st2 1 [] /\ is_list st3 1 [5] /\ is_list st3 2 [].
Proof.
  destruct (list_ops_refine_sequence (INIT_LIST_HEAD 2 (INIT_LIST_HEAD 1 empty_store)) 1 2 [] [] 5)
    as (st1 & st2 & st3 & ? & ? & ? & ? & ? & ? & ? & ? & ?).
  - split; [apply NoDup_singleton | done].
  - apply INIT_LIST_HEAD_spec.
  - set_solver.
  - set_solver.
  - exists st1, st2, st3. split_and!; done.
Defined.
