(* ===== verification/Buddy.v ===== *)
(** * The buddy page allocator: [lib/buddy.c], [lib/buddy.h]

    The frame array, the free lists of each order, and the operations of
    [lib/buddy.c].  The abstract state is a tiling of the pool by blocks; the
    properties say that each operation implements a step on tilings. *)

From S2P Require Import Prelude Config Align IList.

(** ** Data *)

Inductive page_state :=
  | PAGE_STATE_FREE_HEAD
  | PAGE_STATE_FREE_TAIL
  | PAGE_STATE_RESERVED
  | PAGE_STATE_ALLOC_PAGE_HEAD
  | PAGE_STATE_ALLOC_PAGE_TAIL
  | PAGE_STATE_ALLOC_CHUNK_POOL.

#[export] Instance page_state_eq_dec : EqDecision page_state.
Proof. solve_decision. Defined.

(** [struct frame]; its [node] field is the node [FrameNode] of the link store. *)
Record frame := Frame {
  order : Z;
  state : page_state;
  meta_pool_idx : Z;
  ref_count : Z;
  cow_ref_count : Z;
}.

#[export] Instance frame_eq_dec : EqDecision frame.
Proof. solve_decision. Defined.

Definition set_order (o : Z) (f : frame) : frame :=
  Frame o (state f) (meta_pool_idx f) (ref_count f) (cow_ref_count f).
Definition set_state (s : page_state) (f : frame) : frame :=
  Frame (order f) s (meta_pool_idx f) (ref_count f) (cow_ref_count f).
Definition set_meta_pool_idx (m : Z) (f : frame) : frame :=
  Frame (order f) (state f) m (ref_count f) (cow_ref_count f).
Definition set_ref_count (r : Z) (f : frame) : frame :=
  Frame (order f) (state f) (meta_pool_idx f) r (cow_ref_count f).
Definition set_cow_ref_count (c : Z) (f : frame) : frame :=
  Frame (order f) (state f) (meta_pool_idx f) (ref_count f) c.

(** The list nodes: [&free_area[o]] and [&frame_array[i].node]. *)
Inductive bnode := FreeArea (o : Z) | FrameNode (i : Z).

#[export] Instance bnode_eq_dec : EqDecision bnode.
Proof. solve_decision. Defined.

#[export] Instance bnode_countable : Countable bnode.
Proof.
  refine (inj_countable' (fun n => match n with FreeArea o => inl o | FrameNode i => inr i end)
                         (fun s => match s with inl o => FreeArea o | inr i => FrameNode i end) _).
  by intros [].
Defined.

(** The globals of [lib/buddy.c]. *)
Record buddy := Buddy {
  frame_array : gmap Z frame;
  links : store bnode;
  G_MEMPOOL_START : Z;
  G_MEMPOOL_SIZE : Z;
  G_MEM_TOTAL_PAGE : Z;
  buddy_ready : bool;
}.

Definition set_frame_array (fa : gmap Z frame) (b : buddy) : buddy :=
  Buddy fa (links b) (G_MEMPOOL_START b) (G_MEMPOOL_SIZE b) (G_MEM_TOTAL_PAGE b) (buddy_ready b).
Definition set_links (l : store bnode) (b : buddy) : buddy :=
  Buddy (frame_array b) l (G_MEMPOOL_START b) (G_MEMPOOL_SIZE b) (G_MEM_TOTAL_PAGE b) (buddy_ready b).
Definition set_ready (r : bool) (b : buddy) : buddy :=
  Buddy (frame_array b) (links b) (G_MEMPOOL_START b) (G_MEMPOOL_SIZE b) (G_MEM_TOTAL_PAGE b) r.
Definition set_region (start size total : Z) (b : buddy) : buddy :=
  Buddy (frame_array b) (links b) start size total (buddy_ready b).

(** ** Operations *)

(** A write to [frame_array[i]]; an index without a frame is out of bounds. *)
Definition upd (i : Z) (g : frame -> frame) (fa : gmap Z frame) : option (gmap Z frame) :=
  f ← fa !! i; Some (<[i := g f]> fa).

Definition upd_frame (i : Z) (g : frame -> frame) (b : buddy) : option buddy :=
  fa ← upd i g (frame_array b); Some (set_frame_array fa b).

Definition page_to_addr (idx : Z) (b : buddy) : Z :=
  G_MEMPOOL_START b ⊞ (idx ⋘ PAGE_SHIFT).

Fixpoint mark_tails (n : nat) (i : Z) (tail_state : page_state) (fa : gmap Z frame) :
    option (gmap Z frame) :=
  match n with
  | O => Some fa
  | S n => fa ← upd i (fun f => set_order (-1) (set_state tail_state f)) fa;
           mark_tails n (i + 1) tail_state fa
  end.

Definition mark_block (idx ord : Z) (head_state tail_state : page_state) (b : buddy) : option buddy :=
  let count := Z.shiftl 1 ord in
  fa ← upd idx (fun f => set_order ord (set_state head_state f)) (frame_array b);
  fa ← mark_tails (Z.to_nat (count - 1)) (idx + 1) tail_state fa;
  Some (set_frame_array fa b).

Definition add_free_block (idx ord : Z) (b : buddy) : option buddy :=
  b ← mark_block idx ord PAGE_STATE_FREE_HEAD PAGE_STATE_FREE_TAIL b;
  l ← list_add (FrameNode idx) (FreeArea ord) (links b);
  Some (set_links l b).

Definition remove_free_block (idx ord : Z) (b : buddy) : option buddy :=
  l ← list_del (FrameNode idx) (links b);
  upd_frame idx (set_state PAGE_STATE_ALLOC_PAGE_HEAD) (set_links l b).

Definition buddy_set_region (start size : Z) (b : buddy) : buddy :=
  let '(pstart, psize) :=
    if size =? 0 then (BUDDY_DEFAULT_POOL_START, BUDDY_DEFAULT_POOL_SIZE)
    else
      let pstart := align_up_ul start PAGE_SIZE in
      let psize := align_down_ul size PAGE_SIZE in
      (pstart, if BUDDY_MAX_POOL_SIZE <? psize then BUDDY_MAX_POOL_SIZE else psize) in
  let '(pstart, psize) :=
    if psize <? PAGE_SIZE then (BUDDY_DEFAULT_POOL_START, BUDDY_DEFAULT_POOL_SIZE)
    else (pstart, psize) in
  let total := psize ⋙ PAGE_SHIFT in
  let total := if BUDDY_TOTAL_PAGES <? total then BUDDY_TOTAL_PAGES else total in
  set_region pstart psize total b.

(** [for (i = page_start; i < page_end; ++i) frame_array[i].state = RESERVED] *)
Fixpoint reserve_pages (n : nat) (i : Z) (b : buddy) : option buddy :=
  match n with
  | O => Some b
  | S n => b ← upd_frame i (set_state PAGE_STATE_RESERVED) b; reserve_pages n (i + 1) b
  end.

Definition buddy_mark_reserved_range (start size : Z) (b : buddy) : option buddy :=
  if (size =? 0) || (G_MEM_TOTAL_PAGE b =? 0) then Some b else
  let region_end := G_MEMPOOL_START b ⊞ G_MEMPOOL_SIZE b in
  let reserve_end := start ⊞ size in
  if (reserve_end <=? G_MEMPOOL_START b) || (region_end <=? start) then Some b else
  let start := if start <? G_MEMPOOL_START b then G_MEMPOOL_START b else start in
  let reserve_end := if region_end <? reserve_end then region_end else reserve_end in
  let page_start := (start ⊟ G_MEMPOOL_START b) ⋙ PAGE_SHIFT in
  let page_end := align_up_ul (reserve_end ⊟ G_MEMPOOL_START b) PAGE_SIZE ⋙ PAGE_SHIFT in
  let page_end := if G_MEM_TOTAL_PAGE b <? page_end then G_MEM_TOTAL_PAGE b else page_end in
  reserve_pages (Z.to_nat (page_end - page_start)) page_start b.

(** [buddy_init]: the first loop, over the frames. *)
Definition init_frame (f : frame) : frame :=
  let f := set_order (-1) f in
  let f := if decide (state f = PAGE_STATE_RESERVED) then f
           else set_state PAGE_STATE_ALLOC_PAGE_TAIL f in
  set_cow_ref_count 0 (set_ref_count 0 (set_meta_pool_idx (-1) f)).

Fixpoint init_frames (n : nat) (i : Z) (b : buddy) : option buddy :=
  match n with
  | O => Some b
  | S n => b ← upd_frame i init_frame b;
           init_frames n (i + 1) (set_links (INIT_LIST_HEAD (FrameNode i) (links b)) b)
  end.

(** [buddy_init]: the second loop, over the free lists. *)
Fixpoint init_free_area (n : nat) (i : Z) (l : store bnode) : store bnode :=
  match n with
  | O => l
  | S n => init_free_area n (i + 1) (INIT_LIST_HEAD (FreeArea i) l)
  end.

(** The number of contiguous pages from [idx] that are not reserved. *)
Fixpoint count_free (fuel : nat) (idx free_count : Z) (b : buddy) : option Z :=
  if idx + free_count <? G_MEM_TOTAL_PAGE b then
    f ← frame_array b !! (idx + free_count);
    if decide (state f = PAGE_STATE_RESERVED) then Some free_count
    else match fuel with
         | O => None
         | S fuel => count_free fuel idx (free_count + 1) b
         end
  else Some free_count.

(** The largest order, from [ord] down to 0, of a block that may start at [idx]. *)
Fixpoint pick_order (ord : nat) (idx free_count : Z) : option Z :=
  let block_pages := Z.shiftl 1 (Z.of_nat ord) in
  if (Z.land idx (block_pages - 1) =? 0) && (block_pages <=? free_count)
  then Some (Z.of_nat ord)
  else match ord with O => None | S ord => pick_order ord idx free_count end.

Fixpoint break_free (fuel : nat) (idx free_count : Z) (b : buddy) : option (Z * buddy) :=
  if 0 <? free_count then
    match fuel with
    | O => None
    | S fuel =>
        match pick_order (Z.to_nat BUDDY_MAX_ORDER) idx free_count with
        | Some ord =>
            b ← add_free_block idx ord b;
            break_free fuel (idx + Z.shiftl 1 ord) (free_count - Z.shiftl 1 ord) b
        | None => break_free fuel idx free_count b
        end
    end
  else Some (idx, b).

Fixpoint init_blocks (fuel : nat) (idx : Z) (b : buddy) : option buddy :=
  if idx <? G_MEM_TOTAL_PAGE b then
    match fuel with
    | O => None
    | S fuel =>
        f ← frame_array b !! idx;
        if decide (state f = PAGE_STATE_RESERVED) then
          b ← upd_frame idx (set_order 0) b; init_blocks fuel (idx + 1) b
        else
          free_count ← count_free (Z.to_nat (G_MEM_TOTAL_PAGE b)) idx 0 b;
          '(idx, b) ← break_free (Z.to_nat free_count) idx free_count b;
          init_blocks fuel idx b
    end
  else Some b.

Definition buddy_init (b : buddy) : option buddy :=
  b ← init_frames (Z.to_nat (G_MEM_TOTAL_PAGE b)) 0 b;
  let b := set_links (init_free_area (Z.to_nat (BUDDY_MAX_ORDER + 1)) 0 (links b)) b in
  b ← init_blocks (Z.to_nat (G_MEM_TOTAL_PAGE b)) 0 b;
  Some (set_ready true b).

(** The walks over the free lists that count their blocks. *)
Fixpoint dump_areas (n : nat) (i : Z) (b : buddy) : option (list nat) :=
  match n with
  | O => Some []
  | S n =>
      it ← next (links b) !! FreeArea i;
      xs ← list_for_each (Z.to_nat (G_MEM_TOTAL_PAGE b)) it (FreeArea i) (links b);
      cs ← dump_areas n (i + 1) b;
      Some (length xs :: cs)
  end.

Definition buddy_dump_free_areas (b : buddy) : option (list nat) :=
  dump_areas (Z.to_nat (BUDDY_MAX_ORDER + 1)) 0 b.

(** [while (current > order)]: release the upper half, one order at a time. *)
Fixpoint split_block (fuel : nat) (idx current ord : Z) (b : buddy) : option buddy :=
  if ord <? current then
    match fuel with
    | O => None
    | S fuel =>
        let current := current - 1 in
        b ← add_free_block (idx + Z.shiftl 1 current) current b;
        split_block fuel idx current ord b
    end
  else Some b.

Definition frame_of_node (n : bnode) : option Z :=
  match n with FrameNode i => Some i | FreeArea _ => None end.

(** The search loop over the orders, from [current] up. *)
Fixpoint alloc_from (fuel : nat) (current ord : Z) (b : buddy) : option (Z * buddy) :=
  if BUDDY_MAX_ORDER <? current then Some (0, b) else
  match fuel with
  | O => None
  | S fuel =>
      e ← list_empty (FreeArea current) (links b);
      if (e : bool) then alloc_from fuel (current + 1) ord b
      else
        n ← next (links b) !! FreeArea current;
        idx ← frame_of_node n;
        b ← remove_free_block idx current b;
        b ← split_block (Z.to_nat BUDDY_MAX_ORDER) idx current ord b;
        b ← mark_block idx ord PAGE_STATE_ALLOC_PAGE_HEAD PAGE_STATE_ALLOC_PAGE_TAIL b;
        b ← upd_frame idx (set_cow_ref_count 1) b;
        _ ← buddy_dump_free_areas b;
        Some (page_to_addr idx b, b)
  end.

(** [buddy_alloc_pages]: the address, 0 for NULL, and the new state. *)
Definition buddy_alloc_pages (ord : Z) (b : buddy) : option (Z * buddy) :=
  if negb (buddy_ready b) || (BUDDY_MAX_ORDER <? ord) then Some (0, b)
  else alloc_from (Z.to_nat (BUDDY_MAX_ORDER + 1)) ord ord b.

(** The merge loop of [buddy_free_pages]: the head and order it stops at. *)
Fixpoint merge_block (fuel : nat) (idx ord : Z) (b : buddy) : option (Z * Z * buddy) :=
  if ord <? BUDDY_MAX_ORDER then
    match fuel with
    | O => None
    | S fuel =>
        let buddy_idx := Z.lxor idx (Z.shiftl 1 ord) in
        if G_MEM_TOTAL_PAGE b <=? buddy_idx then Some (idx, ord, b) else
        f ← frame_array b !! buddy_idx;
        if negb (bool_decide (state f = PAGE_STATE_FREE_HEAD)) || negb (u32 (order f) =? ord)
        then Some (idx, ord, b)
        else
          b ← remove_free_block buddy_idx ord b;
          let idx := if buddy_idx <? idx then buddy_idx else idx in
          let ord := ord + 1 in
          b ← mark_block idx ord PAGE_STATE_FREE_HEAD PAGE_STATE_FREE_TAIL b;
          merge_block fuel idx ord b
    end
  else Some (idx, ord, b).

Definition buddy_free_pages (ptr : Z) (b : buddy) : option buddy :=
  if negb (buddy_ready b) || (ptr =? 0) then Some b else
  let addr := ptr in
  if (addr <? G_MEMPOOL_START b) || (G_MEMPOOL_START b ⊞ G_MEMPOOL_SIZE b <=? addr) then Some b else
  if negb (Z.land addr (PAGE_SIZE - 1) =? 0) then Some b else
  let idx := (addr ⊟ G_MEMPOOL_START b) ⋙ PAGE_SHIFT in
  if G_MEM_TOTAL_PAGE b <=? idx then Some b else
  f ← frame_array b !! idx;
  if negb (bool_decide (state f = PAGE_STATE_ALLOC_PAGE_HEAD)) then Some b else
  let ord := u32 (order f) in
  b ← mark_block idx ord PAGE_STATE_FREE_HEAD PAGE_STATE_FREE_TAIL b;
  '(idx, ord, b) ← merge_block (Z.to_nat BUDDY_MAX_ORDER) idx ord b;
  b ← add_free_block idx ord b;
  _ ← buddy_dump_free_areas b;
  Some b.

(** Concrete run: a pool of 13 pages with page 4 reserved. *)
Definition demo_frames : gmap Z frame :=
  list_to_map ((fun i => (Z.of_nat i, Frame 0 (if decide (i = 4)%nat then PAGE_STATE_RESERVED else PAGE_STATE_FREE_HEAD) 0 0 0)) <$> seq 0 13).

Definition demo : buddy := Buddy demo_frames empty_store 0x81000000 (13 * 4096) 13 false.
