(* ===== verification/BuddySpec.v ===== *)
(** * Abstract buddy allocator: tilings of the pool by blocks

    The abstract state of [Buddy.v] is the list of blocks that tile the pool in
    address order.  This file gives the steps on tilings that allocation and
    deallocation promise, the relation between a tiling and the frame array,
    and the relation between its free blocks and the intrusive free lists. *)

From S2P Require Import Prelude Config IList Buddy.

(** ** Blocks and steps *)

Inductive bkind := Free | Alloc | Pool | Reserved.

#[export] Instance bkind_eq_dec : EqDecision bkind.
Proof. solve_decision. Defined.

Record block := Block { b_idx : Z; b_order : Z; b_kind : bkind }.

#[export] Instance block_eq_dec : EqDecision block.
Proof. solve_decision. Defined.

Definition b_end (k : block) : Z := b_idx k + 2 ^ b_order k.

Definition head_state (k : bkind) : page_state :=
  match k with
  | Free => PAGE_STATE_FREE_HEAD
  | Alloc => PAGE_STATE_ALLOC_PAGE_HEAD
  | Pool => PAGE_STATE_ALLOC_CHUNK_POOL
  | Reserved => PAGE_STATE_RESERVED
  end.

Definition tail_state (k : bkind) : page_state :=
  match k with Free => PAGE_STATE_FREE_TAIL | _ => PAGE_STATE_ALLOC_PAGE_TAIL end.

(** The upper halves released when a block of order [ord + n] is cut down to
    order [ord]: one block of each order from [ord] up. *)
Fixpoint split_rest (n : nat) (idx ord : Z) : list block :=
  match n with
  | O => []
  | S n => Block (idx + 2 ^ ord) ord Free :: split_rest n idx (ord + 1)
  end.

(** Allocation of a block of order [ord]: a smallest free block that is large
    enough is cut down to size. *)
Definition alloc_step (ord : Z) (bs : list block) (idx : Z) (bs' : list block) : Prop :=
  exists bs1 cur bs2,
    bs = bs1 ++ Block idx cur Free :: bs2 /\ ord <= cur /\
    (forall k, k ∈ bs -> b_kind k = Free -> ord <= b_order k -> cur <= b_order k) /\
    bs' = bs1 ++ Block idx ord Alloc :: split_rest (Z.to_nat (cur - ord)) idx ord ++ bs2.

(** Merging: the block being freed between the blocks before and after it. *)
Inductive merges : list block * (Z * Z) * list block -> list block * (Z * Z) * list block -> Prop :=
  | merges_refl bs1 io bs2 : merges (bs1, io, bs2) (bs1, io, bs2)
  | merges_right bs1 idx ord bs2 r :
      ord < BUDDY_MAX_ORDER -> Z.lxor idx (2 ^ ord) = idx + 2 ^ ord ->
      merges (bs1, (idx, ord + 1), bs2) r ->
      merges (bs1, (idx, ord), Block (idx + 2 ^ ord) ord Free :: bs2) r
  | merges_left bs1 idx ord bs2 r :
      ord < BUDDY_MAX_ORDER -> Z.lxor idx (2 ^ ord) = idx - 2 ^ ord ->
      merges (bs1, (idx - 2 ^ ord, ord + 1), bs2) r ->
      merges (bs1 ++ [Block (idx - 2 ^ ord) ord Free], (idx, ord), bs2) r.

(** Deallocation of the block at [idx]: it becomes free and is merged with its
    buddy until the buddy is not a free block of the same order. *)
Definition free_step (idx : Z) (bs bs' : list block) : Prop :=
  exists bs1 ord bs2 bs1' idx' ord' bs2',
    bs = bs1 ++ Block idx ord Alloc :: bs2 /\
    merges (bs1, (idx, ord), bs2) (bs1', (idx', ord'), bs2') /\
    (ord' < BUDDY_MAX_ORDER -> Block (Z.lxor idx' (2 ^ ord')) ord' Free ∉ bs1' ++ bs2') /\
    bs' = bs1' ++ Block idx' ord' Free :: bs2'.

(** ** Tilings *)

Definition frame_is (fa : gmap Z frame) (i : Z) (s : page_state) (o : Z) : Prop :=
  exists f, fa !! i = Some f /\ state f = s /\ order f = o.

Record block_ok (fa : gmap Z frame) (k : block) : Prop := {
  bo_order : 0 <= b_order k <= BUDDY_MAX_ORDER;
  bo_align : (2 ^ b_order k | b_idx k);
  bo_single : b_kind k = Pool \/ b_kind k = Reserved -> b_order k = 0;
  bo_head : frame_is fa (b_idx k) (head_state (b_kind k)) (b_order k);
  bo_tail : forall j, b_idx k < j < b_end k -> frame_is fa j (tail_state (b_kind k)) (-1);
}.

Fixpoint tiled (fa : gmap Z frame) (lo hi : Z) (bs : list block) : Prop :=
  match bs with
  | [] => lo = hi
  | k :: bs => b_idx k = lo /\ block_ok fa k /\ tiled fa (b_end k) hi bs
  end.

Lemma block_ok_end fa k : block_ok fa k -> b_idx k < b_end k.
Proof. intros [? _ _ _ _]. unfold b_end. pose proof (pow2_pos (b_order k)). lia. Qed.

Lemma tiled_le fa lo hi bs : tiled fa lo hi bs -> lo <= hi.
Proof.
  revert lo. induction bs as [| k bs IH]; simpl; intros lo; [lia |].
  intros (<- & Hk & ?%IH). apply block_ok_end in Hk. lia.
Qed.

Lemma tiled_app fa lo hi bs1 bs2 :
  tiled fa lo hi (bs1 ++ bs2) <-> exists mid, tiled fa lo mid bs1 /\ tiled fa mid hi bs2.
Proof.
  revert lo. induction bs1 as [| k bs1 IH]; simpl; intros lo.
  - split; [eauto | by intros (? & -> & ?)].
  - rewrite IH. naive_solver.
Qed.

(** A tiling around a block: what is before, the block, what is after. *)
Lemma tiled_focus fa lo hi bs1 k bs2 :
  tiled fa lo hi (bs1 ++ k :: bs2) <->
  tiled fa lo (b_idx k) bs1 /\ block_ok fa k /\ tiled fa (b_end k) hi bs2.
Proof. rewrite tiled_app. simpl. naive_solver. Qed.

Lemma block_ok_ext fa fa' k :
  (forall j, b_idx k <= j < b_end k -> fa' !! j = fa !! j) -> block_ok fa k -> block_ok fa' k.
Proof.
  intros Hext Hk. pose proof (block_ok_end _ _ Hk). destruct Hk as [? ? ? [f ?] Ht]. split; try done.
  - exists f. rewrite Hext by lia. done.
  - intros j Hj. destruct (Ht j Hj) as [g ?]. exists g. rewrite Hext by lia. done.
Qed.

Lemma tiled_ext fa fa' lo hi bs :
  (forall j, lo <= j < hi -> fa' !! j = fa !! j) -> tiled fa lo hi bs -> tiled fa' lo hi bs.
Proof.
  revert lo. induction bs as [| k bs IH]; simpl; intros lo Hext; [done |].
  intros (<- & Hk & Hbs). pose proof (tiled_le _ _ _ _ Hbs). pose proof (block_ok_end _ _ Hk).
  split_and!; [done | |].
  - eapply block_ok_ext; [| done]. intros. apply Hext. lia.
  - apply IH; [| done]. intros. apply Hext. lia.
Qed.

Lemma tiled_elem fa lo hi bs k :
  tiled fa lo hi bs -> k ∈ bs -> lo <= b_idx k /\ b_end k <= hi /\ block_ok fa k.
Proof.
  intros Ht [bs1 [bs2 ->]]%list_elem_of_split. apply tiled_focus in Ht as (H1 & H2 & H3).
  apply tiled_le in H1, H3. done.
Qed.

(** Every page belongs to a block. *)
Lemma tiled_cover fa lo hi bs i :
  tiled fa lo hi bs -> lo <= i < hi ->
  exists bs1 k bs2, bs = bs1 ++ k :: bs2 /\ b_idx k <= i < b_end k.
Proof.
  revert lo. induction bs as [| k bs IH]; simpl; intros lo; [lia |].
  intros (<- & Hk & Hbs) Hi. destruct (Z.ltb_spec i (b_end k)).
  - exists [], k, bs. split; [done | lia].
  - destruct (IH _ Hbs) as (bs1 & k' & bs2 & -> & ?); [lia |]. by exists (k :: bs1), k', bs2.
Qed.

(** The block of a page is determined by the page. *)
Lemma tiled_disjoint fa lo hi bs k k' i :
  tiled fa lo hi bs -> k ∈ bs -> k' ∈ bs ->
  b_idx k <= i < b_end k -> b_idx k' <= i < b_end k' -> k = k'.
Proof.
  revert lo. induction bs as [| m bs IH]; simpl; intros lo; [set_solver |].
  intros (<- & Hm & Hbs) [-> | Hk]%elem_of_cons [-> | Hk']%elem_of_cons Hi Hi'.
  - done.
  - apply (tiled_elem _ _ _ _ _ Hbs) in Hk'. lia.
  - apply (tiled_elem _ _ _ _ _ Hbs) in Hk. lia.
  - by eapply IH.
Qed.

Lemma tiled_same_idx fa lo hi bs k k' :
  tiled fa lo hi bs -> k ∈ bs -> k' ∈ bs -> b_idx k = b_idx k' -> k = k'.
Proof.
  intros Ht Hk Hk' E. pose proof (tiled_elem _ _ _ _ _ Ht Hk) as (_ & _ & Ho%block_ok_end).
  pose proof (tiled_elem _ _ _ _ _ Ht Hk') as (_ & _ & Ho'%block_ok_end).
  eapply (tiled_disjoint _ _ _ _ _ _ (b_idx k)); try done; lia.
Qed.

Lemma tiled_nodup fa lo hi bs : tiled fa lo hi bs -> NoDup (b_idx <$> bs).
Proof.
  revert lo. induction bs as [| k bs IH]; simpl; intros lo; [intros; constructor |].
  intros (<- & Hk & Hbs). apply NoDup_cons. split; [| by eapply IH].
  intros (k' & E & Hk')%list_elem_of_fmap. apply (tiled_elem _ _ _ _ _ Hbs) in Hk'.
  apply block_ok_end in Hk. lia.
Qed.

(** Reading a head state in the frame array finds the block. *)
Lemma tiled_head fa lo hi bs i f k :
  tiled fa lo hi bs -> lo <= i < hi -> fa !! i = Some f -> state f = head_state k ->
  exists bs1 bs2, bs = bs1 ++ Block i (order f) k :: bs2.
Proof.
  intros Ht Hi Hf Hs. destruct (tiled_cover _ _ _ _ _ Ht Hi) as (bs1 & m & bs2 & -> & Hm).
  apply tiled_focus in Ht as (_ & Hok & _). destruct (decide (b_idx m = i)) as [<- | Hne].
  - destruct (bo_head _ _ Hok) as (f' & Hf' & Hs' & Ho'). simplify_eq.
    assert (b_kind m = k) as <- by (destruct (b_kind m), k; simpl in *; congruence).
    exists bs1, bs2. rewrite Ho'. by destruct m.
  - destruct (bo_tail _ _ Hok i) as (f' & Hf' & Hs' & _); [lia |]. simplify_eq.
    destruct (b_kind m), k; simpl in *; congruence.
Qed.

(** ** Free lists *)

Definition is_free (ord : Z) (k : block) : Prop := b_kind k = Free /\ b_order k = ord.

#[export] Instance is_free_dec ord k : Decision (is_free ord k).
Proof. unfold is_free. apply _. Defined.

Definition free_idxs (ord : Z) (bs : list block) : list Z := b_idx <$> filter (is_free ord) bs.

(** The free list of each order holds the heads of the free blocks of that order. *)
Definition lists_ok (l : store bnode) (bs : list block) : Prop :=
  forall ord, 0 <= ord <= BUDDY_MAX_ORDER ->
  exists xs, is_list l (FreeArea ord) (FrameNode <$> xs) /\ xs ≡ₚ free_idxs ord bs.

Lemma free_idxs_perm ord bs bs' : bs ≡ₚ bs' -> free_idxs ord bs ≡ₚ free_idxs ord bs'.
Proof. intros Hp. unfold free_idxs. by rewrite Hp. Qed.

Lemma lists_ok_perm l bs bs' : bs ≡ₚ bs' -> lists_ok l bs -> lists_ok l bs'.
Proof.
  intros Hp Hl ord Ho. destruct (Hl ord Ho) as (xs & ? & Hxs). exists xs. split; [done |].
  rewrite Hxs. by apply free_idxs_perm.
Qed.

Lemma elem_free_idxs ord bs i : i ∈ free_idxs ord bs <-> Block i ord Free ∈ bs.
Proof.
  unfold free_idxs. rewrite list_elem_of_fmap. split.
  - intros ([j o k] & -> & [[??] ?]%list_elem_of_filter). simpl in *. by subst.
  - intros Hin. exists (Block i ord Free). split; [done |]. by apply list_elem_of_filter.
Qed.

Lemma free_idxs_cons_ne ord k bs : ~ is_free ord k -> free_idxs ord (k :: bs) = free_idxs ord bs.
Proof. intros ?. unfold free_idxs. by rewrite filter_cons_False. Qed.

Lemma free_idxs_cons_eq ord i bs : free_idxs ord (Block i ord Free :: bs) = i :: free_idxs ord bs.
Proof. unfold free_idxs. by rewrite filter_cons_True. Qed.

(** A block that is not free is not on the lists. *)
Lemma lists_ok_nonfree l k bs : b_kind k <> Free -> lists_ok l (k :: bs) <-> lists_ok l bs.
Proof.
  intros Hk. split; intros Hl ord Ho; destruct (Hl ord Ho) as (xs & ? & Hxs); exists xs;
    (split; [done |]).
  - rewrite free_idxs_cons_ne in Hxs by (unfold is_free; tauto). done.
  - rewrite free_idxs_cons_ne by (unfold is_free; tauto). done.
Qed.

(** The nodes of two lists of different orders are distinct. *)
Lemma lists_apart bs o o' xs xs' :
  NoDup (b_idx <$> bs) -> o <> o' -> xs ≡ₚ free_idxs o bs -> xs' ≡ₚ free_idxs o' bs ->
  forall n, n ∈ FreeArea o :: (FrameNode <$> xs) -> n ∉ FreeArea o' :: (FrameNode <$> xs').
Proof.
  intros Hnd Hne Hxs Hxs' n. rewrite !elem_of_cons, !list_elem_of_fmap.
  intros [-> | (i & -> & Hi)] [E | (j & E & Hj)]; simplify_eq.
  rewrite Hxs, elem_free_idxs in Hi. rewrite Hxs', elem_free_idxs in Hj.
  apply list_elem_of_split in Hi as (bs1 & bs2 & ->).
  rewrite fmap_app, fmap_cons in Hnd. apply NoDup_app in Hnd as (_ & H1 & [H2 _]%NoDup_cons).
  apply elem_of_app in Hj as [Hj | [Hj | Hj]%elem_of_cons]; [| congruence |].
  - apply (H1 j); [apply list_elem_of_fmap; by exists (Block j o' Free) | by left].
  - apply H2. apply list_elem_of_fmap. by exists (Block j o' Free).
Qed.
