(* ===== verification/BuddyProofs.v ===== *)
(** * Correctness of the buddy allocator

    Each operation of [Buddy.v] runs without an out-of-bounds access, ends, and
    implements its abstract step of [BuddySpec.v] on the tiling of the pool. *)

From S2P Require Import Prelude Config Align IList Buddy BuddySpec.

(** ** Free list operations *)

Lemma lists_ok_add l bs i ord :
  NoDup (i :: (b_idx <$> bs)) -> 0 <= ord <= BUDDY_MAX_ORDER -> lists_ok l bs ->
  exists l', list_add (FrameNode i) (FreeArea ord) l = Some l' /\
    lists_ok l' (Block i ord Free :: bs).
Proof.
  intros Hnd Ho Hl. destruct (Hl ord Ho) as (xs & Hxs & Hp).
  assert (Hi : i ∉ xs).
  { rewrite Hp, elem_free_idxs. apply NoDup_cons in Hnd as [Hi _]. intros Hin. apply Hi.
    apply list_elem_of_fmap. by exists (Block i ord Free). }
  destruct (list_add_spec l (FreeArea ord) (FrameNode <$> xs) (FrameNode i)) as (l' & Hadd & Hl' & Hout).
  { done. }
  { rewrite elem_of_cons, list_elem_of_fmap. intros [? | (j & [= ->] & ?)]; done. }
  exists l'. split; [done |]. intros o' Ho'. destruct (decide (o' = ord)) as [-> | Hne].
  - exists (i :: xs). split; [done |]. by rewrite free_idxs_cons_eq, Hp.
  - destruct (Hl o' Ho') as (xs' & Hxs' & Hp').
    assert (Hp'' : xs' ≡ₚ free_idxs o' (Block i ord Free :: bs))
      by (rewrite free_idxs_cons_ne; [done | intros [_ ?]; simpl in *; congruence]).
    exists xs'. split; [| done]. eapply is_list_frame; [exact Hout | | done].
    intros n Hn. change (FrameNode i :: FreeArea ord :: (FrameNode <$> xs)) with
      ([FrameNode i; FreeArea ord] ++ (FrameNode <$> xs)).
    pose proof (lists_apart (Block i ord Free :: bs) o' ord xs' (i :: xs)) as Hap.
    specialize (Hap Hnd Hne Hp''). rewrite free_idxs_cons_eq, Hp in Hap.
    specialize (Hap (reflexivity _) n Hn). clear -Hap. set_solver.
Qed.

Lemma lists_ok_del l bs i ord :
  NoDup (i :: (b_idx <$> bs)) -> 0 <= ord <= BUDDY_MAX_ORDER ->
  lists_ok l (Block i ord Free :: bs) ->
  exists l', list_del (FrameNode i) l = Some l' /\ lists_ok l' bs.
Proof.
  intros Hnd Ho Hl. destruct (Hl ord Ho) as (xs & Hxs & Hp).
  assert (Hi : i ∈ xs) by (rewrite Hp, free_idxs_cons_eq; by left).
  apply list_elem_of_split in Hi as (xs1 & xs2 & ->).
  rewrite fmap_app, fmap_cons in Hxs.
  destruct (list_del_spec _ _ _ _ _ Hxs) as (l' & Hdel & Hl' & _ & Hout).
  exists l'. split; [done |]. intros o' Ho'. destruct (decide (o' = ord)) as [-> | Hne].
  - exists (xs1 ++ xs2). rewrite fmap_app. split; [done |].
    rewrite free_idxs_cons_eq in Hp. apply (Permutation_cons_inv (a := i)).
    by rewrite Permutation_middle.
  - destruct (Hl o' Ho') as (xs' & Hxs' & Hp'). exists xs'. split.
    + eapply is_list_frame; [exact Hout | | done]. intros n Hn.
      pose proof (lists_apart (Block i ord Free :: bs) o' ord xs' (xs1 ++ i :: xs2) Hnd Hne Hp' Hp n Hn) as Hap.
      by rewrite fmap_app, fmap_cons in Hap.
    + rewrite Hp'. rewrite free_idxs_cons_ne; [done | intros [_ ?]; simpl in *; congruence].
Qed.

(** ** Marking a block *)

(** [fa'] differs from [fa] in the pages [lo, hi) only, and has the same frames. *)
Definition changed_in (lo hi : Z) (fa fa' : gmap Z frame) : Prop :=
  (forall j, ~ lo <= j < hi -> fa' !! j = fa !! j) /\ (forall j, is_Some (fa' !! j) <-> is_Some (fa !! j)).

Lemma changed_in_refl lo hi fa : changed_in lo hi fa fa.
Proof. done. Qed.

Lemma changed_in_trans lo hi fa1 fa2 fa3 :
  changed_in lo hi fa1 fa2 -> changed_in lo hi fa2 fa3 -> changed_in lo hi fa1 fa3.
Proof.
  intros [H1 D1] [H2 D2]. split; intros j.
  - intros Hj. by rewrite H2, H1.
  - by rewrite D2, D1.
Qed.

Lemma changed_in_mono lo hi lo' hi' fa fa' :
  lo' <= lo -> hi <= hi' -> changed_in lo hi fa fa' -> changed_in lo' hi' fa fa'.
Proof. intros ?? [H1 D1]. split; [| done]. intros j Hj. apply H1. lia. Qed.

Lemma tiled_changed lo' hi' fa fa' lo hi bs :
  changed_in lo' hi' fa fa' -> hi <= lo' \/ hi' <= lo -> tiled fa lo hi bs -> tiled fa' lo hi bs.
Proof. intros [H1 _] Hd. apply tiled_ext. intros j Hj. apply H1. lia. Qed.

Lemma upd_spec i g fa : is_Some (fa !! i) ->
  exists f, fa !! i = Some f /\ upd i g fa = Some (<[i := g f]> fa).
Proof. intros [f Hf]. exists f. unfold upd. by rewrite Hf. Qed.

Lemma changed_in_insert i f f' fa : fa !! i = Some f -> changed_in i (i + 1) fa (<[i := f']> fa).
Proof.
  intros Hf. split; intros j.
  - intros ?. apply lookup_insert_ne. lia.
  - destruct (decide (i = j)) as [<- | ?]; [rewrite lookup_insert_eq, Hf | by rewrite lookup_insert_ne].
    split; eauto.
Qed.

Lemma mark_tails_spec n i s fa :
  (forall j, i <= j < i + Z.of_nat n -> is_Some (fa !! j)) ->
  exists fa', mark_tails n i s fa = Some fa' /\ changed_in i (i + Z.of_nat n) fa fa' /\
    forall j, i <= j < i + Z.of_nat n -> frame_is fa' j s (-1).
Proof.
  revert i fa. induction n as [| n IH]; intros i fa Hin; simpl mark_tails.
  - exists fa. split; [done |]. split; [apply changed_in_refl | lia].
  - destruct (upd_spec i (fun f => set_order (-1) (set_state s f)) fa) as (f & Hf & ->); [apply Hin; lia |].
    simpl. pose proof (changed_in_insert i f (set_order (-1) (set_state s f)) fa Hf) as Hc.
    destruct (IH (i + 1) (<[i := set_order (-1) (set_state s f)]> fa)) as (fa' & -> & Hc' & Ht).
    { intros j Hj. apply Hc. apply Hin. lia. }
    exists fa'. split; [done |]. split.
    + eapply changed_in_trans; (eapply changed_in_mono; [| | eassumption]); lia.
    + intros j Hj. destruct (decide (j = i)) as [-> | ?]; [| apply Ht; lia].
      eexists. rewrite (proj1 Hc') by lia. rewrite lookup_insert_eq. done.
Qed.

Lemma mark_block_spec idx ord k b :
  0 <= ord <= BUDDY_MAX_ORDER -> (2 ^ ord | idx) -> k = Free \/ k = Alloc ->
  (forall j, idx <= j < idx + 2 ^ ord -> is_Some (frame_array b !! j)) ->
  exists fa', mark_block idx ord (head_state k) (tail_state k) b = Some (set_frame_array fa' b) /\
    changed_in idx (idx + 2 ^ ord) (frame_array b) fa' /\ block_ok fa' (Block idx ord k).
Proof.
  intros Ho Hal Hk Hin. unfold mark_block. rewrite shiftl_1 by lia. pose proof (pow2_pos ord) as Hp.
  destruct (upd_spec idx (fun f => set_order ord (set_state (head_state k) f)) (frame_array b))
    as (f & Hf & ->); [apply Hin; lia |]. simpl.
  pose proof (changed_in_insert idx f (set_order ord (set_state (head_state k) f)) _ Hf) as Hc.
  destruct (mark_tails_spec (Z.to_nat (2 ^ ord - 1)) (idx + 1) (tail_state k)
    (<[idx := set_order ord (set_state (head_state k) f)]> (frame_array b))) as (fa' & -> & Hc' & Ht).
  { intros j Hj. apply Hc. apply Hin. lia. }
  simpl. rewrite Z2Nat.id in Hc', Ht by lia. exists fa'. split; [done |]. split.
  - eapply changed_in_trans; (eapply changed_in_mono; [| | eassumption]); lia.
  - split; simpl.
    + done.
    + done.
    + destruct Hk as [-> | ->]; intros [? | ?]; done.
    + eexists. rewrite (proj1 Hc') by lia. rewrite lookup_insert_eq. done.
    + intros j Hj. apply Ht. unfold b_end in Hj. simpl in *. lia.
Qed.

(** ** Well-formed states *)

(** The pool is page aligned, not at address 0, and ends inside the address space. *)
Record region_ok (b : buddy) : Prop := {
  ro_align : (2 ^ PAGE_SHIFT | G_MEMPOOL_START b);
  ro_start : 0 < G_MEMPOOL_START b;
  ro_total : 0 <= G_MEM_TOTAL_PAGE b;
  ro_size : G_MEMPOOL_SIZE b = G_MEM_TOTAL_PAGE b * 2 ^ PAGE_SHIFT;
  ro_end : G_MEMPOOL_START b + G_MEMPOOL_SIZE b < 2 ^ 64;
}.

(** The frame array is tiled by [bs], and the free lists hold its free blocks. *)
Record wf (b : buddy) (bs : list block) : Prop := {
  wf_region : region_ok b;
  wf_ready : buddy_ready b = true;
  wf_tiled : tiled (frame_array b) 0 (G_MEM_TOTAL_PAGE b) bs;
  wf_lists : lists_ok (links b) bs;
}.

(** No free block has a free buddy of its order: everything that can be merged is. *)
Definition coalesced (bs : list block) : Prop :=
  forall i ord, ord < BUDDY_MAX_ORDER -> Block i ord Free ∈ bs ->
  Block (Z.lxor i (2 ^ ord)) ord Free ∉ bs.

(** Pages of the free blocks. *)
Definition free_pages (bs : list block) : Z :=
  foldr (fun k n => (if decide (b_kind k = Free) then 2 ^ b_order k else 0) + n) 0 bs.

Lemma free_pages_app bs1 bs2 : free_pages (bs1 ++ bs2) = free_pages bs1 + free_pages bs2.
Proof. induction bs1; simpl; lia. Qed.

Lemma tiled_is_some fa lo hi bs j : tiled fa lo hi bs -> lo <= j < hi -> is_Some (fa !! j).
Proof.
  intros Ht Hj. destruct (tiled_cover _ _ _ _ _ Ht Hj) as (bs1 & k & bs2 & -> & Hk).
  apply tiled_focus in Ht as (_ & Hok & _).
  destruct (decide (b_idx k = j)) as [<- | ?].
  - destruct (bo_head _ _ Hok) as (f & ? & _). eauto.
  - destruct (bo_tail _ _ Hok j) as (f & ? & _); [lia |]. eauto.
Qed.

Lemma block_ok_is_some fa k j : block_ok fa k -> b_idx k <= j < b_end k -> is_Some (fa !! j).
Proof. intros Hk Hj. eapply (tiled_is_some fa (b_idx k) (b_end k) [k]); [by split_and! | done]. Qed.

(** ** The free-list walks end *)

Lemma free_idxs_length fa lo hi bs ord : tiled fa lo hi bs -> Z.of_nat (length (free_idxs ord bs)) <= hi - lo.
Proof.
  unfold free_idxs. rewrite length_fmap. revert lo.
  induction bs as [| k bs IH]; simpl; intros lo; [lia |]. intros (<- & Hk & Hbs%IH).
  apply block_ok_end in Hk. rewrite filter_cons. destruct (decide _); simpl; lia.
Qed.

Lemma dump_areas_spec n i b bs :
  lists_ok (links b) bs -> tiled (frame_array b) 0 (G_MEM_TOTAL_PAGE b) bs ->
  0 <= i -> i + Z.of_nat n = BUDDY_MAX_ORDER + 1 ->
  dump_areas n i b = Some ((fun o => length (free_idxs (i + Z.of_nat o) bs)) <$> seq 0 n).
Proof.
  intros Hl Ht. revert i. induction n as [| n IH]; intros i Hi Hn; [done |].
  simpl. destruct (Hl i) as (xs & Hxs & Hp); [lia |].
  destruct (chain_mid _ _ [] (FrameNode <$> xs) _ (proj2 Hxs)) as [Hnx _]. simpl in Hnx.
  rewrite Hnx. simpl. rewrite (list_for_each_spec _ _ (FrameNode <$> xs)); [| done | done |].
  - simpl. rewrite IH by lia. simpl. rewrite length_fmap, Hp. do 2 f_equal; [by rewrite Z.add_0_r |].
    rewrite <- fmap_S_seq, <- list_fmap_compose. apply list_fmap_ext. intros ? ? _. simpl. do 2 f_equal. lia.
  - rewrite length_fmap, Hp. pose proof (free_idxs_length _ _ _ _ i Ht). lia.
Qed.

Lemma buddy_dump_spec b bs :
  lists_ok (links b) bs -> tiled (frame_array b) 0 (G_MEM_TOTAL_PAGE b) bs ->
  buddy_dump_free_areas b = Some ((fun o => length (free_idxs (Z.of_nat o) bs)) <$> seq 0 11).
Proof. intros. by apply (dump_areas_spec 11 0). Qed.

(** ** Building blocks of the operations *)

(** The globals other than the frame array and the lists are untouched. *)
Record same_globals (b b' : buddy) : Prop := {
  sg_start : G_MEMPOOL_START b' = G_MEMPOOL_START b;
  sg_size : G_MEMPOOL_SIZE b' = G_MEMPOOL_SIZE b;
  sg_total : G_MEM_TOTAL_PAGE b' = G_MEM_TOTAL_PAGE b;
  sg_ready : buddy_ready b' = buddy_ready b;
}.

#[export] Instance same_globals_preorder : PreOrder same_globals.
Proof.
  split; [by split |]. intros b1 b2 b3 [? ? ? ?] [? ? ? ?]. split; congruence.
Qed.

Lemma same_globals_region b b' : same_globals b b' -> region_ok b -> region_ok b'.
Proof. intros [H1 H2 H3 H4] []. split; rewrite ?H1, ?H2, ?H3; done. Qed.

Lemma add_free_block_spec idx ord b lbs :
  0 <= ord <= BUDDY_MAX_ORDER -> (2 ^ ord | idx) ->
  (forall j, idx <= j < idx + 2 ^ ord -> is_Some (frame_array b !! j)) ->
  NoDup (idx :: (b_idx <$> lbs)) -> lists_ok (links b) lbs ->
  exists b', add_free_block idx ord b = Some b' /\ same_globals b b' /\
    changed_in idx (idx + 2 ^ ord) (frame_array b) (frame_array b') /\
    block_ok (frame_array b') (Block idx ord Free) /\
    lists_ok (links b') (Block idx ord Free :: lbs).
Proof.
  intros Ho Hal Hin Hnd Hl. unfold add_free_block.
  destruct (mark_block_spec idx ord Free b) as (fa' & Hm & Hc & Hk); [done | done | by left | done |].
  simpl in Hm. rewrite Hm. simpl.
  destruct (lists_ok_add (links b) lbs idx ord) as (l' & Hadd & Hl'); [done | done | done |].
  rewrite Hadd. simpl. eexists. split; [done |]. simpl. by split_and!.
Qed.

Lemma remove_free_block_spec idx ord b lbs :
  0 <= ord <= BUDDY_MAX_ORDER -> is_Some (frame_array b !! idx) ->
  NoDup (idx :: (b_idx <$> lbs)) -> lists_ok (links b) (Block idx ord Free :: lbs) ->
  exists b', remove_free_block idx ord b = Some b' /\ same_globals b b' /\
    changed_in idx (idx + 1) (frame_array b) (frame_array b') /\ lists_ok (links b') lbs.
Proof.
  intros Ho [f Hf] Hnd Hl. unfold remove_free_block.
  destruct (lists_ok_del (links b) lbs idx ord) as (l' & Hdel & Hl'); [done | done | done |].
  rewrite Hdel. unfold upd_frame, upd. simpl. rewrite Hf. simpl. eexists. split; [done |]. simpl.
  split_and!; [by split | by eapply changed_in_insert | done].
Qed.

Lemma split_rest_snoc n idx ord : 0 <= ord ->
  split_rest (S n) idx ord =
    split_rest n idx ord ++ [Block (idx + 2 ^ (ord + Z.of_nat n)) (ord + Z.of_nat n) Free].
Proof.
  revert ord. induction n as [| n IH]; intros ord Ho; [simpl; by rewrite Z.add_0_r |].
  change (split_rest (S (S n)) idx ord) with (Block (idx + 2 ^ ord) ord Free :: split_rest (S n) idx (ord + 1)).
  rewrite IH by lia. simpl. by replace (ord + 1 + Z.of_nat n) with (ord + Z.pos (Pos.of_succ_nat n)) by lia.
Qed.

Lemma pow2_divide_half c idx : 0 <= c -> (2 ^ (c + 1) | idx) -> (2 ^ c | idx) /\ (2 ^ c | idx + 2 ^ c).
Proof.
  intros Hc Hd. assert (H1 : (2 ^ c | idx)) by (eapply Z.divide_trans; [apply pow2_divide | done]; lia).
  split; [done |]. by apply Z.divide_add_r.
Qed.

(** The splitting loop: the upper halves, down to [idx + 2 ^ ord], are free blocks. *)
Lemma split_block_spec n idx ord b lbs :
  forall fuel, (n <= fuel)%nat -> 0 <= ord -> ord + Z.of_nat n <= BUDDY_MAX_ORDER ->
  (2 ^ (ord + Z.of_nat n) | idx) ->
  (forall j, idx <= j < idx + 2 ^ (ord + Z.of_nat n) -> is_Some (frame_array b !! j)) ->
  (forall k, k ∈ lbs -> ~ idx <= b_idx k < idx + 2 ^ (ord + Z.of_nat n)) ->
  NoDup (b_idx <$> lbs) -> lists_ok (links b) lbs ->
  exists b', split_block fuel idx (ord + Z.of_nat n) ord b = Some b' /\ same_globals b b' /\
    changed_in (idx + 2 ^ ord) (idx + 2 ^ (ord + Z.of_nat n)) (frame_array b) (frame_array b') /\
    tiled (frame_array b') (idx + 2 ^ ord) (idx + 2 ^ (ord + Z.of_nat n)) (split_rest n idx ord) /\
    lists_ok (links b') (split_rest n idx ord ++ lbs).
Proof.
  revert b lbs. induction n as [| n IH]; intros b lbs fuel Hf Ho Hm Hal Hin Hout Hnd Hl.
  - rewrite Z.add_0_r. exists b. split.
    + destruct fuel; simpl; by rewrite Z.ltb_irrefl.
    + split_and!; [reflexivity | apply changed_in_refl | done | done].
  - destruct fuel as [| fuel]; [lia |]. cbn [split_block].
    replace (ord <? ord + Z.of_nat (S n)) with true by (symmetry; apply Z.ltb_lt; lia).
    set (c := ord + Z.of_nat n). replace (ord + Z.of_nat (S n)) with (c + 1) in * by lia.
    replace (c + 1 - 1) with c by lia. rewrite shiftl_1, pow2_succ in * by lia.
    pose proof (pow2_pos c). rewrite <- pow2_succ in Hal by lia.
    apply pow2_divide_half in Hal as [Hal Hal2]; [| lia].
    destruct (add_free_block_spec (idx + 2 ^ c) c b lbs) as (b1 & Hb1 & Hg1 & Hc1 & Hk1 & Hl1).
    { lia. } { done. } { intros. apply Hin. lia. }
    { apply NoDup_cons. split; [| done]. intros (k & E & Hk)%list_elem_of_fmap.
      apply (Hout k Hk). lia. }
    { done. }
    rewrite Hb1. cbn [mbind option_bind].
    specialize (IH b1 (Block (idx + 2 ^ c) c Free :: lbs) fuel). fold c in IH.
    destruct IH as (b2 & Hb2 & Hg2 & Hc2 & Ht2 & Hl2).
    { lia. } { done. } { lia. } { done. } { intros. apply Hc1, Hin. lia. }
    { intros k [-> | Hk]%elem_of_cons; simpl; [lia |]. specialize (Hout k Hk). lia. }
    { apply NoDup_cons. split; [| done]. intros (k & E & Hk)%list_elem_of_fmap. simpl in E. apply (Hout k Hk). lia. }
    { done. }
    exists b2. pose proof (pow2_mono ord c).
    split_and!.
    + done.
    + by etrans.
    + eapply changed_in_trans; (eapply changed_in_mono; [| | eassumption]); lia.
    + fold c. rewrite split_rest_snoc by done. fold c. apply tiled_app. exists (idx + 2 ^ c). split; [done |].
      simpl. split_and!; [done | | unfold b_end; simpl; lia].
      eapply block_ok_ext; [| exact Hk1]. simpl. intros j Hj. apply Hc2. unfold b_end in Hj. simpl in Hj. lia.
    + rewrite split_rest_snoc by done. fold c. by rewrite <- app_assoc.
Qed.

Lemma tiled_nodup_mid fa lo hi bs1 k bs2 :
  tiled fa lo hi (bs1 ++ k :: bs2) -> NoDup (b_idx k :: (b_idx <$> bs1 ++ bs2)).
Proof.
  intros Ht%tiled_nodup. rewrite <- Permutation_middle, fmap_cons in Ht. done.
Qed.

(** Cutting a free block down to an allocated one of order [ord]. *)
Lemma take_block_spec idx cur ord b bs1 bs2 :
  wf b (bs1 ++ Block idx cur Free :: bs2) -> 0 <= ord <= cur ->
  exists b', (b ← remove_free_block idx cur b;
              b ← split_block (Z.to_nat BUDDY_MAX_ORDER) idx cur ord b;
              b ← mark_block idx ord PAGE_STATE_ALLOC_PAGE_HEAD PAGE_STATE_ALLOC_PAGE_TAIL b;
              upd_frame idx (set_cow_ref_count 1) b) = Some b' /\
    same_globals b b' /\
    changed_in idx (idx + 2 ^ cur) (frame_array b) (frame_array b') /\
    cow_ref_count <$> frame_array b' !! idx = Some 1 /\
    wf b' (bs1 ++ Block idx ord Alloc :: split_rest (Z.to_nat (cur - ord)) idx ord ++ bs2).
Proof.
  intros [Hreg Hrdy Ht Hl] Ho. pose proof (tiled_nodup_mid _ _ _ _ _ _ Ht) as Hnd. simpl in Hnd.
  pose proof Ht as Ht0. apply tiled_focus in Ht0 as (Ht1 & Hk & Ht2). unfold b_end in Ht2. simpl in Ht1, Ht2.
  pose proof (bo_order _ _ Hk) as Hco. pose proof (bo_align _ _ Hk) as Hca. simpl in Hco, Hca.
  pose proof (pow2_pos cur). pose proof (pow2_mono ord cur). pose proof (pow2_pos ord).
  destruct (remove_free_block_spec idx cur b (bs1 ++ bs2)) as (b1 & -> & Hg1 & Hc1 & Hl1); [lia | | done | |].
  { eapply block_ok_is_some; [exact Hk |]. unfold b_end. simpl. lia. }
  { eapply lists_ok_perm; [| exact Hl]. by rewrite Permutation_middle. }
  cbn [mbind option_bind]. set (n := Z.to_nat (cur - ord)). assert (En : cur = ord + Z.of_nat n) by lia.
  destruct (split_block_spec n idx ord b1 (bs1 ++ bs2) (Z.to_nat BUDDY_MAX_ORDER))
    as (b2 & Hb2 & Hg2 & Hc2 & Ht2' & Hl2).
  { unfold BUDDY_MAX_ORDER in *. lia. } { lia. } { lia. } { by rewrite <- En. }
  { intros j Hj. apply Hc1. eapply block_ok_is_some; [exact Hk |]. unfold b_end. simpl. by rewrite <- En in Hj. }
  { rewrite <- En. intros k Hin Hr. apply NoDup_cons in Hnd as [Hnd _]. apply Hnd.
    assert (k = Block idx cur Free) as ->.
    { eapply (tiled_disjoint _ _ _ _ _ _ (b_idx k)); [exact Ht | | | | unfold b_end; simpl; lia].
      - rewrite <- Permutation_middle. by right.
      - rewrite <- Permutation_middle. by left.
      - pose proof (tiled_elem _ _ _ _ k Ht) as Hke. rewrite <- Permutation_middle in Hke.
        destruct Hke as (_ & _ & Hke%block_ok_end); [by right | lia]. }
    apply list_elem_of_fmap. by exists (Block idx cur Free). }
  { by apply NoDup_cons in Hnd as [_ ?]. } { done. }
  rewrite <- En in Hb2, Hc2, Ht2'. rewrite Hb2. cbn [mbind option_bind].
  destruct (mark_block_spec idx ord Alloc b2) as (fa3 & Hb3 & Hc3 & Hk3); [lia | | by right | |].
  { eapply Z.divide_trans; [apply pow2_divide | exact Hca]. lia. }
  { intros j Hj. apply Hc2, Hc1. eapply block_ok_is_some; [exact Hk |]. unfold b_end. simpl. lia. }
  simpl in Hb3. rewrite Hb3. simpl. destruct (bo_head _ _ Hk3) as (f & Hf & Hs & Hor). simpl in Hf, Hs, Hor.
  unfold upd_frame, upd. simpl. rewrite Hf. simpl. eexists. split; [done |]. simpl.
  assert (Hc4 : changed_in idx (idx + 2 ^ cur) (frame_array b) (<[idx:=set_cow_ref_count 1 f]> fa3)).
  { eapply changed_in_trans; [eapply changed_in_trans; [eapply changed_in_trans |] |];
      (eapply changed_in_mono; [| | first [exact Hc1 | exact Hc2 | exact Hc3 | by eapply changed_in_insert]]); lia. }
  split_and!; [destruct Hg1, Hg2; split; simpl; congruence | done | by rewrite lookup_insert_eq |].
  destruct Hg1, Hg2. split; simpl; rewrite ?sg_total1, ?sg_total0.
  - eapply same_globals_region; [| exact Hreg]. split; simpl; congruence.
  - congruence.
  - apply tiled_focus. simpl. split_and!.
    + eapply tiled_changed; [exact Hc4 | by left | done].
    + destruct Hk3 as [? ? ? _ Htl]. split; simpl; [lia | done | by intros [? | ?] | |].
      * eexists. rewrite lookup_insert_eq. done.
      * intros j Hj. destruct (Htl j Hj) as (g & ?). simpl in *. exists g.
        rewrite lookup_insert_ne by lia. done.
    + unfold b_end at 1. simpl. apply tiled_app. exists (idx + 2 ^ cur). split.
      * eapply tiled_ext; [| exact Ht2']. intros j Hj. rewrite lookup_insert_ne by lia. apply Hc3. lia.
      * eapply tiled_changed; [exact Hc4 | by right | done].
  - eapply lists_ok_perm; [apply Permutation_middle |]. apply lists_ok_nonfree; [done |].
    eapply lists_ok_perm; [| exact Hl2]. apply Permutation_app_swap_app.
Qed.

(** ** Allocation *)

(** The search over the orders, when no smaller order has a free block. *)
Lemma alloc_from_spec fuel current ord b bs :
  wf b bs -> 0 <= ord <= current -> BUDDY_MAX_ORDER + 1 - current <= Z.of_nat fuel ->
  (forall k, k ∈ bs -> b_kind k = Free -> ord <= b_order k -> current <= b_order k) ->
  (alloc_from fuel current ord b = Some (0, b) /\ (forall k, k ∈ bs -> b_kind k = Free -> b_order k < ord)) \/
  exists bs' idx b', alloc_from fuel current ord b = Some (page_to_addr idx b, b') /\
    alloc_step ord bs idx bs' /\ wf b' bs' /\ same_globals b b' /\
    cow_ref_count <$> frame_array b' !! idx = Some 1 /\
    (forall k, k ∈ bs -> b_kind k <> Free -> forall j, b_idx k <= j < b_end k ->
       frame_array b' !! j = frame_array b !! j).
Proof.
  intros Hwf Ho. revert current Ho.
  induction fuel as [| fuel IH]; intros current Ho Hf Hmin; cbn [alloc_from].
  all: destruct (Z.ltb_spec BUDDY_MAX_ORDER current).
  1, 3: left; split; [done |]; intros k Hk Hfr; apply Z.nle_gt; intros Hge;
    specialize (Hmin k Hk Hfr Hge); destruct (tiled_elem _ _ _ _ _ (wf_tiled _ _ Hwf) Hk) as (_ & _ & [? _ _ _ _]); lia.
  { lia. }
  destruct (wf_lists _ _ Hwf current) as (xs & Hxs & Hp); [lia |].
  rewrite (list_empty_spec _ _ _ Hxs). cbn [mbind option_bind].
  destruct xs as [| idx xs].
  - rewrite bool_decide_true by done. apply IH; [lia | lia |].
    intros k Hk Hfr Hge. specialize (Hmin k Hk Hfr Hge).
    assert (b_order k <> current); [intros E | lia].
    assert (Hin : b_idx k ∈ free_idxs current bs) by (rewrite elem_free_idxs; destruct k; simpl in *; by subst).
    rewrite <- Hp in Hin. by apply elem_of_nil in Hin.
  - rewrite bool_decide_false by done. right.
    rewrite (list_first_spec _ _ _ _ Hxs). cbn [mbind option_bind frame_of_node].
    assert (Hin : Block idx current Free ∈ bs) by (rewrite <- elem_free_idxs, <- Hp; by left).
    apply list_elem_of_split in Hin as (bs1 & bs2 & ->).
    destruct (take_block_spec idx current ord b bs1 bs2) as (b' & Hrun & Hg & Hc & Hcow & Hwf'); [done | done |].
    set (bs' := bs1 ++ _) in Hwf'. exists bs', idx, b'. split_and!; try done.
    + destruct (remove_free_block idx current b) as [b1 |]; [| done]. cbn [mbind option_bind] in *.
      destruct (split_block _ idx current ord b1) as [b2 |]; [| done]. cbn [mbind option_bind] in *.
      destruct (mark_block idx ord _ _ b2) as [b3 |]; [| done]. cbn [mbind option_bind] in *.
      rewrite Hrun. cbn [mbind option_bind].
      rewrite (buddy_dump_spec b' bs') by apply Hwf'. cbn [mbind option_bind].
      unfold page_to_addr. by rewrite (sg_start _ _ Hg).
    + exists bs1, current, bs2. split_and!; [done | lia | done | done].
    + intros k Hk Hnf j Hj. apply Hc. intros Hr. apply Hnf.
      assert (k = Block idx current Free) as ->; [| done].
      eapply (tiled_disjoint _ _ _ _ _ _ j); [apply Hwf | done | set_solver | done |].
      unfold b_end. simpl. lia.
Qed.

Lemma page_to_addr_spec idx b : region_ok b -> 0 <= idx < G_MEM_TOTAL_PAGE b ->
  page_to_addr idx b = G_MEMPOOL_START b + idx * 2 ^ PAGE_SHIFT /\
  G_MEMPOOL_START b <= page_to_addr idx b < G_MEMPOOL_START b + G_MEMPOOL_SIZE b /\
  (2 ^ PAGE_SHIFT | page_to_addr idx b).
Proof.
  intros [Ha Hs Ht Hsz He] Hi. unfold page_to_addr.
  assert (E : u64 (G_MEMPOOL_START b + u64 (Z.shiftl idx PAGE_SHIFT)) =
              G_MEMPOOL_START b + idx * 2 ^ PAGE_SHIFT).
  { rewrite Z.shiftl_mul_pow2 by done. unfold PAGE_SHIFT in *.
    rewrite (u64_small (idx * 2 ^ 12)) by nia. apply u64_small. nia. }
  rewrite E. split_and!; [done | unfold PAGE_SHIFT in *; nia | unfold PAGE_SHIFT in *; nia |].
  apply Z.divide_add_r; [done | by apply Z.divide_factor_r].
Qed.

Lemma tiled_range b bs k : wf b bs -> k ∈ bs -> 0 <= b_idx k < G_MEM_TOTAL_PAGE b.
Proof.
  intros Hwf Hk. destruct (tiled_elem _ _ _ _ _ (wf_tiled _ _ Hwf) Hk) as (? & ? & ?%block_ok_end). lia.
Qed.

(** [buddy_alloc_pages] on a well-formed state, every branch. *)
Lemma buddy_alloc_pages_spec ord b bs :
  wf b bs -> 0 <= ord ->
  (buddy_alloc_pages ord b = Some (0, b) /\
     (forall k, k ∈ bs -> b_kind k = Free -> b_order k < ord)) \/
  exists bs' idx b', buddy_alloc_pages ord b = Some (G_MEMPOOL_START b + idx * 2 ^ PAGE_SHIFT, b') /\
    0 <= idx < G_MEM_TOTAL_PAGE b /\ ord <= BUDDY_MAX_ORDER /\
    alloc_step ord bs idx bs' /\ wf b' bs' /\ same_globals b b' /\
    cow_ref_count <$> frame_array b' !! idx = Some 1 /\
    (forall k, k ∈ bs -> b_kind k <> Free -> forall j, b_idx k <= j < b_end k ->
       frame_array b' !! j = frame_array b !! j).
Proof.
  intros Hwf Ho. unfold buddy_alloc_pages. rewrite (wf_ready _ _ Hwf). simpl negb. cbn [orb].
  destruct (Z.ltb_spec BUDDY_MAX_ORDER ord).
  { left. split; [done |]. intros k Hk _.
    destruct (tiled_elem _ _ _ _ _ (wf_tiled _ _ Hwf) Hk) as (_ & _ & [? _ _ _ _]). lia. }
  destruct (alloc_from_spec (Z.to_nat (BUDDY_MAX_ORDER + 1)) ord ord b bs)
    as [? | (bs' & idx & b' & Hr & Hst & Hwf' & Hg & Hcow & Hkeep)];
    [done | lia | unfold BUDDY_MAX_ORDER in *; lia | done | by left |].
  right. exists bs', idx, b'.
  assert (Hi : 0 <= idx < G_MEM_TOTAL_PAGE b).
  { destruct Hst as (bs1 & cur & bs2 & -> & _). apply (tiled_range _ _ (Block idx cur Free) Hwf). set_solver. }
  destruct (page_to_addr_spec idx b (wf_region _ _ Hwf) Hi) as (<- & _). done.
Qed.


(** ** Deallocation *)

Lemma tiled_refl_nil fa lo bs : tiled fa lo lo bs -> bs = [].
Proof.
  destruct bs as [| k bs]; [done |]. simpl. intros (<- & Hk & Hbs).
  apply block_ok_end in Hk. apply tiled_le in Hbs. lia.
Qed.

(** Removing one of two adjacent buddies from its list and marking their union. *)
Lemma join_blocks_spec bidx lo ord b bs1 bs2 :
  ord < BUDDY_MAX_ORDER -> (2 ^ (ord + 1) | lo) -> bidx = lo \/ bidx = lo + 2 ^ ord ->
  tiled (frame_array b) 0 (G_MEM_TOTAL_PAGE b)
    (bs1 ++ Block lo ord Free :: Block (lo + 2 ^ ord) ord Free :: bs2) ->
  lists_ok (links b) (Block bidx ord Free :: bs1 ++ bs2) ->
  exists b', (b ← remove_free_block bidx ord b;
              mark_block lo (ord + 1) PAGE_STATE_FREE_HEAD PAGE_STATE_FREE_TAIL b) = Some b' /\
    same_globals b b' /\ changed_in lo (lo + 2 ^ (ord + 1)) (frame_array b) (frame_array b') /\
    tiled (frame_array b') 0 (G_MEM_TOTAL_PAGE b) (bs1 ++ Block lo (ord + 1) Free :: bs2) /\
    lists_ok (links b') (bs1 ++ bs2).
Proof.
  intros Ho Hal Hb Ht Hl.
  assert (Hnd : NoDup (bidx :: (b_idx <$> bs1 ++ bs2))).
  { pose proof (tiled_nodup _ _ _ _ Ht) as Hnd. rewrite <- !Permutation_middle, !fmap_cons in Hnd.
    simpl in Hnd. apply NoDup_cons in Hnd as [H1 [H2 H3]%NoDup_cons].
    destruct Hb as [-> | ->]; apply NoDup_cons; split; set_solver. }
  apply tiled_focus in Ht as (Ht1 & Hk1 & Ht2). destruct Ht2 as (_ & Hk2 & Ht2).
  pose proof (bo_order _ _ Hk1) as Hoo. simpl in Hoo.
  unfold b_end in *. simpl in Ht1, Ht2. pose proof (pow2_pos ord) as Hp.
  rewrite pow2_succ in * by lia.
  assert (Hsome : forall j, lo <= j < lo + 2 * 2 ^ ord -> is_Some (frame_array b !! j)).
  { intros j Hj. destruct (Z.ltb_spec j (lo + 2 ^ ord)).
    - eapply block_ok_is_some; [exact Hk1 |]. unfold b_end. simpl. lia.
    - eapply block_ok_is_some; [exact Hk2 |]. unfold b_end. simpl. lia. }
  destruct (remove_free_block_spec bidx ord b (bs1 ++ bs2)) as (b1 & -> & Hg1 & Hc1 & Hl1);
    [lia | apply Hsome; lia | done | done |]. cbn [mbind option_bind].
  destruct (mark_block_spec lo (ord + 1) Free b1) as (fa' & Hm & Hc & Hk);
    [lia | by rewrite pow2_succ by lia | by left | rewrite pow2_succ by lia |].
  { intros j Hj. by apply Hc1, Hsome. }
  simpl in Hm. rewrite Hm. rewrite pow2_succ in * by lia.
  assert (Hc' : changed_in lo (lo + 2 * 2 ^ ord) (frame_array b) fa').
  { eapply changed_in_trans; (eapply changed_in_mono; [| | eassumption]); lia. }
  eexists. split; [done |]. simpl. split_and!; try done.
  - destruct Hg1. by split.
  - apply tiled_focus. simpl. split_and!; [| done |].
    + eapply tiled_changed; [exact Hc' | by left | done].
    + unfold b_end. simpl. rewrite pow2_succ by lia. eapply tiled_changed; [exact Hc' | by right |].
      by replace (lo + 2 * 2 ^ ord) with (lo + 2 ^ ord + 2 ^ ord) by lia.
Qed.

(** The result of the merge loop: a block that has been marked free, is not yet
    on a list, and whose buddy is not a free block of its order. *)
Definition merged (b : buddy) (s s' : list block * (Z * Z) * list block) (r : option (Z * Z * buddy)) : Prop :=
  let '(bs1', (idx', ord'), bs2') := s' in
  exists b', r = Some (idx', ord', b') /\ same_globals b b' /\ merges s s' /\
    tiled (frame_array b') 0 (G_MEM_TOTAL_PAGE b) (bs1' ++ Block idx' ord' Free :: bs2') /\
    lists_ok (links b') (bs1' ++ bs2') /\
    changed_in idx' (idx' + 2 ^ ord') (frame_array b) (frame_array b') /\
    (ord' < BUDDY_MAX_ORDER -> Block (Z.lxor idx' (2 ^ ord')) ord' Free ∉ bs1' ++ bs2').

(** A page whose frame reads as a free head of order [ord] is that block. *)
Lemma free_head_block b bs i f ord :
  tiled (frame_array b) 0 (G_MEM_TOTAL_PAGE b) bs -> 0 <= i < G_MEM_TOTAL_PAGE b ->
  frame_array b !! i = Some f -> 0 <= ord <= BUDDY_MAX_ORDER ->
  (state f = PAGE_STATE_FREE_HEAD /\ u32 (order f) = ord) <-> Block i ord Free ∈ bs.
Proof.
  intros Ht Hi Hf Ho. split.
  - intros [Hs Hu]. destruct (tiled_head _ _ _ _ _ _ Free Ht Hi Hf Hs) as (bs1 & bs2 & ->).
    apply tiled_focus in Ht as (_ & [Hor _ _ _ _] & _). simpl in Hor.
    unfold BUDDY_MAX_ORDER in *. rewrite u32_small in Hu by lia. subst. set_solver.
  - intros Hin. destruct (tiled_elem _ _ _ _ _ Ht Hin) as (_ & _ & [_ _ _ (f' & ? & ? & ?) _]).
    simpl in *. simplify_eq. unfold BUDDY_MAX_ORDER in *. rewrite u32_small by lia. done.
Qed.

(** Where the buddy block is, when it is free: next to the block being merged. *)
Lemma buddy_neighbour b bs1 idx ord bs2 :
  tiled (frame_array b) 0 (G_MEM_TOTAL_PAGE b) (bs1 ++ Block idx ord Free :: bs2) ->
  Block (Z.lxor idx (2 ^ ord)) ord Free ∈ bs1 ++ bs2 ->
  (exists bs2', bs2 = Block (idx + 2 ^ ord) ord Free :: bs2' /\
     Z.lxor idx (2 ^ ord) = idx + 2 ^ ord /\ (2 ^ (ord + 1) | idx)) \/
  (exists bs1', bs1 = bs1' ++ [Block (idx - 2 ^ ord) ord Free] /\
     Z.lxor idx (2 ^ ord) = idx - 2 ^ ord /\ (2 ^ (ord + 1) | idx - 2 ^ ord)).
Proof.
  intros Ht Hin. apply tiled_focus in Ht as (Ht1 & Hk & Ht2). unfold b_end in Ht2. simpl in *.
  pose proof (bo_order _ _ Hk) as Ho. simpl in Ho. pose proof (pow2_pos ord).
  destruct (lxor_pow2_cases idx ord) as [[Hd Hx] | (Hd & _ & Hx)].
  { apply tiled_le in Ht1. done. } { lia. } { apply Hk. }
  - left. rewrite Hx in Hin. apply elem_of_app in Hin as [Hin | Hin].
    { apply (tiled_elem _ _ _ _ _ Ht1) in Hin as (_ & He & _). unfold b_end in He. simpl in He. lia. }
    destruct bs2 as [| k bs2]; [by apply elem_of_nil in Hin |]. exists bs2. split; [| done]. f_equal.
    eapply (tiled_same_idx _ _ _ (k :: bs2)); [exact Ht2 | by left | done |]. simpl. apply Ht2.
  - right. rewrite Hx in Hin. apply elem_of_app in Hin as [Hin | Hin].
    2: { apply (tiled_elem _ _ _ _ _ Ht2) in Hin as (He & _). simpl in He. lia. }
    apply list_elem_of_split in Hin as (l1 & l2 & ->). apply tiled_focus in Ht1 as (_ & _ & Hl2).
    unfold b_end in Hl2. simpl in Hl2. replace (idx - 2 ^ ord + 2 ^ ord) with idx in Hl2 by lia.
    apply tiled_refl_nil in Hl2 as ->. by exists l1.
Qed.

Lemma merges_range s s' : merges s s' ->
  0 <= s.1.2.2 ->
  s'.1.2.1 <= s.1.2.1 /\ s.1.2.1 + 2 ^ s.1.2.2 <= s'.1.2.1 + 2 ^ s'.1.2.2 /\ s.1.2.2 <= s'.1.2.2.
Proof.
  induction 1 as [| bs1 idx ord bs2 r ? ? ? IH | bs1 idx ord bs2 r ? ? ? IH]; simpl in *; intros Ho; [lia | |].
  all: pose proof (pow2_pos ord); rewrite pow2_succ in IH by lia; lia.
Qed.

(** One more merge in front of a finished run of the loop. *)
Lemma merged_step b b1 s lo ord bs1 bs2 s' r :
  0 <= ord -> same_globals b b1 ->
  changed_in lo (lo + 2 ^ (ord + 1)) (frame_array b) (frame_array b1) ->
  (forall r, merges (bs1, (lo, ord + 1), bs2) r -> merges s r) ->
  merged b1 (bs1, (lo, ord + 1), bs2) s' r -> merged b s s' r.
Proof.
  destruct s' as [[r1 [i' o']] r2].
  intros Ho Hg Hc Hs (b2 & -> & Hg2 & Hm & Ht & Hl & Hc2 & Hno).
  exists b2. rewrite (sg_total _ _ Hg) in Ht. split_and!; try done; [by etrans | by apply Hs |].
  apply merges_range in Hm; simpl in *; [| lia].
  eapply changed_in_trans; (eapply changed_in_mono; [| | eassumption]); lia.
Qed.

Lemma merge_block_spec fuel idx ord b bs1 bs2 :
  BUDDY_MAX_ORDER - ord <= Z.of_nat fuel ->
  tiled (frame_array b) 0 (G_MEM_TOTAL_PAGE b) (bs1 ++ Block idx ord Free :: bs2) ->
  lists_ok (links b) (bs1 ++ bs2) ->
  exists s', merged b (bs1, (idx, ord), bs2) s' (merge_block fuel idx ord b).
Proof.
  revert idx ord b bs1 bs2. induction fuel as [| fuel IH]; intros idx ord b bs1 bs2 Hf Ht Hl.
  all: pose proof (tiled_elem _ _ _ _ (Block idx ord Free) Ht) as Hk;
    destruct Hk as (Hi & He & [Ho Hal _ _ _]); [set_solver |]; unfold b_end in He; simpl in Hi, He, Ho, Hal.
  all: cbn [merge_block]; destruct (Z.ltb_spec ord BUDDY_MAX_ORDER);
    [| exists (bs1, (idx, ord), bs2), b; split_and!; try done; [constructor | lia]].
  { lia. }
  rewrite shiftl_1 by lia. set (bi := Z.lxor idx (2 ^ ord)). pose proof (pow2_pos ord) as Hp.
  assert (Hbi : 0 <= bi /\ bi <> idx).
  { subst bi. destruct (lxor_pow2_cases idx ord) as [[_ ->] | (_ & ? & ->)]; try done; lia. }
  assert (Hstop : Block bi ord Free ∉ bs1 ++ bs2 ->
    exists s', merged b (bs1, (idx, ord), bs2) s' (Some (idx, ord, b))).
  { intros Hno. exists (bs1, (idx, ord), bs2), b. split_and!; try done. constructor. }
  destruct (Z.leb_spec (G_MEM_TOTAL_PAGE b) bi).
  { apply Hstop. intros Hin. assert (Hin' : Block bi ord Free ∈ bs1 ++ Block idx ord Free :: bs2) by set_solver.
    destruct (tiled_elem _ _ _ _ _ Ht Hin') as (_ & ? & ?%block_ok_end). simpl in *. lia. }
  destruct (tiled_is_some _ _ _ _ bi Ht) as [f Hfr]; [lia |]. rewrite Hfr. cbn [mbind option_bind].
  pose proof (free_head_block b _ bi f ord Ht ltac:(lia) Hfr ltac:(lia)) as Hfree.
  assert (Hin_iff : Block bi ord Free ∈ bs1 ++ Block idx ord Free :: bs2 <-> Block bi ord Free ∈ bs1 ++ bs2).
  { rewrite !elem_of_app, elem_of_cons. split; [intros [? | [E | ?]] | ]; [tauto | | tauto | tauto].
    exfalso. injection E. tauto. }
  rewrite Hin_iff in Hfree.
  destruct (bool_decide_reflect (state f = PAGE_STATE_FREE_HEAD)); simpl negb; cbn [orb]; [| apply Hstop; tauto].
  destruct (Z.eqb_spec (u32 (order f)) ord); simpl negb; [| apply Hstop; tauto].
  assert (Hin : Block bi ord Free ∈ bs1 ++ bs2) by tauto. clear Hfree Hin_iff Hstop Hfr.
  destruct (buddy_neighbour b bs1 idx ord bs2 Ht Hin) as [(bs2' & -> & Hx & Hd) | (bs1' & -> & Hx & Hd)].
  - fold bi in Hx. rewrite Hx. replace (idx + 2 ^ ord <? idx) with false by (symmetry; apply Z.ltb_ge; lia).
    destruct (join_blocks_spec (idx + 2 ^ ord) idx ord b bs1 bs2') as (b1 & Hrun & Hg & Hc & Ht' & Hl'); try done.
    { by right. } { eapply lists_ok_perm; [| exact Hl]. by rewrite Permutation_middle. }
    destruct (remove_free_block (idx + 2 ^ ord) ord b) as [b0 |]; [| done]. cbn [mbind option_bind] in *.
    rewrite Hrun. cbn [mbind option_bind]. rewrite <- (sg_total _ _ Hg) in Ht'.
    destruct (IH idx (ord + 1) b1 bs1 bs2' ltac:(lia) Ht' Hl') as [s' Hs'].
    exists s'. eapply merged_step; [| exact Hg | exact Hc | | exact Hs']; [lia |].
    intros r Hr. by apply merges_right.
  - fold bi in Hx. rewrite Hx. replace (idx - 2 ^ ord <? idx) with true by (symmetry; apply Z.ltb_lt; lia).
    rewrite <- app_assoc in Ht. simpl in Ht.
    destruct (join_blocks_spec (idx - 2 ^ ord) (idx - 2 ^ ord) ord b bs1' bs2)
      as (b1 & Hrun & Hg & Hc & Ht' & Hl'); try done.
    { by left. } { by replace (idx - 2 ^ ord + 2 ^ ord) with idx by lia. }
    { eapply lists_ok_perm; [| exact Hl]. rewrite <- app_assoc. by rewrite Permutation_middle. }
    destruct (remove_free_block (idx - 2 ^ ord) ord b) as [b0 |]; [| done]. cbn [mbind option_bind] in *.
    rewrite Hrun. cbn [mbind option_bind]. rewrite <- (sg_total _ _ Hg) in Ht'.
    destruct (IH (idx - 2 ^ ord) (ord + 1) b1 bs1' bs2 ltac:(lia) Ht' Hl') as [s' Hs'].
    exists s'. eapply merged_step; [| exact Hg | exact Hc | | exact Hs']; [lia |].
    intros r Hr. by apply merges_left.
Qed.

Lemma merges_nonfree s s' k : merges s s' -> b_kind k <> Free -> k ∈ s.1.1 ++ s.2 -> k ∈ s'.1.1 ++ s'.2.
Proof.
  induction 1; simpl in *; intros Hk Hin; [done | |]; apply IHmerges; try done.
  all: rewrite ?elem_of_app, ?elem_of_cons in *; set_solver.
Qed.

(** The address checks of [buddy_free_pages]. *)
Definition page_of_addr (b : buddy) (ptr : Z) : option Z :=
  if bool_decide (G_MEMPOOL_START b <= ptr < G_MEMPOOL_START b + G_MEMPOOL_SIZE b /\ ptr mod PAGE_SIZE = 0)
  then Some ((ptr - G_MEMPOOL_START b) / PAGE_SIZE) else None.

Lemma page_of_addr_page b i : region_ok b -> 0 <= i < G_MEM_TOTAL_PAGE b ->
  page_of_addr b (G_MEMPOOL_START b + i * 2 ^ PAGE_SHIFT) = Some i.
Proof.
  intros [[q Ha] Hs Ht Hsz He] Hi. unfold page_of_addr, PAGE_SIZE, PAGE_SHIFT in *.
  rewrite Ha. change (Z.shiftl 1 12) with 4096. change (2 ^ 12) with 4096 in *.
  rewrite bool_decide_true.
  - f_equal. rewrite Z.add_simpl_l. apply Z.div_mul. lia.
  - split; [lia |]. rewrite <- Z.mul_add_distr_r. apply Z.mod_mul. lia.
Qed.

(** On a well-formed state the checks let through exactly the heads of the
    allocated blocks: everything else leaves the state unchanged. *)
Lemma buddy_free_pages_reject ptr b bs :
  wf b bs -> 0 <= ptr < 2 ^ 64 ->
  (forall i ord, page_of_addr b ptr = Some i -> Block i ord Alloc ∉ bs) ->
  buddy_free_pages ptr b = Some b.
Proof.
  intros Hwf Hptr Hno. pose proof (wf_region _ _ Hwf) as [Ha Hs Ht Hsz He].
  unfold buddy_free_pages. rewrite (wf_ready _ _ Hwf). simpl negb. cbn [orb].
  destruct (Z.eqb_spec ptr 0); [done |].
  destruct (Z.ltb_spec ptr (G_MEMPOOL_START b)); [done |].
  rewrite (u64_small (G_MEMPOOL_START b + _)) by (unfold PAGE_SHIFT in *; nia).
  destruct (Z.leb_spec (G_MEMPOOL_START b + G_MEMPOOL_SIZE b) ptr); [done |]. cbn [orb].
  change (PAGE_SIZE - 1) with (2 ^ 12 - 1). rewrite land_mask by lia.
  destruct (Z.eqb_spec (ptr mod 2 ^ 12) 0); simpl negb; cbv iota; [| done].
  rewrite u64_small by lia. rewrite Z.shiftr_div_pow2 by done.
  destruct (Z.leb_spec (G_MEM_TOTAL_PAGE b) ((ptr - G_MEMPOOL_START b) / 2 ^ PAGE_SHIFT)); [done |].
  assert (Hpage : page_of_addr b ptr = Some ((ptr - G_MEMPOOL_START b) / 2 ^ PAGE_SHIFT)).
  { unfold page_of_addr. rewrite bool_decide_true; [done |]. done. }
  assert (Hr : 0 <= (ptr - G_MEMPOOL_START b) / 2 ^ PAGE_SHIFT < G_MEM_TOTAL_PAGE b).
  { split; [apply Z.div_pos; unfold PAGE_SHIFT; lia | done]. }
  destruct (tiled_is_some _ _ _ _ _ (wf_tiled _ _ Hwf) Hr) as [f Hf].
  rewrite Hf. cbn [mbind option_bind].
  destruct (bool_decide_reflect (state f = PAGE_STATE_ALLOC_PAGE_HEAD)) as [E |]; simpl negb; cbv iota; [| done].
  destruct (tiled_head _ _ _ _ _ _ Alloc (wf_tiled _ _ Hwf) Hr Hf E) as (bs1 & bs2 & ->).
  exfalso. apply (Hno _ (order f) Hpage). set_solver.
Qed.

(** Freeing the head of an allocated block. *)
Lemma buddy_free_pages_spec i ord b bs1 bs2 :
  wf b (bs1 ++ Block i ord Alloc :: bs2) ->
  exists b' bs1' idx' ord' bs2',
    buddy_free_pages (G_MEMPOOL_START b + i * 2 ^ PAGE_SHIFT) b = Some b' /\
    merges (bs1, (i, ord), bs2) (bs1', (idx', ord'), bs2') /\
    (ord' < BUDDY_MAX_ORDER -> Block (Z.lxor idx' (2 ^ ord')) ord' Free ∉ bs1' ++ bs2') /\
    wf b' (bs1' ++ Block idx' ord' Free :: bs2') /\ same_globals b b' /\
    (forall k, k ∈ bs1 ++ bs2 -> b_kind k <> Free -> forall j, b_idx k <= j < b_end k ->
       frame_array b' !! j = frame_array b !! j).
Proof.
  intros Hwf. pose proof (wf_region _ _ Hwf) as Hreg. pose proof Hreg as [Ha Hs Htot Hsz He].
  assert (Hi : 0 <= i < G_MEM_TOTAL_PAGE b) by (apply (tiled_range _ _ (Block i ord Alloc) Hwf); set_solver).
  destruct (page_to_addr_spec i b Hreg Hi) as (Hpa & Hpr & Hpd). rewrite <- Hpa.
  pose proof (wf_tiled _ _ Hwf) as Ht. pose proof Ht as Ht0. apply tiled_focus in Ht0 as (Ht1 & Hk & Ht2).
  pose proof Hk as [Ho Hal _ (f & Hf & Hst & Hor) Htl]. simpl in Ho, Hal, Hf, Hst, Hor.
  unfold buddy_free_pages. rewrite (wf_ready _ _ Hwf). simpl negb. cbn [orb].
  set (p := page_to_addr i b) in *.
  destruct (Z.eqb_spec p 0); [lia |]. destruct (Z.ltb_spec p (G_MEMPOOL_START b)); [lia |].
  rewrite (u64_small (G_MEMPOOL_START b + _)) by lia.
  destruct (Z.leb_spec (G_MEMPOOL_START b + G_MEMPOOL_SIZE b) p); [lia |]. cbn [orb].
  change (PAGE_SIZE - 1) with (2 ^ 12 - 1). rewrite land_mask by lia.
  replace (p mod 2 ^ 12) with 0 by (symmetry; by apply divide_mod in Hpd).
  rewrite Z.eqb_refl. simpl negb. cbv iota. rewrite (u64_small (p - _)) by lia.
  replace ((p - G_MEMPOOL_START b) ⋙ PAGE_SHIFT) with i.
  2: { rewrite Hpa, Z.add_simpl_l, Z.shiftr_div_pow2 by done. symmetry. by apply Z.div_mul. }
  destruct (Z.leb_spec (G_MEM_TOTAL_PAGE b) i); [lia |]. rewrite Hf. cbn [mbind option_bind].
  rewrite Hst, bool_decide_true by done. simpl negb. cbv iota.
  rewrite Hor, u32_small by (unfold BUDDY_MAX_ORDER in *; lia).
  destruct (mark_block_spec i ord Free b) as (fa1 & Hm & Hc1 & Hk1); [done | done | by left | |].
  { intros j Hj. by eapply block_ok_is_some. }
  simpl in Hm. rewrite Hm. cbn [mbind option_bind].
  assert (Ht' : tiled fa1 0 (G_MEM_TOTAL_PAGE b) (bs1 ++ Block i ord Free :: bs2)).
  { apply tiled_focus. split_and!; [| done |].
    - eapply tiled_changed; [exact Hc1 | by left | done].
    - eapply tiled_changed; [exact Hc1 | by right | done]. }
  assert (Hl : lists_ok (links b) (bs1 ++ bs2)).
  { apply (proj1 (lists_ok_nonfree (links b) (Block i ord Alloc) (bs1 ++ bs2) ltac:(done))).
    eapply lists_ok_perm; [symmetry; apply Permutation_middle | apply Hwf]. }
  destruct (merge_block_spec (Z.to_nat BUDDY_MAX_ORDER) i ord (set_frame_array fa1 b) bs1 bs2)
    as ([[bs1' [i' o']] bs2'] & b2 & -> & Hg2 & Hmg & Ht2' & Hl2 & Hc2 & Hno);
    [unfold BUDDY_MAX_ORDER in *; lia | done | done |]. cbn [mbind option_bind].
  simpl G_MEM_TOTAL_PAGE in Ht2'. simpl frame_array in Hc2.
  pose proof (tiled_elem _ _ _ _ (Block i' o' Free) Ht2') as Hk'.
  destruct Hk' as (Hi' & He' & Hk'); [set_solver |].
  destruct (add_free_block_spec i' o' b2 (bs1' ++ bs2')) as (b3 & -> & Hg3 & Hc3 & Hk3 & Hl3).
  { apply Hk'. } { apply Hk'. } { intros j Hj. by eapply block_ok_is_some. }
  { by apply tiled_nodup_mid in Ht2'. } { done. }
  cbn [mbind option_bind].
  assert (Ht3 : tiled (frame_array b3) 0 (G_MEM_TOTAL_PAGE b) (bs1' ++ Block i' o' Free :: bs2')).
  { apply tiled_focus in Ht2' as (? & _ & ?). apply tiled_focus. split_and!; [| done |].
    - eapply tiled_changed; [exact Hc3 | by left | done].
    - eapply tiled_changed; [exact Hc3 | by right | done]. }
  assert (Hg : same_globals b b3) by (etrans; [| exact Hg3]; destruct Hg2; by split).
  assert (Hl4 : lists_ok (links b3) (bs1' ++ Block i' o' Free :: bs2')).
  { eapply lists_ok_perm; [| exact Hl3]. by rewrite Permutation_middle. }
  rewrite (buddy_dump_spec b3 (bs1' ++ Block i' o' Free :: bs2')); [| done |].
  2: { by rewrite (sg_total _ _ Hg). }
  cbn [mbind option_bind]. exists b3, bs1', i', o', bs2'. split_and!; try done.
  - split; [by eapply same_globals_region | | | done].
    + rewrite (sg_ready _ _ Hg). apply Hwf.
    + by rewrite (sg_total _ _ Hg).
  - intros k Hin Hnf j Hj.
    pose proof (merges_range _ _ Hmg) as Hrg. simpl in Hrg.
    assert (Hout : ~ i' <= j < i' + 2 ^ o').
    { intros Hr. apply Hnf. assert (k = Block i' o' Free) as ->; [| done].
      pose proof (merges_nonfree _ _ k Hmg Hnf Hin) as Hin'. simpl in Hin'.
      eapply (tiled_disjoint _ _ _ _ _ _ j); [exact Ht2' | set_solver | set_solver | done | done]. }
    rewrite (proj1 Hc3) by done. rewrite (proj1 Hc2) by done. apply Hc1. lia.
Qed.

(** ** Consequences on tilings *)

Lemma elem_split_rest n idx ord k : 0 <= ord ->
  k ∈ split_rest n idx ord <->
  exists o, ord <= o < ord + Z.of_nat n /\ k = Block (idx + 2 ^ o) o Free.
Proof.
  revert ord. induction n as [| n IH]; intros ord Ho; simpl split_rest.
  - split; [by intros ?%elem_of_nil | intros (o & ? & _); lia].
  - rewrite elem_of_cons, IH by lia. split.
    + intros [-> | (o & ? & ->)]; [exists ord | exists o]; (split; [lia | done]).
    + intros (o & ? & ->). destruct (decide (o = ord)) as [-> | ?]; [by left | right].
      exists o. split; [lia | done].
Qed.

Lemma lxor_pow2_invol i o : Z.lxor (Z.lxor i (2 ^ o)) (2 ^ o) = i.
Proof. by rewrite Z.lxor_assoc, Z.lxor_nilpotent, Z.lxor_0_r. Qed.

Lemma lxor_pow2_aligned i o : 0 <= i -> 0 <= o -> (2 ^ (o + 1) | i) -> Z.lxor i (2 ^ o) = i + 2 ^ o.
Proof.
  intros Hi Ho Hd. pose proof (pow2_pos o Ho). destruct (pow2_divide_half o i Ho Hd) as [Hd' _].
  destruct (lxor_pow2_cases i o Hi Ho Hd') as [[_ ?] | (Hd2 & _ & _)]; [done |]. exfalso.
  assert (Hp : (2 ^ (o + 1) | 2 ^ o)).
  { replace (2 ^ o) with (i - (i - 2 ^ o)) by lia. by apply Z.divide_sub_r. }
  apply Z.divide_pos_le in Hp; [| lia]. rewrite pow2_succ in Hp by done. lia.
Qed.

Lemma coalesced_perm bs bs' : bs ≡ₚ bs' -> coalesced bs -> coalesced bs'.
Proof. intros Hp Hc i o. rewrite <- Hp. apply Hc. Qed.

(** Cutting a block keeps everything merged. *)
Lemma coalesced_alloc fa lo hi ord bs idx bs' :
  0 <= ord -> 0 <= idx -> (forall k, k ∈ bs -> b_idx k = idx -> (2 ^ b_order k | idx)) ->
  tiled fa lo hi bs' -> alloc_step ord bs idx bs' -> coalesced bs -> coalesced bs'.
Proof.
  intros Ho Hidx Hal Ht (bs1 & cur & bs2 & -> & Hle & _ & ->) Hc i o Hm Hin Hbud.
  assert (Hcur : (2 ^ cur | idx)) by (apply (Hal (Block idx cur Free)); set_solver).
  assert (Huniq : forall k, k ∈ bs1 ++ bs2 -> b_idx k <> idx).
  { intros k Hk E. pose proof (tiled_nodup_mid _ _ _ _ _ _ Ht) as Hnd. simpl in Hnd.
    apply NoDup_cons in Hnd as [Hnd _]. apply Hnd, list_elem_of_fmap. exists k. split; [done |]. set_solver. }
  assert (Hold : forall j o', Block j o' Free ∈ bs1 ++ Block idx ord Alloc :: split_rest (Z.to_nat (cur - ord)) idx ord ++ bs2 ->
    Block j o' Free ∈ bs1 ++ bs2 \/ (j = idx + 2 ^ o' /\ ord <= o' < cur)).
  { intros j o'. rewrite !elem_of_app, elem_of_cons, elem_of_app, elem_split_rest by done.
    intros [? | [[=] | [(o1 & ? & [= -> ->]) | ?]]]; [tauto | right; split; [done | lia] | tauto]. }
  assert (Hsplit : forall o', ord <= o' < cur -> Z.lxor (idx + 2 ^ o') (2 ^ o') = idx).
  { intros o' Ho'. rewrite <- (lxor_pow2_aligned idx o') by
      first [lia | eapply Z.divide_trans; [apply pow2_divide | exact Hcur]; lia]. apply lxor_pow2_invol. }
  destruct (Hold _ _ Hin) as [Hi | [-> Hi]], (Hold _ _ Hbud) as [Hb | [Eb Hb]].
  - apply (Hc i o Hm); set_solver.
  - apply (Huniq _ Hi). simpl. rewrite <- (lxor_pow2_invol i o), Eb. by apply Hsplit.
  - apply (Huniq _ Hb). simpl. by apply Hsplit.
  - rewrite Hsplit in Eb by done. pose proof (pow2_pos o). lia.
Qed.

Lemma merges_subset s s' : merges s s' -> s'.1.1 ++ s'.2 ⊆ s.1.1 ++ s.2.
Proof. induction 1; simpl in *; set_solver. Qed.

Lemma coalesced_free bs1 idx ord bs2 bs1' idx' ord' bs2' :
  coalesced (bs1 ++ Block idx ord Alloc :: bs2) ->
  merges (bs1, (idx, ord), bs2) (bs1', (idx', ord'), bs2') ->
  (ord' < BUDDY_MAX_ORDER -> Block (Z.lxor idx' (2 ^ ord')) ord' Free ∉ bs1' ++ bs2') ->
  0 <= ord' -> coalesced (bs1' ++ Block idx' ord' Free :: bs2').
Proof.
  intros Hc Hm Hno Ho'. apply merges_subset in Hm. simpl in Hm.
  assert (Hsub : forall k, k ∈ bs1' ++ bs2' -> k ∈ bs1 ++ Block idx ord Alloc :: bs2).
  { intros k Hk. apply Hm in Hk. rewrite elem_of_app in Hk. rewrite elem_of_app, elem_of_cons. tauto. }
  apply (coalesced_perm (Block idx' ord' Free :: bs1' ++ bs2')); [apply Permutation_middle |].
  intros i o Hom [[= -> ->] | Hi]%elem_of_cons [E | Hb]%elem_of_cons.
  - injection E as E. apply (f_equal (Z.lxor idx')) in E.
    rewrite <- Z.lxor_assoc, Z.lxor_nilpotent, Z.lxor_0_l in E. pose proof (pow2_pos ord'). lia.
  - by apply Hno in Hb.
  - injection E as E <-. apply Hno; [done |]. rewrite <- E. by rewrite lxor_pow2_invol.
  - apply (Hc i o Hom); by apply Hsub.
Qed.

Lemma free_pages_split_rest n idx ord : 0 <= ord ->
  free_pages (split_rest n idx ord) = 2 ^ (ord + Z.of_nat n) - 2 ^ ord.
Proof.
  revert ord. induction n as [| n IH]; intros ord Ho; simpl split_rest; [simpl; rewrite Z.add_0_r; lia |].
  cbn [free_pages foldr b_kind b_order]. rewrite decide_True by done.
  change (foldr _ 0 (split_rest n idx (ord + 1))) with (free_pages (split_rest n idx (ord + 1))).
  rewrite IH by lia. rewrite pow2_succ by lia.
  replace (ord + 1 + Z.of_nat n) with (ord + Z.of_nat (S n)) by lia. lia.
Qed.

Lemma free_pages_cons k bs :
  free_pages (k :: bs) = (if decide (b_kind k = Free) then 2 ^ b_order k else 0) + free_pages bs.
Proof. done. Qed.

Lemma free_pages_alloc ord bs idx bs' :
  0 <= ord -> alloc_step ord bs idx bs' -> free_pages bs' = free_pages bs - 2 ^ ord.
Proof.
  intros Ho (bs1 & cur & bs2 & -> & Hle & _ & ->).
  rewrite !free_pages_app, !free_pages_cons, free_pages_app, free_pages_split_rest by done. simpl.
  replace (ord + Z.of_nat (Z.to_nat (cur - ord))) with cur by lia. lia.
Qed.

Lemma free_pages_merges s s' : merges s s' -> 0 <= s.1.2.2 ->
  free_pages s'.1.1 + 2 ^ s'.1.2.2 + free_pages s'.2 = free_pages s.1.1 + 2 ^ s.1.2.2 + free_pages s.2.
Proof.
  induction 1; simpl fst in *; simpl snd in *; intros Ho; [done | |].
  - rewrite IHmerges by lia. rewrite free_pages_cons, pow2_succ by done. simpl. lia.
  - rewrite IHmerges by lia. rewrite free_pages_app, free_pages_cons, pow2_succ by done. simpl. lia.
Qed.

(** Merging what a split released gives back the block that was split. *)
Lemma merges_undo_split n bs1 idx ord bs2 s' :
  0 <= idx -> 0 <= ord -> (2 ^ (ord + Z.of_nat n) | idx) ->
  merges (bs1, (idx, ord), split_rest n idx ord ++ bs2) s' ->
  (s'.1.2.2 < BUDDY_MAX_ORDER -> Block (Z.lxor s'.1.2.1 (2 ^ s'.1.2.2)) s'.1.2.2 Free ∉ s'.1.1 ++ s'.2) ->
  ord + Z.of_nat n <= BUDDY_MAX_ORDER ->
  (ord + Z.of_nat n < BUDDY_MAX_ORDER ->
    Block (Z.lxor idx (2 ^ (ord + Z.of_nat n))) (ord + Z.of_nat n) Free ∉ bs1 ++ bs2) ->
  s' = (bs1, (idx, ord + Z.of_nat n), bs2).
Proof.
  revert ord. induction n as [| n IH]; intros ord Hidx Ho Hal Hm Hno Hmax Hc.
  - rewrite Z.add_0_r in *. simpl in Hm. inversion Hm; subst; [done | |].
    + exfalso. apply Hc; [done |]. rewrite elem_of_app, elem_of_cons. right. left. congruence.
    + exfalso. apply Hc; [done |]. rewrite !elem_of_app, elem_of_cons. left. right. left. congruence.
  - assert (Hx : Z.lxor idx (2 ^ ord) = idx + 2 ^ ord).
    { apply lxor_pow2_aligned; [done | done |]. eapply Z.divide_trans; [apply pow2_divide | exact Hal]. lia. }
    replace (ord + Z.of_nat (S n)) with (ord + 1 + Z.of_nat n) in * by lia.
    simpl in Hm. inversion Hm; subst; simpl in *.
    + exfalso. apply Hno; [lia |]. rewrite Hx. set_solver.
    + apply IH; try done; lia.
    + pose proof (pow2_pos ord). lia.
Qed.
