(* ===== verification/BuddyInit.v ===== *)
(** * Initialisation of the buddy allocator

    [buddy_init] builds, from a frame array in which the reserved pages are
    marked, the tiling into the largest aligned blocks: a well-formed, fully
    merged state in which exactly the unreserved pages are free. *)

From S2P Require Import Prelude Config Align IList Buddy BuddySpec BuddyProofs.

(** ** The loops over frames and lists *)

Definition reserved (fa : gmap Z frame) (j : Z) : Prop :=
  exists f, fa !! j = Some f /\ state f = PAGE_STATE_RESERVED.

Lemma init_frames_spec n i b :
  (forall j, i <= j < i + Z.of_nat n -> is_Some (frame_array b !! j)) ->
  exists b', init_frames n i b = Some b' /\ same_globals b b' /\
    forall j, frame_array b' !! j =
      if decide (i <= j < i + Z.of_nat n) then init_frame <$> frame_array b !! j else frame_array b !! j.
Proof.
  revert i b. induction n as [| n IH]; intros i b Hin; cbn [init_frames].
  - exists b. split_and!; [done | reflexivity |]. intros j. by rewrite decide_False by lia.
  - unfold upd_frame. destruct (upd_spec i init_frame (frame_array b)) as (f & Hf & ->); [apply Hin; lia |].
    cbn [mbind option_bind].
    match goal with |- context [init_frames n (i + 1) ?B] => destruct (IH (i + 1) B) as (b' & -> & Hg & Hl) end.
    { intros j Hj. simpl. rewrite lookup_insert_ne by lia. apply Hin. lia. }
    exists b'. split_and!; [done | destruct Hg; by split |]. intros j. rewrite Hl. simpl.
    destruct (decide (j = i)) as [-> | ?].
    + rewrite decide_False, decide_True by lia. by rewrite lookup_insert_eq, Hf.
    + rewrite lookup_insert_ne by done. by do 2 case_decide; try lia.
Qed.

Lemma init_free_area_spec n i l ord :
  (i <= ord < i + Z.of_nat n -> is_list (init_free_area n i l) (FreeArea ord) []) /\
  (~ i <= ord < i + Z.of_nat n -> is_list l (FreeArea ord) [] ->
     is_list (init_free_area n i l) (FreeArea ord) []).
Proof.
  revert i l. induction n as [| n IH]; intros i l; cbn [init_free_area].
  - split; [lia | done].
  - destruct (IH (i + 1) (INIT_LIST_HEAD (FreeArea i) l)) as [IH1 IH2]. split.
    + intros Ho. destruct (decide (ord = i)) as [-> | ?]; [| apply IH1; lia].
      apply IH2; [lia | apply INIT_LIST_HEAD_spec].
    + intros Ho Hl. apply IH2; [lia |]. eapply is_list_frame; [apply INIT_LIST_HEAD_outside | | done].
      intros x Hx. apply list_elem_of_singleton in Hx as ->. intros [= E]%list_elem_of_singleton. lia.
Qed.

(** [pick_order] returns the largest order that is aligned and fits. *)
Lemma pick_order_spec n idx fc : 1 <= fc ->
  exists o, pick_order n idx fc = Some o /\ 0 <= o <= Z.of_nat n /\ (2 ^ o | idx) /\ 2 ^ o <= fc /\
    forall o', o < o' <= Z.of_nat n -> (2 ^ o' | idx) -> fc < 2 ^ o'.
Proof.
  intros Hfc. induction n as [| n IH]; cbn [pick_order]; rewrite shiftl_1, land_mask by lia.
  - exists 0. change (Z.of_nat 0) with 0. rewrite Z.mod_1_r. simpl Z.eqb. cbn [andb].
    destruct (Z.leb_spec (2 ^ 0) fc); [| simpl in *; lia].
    split_and!; try done; try lia. by exists idx; lia.
  - destruct (Z.eqb_spec (idx mod 2 ^ Z.of_nat (S n)) 0) as [E | E]; cbn [andb].
    1: destruct (Z.leb_spec (2 ^ Z.of_nat (S n)) fc).
    + exists (Z.of_nat (S n)). split_and!; try done; try lia. by apply divide_mod; [lia |].
    + destruct IH as (o & -> & ? & ? & ? & Hmax). exists o. split_and!; try done; try lia.
      intros o' Ho' Hd. destruct (decide (o' = Z.of_nat (S n))) as [-> | ?]; [done |]. apply Hmax; [lia | done].
    + destruct IH as (o & -> & ? & ? & ? & Hmax). exists o. split_and!; try done; try lia.
      intros o' Ho' Hd. destruct (decide (o' = Z.of_nat (S n))) as [-> | ?].
      * exfalso. apply E. by apply divide_mod in Hd; [| lia].
      * apply Hmax; [lia | done].
Qed.

Section Init.
  (** The reserved pages and the size of the pool. *)
  Context (R : Z -> Prop) (total : Z).

(** What the construction knows of the blocks it has placed. *)
Record placed (k : block) : Prop := {
  pl_kind : b_kind k = Free \/ b_kind k = Reserved;
  pl_pages : forall j, b_idx k <= j < b_end k -> (R j <-> b_kind k = Reserved);
  pl_max : b_kind k = Free -> b_order k < BUDDY_MAX_ORDER -> (2 ^ (b_order k + 1) | b_idx k) ->
    exists j, b_idx k <= j < b_idx k + 2 ^ (b_order k + 1) /\ (total <= j \/ R j);
}.

(** The pages from [idx] up are untouched: reserved exactly where [R] says. *)
Definition pending (idx : Z) (fa : gmap Z frame) : Prop :=
  forall j, idx <= j < total -> exists f, fa !! j = Some f /\ (state f = PAGE_STATE_RESERVED <-> R j).

Record building (idx : Z) (b : buddy) (bs : list block) : Prop := {
  bu_total : G_MEM_TOTAL_PAGE b = total;
  bu_idx : 0 <= idx <= total;
  bu_tiled : tiled (frame_array b) 0 idx bs;
  bu_lists : lists_ok (links b) bs;
  bu_placed : forall k, k ∈ bs -> placed k;
  bu_pending : pending idx (frame_array b);
}.

Lemma building_fresh idx b bs : building idx b bs -> NoDup (idx :: (b_idx <$> bs)).
Proof.
  intros [_ _ Ht _ _ _]. apply NoDup_cons. split; [| by eapply tiled_nodup].
  intros (k & -> & Hk)%list_elem_of_fmap.
  destruct (tiled_elem _ _ _ _ _ Ht Hk) as (_ & ? & ?%block_ok_end). lia.
Qed.

Lemma pending_changed idx fa fa' lo hi :
  changed_in lo hi fa fa' -> hi <= idx -> pending idx fa -> pending idx fa'.
Proof.
  intros [Hc _] Hhi Hp j Hj. destruct (Hp j Hj) as (f & Hf & ?). exists f.
  rewrite Hc by lia. done.
Qed.

Lemma count_free_spec fuel idx fc b bs :
  building idx b bs -> 0 <= fc -> idx + fc <= total -> total - (idx + fc) <= Z.of_nat fuel ->
  (forall j, idx <= j < idx + fc -> ~ R j) ->
  exists fc', count_free fuel idx fc b = Some fc' /\ fc <= fc' /\ idx + fc' <= total /\
    (forall j, idx <= j < idx + fc' -> ~ R j) /\ (idx + fc' < total -> R (idx + fc')).
Proof.
  intros Hb. pose proof (bu_total _ _ _ Hb) as Htot. pose proof (bu_idx _ _ _ Hb) as Hidx.
  revert fc. induction fuel as [| fuel IH]; intros fc Hfc Hle Hf Hr; cbn [count_free]; rewrite Htot.
  all: destruct (Z.ltb_spec (idx + fc) total); [| exists fc; split_and!; try done; lia].
  { lia. }
  destruct (bu_pending _ _ _ Hb (idx + fc)) as (f & -> & Hst); [lia |]. cbn [mbind option_bind].
  case_decide as E.
  - exists fc. split_and!; try done; try lia. tauto.
  - destruct (IH (fc + 1)) as (fc' & -> & ? & ? & ? & ?); try lia.
    { intros j Hj. destruct (decide (j = idx + fc)) as [-> | ?]; [tauto | apply Hr; lia]. }
    exists fc'. split_and!; try done. lia.
Qed.

(** Placing one block of the largest order that fits in a run of [fc] pages. *)
Lemma place_block idx fc ord b bs :
  building idx b bs -> 0 <= ord <= BUDDY_MAX_ORDER -> (2 ^ ord | idx) -> 2 ^ ord <= fc ->
  (forall o', ord < o' <= BUDDY_MAX_ORDER -> (2 ^ o' | idx) -> fc < 2 ^ o') ->
  idx + fc <= total -> (forall j, idx <= j < idx + fc -> ~ R j) -> (idx + fc < total -> R (idx + fc)) ->
  exists b', add_free_block idx ord b = Some b' /\ same_globals b b' /\
    building (idx + 2 ^ ord) b' (bs ++ [Block idx ord Free]).
Proof.
  intros Hb Ho Hal Hfit Hmax Hle Hrun Hend. pose proof (building_fresh _ _ _ Hb) as Hnd.
  pose proof Hb as [Htot Hidx Ht Hl Hpl Hpend]. pose proof (pow2_pos ord).
  destruct (add_free_block_spec idx ord b bs) as (b' & -> & Hg & Hc & Hk & Hl'); [done | done | | done | done |].
  { intros j Hj. destruct (Hpend j) as (f & -> & _); [lia | eauto]. }
  exists b'. split_and!; [done | done |]. split.
  - by rewrite (sg_total _ _ Hg).
  - lia.
  - apply tiled_focus. split_and!; [| done | unfold b_end; simpl; lia].
    simpl. eapply tiled_changed; [exact Hc | by left | done].
  - eapply lists_ok_perm; [| exact Hl']. apply Permutation_cons_append.
  - intros k [Hk' | ->%list_elem_of_singleton]%elem_of_app; [by apply Hpl |]. split; simpl.
    + by left.
    + unfold b_end. simpl. intros j Hj. split; [| done]. intros HR. exfalso. apply (Hrun j); [lia | done].
    + intros _ Hom Hd. specialize (Hmax (ord + 1) ltac:(lia) Hd). exists (idx + fc).
      split; [lia |]. destruct (decide (idx + fc = total)); [left; lia | right; apply Hend; lia].
  - eapply pending_changed; [exact Hc | lia |]. intros j Hj. apply Hpend. lia.
Qed.

Lemma break_free_spec fuel idx fc b bs :
  building idx b bs -> 0 <= fc <= Z.of_nat fuel ->
  idx + fc <= total -> (forall j, idx <= j < idx + fc -> ~ R j) -> (idx + fc < total -> R (idx + fc)) ->
  exists b' bs', break_free fuel idx fc b = Some (idx + fc, b') /\ same_globals b b' /\
    building (idx + fc) b' bs'.
Proof.
  revert idx fc b bs. induction fuel as [| fuel IH]; intros idx fc b bs Hb Hf Hle Hrun Hend; cbn [break_free].
  all: destruct (Z.ltb_spec 0 fc);
    [| assert (fc = 0) as -> by lia; rewrite Z.add_0_r; exists b, bs; by split_and!].
  { lia. }
  destruct (pick_order_spec (Z.to_nat BUDDY_MAX_ORDER) idx fc) as (o & -> & Ho & Hal & Hfit & Hmax); [lia |].
  rewrite Z2Nat.id in Ho, Hmax by done. pose proof (pow2_pos o).
  destruct (place_block idx fc o b bs) as (b1 & -> & Hg1 & Hb1); try done.
  cbn [mbind option_bind]. rewrite shiftl_1 by lia.
  destruct (IH (idx + 2 ^ o) (fc - 2 ^ o) b1 (bs ++ [Block idx o Free])) as (b2 & bs2 & Hr & Hg2 & Hb2); try done.
  { lia. } { lia. } { intros j Hj. apply Hrun. lia. }
  { intros. replace (idx + 2 ^ o + (fc - 2 ^ o)) with (idx + fc) in * by lia. by apply Hend. }
  exists b2, bs2. replace (idx + 2 ^ o + (fc - 2 ^ o)) with (idx + fc) in * by lia.
  split_and!; [done | by etrans | done].
Qed.

(** A reserved page becomes a reserved block of order 0. *)
Lemma place_reserved idx b bs f :
  building idx b bs -> idx < total -> frame_array b !! idx = Some f -> state f = PAGE_STATE_RESERVED ->
  exists b', upd_frame idx (set_order 0) b = Some b' /\ same_globals b b' /\
    building (idx + 1) b' (bs ++ [Block idx 0 Reserved]).
Proof.
  intros Hb Hlt Hf Hs. pose proof Hb as [Htot Hidx Ht Hl Hpl Hpend].
  unfold upd_frame, upd. rewrite Hf. cbn [mbind option_bind]. eexists. split; [done |].
  split; [by split |]. pose proof (changed_in_insert idx f (set_order 0 f) _ Hf) as Hc.
  destruct (Hpend idx) as (f' & Hf' & HR); [lia |]. simplify_eq.
  split; simpl; [done | lia | | | |].
  - apply tiled_focus. simpl. split_and!; [| | unfold b_end; simpl; lia].
    + eapply tiled_changed; [exact Hc | by left | done].
    + split; simpl; [by unfold BUDDY_MAX_ORDER | by exists idx; lia | done | |].
      * eexists. rewrite lookup_insert_eq. done.
      * unfold b_end. simpl. lia.
  - eapply lists_ok_perm; [apply Permutation_cons_append |]. by apply lists_ok_nonfree.
  - intros k [Hk' | ->%list_elem_of_singleton]%elem_of_app; [by apply Hpl |]. split; simpl; [by right | | done].
    unfold b_end. simpl. intros j Hj. assert (j = idx) as -> by lia. tauto.
  - eapply pending_changed; [exact Hc | lia |]. intros j Hj. apply Hpend. lia.
Qed.

Lemma init_blocks_spec fuel idx b bs :
  building idx b bs -> total - idx <= Z.of_nat fuel ->
  exists b' bs', init_blocks fuel idx b = Some b' /\ same_globals b b' /\ building total b' bs'.
Proof.
  revert idx b bs. induction fuel as [| fuel IH]; intros idx b bs Hb Hf; cbn [init_blocks].
  all: pose proof (bu_total _ _ _ Hb) as Htot; pose proof (bu_idx _ _ _ Hb) as Hidx; rewrite Htot.
  all: destruct (Z.ltb_spec idx total);
    [| assert (idx = total) as -> by lia; exists b, bs; by split_and!].
  { lia. }
  destruct (bu_pending _ _ _ Hb idx) as (f & Hfr & HR); [lia |]. rewrite Hfr. cbn [mbind option_bind].
  case_decide as E.
  - destruct (place_reserved idx b bs f) as (b1 & -> & Hg1 & Hb1); try done. cbn [mbind option_bind].
    destruct (IH (idx + 1) b1 _ Hb1) as (b2 & bs2 & -> & Hg2 & ?); [lia |].
    exists b2, bs2. split_and!; [done | by etrans | done].
  - destruct (count_free_spec (Z.to_nat total) idx 0 b bs) as (fc & -> & ? & ? & Hrun & Hend); try done; try lia.
    cbn [mbind option_bind].
    assert (fc <> 0) by (intros ->; apply E; rewrite HR, <- (Z.add_0_r idx); apply Hend; lia).
    destruct (break_free_spec (Z.to_nat fc) idx fc b bs) as (b1 & bs1 & -> & Hg1 & Hb1); try done; try lia.
    cbn [mbind option_bind].
    destruct (IH (idx + fc) b1 _ Hb1) as (b2 & bs2 & -> & Hg2 & ?); [lia |].
    exists b2, bs2. split_and!; [done | by etrans | done].
Qed.

(** The greedy construction leaves no two buddies free. *)
Lemma placed_coalesced fa bs :
  tiled fa 0 total bs -> (forall k, k ∈ bs -> placed k) -> coalesced bs.
Proof.
  intros Ht Hpl.
  assert (Hpair : forall i o, 0 <= o < BUDDY_MAX_ORDER -> (2 ^ (o + 1) | i) ->
    Block i o Free ∈ bs -> Block (i + 2 ^ o) o Free ∈ bs -> False).
  { intros i o Ho Hd H1 H2. pose proof (pow2_pos o).
    destruct (tiled_elem _ _ _ _ _ Ht H2) as (_ & Hend & _). unfold b_end in Hend. simpl in Hend.
    destruct (pl_max _ (Hpl _ H1)) as (j & Hj & HR); [done | simpl; lia | done |].
    simpl in Hj. rewrite pow2_succ in Hj by lia. destruct HR as [? | HR]; [lia |].
    destruct (Z.ltb_spec j (i + 2 ^ o)).
    - apply (pl_pages _ (Hpl _ H1)) in HR; [done |]. unfold b_end. simpl. lia.
    - apply (pl_pages _ (Hpl _ H2)) in HR; [done |]. unfold b_end. simpl. lia. }
  intros i o Hm Hin Hb. destruct (tiled_elem _ _ _ _ _ Ht Hin) as (Hi & _ & [Ho Hal _ _ _]). simpl in *.
  destruct (lxor_pow2_cases i o) as [[Hd Hx] | (Hd & _ & Hx)]; try done; [lia | |]; rewrite Hx in Hb.
  - apply (Hpair i o); try done. lia.
  - apply (Hpair (i - 2 ^ o) o); try done; [lia |]. by replace (i - 2 ^ o + 2 ^ o) with i by lia.
Qed.

End Init.

(** ** [buddy_init] *)

(** The tiling after initialisation: free and reserved blocks only, the
    reserved ones exactly where the frame array said so. *)
Definition initial (fa : gmap Z frame) (bs : list block) : Prop :=
  forall k, k ∈ bs -> (b_kind k = Free \/ b_kind k = Reserved) /\
    forall j, b_idx k <= j < b_end k -> (reserved fa j <-> b_kind k = Reserved).

Lemma buddy_init_run b :
  region_ok b -> (forall j, 0 <= j < G_MEM_TOTAL_PAGE b -> is_Some (frame_array b !! j)) ->
  exists b' bs, buddy_init b = Some b' /\ wf b' bs /\ coalesced bs /\ initial (frame_array b) bs /\
    G_MEMPOOL_START b' = G_MEMPOOL_START b /\ G_MEM_TOTAL_PAGE b' = G_MEM_TOTAL_PAGE b.
Proof.
  intros Hreg Hin. pose proof Hreg as [_ _ Htot _ _]. unfold buddy_init.
  destruct (init_frames_spec (Z.to_nat (G_MEM_TOTAL_PAGE b)) 0 b) as (b1 & -> & Hg1 & Hl1).
  { intros j Hj. apply Hin. lia. }
  cbn [mbind option_bind].
  set (b2 := set_links _ b1).
  destruct (init_blocks_spec (reserved (frame_array b)) (G_MEM_TOTAL_PAGE b) (Z.to_nat (G_MEM_TOTAL_PAGE b)) 0 b2 [])
    as (b3 & bs & Erun & Hg3 & [Ht3 _ Htl Hli Hpl _]).
  { split; simpl; try done; [apply Hg1 | | set_solver |].
    - intros ord Ho. exists []. split; [| done].
      refine (proj1 (init_free_area_spec (Z.to_nat (BUDDY_MAX_ORDER + 1)) 0 (links b1) ord) _).
      unfold BUDDY_MAX_ORDER in *. lia.
    - intros j Hj. rewrite Hl1, decide_True by lia. destruct (Hin j Hj) as [f Hf]. rewrite Hf.
      eexists. split; [done |]. unfold reserved. rewrite Hf. unfold init_frame.
      destruct (decide (state (set_order (-1) f) = PAGE_STATE_RESERVED)) as [E | E]; simpl in *; [naive_solver |].
      split; [done |]. intros (f' & [= <-] & ?). done. }
  { lia. }
  assert (Eb2 : G_MEM_TOTAL_PAGE b2 = G_MEM_TOTAL_PAGE b) by apply Hg1.
  rewrite Eb2, Erun. cbn [mbind option_bind]. exists (set_ready true b3), bs.
  assert (Hg : same_globals b2 (set_ready (buddy_ready b2) b3)) by (destruct Hg3; by split).
  split_and!; [done | | by eapply placed_coalesced | | |].
  - split; simpl; [| done | by rewrite Ht3 | done].
    destruct Hreg as [? ? ? ? ?], Hg1 as [E1 E2 E3 _], Hg3 as [E4 E5 E6 _]. simpl in E4, E5, E6.
    split; simpl; rewrite ?E4, ?E5, ?E6, ?E1, ?E2, ?E3; done.
  - intros k Hk. destruct (Hpl k Hk). split; done.
  - simpl. rewrite (sg_start _ _ Hg3). simpl. apply Hg1.
  - done.
Qed.
