(* ===== verification/BuddyProps.v ===== *)
(** * Properties of the buddy allocator

    What [lib/buddy.c] promises its callers, over the abstract tilings of
    [BuddySpec.v]: the pool region, the reservation of ranges, initialisation,
    allocation, deallocation and their composition. *)

From S2P Require Import Prelude Config Align IList Buddy BuddySpec BuddyProofs BuddyInit.

(** ** The demo pool, used by the witnesses *)

Lemma demo_region : region_ok demo.
Proof.
  split; try done.
  - exists 0x81000. reflexivity.
Qed.

Lemma demo_present j : 0 <= j < G_MEM_TOTAL_PAGE demo -> is_Some (frame_array demo !! j).
Proof.
  intros Hj. simpl in Hj.
  assert (Hc : forall n : nat, (n < 13)%nat -> is_Some (demo_frames !! Z.of_nat n)).
  { intros n Hn. do 13 (destruct n as [| n]; [vm_compute; eauto |]). lia. }
  rewrite <- (Z2Nat.id j) by lia. apply Hc. lia.
Qed.

(** The demo pool after [buddy_init]: page 4 is reserved, the rest is free. *)
Definition demo_blocks : list block :=
  [Block 0 2 Free; Block 4 0 Reserved; Block 5 0 Free; Block 6 1 Free; Block 8 2 Free; Block 12 0 Free].

Definition demo_ready : buddy := default demo (buddy_init demo).

Lemma tiled_det fa lo hi bs bs' : tiled fa lo hi bs -> tiled fa lo hi bs' -> bs = bs'.
Proof.
  revert lo bs'. induction bs as [| [i o kd] bs IH]; intros lo bs' Ht Ht'.
  { simpl in Ht. subst. by apply tiled_refl_nil in Ht'. }
  destruct bs' as [| [i' o' kd'] bs'].
  { simpl in Ht'. subst hi. by apply tiled_refl_nil in Ht. }
  simpl in Ht, Ht'. destruct Ht as (-> & Hk & Ht), Ht' as (-> & Hk' & Ht').
  destruct Hk as [_ _ _ (f & Hf & Hs & Ho) _], Hk' as [_ _ _ (f' & Hf' & Hs' & Ho') _].
  simpl in *. rewrite Hf in Hf'. injection Hf' as <-.
  assert (kd = kd') as -> by (destruct kd, kd'; simpl in *; congruence).
  subst. f_equal. eapply IH; [exact Ht | done].
Qed.

Lemma demo_init : buddy_init demo = Some demo_ready.
Proof. vm_compute. reflexivity. Qed.

Lemma demo_ready_total : G_MEM_TOTAL_PAGE demo_ready = 13.
Proof. vm_compute. reflexivity. Qed.

(** A page's expected state and order, as a check that evaluates. *)
Definition frame_check (fa : gmap Z frame) (i : Z) (s : page_state) (o : Z) : bool :=
  match fa !! i with Some f => bool_decide (state f = s) && (order f =? o) | None => false end.

Lemma frame_check_is fa i s o : frame_check fa i s o = true -> frame_is fa i s o.
Proof.
  unfold frame_check, frame_is. destruct (fa !! i) as [f |]; [| done].
  intros [?%bool_decide_eq_true ?%Z.eqb_eq]%andb_true_iff. by exists f.
Qed.

(** [block_ok] as a check that evaluates. *)
Definition block_check (fa : gmap Z frame) (k : block) : bool :=
  (0 <=? b_order k) && (b_order k <=? BUDDY_MAX_ORDER) && (b_idx k mod 2 ^ b_order k =? 0) &&
  match b_kind k with Pool | Reserved => b_order k =? 0 | _ => true end &&
  frame_check fa (b_idx k) (head_state (b_kind k)) (b_order k) &&
  forallb (fun n => frame_check fa (b_idx k + 1 + Z.of_nat n) (tail_state (b_kind k)) (-1))
    (seq 0 (Z.to_nat (2 ^ b_order k - 1))).

Lemma block_check_ok fa k : block_check fa k = true -> block_ok fa k.
Proof.
  unfold block_check. rewrite !andb_true_iff, !Z.leb_le, Z.eqb_eq, forallb_forall.
  intros (((((? & ?) & Hd) & Hs) & Hh) & Ht). split.
  - done.
  - by apply divide_mod.
  - destruct (b_kind k); intros [? | ?]; try done; by apply Z.eqb_eq.
  - by apply frame_check_is.
  - intros j Hj. unfold b_end in Hj. apply frame_check_is.
    replace j with (b_idx k + 1 + Z.of_nat (Z.to_nat (j - b_idx k - 1))) by lia.
    apply Ht, in_seq. lia.
Qed.

Fixpoint tiled_check (fa : gmap Z frame) (lo hi : Z) (bs : list block) : bool :=
  match bs with
  | [] => lo =? hi
  | k :: bs => (b_idx k =? lo) && block_check fa k && tiled_check fa (b_end k) hi bs
  end.

Lemma tiled_check_ok fa lo hi bs : tiled_check fa lo hi bs = true -> tiled fa lo hi bs.
Proof.
  revert lo. induction bs as [| k bs IH]; simpl; intros lo; [apply Z.eqb_eq |].
  rewrite !andb_true_iff, Z.eqb_eq. intros ((? & ?%block_check_ok) & ?%IH). done.
Qed.

(** Freshly initialised pools are the well-formed states the witnesses use. *)
Lemma demo_ready_wf : wf demo_ready demo_blocks /\ coalesced demo_blocks.
Proof.
  destruct (buddy_init_run demo demo_region demo_present) as (b' & bs & E & Hwf & Hc & _).
  rewrite demo_init in E. apply (inj Some) in E. subst b'.
  assert (bs = demo_blocks) as ->; [| done].
  apply (tiled_det (frame_array demo_ready) 0 13).
  - rewrite <- demo_ready_total. apply Hwf.
  - apply tiled_check_ok. vm_compute. reflexivity.
Qed.

(** From here the demo states are only compared through the lemmas above. *)
#[local] Opaque buddy_init buddy_alloc_pages buddy_free_pages demo_ready demo.

(** ** Initialisation *)

(** [buddy_init], on a pool whose frame array is present, terminates in a
    well-formed state: the pool is tiled by free blocks and by the pages marked
    reserved, exactly the reserved pages are outside free blocks, the free
    lists hold exactly the free blocks, and no two free buddies are left
    unmerged. *)
Theorem buddy_init_establishes b :
  region_ok b -> (forall j, 0 <= j < G_MEM_TOTAL_PAGE b -> is_Some (frame_array b !! j)) ->
  exists b' bs, buddy_init b = Some b' /\ wf b' bs /\ coalesced bs /\ initial (frame_array b) bs /\
    G_MEMPOOL_START b' = G_MEMPOOL_START b /\ G_MEM_TOTAL_PAGE b' = G_MEM_TOTAL_PAGE b.
Proof. apply buddy_init_run. Qed.

Lemma buddy_init_establishes_witness :
  exists b' bs, buddy_init demo = Some b' /\ wf b' bs /\ coalesced bs.
Proof.
  destruct (buddy_init_establishes demo demo_region demo_present) as (b' & bs & ? & ? & ? & _).
  exists b', bs. split_and!; assumption.
Defined.

(** ** Allocation *)

(** C3: [buddy_alloc_pages] implements the abstract allocation step on every
    branch: either it answers NULL, leaves the state unchanged, and no free
    block is large enough, or it takes a smallest sufficient free block at page
    [idx], cuts it to the requested order, returns the address of the page,
    keeps the invariant and the absence of unmerged buddies, uses exactly
    [2^ord] free pages and leaves every page outside free blocks untouched. *)
Theorem buddy_alloc_pages_refines ord b bs :
  wf b bs -> coalesced bs -> 0 <= ord ->
  (buddy_alloc_pages ord b = Some (0, b) /\
     (forall k, k ∈ bs -> b_kind k = Free -> b_order k < ord)) \/
  exists bs' idx b', buddy_alloc_pages ord b = Some (G_MEMPOOL_START b + idx * PAGE_SIZE, b') /\
    alloc_step ord bs idx bs' /\ wf b' bs' /\ coalesced bs' /\
    free_pages bs' = free_pages bs - 2 ^ ord /\ same_globals b b' /\
    (forall k, k ∈ bs -> b_kind k <> Free -> forall j, b_idx k <= j < b_end k ->
       frame_array b' !! j = frame_array b !! j).
Proof.
  intros Hwf Hc Ho.
  destruct (buddy_alloc_pages_spec ord b bs Hwf Ho) as [? | (bs' & idx & b' & Hr & Hi & _ & Hst & Hwf' & Hg & _ & Hk)];
    [by left | right].
  exists bs', idx, b'. split_and!; try done; [| by eapply free_pages_alloc].
  apply (coalesced_alloc (frame_array b') 0 (G_MEM_TOTAL_PAGE b') ord bs idx); try done; [lia | | apply Hwf'].
  intros k Hk' <-. by destruct (tiled_elem _ _ _ _ _ (wf_tiled _ _ Hwf) Hk') as (_ & _ & [? ? _ _ _]).
Qed.

Lemma buddy_alloc_pages_refines_witness :
  exists bs' idx b', buddy_alloc_pages 0 demo_ready = Some (G_MEMPOOL_START demo_ready + idx * PAGE_SIZE, b') /\
    alloc_step 0 demo_blocks idx bs' /\ wf b' bs' /\ free_pages bs' = 11.
Proof.
  destruct demo_ready_wf as [Hwf Hc].
  destruct (buddy_alloc_pages_refines 0 demo_ready demo_blocks Hwf Hc) as [[_ Hno] | (bs' & idx & b' & ? & ? & ? & _ & ? & _)].
  - lia.
  - specialize (Hno (Block 5 0 Free)). simpl in Hno. set_solver by lia.
  - exists bs', idx, b'. split_and!; assumption.
Defined.

(** ** Deallocation *)

Lemma page_of_addr_globals b b' ptr : same_globals b b' -> page_of_addr b' ptr = page_of_addr b ptr.
Proof. intros [E1 E2 _ _]. unfold page_of_addr. by rewrite E1, E2. Qed.

Lemma page_of_addr_inv b ptr i : region_ok b -> page_of_addr b ptr = Some i ->
  ptr = G_MEMPOOL_START b + i * PAGE_SIZE.
Proof.
  intros [[q Hq] _ _ _ _]. unfold page_of_addr. case_bool_decide as Hr; [| done]. intros [= <-].
  unfold PAGE_SHIFT in Hq. rewrite PAGE_SIZE_val in *. change (2 ^ 12) with 4096 in Hq.
  destruct Hr as [_ Hm]. apply Z.mod_divide in Hm as [r ->]; [| lia].
  rewrite Hq, <- Z.mul_sub_distr_r, Z.div_mul by lia. lia.
Qed.

(** C4: [buddy_free_pages] implements the abstract deallocation step: freeing
    the address of an allocated block terminates, makes the block free, merges
    it with free buddies as far as possible, keeps the invariant and the
    absence of unmerged buddies, gives back exactly [2^ord] pages and leaves
    every other page outside free blocks untouched. *)
Theorem buddy_free_pages_refines idx ord b bs :
  wf b bs -> coalesced bs -> Block idx ord Alloc ∈ bs ->
  exists b' bs', buddy_free_pages (G_MEMPOOL_START b + idx * PAGE_SIZE) b = Some b' /\
    free_step idx bs bs' /\ wf b' bs' /\ coalesced bs' /\
    free_pages bs' = free_pages bs + 2 ^ ord /\ same_globals b b' /\
    (forall k, k ∈ bs -> b_kind k <> Free -> b_idx k <> idx -> forall j, b_idx k <= j < b_end k ->
       frame_array b' !! j = frame_array b !! j).
Proof.
  intros Hwf Hc (bs1 & bs2 & ->)%list_elem_of_split.
  destruct (buddy_free_pages_spec idx ord b bs1 bs2 Hwf)
    as (b' & bs1' & idx' & ord' & bs2' & Hr & Hm & Hno & Hwf' & Hg & Hk).
  destruct (tiled_elem _ _ _ _ (Block idx' ord' Free) (wf_tiled _ _ Hwf')) as (_ & _ & [[Ho' _] _ _ _ _]); [set_solver |].
  destruct (tiled_elem _ _ _ _ (Block idx ord Alloc) (wf_tiled _ _ Hwf)) as (_ & _ & [[Ho _] _ _ _ _]); [set_solver |].
  exists b', (bs1' ++ Block idx' ord' Free :: bs2'). split_and!; try done.
  - exists bs1, ord, bs2, bs1', idx', ord', bs2'. done.
  - by eapply coalesced_free.
  - pose proof (free_pages_merges _ _ Hm Ho) as E. simpl in E.
    rewrite !free_pages_app, !free_pages_cons. simpl. lia.
  - intros k Hin Hnf Hne j Hj. apply (Hk k); try done.
    rewrite elem_of_app, elem_of_cons in Hin. rewrite elem_of_app. naive_solver.
Qed.

Definition demo_alloc : buddy := snd (default (0, demo) (buddy_alloc_pages 1 demo_ready)).

Lemma demo_alloc_run : buddy_alloc_pages 1 demo_ready = Some (G_MEMPOOL_START demo_ready + 6 * PAGE_SIZE, demo_alloc).
Proof. vm_compute. reflexivity. Qed.

#[local] Opaque demo_alloc.

Definition demo_alloc_blocks : list block :=
  [Block 0 2 Free; Block 4 0 Reserved; Block 5 0 Free; Block 6 1 Alloc; Block 8 2 Free; Block 12 0 Free].

Lemma demo_alloc_wf : wf demo_alloc demo_alloc_blocks.
Proof.
  destruct demo_ready_wf as [Hwf _].
  destruct (buddy_alloc_pages_spec 1 demo_ready demo_blocks Hwf) as [[E _] | (bs' & idx & b' & E & _ & _ & _ & Hwf' & _)];
    [lia | |]; rewrite demo_alloc_run in E; apply (inj Some) in E.
  - apply (f_equal fst) in E. vm_compute in E. done.
  - apply (f_equal snd) in E. simpl in E. subst b'.
    assert (bs' = demo_alloc_blocks) as ->; [| done].
    apply (tiled_det (frame_array demo_alloc) 0 (G_MEM_TOTAL_PAGE demo_alloc)); [apply Hwf' |].
    apply tiled_check_ok. vm_compute. reflexivity.
Qed.

Lemma demo_alloc_coalesced : coalesced demo_alloc_blocks.
Proof.
  intros i o _ Hi Hb. unfold demo_alloc_blocks in Hi. rewrite !elem_of_cons in Hi.
  decompose [or] Hi; try (exfalso; congruence); simplify_eq; vm_compute in Hb; set_solver.
Qed.

Lemma buddy_free_pages_refines_witness :
  exists b' bs', buddy_free_pages (G_MEMPOOL_START demo_alloc + 6 * PAGE_SIZE) demo_alloc = Some b' /\
    free_step 6 demo_alloc_blocks bs' /\ wf b' bs' /\ coalesced bs' /\ free_pages bs' = 12.
Proof.
  destruct (buddy_free_pages_refines 6 1 demo_alloc demo_alloc_blocks) as (b' & bs' & ? & ? & ? & ? & ? & _).
  - apply demo_alloc_wf.
  - apply demo_alloc_coalesced.
  - unfold demo_alloc_blocks. set_solver.
  - exists b', bs'. split_and!; assumption.
Defined.

(** [buddy_free_pages] ignores every pointer that is not the page-aligned
    address of the head of an allocated block: NULL, addresses outside the
    pool, unaligned ones, heads and tails of free blocks, tails of allocated
    blocks, reserved pages and pages handed to the chunk allocator. *)
Theorem buddy_free_pages_rejects ptr b bs :
  wf b bs -> 0 <= ptr < 2 ^ 64 ->
  (forall i ord, ptr = G_MEMPOOL_START b + i * PAGE_SIZE -> Block i ord Alloc ∉ bs) ->
  buddy_free_pages ptr b = Some b.
Proof.
  intros Hwf Hp Hno. apply (buddy_free_pages_reject ptr b bs Hwf Hp).
  intros i ord Hpage. apply (Hno i ord). apply page_of_addr_inv; [apply Hwf | done].
Qed.

Lemma buddy_free_pages_rejects_witness :
  buddy_free_pages (G_MEMPOOL_START demo_alloc + 7 * PAGE_SIZE) demo_alloc = Some demo_alloc.
Proof.
  apply (buddy_free_pages_rejects _ demo_alloc demo_alloc_blocks demo_alloc_wf).
  - vm_compute. split; congruence.
  - intros i ord E Hin. assert (i = 7) as -> by (rewrite PAGE_SIZE_val in E; lia).
    clear E. unfold demo_alloc_blocks in Hin. rewrite !elem_of_cons, elem_of_nil in Hin. intuition congruence.
Defined.

(** A second [buddy_free_pages] of the same pointer has no effect, whatever
    the pointer: a double free is always caught. *)
Theorem buddy_free_pages_twice ptr b b' bs :
  wf b bs -> 0 <= ptr < 2 ^ 64 -> buddy_free_pages ptr b = Some b' ->
  buddy_free_pages ptr b' = Some b'.
Proof.
  intros Hwf Hp Hr.
  destruct (page_of_addr b ptr) as [i |] eqn:Hpage.
  2: { pose proof (buddy_free_pages_reject ptr b bs Hwf Hp ltac:(congruence)) as E.
       rewrite E in Hr. apply (inj Some) in Hr. subst b'. exact E. }
  destruct (decide (Exists (fun k => k = Block i (b_order k) Alloc) bs)) as [Hex | Hno].
  - apply Exists_exists in Hex as (k & (bs1 & bs2 & ->)%list_elem_of_split & Hk).
    rewrite Hk in Hwf. set (ord := b_order k) in *. clearbody ord. clear k Hk.
    assert (Hi : 0 <= i < G_MEM_TOTAL_PAGE b) by (apply (tiled_range _ _ (Block i ord Alloc) Hwf); set_solver).
    assert (Eptr : ptr = G_MEMPOOL_START b + i * 2 ^ PAGE_SHIFT) by (apply page_of_addr_inv; [apply Hwf | done]).
    destruct (buddy_free_pages_spec i ord b bs1 bs2 Hwf)
      as (b1 & bs1' & idx' & ord' & bs2' & Hr' & Hm & _ & Hwf' & Hg & _).
    rewrite <- Eptr, Hr in Hr'. apply (inj Some) in Hr'. subst b1.
    apply (buddy_free_pages_reject ptr b' _ Hwf' Hp).
    intros j o Hj Hin. rewrite (page_of_addr_globals b b' ptr Hg), Hpage in Hj. injection Hj as <-.
    pose proof (merges_range _ _ Hm) as Hrg. simpl in Hrg.
    assert (Block i o Alloc = Block idx' ord' Free); [| done].
    pose proof (wf_tiled _ _ Hwf') as Ht.
    destruct (tiled_elem _ _ _ _ _ Ht Hin) as (_ & _ & [[Ho _] _ _ _ _]). simpl in Ho.
    pose proof (pow2_pos o Ho).
    destruct (tiled_elem _ _ _ _ (Block i ord Alloc) (wf_tiled _ _ Hwf)) as (_ & _ & [[Ho' _] _ _ _ _]); [set_solver |].
    simpl in Ho'. pose proof (pow2_pos ord Ho').
    eapply (tiled_disjoint _ _ _ _ _ _ i Ht); [done | set_solver | unfold b_end; simpl; lia | unfold b_end; simpl; lia].
  - assert (E : buddy_free_pages ptr b = Some b).
    { apply (buddy_free_pages_reject ptr b bs Hwf Hp). intros j o Hj Hin.
      apply Hno, Exists_exists. exists (Block j o Alloc). split; [exact Hin |]. simpl. congruence. }
    rewrite E in Hr. apply (inj Some) in Hr. subst b'. exact E.
Qed.

Lemma buddy_free_pages_twice_witness :
  exists b', buddy_free_pages (G_MEMPOOL_START demo_alloc + 6 * PAGE_SIZE) demo_alloc = Some b' /\
    buddy_free_pages (G_MEMPOOL_START demo_alloc + 6 * PAGE_SIZE) b' = Some b'.
Proof.
  destruct (buddy_free_pages_spec 6 1 demo_alloc
    [Block 0 2 Free; Block 4 0 Reserved; Block 5 0 Free] [Block 8 2 Free; Block 12 0 Free])
    as (b' & _ & _ & _ & _ & E & _); [apply demo_alloc_wf |].
  exists b'. split; [exact E |].
  apply (buddy_free_pages_twice _ demo_alloc b' demo_alloc_blocks demo_alloc_wf); [| exact E].
  vm_compute. split; congruence.
Defined.

(** Freeing a block right after its allocation restores the pool: the same
    tiling, hence the same free blocks, page for page.  Allocation followed by
    deallocation neither leaks pages nor fragments the pool. *)
Theorem buddy_alloc_free_inverse ord b bs p b1 :
  wf b bs -> coalesced bs -> 0 <= ord ->
  buddy_alloc_pages ord b = Some (p, b1) -> p <> 0 ->
  exists b2, buddy_free_pages p b1 = Some b2 /\ wf b2 bs /\ same_globals b b2.
Proof.
  intros Hwf Hc Ho Hr Hp.
  destruct (buddy_alloc_pages_spec ord b bs Hwf Ho)
    as [[E _] | (bs' & idx & b' & E & Hi & _ & (bs1 & cur & bs2 & -> & Hle & _ & ->) & Hwf' & Hg & _)];
    rewrite Hr in E; apply (inj Some) in E.
  { apply (f_equal fst) in E. done. }
  pose proof (f_equal fst E) as E1. pose proof (f_equal snd E) as E2. cbn [fst snd] in E1, E2. subst p b'.
  destruct (tiled_elem _ _ _ _ (Block idx cur Free) (wf_tiled _ _ Hwf)) as (_ & _ & [[_ Hcm] Hal _ _ _]); [set_solver |].
  simpl in Hcm, Hal.
  destruct (buddy_free_pages_spec idx ord b1 bs1 (split_rest (Z.to_nat (cur - ord)) idx ord ++ bs2))
    as (b2 & bs1' & idx' & ord' & bs2' & Hf & Hm & Hno & Hwf2 & Hg2 & _); [done |].
  replace cur with (ord + Z.of_nat (Z.to_nat (cur - ord))) in Hwf, Hc, Hal, Hcm by lia.
  assert (Es : (bs1', (idx', ord'), bs2') = (bs1, (idx, ord + Z.of_nat (Z.to_nat (cur - ord))), bs2)).
  { eapply merges_undo_split; [lia | done | exact Hal | exact Hm | exact Hno | exact Hcm |].
    intros Hlt Hb. apply (Hc idx (ord + Z.of_nat (Z.to_nat (cur - ord))) Hlt); [set_solver |].
    rewrite elem_of_app, elem_of_cons. rewrite elem_of_app in Hb. tauto. }
  injection Es as -> -> -> ->. exists b2. rewrite (sg_start _ _ Hg) in Hf.
  split_and!; [exact Hf | | by etrans].
  replace (Z.of_nat (Z.to_nat (cur - ord))) with (cur - ord) in * by lia.
  by replace (ord + (cur - ord)) with cur in * by lia.
Qed.

Lemma buddy_alloc_free_inverse_witness :
  exists b2, buddy_free_pages (G_MEMPOOL_START demo_ready + 6 * PAGE_SIZE) demo_alloc = Some b2 /\ wf b2 demo_blocks.
Proof.
  destruct demo_ready_wf as [Hwf Hc].
  destruct (buddy_alloc_free_inverse 1 demo_ready demo_blocks _ _ Hwf Hc ltac:(lia) demo_alloc_run)
    as (b2 & E & Hwf2 & _).
  - vm_compute. congruence.
  - exists b2. split; assumption.
Defined.

(** ** The pool region and its reserved ranges *)

(** [buddy_set_region] always leaves a page-aligned pool of between one and
    [BUDDY_TOTAL_PAGES] pages whose size is exactly its number of pages; a
    region of at least a page is honoured (start rounded up, size rounded down
    and capped, and inside the region when its start is aligned), anything
    smaller selects the default pool. *)
Theorem buddy_set_region_bounds start size b :
  0 <= start -> start + PAGE_SIZE <= 2 ^ 64 -> 0 <= size < 2 ^ 64 ->
  let b' := buddy_set_region start size b in
  (2 ^ PAGE_SHIFT | G_MEMPOOL_START b') /\
  G_MEMPOOL_SIZE b' = G_MEM_TOTAL_PAGE b' * 2 ^ PAGE_SHIFT /\
  1 <= G_MEM_TOTAL_PAGE b' <= BUDDY_TOTAL_PAGES /\
  (size < PAGE_SIZE -> G_MEMPOOL_START b' = BUDDY_DEFAULT_POOL_START /\ G_MEMPOOL_SIZE b' = BUDDY_DEFAULT_POOL_SIZE) /\
  (PAGE_SIZE <= size -> start <= G_MEMPOOL_START b' < start + PAGE_SIZE /\
     G_MEMPOOL_SIZE b' = Z.min (size - size mod PAGE_SIZE) BUDDY_MAX_POOL_SIZE /\
     ((2 ^ PAGE_SHIFT | start) -> G_MEMPOOL_START b' = start /\ start + G_MEMPOOL_SIZE b' <= start + size)).
Proof.
  intros Hs He Hz b'. rewrite PAGE_SIZE_pow in *. unfold PAGE_SHIFT in *.
  pose proof (align_up_arith start 12 Hs ltac:(lia) ltac:(lia)) as Eu.
  pose proof (align_down_arith size 12 ltac:(lia) ltac:(lia)) as Ed.
  destruct (round_up_spec start 12) as [Hrd Hrr]; [lia |].
  pose proof (round_up_id start 12 ltac:(lia)) as Hid.
  change (2 ^ 12) with 4096 in *.
  unfold b', buddy_set_region, set_region, BUDDY_TOTAL_PAGES, BUDDY_DEFAULT_POOL_START, BUDDY_DEFAULT_POOL_SIZE.
  change BUDDY_MAX_POOL_SIZE with (524288 * 4096). change (Z.shiftr (524288 * 4096) PAGE_SHIFT) with 524288.
  change PAGE_SIZE with 4096. rewrite Eu, Ed. pose proof (Z.div_mod size 4096 ltac:(lia)) as Edm.
  pose proof (Z.mod_pos_bound size 4096 ltac:(lia)) as Hmb.
  assert (Hsh : forall x, Z.shiftr x PAGE_SHIFT = x / 4096) by (intros; by rewrite Z.shiftr_div_pow2).
  assert (Hdef : Z.shiftr (16 * 1024 * 1024) PAGE_SHIFT = 4096) by reflexivity.
  destruct (Z.eqb_spec size 0) as [-> | Hne].
  { simpl. rewrite Hdef. split_and!; try lia. by exists 0x81000. }
  replace (size - size mod 4096) with (size / 4096 * 4096) in * by lia.
  destruct (Z.ltb_spec (524288 * 4096) (size / 4096 * 4096)).
  - destruct (Z.ltb_spec (524288 * 4096) 4096); [lia |].
    cbn [G_MEMPOOL_START G_MEMPOOL_SIZE G_MEM_TOTAL_PAGE].
    change (Z.shiftr (524288 * 4096) PAGE_SHIFT) with 524288.
    destruct (Z.ltb_spec 524288 524288); [lia |].
    split_and!; try done; try lia. intros _. split_and!; try lia. intros Hal. rewrite (Hid Hal). lia.
  - destruct (Z.ltb_spec (size / 4096 * 4096) 4096).
    + cbn [G_MEMPOOL_START G_MEMPOOL_SIZE G_MEM_TOTAL_PAGE]. simpl. rewrite Hdef. split_and!; try lia. by exists 0x81000.
    + cbn [G_MEMPOOL_START G_MEMPOOL_SIZE G_MEM_TOTAL_PAGE]. rewrite Hsh, Z.div_mul by lia.
      destruct (Z.ltb_spec 524288 (size / 4096)); [lia |].
      split_and!; try done; try lia. intros _. split_and!; try lia. intros Hal. rewrite (Hid Hal). lia.
Qed.

Lemma buddy_set_region_bounds_witness :
  1 <= G_MEM_TOTAL_PAGE (buddy_set_region 0x80000000 0x10000000 demo) <= BUDDY_TOTAL_PAGES.
Proof.
  destruct (buddy_set_region_bounds 0x80000000 0x10000000 demo) as (_ & _ & H & _);
    [lia | rewrite PAGE_SIZE_val; lia | lia | exact H].
Defined.

(** When the start is not page aligned, rounding it up without shortening the
    size lets the pool run past the end of the region it was given. *)
Lemma buddy_set_region_overrun :
  let b' := buddy_set_region 0x80000800 0x2000 demo in
  0x80000800 + 0x2000 < G_MEMPOOL_START b' + G_MEMPOOL_SIZE b'.
Proof. vm_compute. reflexivity. Qed.

Lemma reserve_pages_spec n i b :
  (forall j, i <= j < i + Z.of_nat n -> is_Some (frame_array b !! j)) ->
  exists b', reserve_pages n i b = Some b' /\ same_globals b b' /\ links b' = links b /\
    forall j, frame_array b' !! j =
      if decide (i <= j < i + Z.of_nat n) then set_state PAGE_STATE_RESERVED <$> frame_array b !! j
      else frame_array b !! j.
Proof.
  revert i b. induction n as [| n IH]; intros i b Hin; cbn [reserve_pages].
  { exists b. split_and!; try done. intros j. by rewrite decide_False by lia. }
  destruct (Hin i) as [f Hf]; [lia |]. unfold upd_frame, upd. rewrite Hf. cbn [mbind option_bind].
  destruct (IH (i + 1) (set_frame_array (<[i := set_state PAGE_STATE_RESERVED f]> (frame_array b)) b))
    as (b' & -> & Hg & Hl & Hfa).
  { intros j Hj. simpl. rewrite lookup_insert_ne by lia. apply Hin. lia. }
  exists b'. split_and!; [done | destruct Hg; by split | done |]. intros j. rewrite Hfa. simpl.
  destruct (decide (j = i)) as [-> |].
  - rewrite decide_False, decide_True by lia. by rewrite lookup_insert_eq, Hf.
  - rewrite lookup_insert_ne by done. repeat case_decide; done || lia.
Qed.

Lemma reserve_range_spec start size b :
  region_ok b -> (forall j, 0 <= j < G_MEM_TOTAL_PAGE b -> is_Some (frame_array b !! j)) ->
  G_MEMPOOL_START b + G_MEMPOOL_SIZE b + PAGE_SIZE <= 2 ^ 64 ->
  0 <= start -> 0 <= size -> start + size < 2 ^ 64 ->
  exists b', buddy_mark_reserved_range start size b = Some b' /\ same_globals b b' /\ links b' = links b /\
    forall j, frame_array b' !! j =
      if decide (0 < size /\ 0 <= j < G_MEM_TOTAL_PAGE b /\
                 G_MEMPOOL_START b + j * PAGE_SIZE < start + size /\
                 start < G_MEMPOOL_START b + (j + 1) * PAGE_SIZE)
      then set_state PAGE_STATE_RESERVED <$> frame_array b !! j
      else frame_array b !! j.
Proof.
  intros [_ Hs0 Ht Hsz _] Hin He Hs Hz Hend. unfold buddy_mark_reserved_range.
  rewrite PAGE_SIZE_val in *. unfold PAGE_SHIFT in *. change (2 ^ 12) with 4096 in *.
  destruct (Z.eqb_spec size 0) as [-> |]; cbn [orb].
  { exists b. split_and!; done. }
  destruct (Z.eqb_spec (G_MEM_TOTAL_PAGE b) 0) as [E |].
  { exists b. split_and!; try done. intros j. by rewrite decide_False by lia. }
  rewrite (u64_small (_ + G_MEMPOOL_SIZE b)), (u64_small (start + size)) by lia.
  destruct (Z.leb_spec (start + size) (G_MEMPOOL_START b)); cbn [orb].
  { exists b. split_and!; try done. intros j. by rewrite decide_False by lia. }
  destruct (Z.leb_spec (G_MEMPOOL_START b + G_MEMPOOL_SIZE b) start).
  { exists b. split_and!; try done. intros j. by rewrite decide_False by lia. }
  set (s := if start <? _ then _ else _). set (e := if _ <? start + size then _ else _).
  assert (Hse : s = Z.max start (G_MEMPOOL_START b) /\
    e = Z.min (start + size) (G_MEMPOOL_START b + G_MEMPOOL_SIZE b)).
  { subst s e. split; zcase; lia. }
  destruct Hse as [Es Ee]. clearbody s e.
  rewrite (u64_small (s - _)), (u64_small (e - _)), !Z.shiftr_div_pow2 by lia.
  change (align_up_ul ?x 4096) with (align_up_ul x (2 ^ 12)). rewrite align_up_arith by lia.
  destruct (round_up_spec (e - G_MEMPOOL_START b) 12) as [[q Hq] Hr]; [lia |]. rewrite Hq in *.
  rewrite Z.div_mul by lia. change (2 ^ 12) with 4096 in *.
  destruct (Z.ltb_spec (G_MEM_TOTAL_PAGE b) q); [lia |].
  set (p := (s - G_MEMPOOL_START b) / 4096) in *.
  assert (Hp : p * 4096 <= s - G_MEMPOOL_START b < (p + 1) * 4096 /\ 0 <= p) . { subst p. clear -Es. assert (0 <= s - G_MEMPOOL_START b) by lia. clear Es. dlia. }
  destruct (reserve_pages_spec (Z.to_nat (q - p)) p b) as (b' & -> & Hg & Hl & Hfa).
  { intros j Hj. apply Hin. lia. }
  exists b'. split_and!; try done. intros j. rewrite Hfa. repeat case_decide; try done; lia.
Qed.

(** [buddy_mark_reserved_range] marks exactly the pool pages that the range
    [start, start + size) touches, the partly covered ones at both ends
    included, and changes nothing else; a range outside the pool is ignored. *)
Theorem buddy_mark_reserved_range_exact start size b :
  region_ok b -> (forall j, 0 <= j < G_MEM_TOTAL_PAGE b -> is_Some (frame_array b !! j)) ->
  G_MEMPOOL_START b + G_MEMPOOL_SIZE b + PAGE_SIZE <= 2 ^ 64 ->
  0 <= start -> 0 <= size -> start + size < 2 ^ 64 ->
  exists b', buddy_mark_reserved_range start size b = Some b' /\ same_globals b b' /\ links b' = links b /\
    forall j, frame_array b' !! j =
      if decide (0 < size /\ 0 <= j < G_MEM_TOTAL_PAGE b /\
                 G_MEMPOOL_START b + j * PAGE_SIZE < start + size /\
                 start < G_MEMPOOL_START b + (j + 1) * PAGE_SIZE)
      then set_state PAGE_STATE_RESERVED <$> frame_array b !! j
      else frame_array b !! j.
Proof. apply reserve_range_spec. Qed.

Lemma buddy_mark_reserved_range_exact_witness :
  exists b', buddy_mark_reserved_range 0x81001800 0x1000 demo = Some b' /\ same_globals demo b' /\
    state <$> frame_array b' !! 1 = Some PAGE_STATE_RESERVED /\ frame_array b' !! 3 = frame_array demo !! 3.
Proof.
  destruct (buddy_mark_reserved_range_exact 0x81001800 0x1000 demo demo_region demo_present)
    as (b' & E & Hg & _ & Hfa).
  1-4: vm_compute; congruence.
  exists b'. split_and!; [exact E | exact Hg | |].
  - rewrite Hfa. vm_compute. reflexivity.
  - rewrite Hfa. vm_compute. reflexivity.
Defined.
