(* ===== verification/Allocator.v ===== *)
(** * The kernel allocator: [src/allocator.c]

    Boot-time reservation and the bump search for the frame array, the chunk
    pools built on pages of the buddy allocator, [allocate], [free] and the
    reference counts of copy-on-write pages.

    A chunk's list node lives at the chunk's own address, so the nodes of the
    pool lists are the pool heads and the chunk addresses. *)

From S2P Require Import Prelude Config Align IList Buddy.

(** ** Data *)

(** [&g_pools[i].free_list] and [&((struct chunk * )a)->node]. *)
Inductive cnode := PoolHead (i : Z) | Chunk (addr : Z).

#[export] Instance cnode_eq_dec : EqDecision cnode.
Proof. solve_decision. Defined.

#[export] Instance cnode_countable : Countable cnode.
Proof.
  refine (inj_countable' (fun n => match n with PoolHead i => inl i | Chunk a => inr a end)
                         (fun s => match s with inl i => PoolHead i | inr a => Chunk a end) _).
  by intros [].
Defined.

Definition CHUNK_POOL_COUNT : Z := 8.
Definition g_pool_sizes : list Z := [16; 32; 64; 128; 256; 512; 1024; 2048].
Definition MAX_RESERVED_REGIONS : Z := 32.

(** [sizeof(struct frame)] on a 64-bit target. *)
Definition SIZEOF_FRAME : Z := 40.

Record allocator := Allocator {
  bud : buddy;
  free_list : store cnode;
  chunk_sizes : list Z;
  reserved_rgns : list (Z * Z);
  g_allocator_ready : bool;
}.

Definition set_bud (b : buddy) (st : allocator) : allocator :=
  Allocator b (free_list st) (chunk_sizes st) (reserved_rgns st) (g_allocator_ready st).
Definition set_free_list (l : store cnode) (st : allocator) : allocator :=
  Allocator (bud st) l (chunk_sizes st) (reserved_rgns st) (g_allocator_ready st).
Definition set_chunk_sizes (c : list Z) (st : allocator) : allocator :=
  Allocator (bud st) (free_list st) c (reserved_rgns st) (g_allocator_ready st).
Definition set_reserved_rgns (r : list (Z * Z)) (st : allocator) : allocator :=
  Allocator (bud st) (free_list st) (chunk_sizes st) r (g_allocator_ready st).
Definition set_allocator_ready (r : bool) (st : allocator) : allocator :=
  Allocator (bud st) (free_list st) (chunk_sizes st) (reserved_rgns st) r.

(** [g_pools[i].chunk_size] *)
Definition chunk_size (i : Z) (st : allocator) : option Z :=
  if i <? 0 then None else chunk_sizes st !! Z.to_nat i.

(** ** Sizes *)

Fixpoint roundup_order_loop (fuel : nat) (n ord pages : Z) : option Z :=
  if n <? pages then
    match fuel with
    | O => None
    | S fuel => roundup_order_loop fuel (n ⋘ 1) (u32 (ord + 1)) pages
    end
  else Some ord.

Definition roundup_order (pages : Z) : option Z := roundup_order_loop 64 1 0 pages.

Definition addr_to_page_idx (addr : Z) (b : buddy) : Z := (addr ⊟ G_MEMPOOL_START b) ⋙ PAGE_SHIFT.

Fixpoint find_pool_index_loop (n : nat) (i size : Z) (st : allocator) : option Z :=
  match n with
  | O => Some (-1)
  | S n => c ← chunk_size i st;
           if size <=? c then Some i else find_pool_index_loop n (i + 1) size st
  end.

Definition find_pool_index (size : Z) (st : allocator) : option Z :=
  find_pool_index_loop (Z.to_nat CHUNK_POOL_COUNT) 0 size st.

(** ** Chunk pools *)

(** Marks a page as used for a chunk pool. *)
Definition mark_chunk_page (pool_idx : Z) (f : frame) : frame :=
  set_ref_count 0 (set_order 0 (set_meta_pool_idx pool_idx (set_state PAGE_STATE_ALLOC_CHUNK_POOL f))).

Fixpoint add_chunks (n : nat) (i page_addr csize pool_idx : Z) (l : store cnode) : option (store cnode) :=
  match n with
  | O => Some l
  | S n => l ← list_add (Chunk (page_addr ⊞ (i ⊠ csize))) (PoolHead pool_idx) l;
           add_chunks n (i + 1) page_addr csize pool_idx l
  end.

Definition expand_chunk_pool (pool_idx : Z) (st : allocator) : option (Z * allocator) :=
  '(page, b) ← buddy_alloc_pages 0 (bud st);
  if page =? 0 then Some (-1, set_bud b st) else
  let page_addr := page in
  let page_idx := addr_to_page_idx page_addr b in
  csize ← chunk_size pool_idx st;
  let chunk_cnt := u32 (PAGE_SIZE / csize) in
  b ← upd_frame page_idx (mark_chunk_page pool_idx) b;
  l ← add_chunks (Z.to_nat chunk_cnt) 0 page_addr csize pool_idx (free_list st);
  Some (0, set_free_list l (set_bud b st)).

(** ** Allocation and deallocation *)

Definition chunk_addr (n : cnode) : option Z :=
  match n with Chunk a => Some a | PoolHead _ => None end.

Definition alloc_chunk (pool_idx : Z) (st : allocator) : option (Z * allocator) :=
  n ← next (free_list st) !! PoolHead pool_idx;
  l ← list_del n (free_list st);
  ck ← chunk_addr n;
  b ← upd_frame (addr_to_page_idx ck (bud st)) (fun f => set_ref_count (ref_count f + 1) f) (bud st);
  Some (ck, set_free_list l (set_bud b st)).

Definition allocate (size : Z) (st : allocator) : option (Z * allocator) :=
  if negb (g_allocator_ready st) || (size =? 0) || (MAX_ALLOC_SIZE <? size) then Some (0, st) else
  if size <=? 2048 then
    pool_idx ← find_pool_index size st;
    if pool_idx <? 0 then Some (0, st) else
    e ← list_empty (PoolHead pool_idx) (free_list st);
    if (e : bool) then
      '(r, st) ← expand_chunk_pool pool_idx st;
      if negb (r =? 0) then Some (0, st) else alloc_chunk pool_idx st
    else alloc_chunk pool_idx st
  else
    let pages := (size ⊞ PAGE_SIZE ⊟ 1) ⋙ PAGE_SHIFT in
    ord ← roundup_order pages;
    '(ptr, b) ← buddy_alloc_pages (u32 ord) (bud st);
    Some (ptr, set_bud b st).

(** The double-free check: is the node on the list? *)
Fixpoint on_list (fuel : nat) (pos h n : cnode) (l : store cnode) : option bool :=
  if decide (pos = h) then Some false
  else if decide (pos = n) then Some true
  else match fuel with
       | O => None
       | S fuel => pos ← next l !! pos; on_list fuel pos h n l
       end.

(** Removes the chunks of a page from a free list. *)
Fixpoint purge_page (fuel : nat) (pos h : cnode) (page_base : Z) (l : store cnode) : option (store cnode) :=
  if decide (pos = h) then Some l
  else match fuel with
       | O => None
       | S fuel =>
           q ← next l !! pos;
           node_addr ← chunk_addr pos;
           l ← (if (page_base <=? node_addr) && (node_addr <? page_base ⊞ PAGE_SIZE)
                then list_del pos l else Some l);
           purge_page fuel q h page_base l
       end.

(** The nodes ever linked bound the length of every list. *)
Definition list_fuel (l : store cnode) : nat := size (next l).

Definition free_chunk (addr page_idx : Z) (f : frame) (st : allocator) : option allocator :=
  let pool_idx := meta_pool_idx f in
  let page_base := align_down_ul addr PAGE_SIZE in
  if (pool_idx <? 0) || (CHUNK_POOL_COUNT <=? pool_idx) then Some st else
  csize ← chunk_size pool_idx st;
  if negb ((addr ⊟ page_base) mod csize =? 0) then Some st else
  let h := PoolHead pool_idx in
  pos ← next (free_list st) !! h;
  dup ← on_list (list_fuel (free_list st)) pos h (Chunk addr) (free_list st);
  if (dup : bool) then Some st else
  l ← list_add (Chunk addr) h (free_list st);
  b ← upd_frame page_idx (fun f => set_ref_count (ref_count f - 1) f) (bud st);
  f ← frame_array b !! page_idx;
  if ref_count f =? 0 then
    pos ← next l !! h;
    l ← purge_page (list_fuel l) pos h page_base l;
    b ← upd_frame page_idx (set_state PAGE_STATE_ALLOC_PAGE_HEAD) b;
    b ← buddy_free_pages page_base b;
    Some (set_free_list l (set_bud b st))
  else Some (set_free_list l (set_bud b st)).

(** [G_MEMPOOL_SIZE != 0 && addr >= G_MEMPOOL_START && addr < G_MEMPOOL_START + G_MEMPOOL_SIZE] *)
Definition in_pool (addr : Z) (b : buddy) : bool :=
  negb (G_MEMPOOL_SIZE b =? 0) && (G_MEMPOOL_START b <=? addr) &&
  (addr <? G_MEMPOOL_START b ⊞ G_MEMPOOL_SIZE b).

Definition free (ptr : Z) (st : allocator) : option allocator :=
  if negb (g_allocator_ready st) || (ptr =? 0) then Some st else
  let addr := ptr in
  if negb (in_pool addr (bud st)) then Some st else
  let page_idx := addr_to_page_idx addr (bud st) in
  if G_MEM_TOTAL_PAGE (bud st) <=? page_idx then Some st else
  f ← frame_array (bud st) !! page_idx;
  if decide (state f = PAGE_STATE_ALLOC_CHUNK_POOL) then free_chunk addr page_idx f st
  else if decide (state f = PAGE_STATE_ALLOC_PAGE_HEAD) then
    if negb (Z.land addr (PAGE_SIZE - 1) =? 0) then Some st else
    b ← upd_frame page_idx (fun f => set_cow_ref_count (cow_ref_count f - 1) f) (bud st);
    f ← frame_array b !! page_idx;
    if cow_ref_count f =? 0 then
      b ← buddy_free_pages ptr b; Some (set_bud b st)
    else Some (set_bud b st)
  else Some st.

Definition page_inc_ref (ptr : Z) (st : allocator) : option allocator :=
  if negb (in_pool ptr (bud st)) then Some st else
  b ← upd_frame (addr_to_page_idx ptr (bud st)) (fun f => set_cow_ref_count (cow_ref_count f + 1) f) (bud st);
  Some (set_bud b st).

Definition get_page_ref (ptr : Z) (st : allocator) : option Z :=
  if negb (in_pool ptr (bud st)) then Some 0 else
  f ← frame_array (bud st) !! addr_to_page_idx ptr (bud st);
  Some (cow_ref_count f).

(** ** Boot-time reservation *)

Definition memory_reserve (start size : Z) (st : allocator) : allocator :=
  if (size =? 0) || (MAX_RESERVED_REGIONS <=? Z.of_nat (length (reserved_rgns st))) then st else
  let end_ := start ⊞ size in
  let pool_start := G_MEMPOOL_START (bud st) in
  let pool_end := pool_start ⊞ G_MEMPOOL_SIZE (bud st) in
  if (end_ <=? pool_start) || (pool_end <=? start) then st else
  let reserve_start := if start <? pool_start then pool_start else start in
  let reserve_end := if pool_end <? end_ then pool_end else end_ in
  set_reserved_rgns (reserved_rgns st ++ [(reserve_start, reserve_end ⊟ reserve_start)]) st.

(** What the boot code reads from the device tree and the linker script. *)
Class BootInfo (blob : Type) := {
  kernel_start : Z;
  kernel_size : Z;
  fdt_addr : blob -> Z;
  fdt_totalsize : blob -> Z;
  fdt_memory_reg : blob -> option (list Z);
  get_initrd_start : blob -> Z;
  get_initrd_end : blob -> Z;
  fdt_get_reserved_memory_region : blob -> Z -> option (Z * Z);
}.

Section Boot.
Context {blob : Type} `{BI : BootInfo blob}.

(** [if (a < PAGE_OFFSET) a += PAGE_OFFSET;] *)
Definition to_virt (a : Z) : Z := if a <? PAGE_OFFSET then a ⊞ PAGE_OFFSET else a.

Fixpoint reserve_fdt_regions (fuel : nat) (fdt : blob) (idx : Z) (st : allocator) : option allocator :=
  match fdt_get_reserved_memory_region fdt idx with
  | None => Some st
  | Some (start, size) =>
      match fuel with
      | O => None
      | S fuel => reserve_fdt_regions fuel fdt (idx + 1) (memory_reserve (to_virt start) size st)
      end
  end.

Definition reserve_all_memory (fuel : nat) (fdt : option blob) (st : allocator) : option allocator :=
  let st := memory_reserve kernel_start kernel_size st in
  match fdt with
  | None => Some st
  | Some fdt =>
      let dtb_size := fdt_totalsize fdt in
      let st := if dtb_size =? 0 then st else memory_reserve (fdt_addr fdt) dtb_size st in
      let initrd_start := get_initrd_start fdt in
      let initrd_start := if initrd_start =? 0 then initrd_start else to_virt initrd_start in
      let initrd_end := get_initrd_end fdt in
      let initrd_end := if initrd_end =? 0 then initrd_end else to_virt initrd_end in
      let st := if negb (initrd_start =? 0) && (initrd_start <? initrd_end)
                then memory_reserve initrd_start (initrd_end ⊟ initrd_start) st else st in
      reserve_fdt_regions fuel fdt 0 st
  end.

(** Little-endian loads from the bytes of a property. *)
Definition load32 (bs : list Z) (off : nat) : option Z :=
  b0 ← bs !! off; b1 ← bs !! (off + 1)%nat; b2 ← bs !! (off + 2)%nat; b3 ← bs !! (off + 3)%nat;
  Some (le32 b0 b1 b2 b3).

Definition load64 (bs : list Z) (off : nat) : option Z :=
  lo ← load32 bs off; hi ← load32 bs (off + 4)%nat; Some (lo + hi * 2 ^ 32).

(** The pool region the device tree describes. *)
Definition fdt_pool_region (fdt : option blob) (b : buddy) : option (Z * Z) :=
  let default_region := (G_MEMPOOL_START b, G_MEMPOOL_SIZE b) in
  match fdt with
  | None => Some default_region
  | Some fdt =>
      match fdt_memory_reg fdt with
      | None => Some default_region
      | Some prop =>
          if (16 <=? length prop)%nat then
            s ← load64 prop 0; z ← load64 prop 8; Some (bswap64 s, bswap64 z)
          else if (8 <=? length prop)%nat then
            s ← load32 prop 0; z ← load32 prop 4; Some (bswap32 s, bswap32 z)
          else Some (BUDDY_DEFAULT_POOL_START, BUDDY_DEFAULT_POOL_SIZE)
      end
  end.

(** The first reserved region that overlaps [alloc_start, alloc_end): its end. *)
Fixpoint first_overlap (alloc_start alloc_end : Z) (rgns : list (Z * Z)) : option Z :=
  match rgns with
  | [] => None
  | (r_start, r_size) :: rgns =>
      let r_end := r_start ⊞ r_size in
      if (alloc_start <? r_end) && (r_start <? alloc_end) then Some r_end
      else first_overlap alloc_start alloc_end rgns
  end.

(** The bump search: the outer [option] is fuel, the inner one [NULL]. *)
Fixpoint bump (fuel : nat) (alloc_start size pool_end : Z) (rgns : list (Z * Z)) : option (option Z) :=
  match fuel with
  | O => None
  | S fuel =>
      let alloc_start := align_up_ul alloc_start PAGE_SIZE in
      let alloc_end := alloc_start ⊞ size in
      if pool_end <? alloc_end then Some None else
      match first_overlap alloc_start alloc_end rgns with
      | Some r_end => bump fuel r_end size pool_end rgns
      | None => Some (Some alloc_start)
      end
  end.

Definition startup_alloc (fuel : nat) (fdt : option blob) (st : allocator) : option (Z * allocator) :=
  '(pool_start, pool_size) ← fdt_pool_region fdt (bud st);
  let st := set_bud (buddy_set_region (to_virt pool_start) pool_size (bud st)) st in
  st ← reserve_all_memory fuel fdt st;
  let pool_end := G_MEMPOOL_START (bud st) ⊞ G_MEMPOOL_SIZE (bud st) in
  let frame_array_size := G_MEM_TOTAL_PAGE (bud st) ⊠ SIZEOF_FRAME in
  r ← bump (S (length (reserved_rgns st))) (G_MEMPOOL_START (bud st)) frame_array_size pool_end (reserved_rgns st);
  match r with
  | None => Some (0, st)
  | Some a => Some (a, memory_reserve a frame_array_size st)
  end.

(** [memset(frame_array, 0, ...)] *)
Definition zero_frame : frame := Frame 0 PAGE_STATE_FREE_HEAD 0 0 0.

Fixpoint zero_frames (n : nat) (i : Z) (fa : gmap Z frame) : gmap Z frame :=
  match n with
  | O => fa
  | S n => zero_frames n (i + 1) (<[i := zero_frame]> fa)
  end.

Fixpoint mark_reserved_rgns (rgns : list (Z * Z)) (b : buddy) : option buddy :=
  match rgns with
  | [] => Some b
  | (start, size) :: rgns => b ← buddy_mark_reserved_range start size b; mark_reserved_rgns rgns b
  end.

Fixpoint init_pools (n : nat) (i : Z) (st : allocator) : option allocator :=
  match n with
  | O => Some st
  | S n =>
      c ← g_pool_sizes !! Z.to_nat i;
      init_pools n (i + 1)
        (set_free_list (INIT_LIST_HEAD (PoolHead i) (free_list st))
           (set_chunk_sizes (<[Z.to_nat i := c]> (chunk_sizes st)) st))
  end.

Definition allocator_init (fuel : nat) (fdt : option blob) (st : allocator) : option allocator :=
  '(fa, st) ← startup_alloc fuel fdt st;
  if fa =? 0 then Some st else
  let b := bud st in
  let b := set_frame_array (zero_frames (Z.to_nat (G_MEM_TOTAL_PAGE b)) 0 (frame_array b)) b in
  b ← mark_reserved_rgns (reserved_rgns st) b;
  b ← buddy_init b;
  st ← init_pools (Z.to_nat CHUNK_POOL_COUNT) 0 (set_bud b st);
  Some (set_allocator_ready true st).

End Boot.

(** [static struct chunk_pool g_pools[CHUNK_POOL_COUNT]] before initialisation. *)
Definition unready : allocator :=
  Allocator (Buddy ∅ empty_store BUDDY_DEFAULT_POOL_START BUDDY_DEFAULT_POOL_SIZE
               (BUDDY_DEFAULT_POOL_SIZE ⋙ PAGE_SHIFT) false)
    empty_store (replicate 8 0) [] false.
