(* ===== verification/AllocSizes.v ===== *)
(** * Size classes and the bump search

    The order and pool an allocation of a given size uses, and the first-fit
    search that places the frame array between the reserved regions. *)

From S2P Require Import Prelude Config Align IList Buddy Allocator.

(** ** Orders *)

Lemma roundup_order_loop_spec fuel k pages :
  0 <= k -> k + Z.of_nat fuel = 64 -> 0 < pages <= 2 ^ 63 -> k = 0 \/ 2 ^ (k - 1) < pages ->
  exists o, roundup_order_loop fuel (u64 (2 ^ k)) k pages = Some o /\
    k <= o <= 63 /\ pages <= 2 ^ o /\ (o = 0 \/ 2 ^ (o - 1) < pages).
Proof.
  revert k. induction fuel as [| fuel IH]; intros k Hk Hf Hp Hb; cbn [roundup_order_loop].
  { assert (k = 64) as -> by lia. change (2 ^ (64 - 1)) with (2 ^ 63) in Hb. lia. }
  assert (Hlt : 2 ^ k <= 2 ^ 63) by (apply pow2_mono; lia). pose proof (pow2_pos k Hk).
  rewrite (u64_small (2 ^ k)) by lia. destruct (Z.ltb_spec (2 ^ k) pages).
  - assert (k < 63) by (destruct (decide (k = 63)) as [-> |]; lia).
    rewrite Z.shiftl_mul_pow2, (u32_small (k + 1)) by lia. change (2 ^ 1) with 2.
    replace (2 ^ k * 2) with (2 ^ (k + 1)) by (rewrite pow2_succ by lia; lia).
    destruct (IH (k + 1)) as (o & -> & ? & ?); [lia | lia | done | right; by replace (k + 1 - 1) with k by lia |].
    exists o. split_and!; try done; lia.
  - exists k. split_and!; try done; lia.
Qed.

(** The order of the smallest power of two that holds [pages] pages. *)
Lemma roundup_order_spec pages : 0 < pages <= 2 ^ 63 ->
  exists o, roundup_order pages = Some o /\ 0 <= o <= 63 /\ pages <= 2 ^ o /\ (o = 0 \/ 2 ^ (o - 1) < pages).
Proof. intros. apply (roundup_order_loop_spec 64 0); try lia. Qed.

(** ** Pools *)

Definition csize (i : Z) : Z := 2 ^ (i + 4).

Lemma csize_pos i : 0 <= i -> 16 <= csize i.
Proof. intros. unfold csize. pose proof (pow2_mono 4 (i + 4)). lia. Qed.

Lemma chunk_size_spec st i : chunk_sizes st = g_pool_sizes -> 0 <= i < 8 -> chunk_size i st = Some (csize i).
Proof.
  intros E Hi. unfold chunk_size. rewrite E. destruct (Z.ltb_spec i 0); [lia |].
  assert (i = 0 \/ i = 1 \/ i = 2 \/ i = 3 \/ i = 4 \/ i = 5 \/ i = 6 \/ i = 7) as Hc by lia.
  by repeat destruct Hc as [-> | Hc]; [.. | subst i].
Qed.

Lemma find_pool_index_loop_spec n i size st :
  chunk_sizes st = g_pool_sizes -> 0 <= i -> i + Z.of_nat n = 8 ->
  size <= 2048 -> i = 0 \/ csize (i - 1) < size -> 
  exists j, find_pool_index_loop n i size st = Some j /\
    (0 <= j < 8 /\ size <= csize j /\ (j = 0 \/ csize (j - 1) < size)).
Proof.
  intros E. revert i. induction n as [| n IH]; intros i Hi Hn Hs Hb; cbn [find_pool_index_loop].
  { assert (i = 8) as -> by lia. change (csize (8 - 1)) with 2048 in Hb. lia. }
  rewrite (chunk_size_spec st i E) by lia. cbn [mbind option_bind].
  destruct (Z.leb_spec size (csize i)).
  - exists i. split_and!; try done; lia.
  - apply IH; try lia. right. by replace (i + 1 - 1) with i by lia.
Qed.

(** The smallest pool whose chunks hold [size] bytes. *)
Lemma find_pool_index_spec size st : chunk_sizes st = g_pool_sizes -> size <= 2048 ->
  exists j, find_pool_index size st = Some j /\
    0 <= j < 8 /\ size <= csize j /\ (j = 0 \/ csize (j - 1) < size).
Proof. intros E Hs. apply find_pool_index_loop_spec; [done | lia | done | done | by left]. Qed.

(** [allocate] always serves a request from a block that is large enough and
    never more than twice too large (but for the smallest chunk): the pool of
    a small request, the order of a large one. *)
Theorem size_class_fits st size :
  chunk_sizes st = g_pool_sizes -> 0 < size <= MAX_ALLOC_SIZE ->
  (size <= 2048 -> exists j, find_pool_index size st = Some j /\ 0 <= j < CHUNK_POOL_COUNT /\
     size <= csize j /\ csize j < Z.max 17 (2 * size)) /\
  (2048 < size -> exists o, roundup_order ((size ⊞ PAGE_SIZE ⊟ 1) ⋙ PAGE_SHIFT) = Some o /\
     size <= 2 ^ o * PAGE_SIZE /\ 2 ^ o * PAGE_SIZE < 2 * size).
Proof.
  intros E Hs. unfold MAX_ALLOC_SIZE in Hs. split; intros Hs'.
  - destruct (find_pool_index_spec size st E Hs') as (j & -> & Hj & Hle & Hb).
    exists j. split_and!; try (unfold CHUNK_POOL_COUNT; done || lia).
    destruct Hb as [-> | Hb]; [unfold csize; simpl; lia |]. unfold csize in *.
    destruct (decide (j = 0)) as [-> |]; [simpl; lia |].
    replace (j + 4) with (j - 1 + 4 + 1) by lia. rewrite pow2_succ by lia. lia.
  - rewrite PAGE_SIZE_val. rewrite (u64_small (size + _)), u64_small by lia.
    rewrite Z.shiftr_div_pow2 by done. unfold PAGE_SHIFT. change (2 ^ 12) with 4096.
    destruct (roundup_order_spec ((size + 4096 - 1) / 4096)) as (o & -> & Ho & Hle & Hb); [dlia |].
    exists o. split_and!; [done | dlia |]. destruct (decide (o = 0)) as [-> |]; [simpl; lia |].
    destruct Hb as [-> | Hb]; [done |].
    replace o with (o - 1 + 1) by lia. rewrite pow2_succ by lia. dlia.
Qed.

Lemma size_class_fits_witness :
  let st := set_chunk_sizes g_pool_sizes unready in
  (exists j, find_pool_index 100 st = Some j /\ 100 <= csize j /\ csize j < Z.max 17 (2 * 100)) /\
  (exists o, roundup_order ((5000 ⊞ PAGE_SIZE ⊟ 1) ⋙ PAGE_SHIFT) = Some o /\ 5000 <= 2 ^ o * PAGE_SIZE).
Proof.
  split.
  - destruct (size_class_fits (set_chunk_sizes g_pool_sizes unready) 100 eq_refl) as [Hsm _];
      [unfold MAX_ALLOC_SIZE; lia |].
    destruct Hsm as (j & ? & _ & ? & ?); [lia |]. exists j. done.
  - destruct (size_class_fits (set_chunk_sizes g_pool_sizes unready) 5000 eq_refl) as [_ Hlg];
      [unfold MAX_ALLOC_SIZE; lia |].
    destruct Hlg as (o & ? & ? & _); [lia |]. exists o. done.
Defined.

(** ** The bump search *)

(** [a, a + size) avoids every reserved region. *)
Definition avoids (a size : Z) (rgns : list (Z * Z)) : Prop :=
  forall r z, (r, z) ∈ rgns -> r + z <= a \/ a + size <= r.

(** The regions lie below [top], without wrap-around. *)
Definition rgns_below (top : Z) (rgns : list (Z * Z)) : Prop :=
  forall r z, (r, z) ∈ rgns -> 0 <= r /\ 0 <= z /\ r + z <= top.

Lemma first_overlap_None a size top rgns :
  top < 2 ^ 64 -> rgns_below top rgns -> first_overlap a (a + size) rgns = None -> avoids a size rgns.
Proof.
  intros Htop. induction rgns as [| [r z] rgns IH]; intros Hb; simpl; [intros _ r z Hin; set_solver |].
  destruct (Hb r z) as (? & ? & ?); [by left |]. rewrite u64_small by lia.
  destruct ((a <? r + z) && (r <? a + size)) eqn:E; [done |]. intros Hn r' z' Hin.
  apply andb_false_iff in E. rewrite !Z.ltb_ge in E.
  apply elem_of_cons in Hin as [Heq | Hin]; [injection Heq as -> ->; lia |].
  apply IH; try done. intros r0 z0 ?. apply Hb. by right.
Qed.

Lemma first_overlap_Some a size top rgns e :
  top < 2 ^ 64 -> rgns_below top rgns -> first_overlap a (a + size) rgns = Some e ->
  exists r z, (r, z) ∈ rgns /\ e = r + z /\ a < e /\ r < a + size.
Proof.
  intros Htop. induction rgns as [| [r z] rgns IH]; intros Hb; simpl; [done |].
  destruct (Hb r z) as (? & ? & ?); [by left |]. rewrite u64_small by lia.
  destruct ((a <? r + z) && (r <? a + size)) eqn:E.
  - apply andb_true_iff in E. rewrite !Z.ltb_lt in E. intros [= <-]. exists r, z. split_and!; try lia. by left.
  - intros Hn. destruct IH as (r' & z' & Hin & ?); [intros r0 z0 ?; apply Hb; by right | done |].
    exists r', z'. split; [by right | done].
Qed.

(** The regions that end after [a]: each step of the search leaves one behind. *)
Definition pending (a : Z) (rgns : list (Z * Z)) : nat :=
  length (filter (fun rz => a < rz.1 + rz.2) rgns).

Lemma pending_mono a a' rgns : a <= a' -> (pending a' rgns <= pending a rgns)%nat.
Proof.
  intros Ha. unfold pending. induction rgns as [| rz rgns IH]; [done |].
  rewrite !filter_cons. repeat case_decide; simpl; lia.
Qed.

Lemma pending_decr a a' r z rgns : (r, z) ∈ rgns -> a < r + z <= a' -> (pending a' rgns < pending a rgns)%nat.
Proof.
  intros Hin Ha. unfold pending. induction rgns as [| rz rgns IH]; [set_solver |].
  rewrite !filter_cons. pose proof (pending_mono a a' rgns). unfold pending in *.
  apply elem_of_cons in Hin as [<- | Hin]; simpl.
  - rewrite decide_False, decide_True by (simpl; lia). simpl. lia.
  - specialize (IH Hin). repeat case_decide; simpl; lia.
Qed.

Section Bump.
Variables (size top : Z) (rgns : list (Z * Z)).
Hypothesis size_ok : 0 <= size.
Hypothesis top_ok : top + size + PAGE_SIZE <= 2 ^ 64.
Hypothesis rgns_ok : rgns_below top rgns.

(** Page-aligned positions at or after [lo] that fit. *)
Definition fits (lo a : Z) : Prop :=
  lo <= a /\ (2 ^ PAGE_SHIFT | a) /\ a + size <= top /\ avoids a size rgns.

Lemma bump_spec fuel lo :
  0 <= lo <= top -> (pending lo rgns < fuel)%nat ->
  exists r, bump fuel lo size top rgns = Some r /\
    match r with
    | Some a => fits lo a /\ forall a', fits lo a' -> a <= a'
    | None => forall a, ~ fits lo a
    end.
Proof.
  rewrite PAGE_SIZE_val in top_ok. revert lo. induction fuel as [| fuel IH]; intros lo Hlo Hf; [lia |].
  cbn [bump]. rewrite PAGE_SIZE_pow. unfold PAGE_SHIFT. rewrite align_up_arith by (change (2 ^ 12) with 4096; lia).
  destruct (round_up_spec lo 12) as [Hal Hr]; [lia |]. change (2 ^ 12) with 4096 in Hr.
  assert (Hmin : forall a, fits lo a -> round_up lo 12 <= a).
  { intros a (Hla & Hda & _). unfold PAGE_SHIFT in Hda. destruct Hal as [p Hp], Hda as [q Hq].
    change (2 ^ 12) with 4096 in *. lia. }
  set (s := round_up lo 12) in *. rewrite u64_small by lia.
  destruct (Z.ltb_spec top (s + size)) as [Hgt | Hle].
  { exists None. split; [done |]. intros a Ha. pose proof (Hmin a Ha). destruct Ha as (_ & _ & ? & _). lia. }
  destruct (first_overlap s (s + size) rgns) as [e |] eqn:E.
  - destruct (first_overlap_Some s size top rgns e) as (r & z & Hin & -> & Hlt & Hrs); try done; [lia |].
    destruct (rgns_ok r z Hin) as (? & ? & ?).
    assert (Hskip : forall a, fits lo a -> fits (r + z) a).
    { intros a Ha. pose proof (Hmin a Ha). destruct Ha as (? & ? & ? & Hav). split; [| done].
      destruct (Hav r z Hin); lia. }
    destruct (IH (r + z)) as (res & -> & Hres); [lia | |].
    { pose proof (pending_decr lo (r + z) r z rgns Hin). lia. }
    exists res. split; [done |]. destruct res as [a |].
    + destruct Hres as [(? & ? & ? & ?) Hm]. split; [split_and!; try done; lia |]. auto.
    + intros a Ha. by apply (Hres a), Hskip.
  - exists (Some s). split; [done |]. split; [| done]. split_and!; [lia | done | done |].
    by eapply (first_overlap_None s size top); [lia | |].
Qed.

End Bump.

(** the boot-time search for the frame array ends and is an exact first fit:
    it returns the lowest page-aligned address of the pool at which the array
    fits without touching a reserved region, and fails only when there is none. *)
Theorem bump_first_fit size start top rgns :
  0 <= size -> 0 <= start <= top -> top + size + PAGE_SIZE <= 2 ^ 64 -> rgns_below top rgns ->
  exists r, bump (S (length rgns)) start size top rgns = Some r /\
    match r with
    | Some a => fits size top rgns start a /\ forall a', fits size top rgns start a' -> a <= a'
    | None => forall a, ~ fits size top rgns start a
    end.
Proof.
  intros Hs Hl Ht Hb. apply bump_spec; try done.
  pose proof (length_filter (fun rz : Z * Z => start < rz.1 + rz.2) rgns). unfold pending. lia.
Qed.

Lemma bump_first_fit_witness :
  exists a, bump 3 0x1000 0x2000 0x9000 [(0x1000, 0x800); (0x3000, 0x1800)] = Some (Some a) /\ a = 0x5000.
Proof.
  destruct (bump_first_fit 0x2000 0x1000 0x9000 [(0x1000, 0x800); (0x3000, 0x1800)])
    as (r & E & _); [lia | lia | rewrite PAGE_SIZE_val; lia | |].
  - intros r z. rewrite !elem_of_cons, elem_of_nil. intros [[= -> ->] | [[= -> ->] | []]]; lia.
  - simpl length in E. exists 0x5000. split; [| done]. rewrite E.
    vm_compute in E. apply (inj Some) in E. by rewrite <- E.
Defined.
