(* ===== verification/AllocProofs.v ===== *)
(** * Correctness of the chunk allocator

    The invariant that ties the chunk pools to the buddy allocator, and the
    specification of [allocate] and [free] over the set of live objects. *)

From stdpp Require Import functions.
From S2P Require Import Prelude Config Align IList Buddy BuddySpec BuddyProofs Allocator AllocSizes.

(** ** Pages and slots *)

Definition page_base (b : buddy) (p : Z) : Z := G_MEMPOOL_START b + p * PAGE_SIZE.

Definition in_page (b : buddy) (p a : Z) : Prop := page_base b p <= a < page_base b p + PAGE_SIZE.

#[export] Instance in_page_dec b p a : Decision (in_page b p a).
Proof. unfold in_page. apply _. Defined.

(** [a] is a chunk position of pool [i] in page [p]. *)
Definition slot (b : buddy) (i p a : Z) : Prop := in_page b p a /\ (csize i | a).

Definition slots (b : buddy) (i p : Z) : list Z :=
  (fun k => page_base b p + k * csize i) <$> seqZ 0 (2 ^ (8 - i)).

Lemma csize_page i : 0 <= i < 8 -> csize i * 2 ^ (8 - i) = 4096 /\ (csize i | 4096).
Proof.
  intros Hi. unfold csize. rewrite <- Z.pow_add_r by lia. replace (i + 4 + (8 - i)) with 12 by lia.
  split; [done |]. apply (pow2_divide (i + 4) 12). lia.
Qed.

Lemma page_base_divide b i p : region_ok b -> 0 <= i < 8 -> (csize i | page_base b p).
Proof.
  intros Hr Hi. destruct (csize_page i Hi) as [_ Hd]. unfold page_base. rewrite PAGE_SIZE_val.
  apply Z.divide_add_r.
  - eapply Z.divide_trans; [exact Hd |]. apply (ro_align _ Hr).
  - apply Z.divide_mul_r. done.
Qed.

Lemma slot_in_slots b i p a : region_ok b -> 0 <= i < 8 -> slot b i p a <-> a ∈ slots b i p.
Proof.
  intros Hr Hi. destruct (csize_page i Hi) as [Hc _]. pose proof (csize_pos i ltac:(lia)).
  destruct (page_base_divide b i p Hr Hi) as [q Hq].
  unfold slot, in_page, slots. rewrite PAGE_SIZE_val, list_elem_of_fmap. split.
  - intros [Hin [r ->]]. exists (r - q). split; [lia |]. apply elem_of_seqZ. nia.
  - intros (k & -> & Hk%elem_of_seqZ). split; [nia |]. rewrite Hq. exists (q + k). lia.
Qed.

Lemma slots_nodup b i p : 0 <= i -> NoDup (slots b i p).
Proof.
  intros Hi. pose proof (csize_pos i Hi). unfold slots. apply NoDup_fmap_2; [| apply NoDup_seqZ].
  intros k k' E. nia.
Qed.

Lemma slots_length b i p : 0 <= i < 8 -> Z.of_nat (length (slots b i p)) = 2 ^ (8 - i).
Proof. intros Hi. unfold slots. rewrite length_fmap, length_seqZ. pose proof (pow2_pos (8 - i)). lia. Qed.

Lemma in_page_unique b p p' a : in_page b p a -> in_page b p' a -> p = p'.
Proof. unfold in_page, page_base. rewrite PAGE_SIZE_val. lia. Qed.

Lemma same_globals_in_page b b' p a : same_globals b b' -> in_page b' p a <-> in_page b p a.
Proof. intros Hg. unfold in_page, page_base. by rewrite (sg_start _ _ Hg). Qed.

(** What the address computations of the code give for an address in a page. *)
Lemma in_page_facts b p a :
  region_ok b -> 0 <= p < G_MEM_TOTAL_PAGE b -> in_page b p a ->
  in_pool a b = true /\ addr_to_page_idx a b = p /\ align_down_ul a PAGE_SIZE = page_base b p /\
  0 < a < 2 ^ 64 /\ page_base b p + PAGE_SIZE < 2 ^ 64.
Proof.
  intros [[q Ha] Hs Ht Hsz He] Hp Hin. unfold in_page, page_base, PAGE_SHIFT in *. rewrite PAGE_SIZE_val in *.
  change (2 ^ 12) with 4096 in *. unfold in_pool, addr_to_page_idx, PAGE_SHIFT.
  rewrite (u64_small (G_MEMPOOL_START b + _)), (u64_small (a - _)) by lia.
  rewrite Z.shiftr_div_pow2 by done. change (2 ^ 12) with 4096. split_and!; try lia.
  - dlia.
  - change 4096 with (2 ^ 12) at 1. rewrite align_down_arith by lia. change (2 ^ 12) with 4096. dlia.
Qed.

Lemma in_pool_page b a : region_ok b -> 0 <= a -> in_pool a b = true ->
  exists p, 0 <= p < G_MEM_TOTAL_PAGE b /\ in_page b p a.
Proof.
  intros [[q Ha] Hs Ht Hsz He] H0. unfold in_pool. rewrite u64_small by (unfold PAGE_SHIFT in *; lia).
  rewrite !andb_true_iff, Z.leb_le, Z.ltb_lt. intros ((_ & ?) & ?). unfold PAGE_SHIFT in *.
  change (2 ^ 12) with 4096 in *. exists ((a - G_MEMPOOL_START b) / 4096).
  unfold in_page, page_base. rewrite PAGE_SIZE_val. dlia.
Qed.

(** ** The invariant *)

Definition pool_page (b : buddy) (bs : list block) (p : Z) (f : frame) : Prop :=
  Block p 0 Pool ∈ bs /\ frame_array b !! p = Some f.

(** [a] is a chunk of pool [i]. *)
Definition chunk_of (b : buddy) (bs : list block) (i a : Z) : Prop :=
  exists p f, pool_page b bs p f /\ meta_pool_idx f = i /\ slot b i p a.

(** The allocated chunks: those that are not on the free list of their pool. *)
Definition live (b : buddy) (bs : list block) (F : Z -> list Z) (a : Z) : Prop :=
  exists i, chunk_of b bs i a /\ a ∉ F i.

(** Free chunks of a page. *)
Definition free_in (b : buddy) (p : Z) (xs : list Z) : Z := Z.of_nat (length (filter (in_page b p) xs)).

(** The tiling [bs] of the pool, and the free chunks [F i] of each pool.  The
    page [q] (none when it is -1) is being added and may have no live chunk. *)
Record awf_ex (q : Z) (st : allocator) (bs : list block) (F : Z -> list Z) : Prop := {
  aw_buddy : wf (bud st) bs;
  aw_ready : g_allocator_ready st = true;
  aw_sizes : chunk_sizes st = g_pool_sizes;
  aw_lists : forall i, 0 <= i < 8 -> is_list (free_list st) (PoolHead i) (Chunk <$> F i);
  aw_free : forall i a, 0 <= i < 8 -> a ∈ F i -> chunk_of (bud st) bs i a;
  aw_pages : forall p f, pool_page (bud st) bs p f ->
    0 <= meta_pool_idx f < 8 /\
    ref_count f = 2 ^ (8 - meta_pool_idx f) - free_in (bud st) p (F (meta_pool_idx f)) /\
    (p <> q -> 0 < ref_count f);
  aw_cow : forall p o f, Block p o Alloc ∈ bs -> frame_array (bud st) !! p = Some f -> 1 <= cow_ref_count f;
}.

Definition awf : allocator -> list block -> (Z -> list Z) -> Prop := awf_ex (-1).

(** The frames of the page blocks are as before. *)
Definition pages_kept (b b' : buddy) (bs : list block) : Prop :=
  forall q o, Block q o Alloc ∈ bs -> frame_array b' !! q = frame_array b !! q.

Lemma chunk_of_functional b bs i j a : chunk_of b bs i a -> chunk_of b bs j a -> i = j.
Proof.
  intros (p & f & [_ Hf] & <- & Hs) (p' & f' & [_ Hf'] & <- & Hs').
  assert (p = p') as -> by (eapply in_page_unique; [apply Hs | apply Hs']). congruence.
Qed.

Lemma chunk_of_page b bs i a : wf b bs -> chunk_of b bs i a ->
  exists p f, pool_page b bs p f /\ meta_pool_idx f = i /\ slot b i p a /\ 0 <= p < G_MEM_TOTAL_PAGE b.
Proof.
  intros Hwf (p & f & Hp & Hm & Hs). exists p, f. split_and!; try done; apply (tiled_range _ _ _ Hwf (proj1 Hp)).
Qed.

(** Work on the list of pool [i] leaves the other pools alone. *)
Lemma lists_other b bs l l' i j D xs :
  i <> j -> is_list l (PoolHead j) (Chunk <$> xs) -> same_outside D l l' ->
  (forall n, n ∈ D -> n = PoolHead i \/ exists a, n = Chunk a /\ chunk_of b bs i a) ->
  (forall a, a ∈ xs -> chunk_of b bs j a) ->
  is_list l' (PoolHead j) (Chunk <$> xs).
Proof.
  intros Hne Hl Ho HD Hx. eapply is_list_frame; [exact Ho | | done].
  intros n Hn Hin. apply HD in Hin. rewrite elem_of_cons, list_elem_of_fmap in Hn.
  destruct Hn as [-> | (a & -> & Ha)], Hin as [E | (a' & E & Hc)]; simplify_eq.
  apply Hne. by eapply chunk_of_functional; [| apply Hx].
Qed.

(** ** Updates of a single frame *)

Lemma tiled_upd_same fa lo hi bs p f f' :
  fa !! p = Some f -> state f' = state f -> order f' = order f ->
  tiled fa lo hi bs -> tiled (<[p := f']> fa) lo hi bs.
Proof.
  intros Hf Hs Ho. assert (Hfr : forall j s o, frame_is fa j s o -> frame_is (<[p := f']> fa) j s o).
  { intros j s o (g & Hg & <- & <-). destruct (decide (p = j)) as [<- | ?].
    - exists f'. rewrite lookup_insert_eq. by simplify_eq.
    - exists g. by rewrite lookup_insert_ne. }
  revert lo. induction bs as [| k bs IH]; simpl; intros lo; [done |].
  intros (? & [? ? ? ? ?] & ?). split_and!; [done | split; auto | auto].
Qed.

(** A change of counters keeps the invariant of the buddy allocator. *)
Lemma wf_upd_same b bs p f g :
  wf b bs -> frame_array b !! p = Some f -> state (g f) = state f -> order (g f) = order f ->
  exists b', upd_frame p g b = Some b' /\ wf b' bs /\ same_globals b b' /\
    frame_array b' = <[p := g f]> (frame_array b).
Proof.
  intros Hwf Hf Hs Ho. unfold upd_frame, upd. rewrite Hf. cbn [mbind option_bind]. eexists. split; [done |].
  destruct Hwf as [Hr Hrd Ht Hl]. split_and!; try done.
  split; [by apply (same_globals_region b) | done | by eapply tiled_upd_same | done].
Qed.

(** Changing the use of a one-page block that is not free. *)
Lemma wf_convert b bs1 p k k' bs2 f g :
  wf b (bs1 ++ Block p 0 k :: bs2) -> k <> Free -> k' <> Free ->
  frame_array b !! p = Some f -> state (g f) = head_state k' -> order (g f) = 0 ->
  exists b', upd_frame p g b = Some b' /\ wf b' (bs1 ++ Block p 0 k' :: bs2) /\ same_globals b b' /\
    frame_array b' = <[p := g f]> (frame_array b).
Proof.
  intros [Hr Hrd Ht Hl] Hk Hk' Hf Hs Ho. unfold upd_frame, upd. rewrite Hf. cbn [mbind option_bind].
  eexists. split; [done |]. split_and!; try done. pose proof (changed_in_insert p f (g f) _ Hf) as Hc.
  split; [by apply (same_globals_region b) | done | |].
  - apply tiled_focus in Ht as (H1 & [? ? ? ? ?] & H3). unfold b_end in *. simpl in *. change (2 ^ 0) with 1 in *.
    apply tiled_focus. unfold b_end. simpl. split_and!.
    + eapply tiled_changed; [exact Hc | by left | done].
    + split; simpl; try done.
      * exists (g f). by rewrite lookup_insert_eq.
      * unfold b_end. simpl. lia.
    + eapply tiled_changed; [exact Hc | by right | done].
  - simpl. eapply lists_ok_perm; [apply Permutation_middle |]. apply lists_ok_nonfree; [done |].
    apply (lists_ok_nonfree (links b) (Block p 0 k) (bs1 ++ bs2)); [done |].
    eapply lists_ok_perm; [symmetry; apply Permutation_middle | done].
Qed.

Lemma page_unique b bs k k' : wf b bs -> k ∈ bs -> k' ∈ bs -> b_idx k = b_idx k' -> k = k'.
Proof. intros Hwf. apply (tiled_same_idx _ _ _ _ _ _ (wf_tiled _ _ Hwf)). Qed.

(** A counter update on page [p], as seen by the pool pages. *)
Lemma pool_page_upd b b' bs p f g p' f' :
  frame_array b' = <[p := g f]> (frame_array b) -> frame_array b !! p = Some f ->
  pool_page b' bs p' f' <->
  Block p' 0 Pool ∈ bs /\ ((p' = p /\ f' = g f) \/ (p' <> p /\ frame_array b !! p' = Some f')).
Proof.
  intros E Hf. unfold pool_page. rewrite E. destruct (decide (p' = p)) as [-> | Hne].
  - rewrite lookup_insert_eq. naive_solver.
  - rewrite lookup_insert_ne by done. naive_solver.
Qed.

(** The chunks stay where they are when frames keep their pool index. *)
Lemma chunk_of_upd b b' bs p f g i a :
  same_globals b b' -> frame_array b' = <[p := g f]> (frame_array b) -> frame_array b !! p = Some f ->
  meta_pool_idx (g f) = meta_pool_idx f -> chunk_of b' bs i a <-> chunk_of b bs i a.
Proof.
  intros Hg E Hf Hm. unfold chunk_of, slot. split; intros (p' & f' & Hp & <- & Hs).
  - apply (pool_page_upd b b' bs p f g p' f' E Hf) in Hp as [Hin [[-> ->] | [? Hf']]].
    + exists p, f. rewrite <- (same_globals_in_page b b') by done. by rewrite <- Hm.
    + exists p', f'. by rewrite <- (same_globals_in_page b b') by done.
  - destruct Hp as [Hin Hf']. destruct (decide (p' = p)) as [-> | ?].
    + simplify_eq. exists p, (g f). rewrite (same_globals_in_page b b') by done. rewrite Hm.
      split; [| done]. apply (pool_page_upd b b' bs p f g p _ E Hf). tauto.
    + exists p', f'. rewrite (same_globals_in_page b b') by done. split; [| done].
      apply (pool_page_upd b b' bs p f g p' f' E Hf). tauto.
Qed.

(** ** Taking a chunk *)

Lemma free_in_cons b p a xs :
  free_in b p (a :: xs) = (if decide (in_page b p a) then 1 else 0) + free_in b p xs.
Proof. unfold free_in. rewrite filter_cons. case_decide; simpl; lia. Qed.

Lemma free_in_none b p xs : (forall a, a ∈ xs -> ~ in_page b p a) -> free_in b p xs = 0.
Proof.
  intros Hx. induction xs as [| a xs IH]; [done |]. rewrite free_in_cons, decide_False, IH; [done | |].
  - intros x ?. apply Hx. by right.
  - apply Hx. by left.
Qed.

Lemma free_in_filter b p xs (P : Z -> Prop) `{!forall x, Decision (P x)} :
  (forall x, in_page b p x -> P x) -> free_in b p (filter P xs) = free_in b p xs.
Proof.
  intros HP. induction xs as [| a xs IH]; [done |]. rewrite filter_cons, (free_in_cons _ _ a xs).
  case_decide as HPa; [by rewrite free_in_cons, IH |]. rewrite decide_False, IH by auto. lia.
Qed.

Lemma free_in_all b p xs : (forall a, a ∈ xs -> in_page b p a) -> free_in b p xs = Z.of_nat (length xs).
Proof.
  intros Hx. induction xs as [| a xs IH]; [done |]. rewrite free_in_cons, decide_True, IH; [simpl; lia | |].
  - intros x ?. apply Hx. by right.
  - apply Hx. by left.
Qed.

Lemma free_in_globals b b' p xs : same_globals b b' -> free_in b' p xs = free_in b p xs.
Proof.
  intros Hg. unfold free_in. f_equal. f_equal. apply list_filter_iff. intros a.
  by apply same_globals_in_page.
Qed.

(** A page has room for only so many distinct chunks. *)
Lemma slots_bound b i p zs :
  region_ok b -> 0 <= i < 8 -> NoDup zs -> (forall a, a ∈ zs -> slot b i p a) ->
  Z.of_nat (length zs) <= 2 ^ (8 - i).
Proof.
  intros Hr Hi Hnd Hz. rewrite <- (slots_length b i p Hi).
  apply inj_le, submseteq_length, NoDup_submseteq; [done |].
  intros a Ha. apply (slot_in_slots b i p a Hr Hi). auto.
Qed.

(** The free chunks of a page, with other chunks of the page that are not free. *)
Lemma free_in_bound q st bs F p f ys :
  awf_ex q st bs F -> pool_page (bud st) bs p f -> NoDup ys ->
  (forall a, a ∈ ys -> slot (bud st) (meta_pool_idx f) p a /\ a ∉ F (meta_pool_idx f)) ->
  Z.of_nat (length ys) + free_in (bud st) p (F (meta_pool_idx f)) <= 2 ^ (8 - meta_pool_idx f).
Proof.
  intros Haw Hpp Hnd Hys. destruct (aw_pages _ _ _ _ Haw p f Hpp) as (Hi & _).
  unfold free_in. rewrite <- Nat2Z.inj_add, <- length_app.
  pose proof (aw_buddy _ _ _ _ Haw) as Hwf.
  apply (slots_bound (bud st) _ p); [apply Hwf | done | |].
  - apply NoDup_app. split_and!; [done | |].
    + intros a Ha [_ Hin]%list_elem_of_filter. by apply Hys in Ha as [_ ?].
    + apply NoDup_filter. destruct (is_list_nodup _ _ _ (aw_lists _ _ _ _ Haw _ Hi)) as [Hn _].
      by apply NoDup_fmap_1 in Hn.
  - intros a [Ha | [Hp Ha]%list_elem_of_filter]%elem_of_app; [by apply Hys |].
    destruct (aw_free _ _ _ _ Haw _ _ Hi Ha) as (p' & f' & _ & Hm & [Hin Hd]).
    assert (p' = p) as -> by (by eapply in_page_unique). done.
Qed.

(** ** The walks over a free list *)

Lemma list_fuel_spec l h xs : is_list l h (Chunk <$> xs) -> (length xs <= list_fuel l)%nat.
Proof.
  intros Hl. unfold list_fuel. rewrite <- size_dom.
  transitivity (size (list_to_set (Chunk <$> xs) : gset cnode)).
  - rewrite size_list_to_set by (by apply is_list_nodup in Hl as [? _]). by rewrite length_fmap.
  - apply subseteq_size. intros n Hn%elem_of_list_to_set. apply list_elem_of_split in Hn as (n1 & n2 & E).
    destruct Hl as [_ Hc]. rewrite E in Hc. apply chain_app in Hc as [_ Hc].
    apply elem_of_dom. destruct n2; simpl in Hc; destruct Hc as [-> _]; eauto.
Qed.

Lemma on_list_spec fuel l done_ todo h a :
  is_list l h (Chunk <$> (done_ ++ todo)) -> h <> Chunk a -> (length todo <= fuel)%nat ->
  on_list fuel (default h (head (Chunk <$> todo))) h (Chunk a) l = Some (bool_decide (a ∈ todo)).
Proof.
  revert fuel done_. induction todo as [| x todo IH]; intros fuel done_ Hl Hh Hf; simpl default.
  { rewrite bool_decide_false by apply not_elem_of_nil. destruct fuel; simpl; by rewrite decide_True. }
  destruct fuel as [| fuel]; [simpl in Hf; lia |]. cbn [on_list].
  destruct (is_list_nodup _ _ _ Hl) as [Hnd Hhx]. rewrite fmap_app, fmap_cons in Hnd, Hhx.
  rewrite decide_False by set_solver. destruct (decide (Chunk x = Chunk a)) as [[= ->] | Hne].
  { rewrite bool_decide_true; [done | by left]. }
  pose proof Hl as [_ Hc]. rewrite fmap_app, fmap_cons in Hc. apply chain_app in Hc as [_ Hc].
  destruct (chain_mid l (Chunk x) [] (Chunk <$> todo) h Hc) as [Hn _]. simpl in Hn. rewrite Hn. cbn [mbind option_bind].
  rewrite (IH fuel (done_ ++ [x])); [| by rewrite <- app_assoc | done | simpl in Hf; lia].
  f_equal. apply bool_decide_ext. rewrite elem_of_cons. split; [by right | intros [-> | ?]; done].
Qed.

Lemma purge_page_spec fuel l h done_ todo b p :
  is_list l h (Chunk <$> (done_ ++ todo)) -> (length todo <= fuel)%nat ->
  page_base b p + PAGE_SIZE < 2 ^ 64 -> 0 <= page_base b p ->
  exists l', purge_page fuel (default h (head (Chunk <$> todo))) h (page_base b p) l = Some l' /\
    is_list l' h (Chunk <$> (done_ ++ filter (fun a => ~ in_page b p a) todo)) /\
    same_outside (h :: (Chunk <$> (done_ ++ todo))) l l'.
Proof.
  intros Hl Hf Hend Hpos. revert fuel l done_ Hl Hf.
  induction todo as [| x todo IH]; intros fuel l done_ Hl Hf; simpl default.
  { exists l. split_and!; try done. destruct fuel; simpl; by rewrite decide_True. }
  destruct fuel as [| fuel]; [simpl in Hf; lia |]. cbn [purge_page chunk_addr].
  destruct (is_list_nodup _ _ _ Hl) as [Hnd Hhx]. rewrite fmap_app, fmap_cons in Hnd, Hhx.
  rewrite decide_False by set_solver.
  pose proof Hl as [_ Hc]. rewrite fmap_app, fmap_cons in Hc. apply chain_app in Hc as [_ Hc].
  destruct (chain_mid l (Chunk x) [] (Chunk <$> todo) h Hc) as [Hn _]. simpl in Hn. rewrite Hn. cbn [mbind option_bind].
  rewrite u64_small by (rewrite PAGE_SIZE_val in *; lia).
  assert (Hb : (page_base b p <=? x) && (x <? page_base b p + PAGE_SIZE) = bool_decide (in_page b p x)).
  { unfold in_page. destruct (Z.leb_spec (page_base b p) x), (Z.ltb_spec x (page_base b p + PAGE_SIZE)); simpl;
      symmetry; (apply bool_decide_true || apply bool_decide_false); lia. }
  rewrite Hb, filter_cons. destruct (decide (in_page b p x)) as [Hin | Hin].
  - rewrite bool_decide_true, decide_False by tauto. rewrite fmap_app, fmap_cons in Hl.
    destruct (list_del_spec _ _ _ _ _ Hl) as (l1 & -> & Hl1 & _ & Ho1). cbn [mbind option_bind].
    destruct (IH fuel l1 done_) as (l' & -> & Hl' & Ho'); [by rewrite fmap_app | simpl in Hf; lia |].
    exists l'. split_and!; [done | done |].
    eapply same_outside_mono; [| exact (same_outside_trans _ _ _ _ _ Ho1 Ho')].
    intros m. rewrite ?fmap_app, ?fmap_cons. repeat rewrite ?elem_of_app, ?elem_of_cons. tauto.
  - rewrite bool_decide_false, decide_True by done. cbn [mbind option_bind].
    destruct (IH fuel l (done_ ++ [x])) as (l' & -> & Hl' & Ho');
      [by rewrite <- app_assoc | simpl in Hf; lia |].
    rewrite <- !app_assoc in Hl', Ho'. by exists l'.
Qed.

(** ** Moving chunks of a page to or from the list of its pool *)

Lemma awf_move q st bs F i p f g l' D ys b' :
  awf_ex q st bs F -> pool_page (bud st) bs p f -> meta_pool_idx f = i ->
  wf b' bs -> same_globals (bud st) b' -> frame_array b' = <[p := g f]> (frame_array (bud st)) ->
  meta_pool_idx (g f) = meta_pool_idx f ->
  is_list l' (PoolHead i) (Chunk <$> ys) -> same_outside D (free_list st) l' ->
  (forall n, n ∈ D -> n = PoolHead i \/ exists a, n = Chunk a /\ chunk_of (bud st) bs i a) ->
  (forall x, x ∈ ys -> chunk_of (bud st) bs i x) ->
  (forall p', p' <> p -> free_in (bud st) p' ys = free_in (bud st) p' (F i)) ->
  ref_count (g f) = 2 ^ (8 - i) - free_in (bud st) p ys -> 0 < ref_count (g f) ->
  q = p \/ q = -1 ->
  awf (set_free_list l' (set_bud b' st)) bs (<[i := ys]> F).
Proof.
  intros [Hwf Hrd Hsz Hls Hfr Hpg Hcw] Hpp Hm Hwf' Hg Hfa Hmg Hl' Ho HD Hys Hfi Hrc Hpos Hq.
  assert (Hi : 0 <= i < 8) by (subst i; apply (Hpg p f Hpp)).
  assert (Hco : forall j x, chunk_of b' bs j x <-> chunk_of (bud st) bs j x)
    by (intros j x; apply (chunk_of_upd (bud st) b' bs p f g); [done | exact Hfa | apply Hpp | done]).
  split; cbn [bud free_list g_allocator_ready chunk_sizes set_free_list set_bud]; try done.
  - intros j Hj. destruct (decide (j = i)) as [-> | Hne]; [by rewrite fn_lookup_insert |].
    rewrite fn_lookup_insert_ne by done.
    apply (lists_other (bud st) bs (free_list st) l' i j _ _ (not_eq_sym Hne) (Hls j Hj) Ho HD). intros; by apply Hfr.
  - intros j x Hj. rewrite Hco. destruct (decide (j = i)) as [-> | Hne].
    + rewrite fn_lookup_insert. apply Hys.
    + rewrite fn_lookup_insert_ne by done. by apply Hfr.
  - intros p' f' Hpp'. apply (pool_page_upd (bud st) b' bs p f g p' f' Hfa (proj2 Hpp)) in Hpp' as [Hb Hcase].
    rewrite (free_in_globals (bud st)) by done. destruct Hcase as [[-> ->] | [Hne Hf']].
    + rewrite Hmg, Hm, fn_lookup_insert. done.
    + destruct (Hpg p' f' (conj Hb Hf')) as (Hr & Hrc' & Hps). split_and!; [lia | lia | |].
      * rewrite Hrc'. f_equal. destruct (decide (meta_pool_idx f' = i)) as [-> | ?].
        -- by rewrite fn_lookup_insert, Hfi.
        -- by rewrite fn_lookup_insert_ne.
      * intros _. apply Hps. pose proof (tiled_range _ _ _ Hwf Hb) as Hz. simpl in Hz. lia.
  - intros p' o f' Hb Hf'. rewrite Hfa in Hf'. destruct (decide (p = p')) as [<- | ?].
    + pose proof (page_unique _ _ _ _ Hwf Hb (proj1 Hpp) eq_refl). done.
    + rewrite lookup_insert_ne in Hf' by done. by eapply Hcw.
Qed.

Lemma free_in_cons_other b p p' a xs : in_page b p a -> p' <> p -> free_in b p' (a :: xs) = free_in b p' xs.
Proof.
  intros Hin Hne. rewrite free_in_cons, decide_False; [lia |].
  intros ?. apply Hne. by eapply in_page_unique.
Qed.

(** The nodes of a pool list. *)
Lemma pool_nodes b bs i xs n :
  (forall x, x ∈ xs -> chunk_of b bs i x) -> n ∈ PoolHead i :: (Chunk <$> xs) ->
  n = PoolHead i \/ exists a, n = Chunk a /\ chunk_of b bs i a.
Proof.
  intros Hx. rewrite elem_of_cons, list_elem_of_fmap. intros [-> | (x & -> & ?)]; [by left | right; eauto].
Qed.

Lemma alloc_chunk_spec q st bs F i a xs :
  awf_ex q st bs F -> 0 <= i < 8 -> F i = a :: xs -> q = -1 \/ in_page (bud st) q a ->
  exists st', alloc_chunk i st = Some (a, st') /\ awf st' bs (<[i := xs]> F) /\
    same_globals (bud st) (bud st') /\
    (forall j x, chunk_of (bud st') bs j x <-> chunk_of (bud st) bs j x) /\
    (forall x, live (bud st') bs (<[i := xs]> F) x <-> live (bud st) bs F x \/ x = a) /\
    pages_kept (bud st) (bud st') bs.
Proof.
  intros Haw Hi HF Hq. pose proof Haw as [Hwf Hrd Hsz Hls Hfr Hpg Hcw].
  assert (Hch : chunk_of (bud st) bs i a) by (apply Hfr; [done | rewrite HF; by left]).
  destruct (chunk_of_page _ _ _ _ Hwf Hch) as (p & f & Hpp & Hm & [Hin Hd] & Hp).
  destruct (in_page_facts _ _ _ (wf_region _ _ Hwf) Hp Hin) as (_ & Hidx & _).
  pose proof (Hls i Hi) as Hli. rewrite HF in Hli. cbn [fmap list_fmap] in Hli.
  unfold alloc_chunk. rewrite (list_first_spec _ _ _ _ Hli). cbn [mbind option_bind].
  destruct (list_del_spec _ _ [] _ _ Hli) as (l' & -> & Hl' & _ & Ho). cbn [mbind option_bind chunk_addr].
  rewrite Hidx. set (g := fun f0 : frame => set_ref_count (ref_count f0 + 1) f0).
  destruct (wf_upd_same (bud st) bs p f g Hwf (proj2 Hpp)) as (b' & -> & Hwf' & Hg & Hfa); [done | done |].
  cbn [mbind option_bind]. eexists. split; [done |]. simpl app in *.
  destruct (is_list_nodup _ _ _ Hli) as [Hnd _]. apply NoDup_cons in Hnd as [Hna _].
  assert (Ha : a ∉ xs) by (intros ?; apply Hna, list_elem_of_fmap; eauto).
  assert (Hco : forall j x, chunk_of b' bs j x <-> chunk_of (bud st) bs j x)
    by (intros j x; apply (chunk_of_upd (bud st) b' bs p f g); [done | exact Hfa | apply Hpp | done]).
  cbn [bud set_free_list set_bud]. split_and!; [| done | done | |].
  3: { intros q' o' Hb'. rewrite Hfa, lookup_insert_ne; [done |]. intros <-.
       by pose proof (page_unique _ _ _ _ Hwf Hb' (proj1 Hpp) eq_refl). }
  - pose proof (free_in_bound q st bs F p f [] Haw Hpp (NoDup_nil_2)) as Hle.
    destruct (Hpg p f Hpp) as (_ & Hrc & _).
    rewrite Hm, HF, free_in_cons, decide_True in Hrc, Hle by done. specialize (Hle ltac:(intros ? []%elem_of_nil)).
    simpl in Hle. eapply (awf_move q st bs F i p f g l' (PoolHead i :: Chunk a :: (Chunk <$> xs)));
      try done; try (subst g; simpl; lia).
    + intros n. apply (pool_nodes _ _ i (a :: xs)). intros x. rewrite <- HF. by apply Hfr.
    + intros x Hx. apply Hfr; [done |]. rewrite HF. by right.
    + intros p' Hne. by rewrite HF, (free_in_cons_other _ p).
    + destruct Hq as [| Hq]; [by right | left; by eapply in_page_unique].
  - intros x. unfold live. setoid_rewrite Hco. split.
    + intros (j & Hc & Hx). destruct (decide (j = i)) as [-> | Hne].
      * rewrite fn_lookup_insert in Hx. destruct (decide (x = a)) as [-> | ?]; [by right | left].
        exists i. split; [done |]. rewrite HF. set_solver.
      * rewrite fn_lookup_insert_ne in Hx by done. left. by exists j.
    + intros [(j & Hc & Hx) | ->].
      * exists j. split; [done |]. destruct (decide (j = i)) as [-> | Hne].
        -- rewrite fn_lookup_insert. rewrite HF in Hx. set_solver.
        -- by rewrite fn_lookup_insert_ne.
      * exists i. split; [done |]. by rewrite fn_lookup_insert.
Qed.

(** ** Expanding a pool *)

Lemma add_chunks_spec n k0 base c i l xs :
  0 < c -> 0 <= k0 -> 0 <= base -> base + (k0 + Z.of_nat n) * c < 2 ^ 64 ->
  is_list l (PoolHead i) (Chunk <$> xs) -> (forall a, a ∈ xs -> a < base + k0 * c) ->
  let new := (fun k => base + k * c) <$> seqZ k0 (Z.of_nat n) in
  exists l', add_chunks n k0 base c i l = Some l' /\
    is_list l' (PoolHead i) (Chunk <$> (reverse new ++ xs)) /\
    same_outside (PoolHead i :: (Chunk <$> (new ++ xs))) l l'.
Proof.
  intros Hc. revert k0 l xs. induction n as [| n IH]; intros k0 l xs Hk Hb Hend Hl Hx new.
  { exists l. split_and!; done. }
  cbn [add_chunks]. subst new. rewrite (u64_small (k0 * c)) by nia. rewrite u64_small by nia.
  destruct (list_add_spec l (PoolHead i) (Chunk <$> xs) (Chunk (base + k0 * c))) as (l1 & -> & Hl1 & Ho1); [done | |].
  { rewrite elem_of_cons, list_elem_of_fmap. intros [? | (a & [= E] & Ha)]; [done |]. apply Hx in Ha. lia. }
  cbn [mbind option_bind].
  destruct (IH (k0 + 1) l1 ((base + k0 * c) :: xs)) as (l' & -> & Hl' & Ho'); [lia | done | nia | done | |].
  { intros a [-> | Ha]%elem_of_cons; [nia |]. apply Hx in Ha. nia. }
  exists l'. split; [done |].
  rewrite (seqZ_cons k0) by lia. replace (Z.pred (Z.of_nat (S n))) with (Z.of_nat n) by lia.
  change (Z.succ k0) with (k0 + 1). rewrite fmap_cons, reverse_cons, <- app_assoc. split; [done |].
  eapply same_outside_mono; [| exact (same_outside_trans _ _ _ _ _ Ho1 Ho')].
  intros m. rewrite ?fmap_app, ?fmap_cons. repeat rewrite ?elem_of_app, ?elem_of_cons. tauto.
Qed.

(** What an allocation step does to the blocks that are not free. *)
Lemma alloc_step_nonfree ord bs idx bs' k :
  0 <= ord -> alloc_step ord bs idx bs' -> b_kind k <> Free -> k ∈ bs' <-> k ∈ bs \/ k = Block idx ord Alloc.
Proof.
  intros Ho (bs1 & cur & bs2 & -> & _ & _ & ->) Hk.
  rewrite !elem_of_app, !elem_of_cons, elem_of_app, elem_split_rest by done. split.
  - intros [? | [? | [(o & _ & ->) | ?]]]; tauto.
  - intros [[? | [-> | ?]] | ?]; tauto.
Qed.

Lemma alloc_step_fresh ord bs idx bs' :
  alloc_step ord bs idx bs' -> exists cur, Block idx cur Free ∈ bs.
Proof. intros (bs1 & cur & bs2 & -> & _). exists cur. set_solver. Qed.

Lemma set_bud_id st : set_bud (bud st) st = st.
Proof. by destruct st. Qed.

(** The page [q] is new: the other blocks in use are those of [bs], the other
    pool pages keep their frames. *)
Record new_page (b : buddy) (bs : list block) (b2 : buddy) (bs2 : list block) (q i : Z) : Prop := {
  np_wf : wf b2 bs2;
  np_globals : same_globals b b2;
  np_range : 0 <= q < G_MEM_TOTAL_PAGE b2;
  np_fresh : forall k, k ∈ bs -> b_kind k <> Free -> b_idx k <> q;
  np_blocks : forall k, b_kind k <> Free -> k ∈ bs2 <-> k ∈ bs \/ k = Block q 0 Pool;
  np_frames : forall k, k ∈ bs -> b_kind k <> Free -> frame_array b2 !! b_idx k = frame_array b !! b_idx k;
  np_frame : exists f, frame_array b2 !! q = Some (mark_chunk_page i f);
}.

(** Taking a page from the buddy allocator and marking it for pool [i]. *)
Lemma new_pool_page b bs i : wf b bs ->
  (buddy_alloc_pages 0 b = Some (0, b) /\ (forall k, k ∈ bs -> b_kind k <> Free)) \/
  exists q b1 b2 bs2, buddy_alloc_pages 0 b = Some (page_base b2 q, b1) /\ same_globals b b1 /\
    upd_frame q (mark_chunk_page i) b1 = Some b2 /\ new_page b bs b2 bs2 q i.
Proof.
  intros Hwf. destruct (buddy_alloc_pages_spec 0 b bs Hwf ltac:(lia))
    as [[E Hno] | (bs1 & q & b1 & E & Hq & _ & Hst & Hwf1 & Hg1 & _ & Hkeep)].
  { left. split; [done |]. intros k Hk Hf. pose proof (Hno k Hk Hf).
    destruct (tiled_elem _ _ _ _ _ (wf_tiled _ _ Hwf) Hk) as (_ & _ & [? _ _ _ _]). lia. }
  right. assert (Hin1 : Block q 0 Alloc ∈ bs1) by (apply (alloc_step_nonfree 0 bs q bs1); try done; by right).
  destruct (tiled_elem _ _ _ _ _ (wf_tiled _ _ Hwf1) Hin1) as (_ & _ & [_ _ _ (f & Hf & _) _]). simpl in Hf.
  apply list_elem_of_split in Hin1 as (l1 & l2 & Ebs). rewrite Ebs in Hwf1.
  destruct (wf_convert b1 l1 q Alloc Pool l2 f (mark_chunk_page i) Hwf1) as (b2 & Eu & Hwf2 & Hg2 & Hfa2);
    [done | done | done | done | done |].
  assert (Hg : same_globals b b2) by (by etrans).
  assert (Hq0 : forall k, k ∈ bs -> b_kind k <> Free -> b_idx k <> q).
  { intros k Hk Hnf E'. apply alloc_step_fresh in Hst as [cur Hc].
    pose proof (page_unique _ _ _ _ Hwf Hk Hc E'). subst k. by apply Hnf. }
  exists q, b1, b2, (l1 ++ Block q 0 Pool :: l2). split_and!; [| done | done | split; try done].
  - rewrite E. unfold page_base. by rewrite (sg_start _ _ Hg), PAGE_SIZE_pow.
  - by rewrite (sg_total _ _ Hg).
  - intros k Hk. pose proof (alloc_step_nonfree 0 bs q bs1 k ltac:(lia) Hst Hk) as He.
    rewrite Ebs in He. rewrite !elem_of_app, !elem_of_cons in *.
    destruct (decide (k = Block q 0 Alloc)) as [-> | Hne]; [| tauto].
    split; [| intros [Hb | ?]; [by destruct (Hq0 _ Hb Hk) | done]].
    intros Hor. assert (Hin2 : Block q 0 Alloc ∈ l1 ++ Block q 0 Pool :: l2) by (rewrite elem_of_app, elem_of_cons; tauto).
    pose proof (page_unique _ _ _ (Block q 0 Pool) Hwf2 Hin2 ltac:(set_solver) eq_refl). done.
  - intros k Hk Hnf. rewrite Hfa2, lookup_insert_ne by (apply not_eq_sym; by apply Hq0).
    apply (Hkeep _ Hk Hnf). destruct (tiled_elem _ _ _ _ _ (wf_tiled _ _ Hwf) Hk) as (_ & _ & ?%block_ok_end). lia.
  - exists f. by rewrite Hfa2, lookup_insert_eq.
Qed.

Lemma new_page_pool b bs b2 bs2 q i p g :
  new_page b bs b2 bs2 q i -> pool_page b2 bs2 p g ->
  (pool_page b bs p g /\ p <> q) \/ (p = q /\ meta_pool_idx g = i /\ ref_count g = 0).
Proof.
  intros Hn [Hb Hf]. apply (np_blocks _ _ _ _ _ _ Hn) in Hb as [Hb | [= ->]]; [| | done].
  - left. split; [split; [done |] | by apply (np_fresh _ _ _ _ _ _ Hn (Block p 0 Pool))].
    rewrite <- Hf. symmetry. by apply (np_frames _ _ _ _ _ _ Hn (Block p 0 Pool)).
  - right. destruct (np_frame _ _ _ _ _ _ Hn) as [f Hf']. rewrite Hf' in Hf. injection Hf as <-. done.
Qed.

(** The chunks after adding the page: the old ones and those of the page. *)
Lemma new_page_chunks b bs b2 bs2 q i j x :
  new_page b bs b2 bs2 q i ->
  chunk_of b2 bs2 j x <-> chunk_of b bs j x \/ (j = i /\ slot b2 i q x).
Proof.
  intros Hn. pose proof (np_globals _ _ _ _ _ _ Hn) as Hg. unfold chunk_of. split.
  - intros (p & g & Hp & <- & Hs). apply (new_page_pool _ _ _ _ _ _ _ _ Hn) in Hp as [[? _] | (-> & <- & _)]; [left | by right].
    exists p, g. split_and!; try done. by destruct Hs as [Hs%(same_globals_in_page b) ?].
  - intros [(p & g & [Hb Hf] & <- & Hs) | [-> Hs]].
    + exists p, g. split_and!; [split | done |].
      * apply (np_blocks _ _ _ _ _ _ Hn); [done | by left].
      * rewrite <- Hf. by apply (np_frames _ _ _ _ _ _ Hn (Block p 0 Pool)).
      * by destruct Hs as [Hs%(same_globals_in_page b b2) ?].
    + destruct (np_frame _ _ _ _ _ _ Hn) as [f Hf]. exists q, (mark_chunk_page i f). split_and!; [split | done | done].
      * apply (np_blocks _ _ _ _ _ _ Hn); [done | by right].
      * done.
Qed.

(** No old chunk lies in the new page. *)
Lemma new_page_apart b bs b2 bs2 q i j x :
  new_page b bs b2 bs2 q i -> chunk_of b bs j x -> ~ in_page b2 q x.
Proof.
  intros Hn (p & g & [Hb _] & _ & Hx & _) Hxq.
  apply (np_fresh _ _ _ _ _ _ Hn _ Hb); [done |]. simpl. eapply in_page_unique; [exact Hx |].
  apply (same_globals_in_page _ _ q x (np_globals _ _ _ _ _ _ Hn)). done.
Qed.

(** The invariant once the chunks of the new page are on the list of its pool. *)
Lemma new_page_awf st bs F b2 bs2 q i l' xs :
  awf st bs F -> 0 <= i < 8 -> F i = [] -> new_page (bud st) bs b2 bs2 q i ->
  (forall x, x ∈ xs <-> slot b2 i q x) -> Z.of_nat (length xs) = 2 ^ (8 - i) ->
  is_list l' (PoolHead i) (Chunk <$> xs) -> same_outside (PoolHead i :: (Chunk <$> xs)) (free_list st) l' ->
  awf_ex q (set_free_list l' (set_bud b2 st)) bs2 (<[i := xs]> F).
Proof.
  intros [Hwf Hrd Hsz Hls Hfr Hpg Hcw] Hi HF Hn Hslot Hlen Hl' Ho.
  pose proof (fun j x => new_page_chunks _ _ _ _ _ _ j x Hn) as Hco.
  split; cbn [bud free_list g_allocator_ready chunk_sizes set_free_list set_bud]; try done; [apply Hn | ..].
  - intros j Hj. destruct (decide (j = i)) as [-> | Hne]; [by rewrite fn_lookup_insert |].
    rewrite fn_lookup_insert_ne by done.
    apply (lists_other b2 bs2 (free_list st) l' i j _ _ (not_eq_sym Hne) (Hls j Hj) Ho).
    + intros n0. rewrite elem_of_cons, list_elem_of_fmap. intros [-> | (x & -> & Hx)]; [by left | right].
      exists x. split; [done |]. apply Hco. right. split; [done |]. by apply Hslot.
    + intros x Hx. apply Hco. left. by apply Hfr.
  - intros j x Hj. rewrite Hco. destruct (decide (j = i)) as [-> | Hne].
    + rewrite fn_lookup_insert. intros Hx. right. split; [done |]. by apply Hslot.
    + rewrite fn_lookup_insert_ne by done. intros Hx. left. by apply Hfr.
  - intros p g Hp. apply (new_page_pool _ _ _ _ _ _ _ _ Hn) in Hp as [[Hp Hne] | (-> & <- & Hrc)].
    + destruct (Hpg p g Hp) as (Hm & Hrc & Hps). split_and!; [lia | lia | |].
      * rewrite (free_in_globals (bud st)), Hrc by apply Hn. f_equal.
        destruct (decide (meta_pool_idx g = i)) as [E |]; [| by rewrite fn_lookup_insert_ne].
        rewrite E, fn_lookup_insert, HF. symmetry. rewrite <- (free_in_globals (bud st) b2) by apply Hn.
        apply free_in_none. intros x Hx%Hslot Hxp. apply Hne. eapply in_page_unique; [exact Hxp | apply Hx].
      * intros _. apply Hps. pose proof (tiled_range _ _ _ Hwf (proj1 Hp)). simpl in *. lia.
    + split_and!; [lia | lia | | done]. rewrite fn_lookup_insert.
      rewrite free_in_all by (intros x Hx%Hslot; apply Hx). lia.
  - intros p o g Hb Hg. apply (np_blocks _ _ _ _ _ _ Hn) in Hb as [Hb | ?]; [| done | done].
    eapply Hcw; [exact Hb |]. rewrite <- Hg. symmetry. by apply (np_frames _ _ _ _ _ _ Hn (Block p o Alloc)).
Qed.

(** The live chunks do not change: every chunk of the new page is free. *)
Lemma new_page_live b bs b2 bs2 q i F xs x :
  new_page b bs b2 bs2 q i -> F i = [] -> (forall y, y ∈ xs <-> slot b2 i q y) ->
  live b2 bs2 (<[i := xs]> F) x <-> live b bs F x.
Proof.
  intros Hn HF Hslot. unfold live. split.
  - intros (j & Hc & Hx). apply (new_page_chunks _ _ _ _ _ _ _ _ Hn) in Hc as [Hc | [-> Hs]].
    + exists j. split; [done |]. destruct (decide (j = i)) as [-> | ?].
      * rewrite HF. apply not_elem_of_nil.
      * by rewrite fn_lookup_insert_ne in Hx.
    + rewrite fn_lookup_insert in Hx. by apply Hslot in Hs.
  - intros (j & Hc & Hx). exists j. split; [apply (new_page_chunks _ _ _ _ _ _ _ _ Hn); by left |].
    destruct (decide (j = i)) as [-> | ?]; [| by rewrite fn_lookup_insert_ne].
    rewrite fn_lookup_insert. intros Hs%Hslot. eapply new_page_apart; [exact Hn | exact Hc | apply Hs].
Qed.

Lemma expand_chunk_pool_spec st bs F i :
  awf st bs F -> 0 <= i < 8 -> F i = [] ->
  (expand_chunk_pool i st = Some (-1, st) /\ (forall k, k ∈ bs -> b_kind k <> Free)) \/
  exists q st' bs' a xs, expand_chunk_pool i st = Some (0, st') /\
    awf_ex q st' bs' (<[i := a :: xs]> F) /\ in_page (bud st') q a /\ same_globals (bud st) (bud st') /\
    (forall j x, chunk_of (bud st) bs j x -> chunk_of (bud st') bs' j x) /\
    (forall p o, Block p o Alloc ∈ bs' <-> Block p o Alloc ∈ bs) /\
    (forall x, live (bud st') bs' (<[i := a :: xs]> F) x <-> live (bud st) bs F x) /\
    pages_kept (bud st) (bud st') bs.
Proof.
  intros Haw Hi HF. pose proof Haw as [Hwf _ Hsz Hls _ _ _]. unfold expand_chunk_pool.
  destruct (new_pool_page (bud st) bs i Hwf) as [[-> Hno] | (q & b1 & b2 & bs2 & -> & Hg1 & Eu & Hn)];
    cbn [mbind option_bind].
  { left. simpl. rewrite set_bud_id. done. }
  right. pose proof (wf_region _ _ (np_wf _ _ _ _ _ _ Hn)) as Hreg2.
  assert (Hbase : in_page b2 q (page_base b2 q)) by (unfold in_page; rewrite PAGE_SIZE_val; lia).
  destruct (in_page_facts _ _ _ Hreg2 (np_range _ _ _ _ _ _ Hn) Hbase) as (_ & Hidx & _ & Hpos & Hend).
  destruct (Z.eqb_spec (page_base b2 q) 0); [lia |].
  rewrite (chunk_size_spec st i Hsz Hi). cbn [mbind option_bind].
  replace (addr_to_page_idx (page_base b2 q) b1) with q.
  2: { rewrite <- Hidx at 1. unfold addr_to_page_idx. by rewrite (sg_start _ _ Hg1), (sg_start _ _ (np_globals _ _ _ _ _ _ Hn)). }
  rewrite Eu. cbn [mbind option_bind]. pose proof (csize_page i Hi) as [Hcs _]. pose proof (csize_pos i ltac:(lia)) as Hcp.
  pose proof (pow2_mono (8 - i) 8 ltac:(lia)) as Hn8. pose proof (pow2_pos (8 - i) ltac:(lia)) as Hn1.
  assert (Ecnt : u32 (PAGE_SIZE / csize i) = 2 ^ (8 - i)).
  { rewrite PAGE_SIZE_val, <- Hcs, Z.mul_comm, Z.div_mul by lia. apply u32_small. change (2 ^ 8) with 256 in Hn8. lia. }
  rewrite Ecnt. pose proof (Hls i Hi) as Hli. rewrite HF in Hli. cbn [fmap list_fmap] in Hli.
  destruct (add_chunks_spec (Z.to_nat (2 ^ (8 - i))) 0 (page_base b2 q) (csize i) i (free_list st) [])
    as (l' & -> & Hl' & Ho); [lia | lia | lia | | done | set_solver |].
  { rewrite PAGE_SIZE_val in Hend. lia. }
  rewrite Z2Nat.id in Hl', Ho by lia. fold (slots b2 i q) in Hl', Ho. rewrite app_nil_r in Hl', Ho.
  cbn [mbind option_bind].
  assert (Hlen : Z.of_nat (length (reverse (slots b2 i q))) = 2 ^ (8 - i)) by (rewrite length_reverse; by apply slots_length).
  assert (Hslot : forall x, x ∈ reverse (slots b2 i q) <-> slot b2 i q x).
  { intros x. rewrite elem_of_reverse. symmetry. by apply slot_in_slots. }
  assert (Ho' : same_outside (PoolHead i :: (Chunk <$> reverse (slots b2 i q))) (free_list st) l').
  { eapply same_outside_mono; [| exact Ho]. by rewrite reverse_Permutation. }
  destruct (reverse (slots b2 i q)) as [| a xs]; [simpl in Hlen; lia |].
  eexists q, _, bs2, a, xs. split; [done |]. cbn [bud set_free_list set_bud].
  split_and!; [by eapply new_page_awf | apply Hslot; by left | apply Hn | | | |].
  4: { intros q' o' Hb'. by apply (np_frames _ _ _ _ _ _ Hn (Block q' o' Alloc)). }
  - intros j x Hc. apply (new_page_chunks _ _ _ _ _ _ _ _ Hn). by left.
  - intros p o. rewrite (np_blocks _ _ _ _ _ _ Hn) by done. split; [by intros [? | ?] | by left].
  - intros x. by apply new_page_live with (q := q).
Qed.
