(* ===== verification/AllocFree.v ===== *)
(** * Correctness of [free]

    Returning a chunk to its pool, giving back a page without live chunks to
    the buddy allocator, and dropping references to page blocks. *)

From stdpp Require Import functions.
From S2P Require Import Prelude Config Align IList Buddy BuddySpec BuddyProofs Allocator AllocSizes AllocProofs.

(** ** A chunk goes back, its page stays *)

Lemma free_keep_awf st bs F p f a i b' l' :
  awf st bs F -> pool_page (bud st) bs p f -> meta_pool_idx f = i -> slot (bud st) i p a -> a ∉ F i ->
  ref_count f <> 1 ->
  let g := fun f => set_ref_count (ref_count f - 1) f in
  wf b' bs -> same_globals (bud st) b' -> frame_array b' = <[p := g f]> (frame_array (bud st)) ->
  is_list l' (PoolHead i) (Chunk <$> a :: F i) ->
  same_outside (Chunk a :: PoolHead i :: (Chunk <$> F i)) (free_list st) l' ->
  awf (set_free_list l' (set_bud b' st)) bs (<[i := a :: F i]> F) /\
  (forall x, live b' bs (<[i := a :: F i]> F) x <-> live (bud st) bs F x /\ x <> a).
Proof.
  intros Haw Hpp Hm Hs Hna Hrc1 g Hwf' Hg Hfa Hl' Ho.
  pose proof (aw_pages _ _ _ _ Haw p f Hpp) as (Hi & Hrc & Hpos). rewrite Hm in Hi, Hrc.
  assert (Hp0 : 0 <= p) by apply (tiled_range _ _ _ (aw_buddy _ _ _ _ Haw) (proj1 Hpp)).
  specialize (Hpos ltac:(lia)).
  assert (Hall : forall x, x ∈ a :: F i -> chunk_of (bud st) bs i x).
  { intros x [-> | Hx]%elem_of_cons; [by exists p, f | by apply Haw]. }
  split.
  - eapply (awf_move (-1) st bs F i p f g l' (Chunk a :: PoolHead i :: (Chunk <$> F i)));
      try done; [| | | subst g; simpl; lia | by right].
    + intros n Hn. apply (pool_nodes _ _ i (a :: F i)); [done |].
      rewrite fmap_cons. rewrite !elem_of_cons in *. tauto.
    + intros p' Hne. by apply (free_in_cons_other _ p); [apply Hs |].
    + rewrite free_in_cons, decide_True by apply Hs. subst g. simpl. lia.
  - assert (Hco : forall j x, chunk_of b' bs j x <-> chunk_of (bud st) bs j x)
      by (intros j x; apply (chunk_of_upd (bud st) b' bs p f g); [done | exact Hfa | apply Hpp | done]).
    intros x. unfold live. setoid_rewrite Hco. split.
    + intros (j & Hc & Hx). destruct (decide (j = i)) as [-> | Hne].
      * rewrite fn_lookup_insert, not_elem_of_cons in Hx. split; [exists i; tauto | tauto].
      * rewrite fn_lookup_insert_ne in Hx by done. split; [by exists j |]. intros ->.
        apply Hne. eapply chunk_of_functional; [exact Hc | apply Hall; by left].
    + intros [(j & Hc & Hx) Hxa]. exists j. split; [done |]. destruct (decide (j = i)) as [-> | Hne].
      * rewrite fn_lookup_insert, not_elem_of_cons. done.
      * by rewrite fn_lookup_insert_ne.
Qed.

(** ** The last chunk of a page goes back *)

(** The page [p] leaves the pool: the other blocks in use keep their frames. *)
Record page_gone (b : buddy) (bs : list block) (b3 : buddy) (bs3 : list block) (p : Z) : Prop := {
  pg_wf : wf b3 bs3;
  pg_globals : same_globals b b3;
  pg_blocks : forall k, b_kind k <> Free -> k ∈ bs3 <-> k ∈ bs /\ b_idx k <> p;
  pg_frames : forall k, k ∈ bs3 -> b_kind k <> Free -> frame_array b3 !! b_idx k = frame_array b !! b_idx k;
}.

(** Freeing a page block makes its page disappear from the blocks in use. *)
Lemma free_block_gone b bs p o : wf b bs -> Block p o Alloc ∈ bs ->
  exists b3 bs3, buddy_free_pages (page_base b p) b = Some b3 /\ page_gone b bs b3 bs3 p.
Proof.
  intros Hwf (l1 & l2 & ->)%list_elem_of_split.
  destruct (buddy_free_pages_spec p o b l1 l2 Hwf) as (b3 & l1' & p' & o' & l2' & E & Hm & _ & Hwf3 & Hg & Hk).
  exists b3, (l1' ++ Block p' o' Free :: l2'). split; [rewrite <- E; unfold page_base; by rewrite PAGE_SIZE_pow |].
  assert (Hin : forall k, b_kind k <> Free -> k ∈ l1' ++ Block p' o' Free :: l2' <-> k ∈ l1 ++ l2).
  { intros k Hkf. rewrite elem_of_app, elem_of_cons. split.
    - intros Hor. apply (merges_subset _ _ Hm). simpl. rewrite elem_of_app. destruct Hor as [? | [-> | ?]]; tauto.
    - intros Hk'. apply (merges_nonfree _ _ k Hm Hkf) in Hk'. simpl in Hk'. rewrite elem_of_app in Hk'. tauto. }
  assert (Hne : forall k, k ∈ l1 ++ l2 -> b_idx k <> p).
  { intros k Hk' E'. pose proof (tiled_nodup_mid _ _ _ _ _ _ (wf_tiled _ _ Hwf)) as Hnd. simpl in Hnd.
    apply NoDup_cons in Hnd as [Hnd _]. apply Hnd, list_elem_of_fmap. by exists k. }
  split; [done | done | |].
  - intros k Hkf. rewrite Hin by done. rewrite !elem_of_app, elem_of_cons. split.
    + intros Hor. split; [tauto |]. apply Hne. by rewrite elem_of_app.
    + intros [[? | [-> | ?]] Hkp]; tauto.
  - intros k Hk' Hnf. apply Hin in Hk'; [| done].
    destruct (tiled_elem _ _ _ _ k (wf_tiled _ _ Hwf)) as (_ & _ & Hok%block_ok_end).
    { rewrite elem_of_app, elem_of_cons. rewrite elem_of_app in Hk'. tauto. }
    apply (Hk k Hk' Hnf). lia.
Qed.

(** Giving a pool page back to the buddy allocator. *)
Lemma release_page b bs p f g : wf b bs -> pool_page b bs p f ->
  state (g f) = state f -> order (g f) = order f ->
  exists b1 b2 b3 bs3, upd_frame p g b = Some b1 /\ frame_array b1 = <[p := g f]> (frame_array b) /\
    upd_frame p (set_state PAGE_STATE_ALLOC_PAGE_HEAD) b1 = Some b2 /\
    buddy_free_pages (page_base b p) b2 = Some b3 /\ page_gone b bs b3 bs3 p.
Proof.
  intros Hwf [Hb Hf] Hs Ho.
  destruct (wf_upd_same b bs p f g Hwf Hf Hs Ho) as (b1 & E1 & Hwf1 & Hg1 & Hfa1).
  destruct (tiled_elem _ _ _ _ _ (wf_tiled _ _ Hwf) Hb) as (_ & _ & [_ _ _ (f' & Hf' & _ & Hof) _]).
  simpl in Hf', Hof. rewrite Hf in Hf'. injection Hf' as <-.
  apply list_elem_of_split in Hb as (l1 & l2 & ->).
  destruct (wf_convert b1 l1 p Pool Alloc l2 (g f) (set_state PAGE_STATE_ALLOC_PAGE_HEAD) Hwf1)
    as (b2 & E2 & Hwf2 & Hg2 & Hfa2); [done | done | by rewrite Hfa1, lookup_insert_eq | done | simpl; congruence |].
  destruct (free_block_gone b2 _ p 0 Hwf2) as (b3 & bs3 & E3 & Hn); [set_solver |].
  assert (Hg : same_globals b b2) by (by etrans).
  exists b1, b2, b3, bs3. split_and!; try done.
  { rewrite <- E3. f_equal. unfold page_base. by rewrite (sg_start _ _ Hg). }
  split; [apply Hn | etrans; [exact Hg | apply Hn] | |].
  - intros k Hk. rewrite (pg_blocks _ _ _ _ _ Hn) by done. rewrite !elem_of_app, !elem_of_cons. split.
    + intros [[? | [-> | ?]] Hne]; tauto.
    + intros [[? | [-> | ?]] Hne]; tauto.
  - intros k Hk Hnf. rewrite (pg_frames _ _ _ _ _ Hn k Hk Hnf).
    apply (pg_blocks _ _ _ _ _ Hn) in Hk as [_ Hne]; [| done]. by rewrite Hfa2, Hfa1, !lookup_insert_ne by done.
Qed.

Lemma page_gone_pool b bs b3 bs3 p p' g :
  page_gone b bs b3 bs3 p -> pool_page b3 bs3 p' g <-> pool_page b bs p' g /\ p' <> p.
Proof.
  intros Hn. unfold pool_page. rewrite (pg_blocks _ _ _ _ _ Hn) by done. simpl. split.
  - intros [[Hb Hne] Hf]. split_and!; try done. rewrite <- Hf. symmetry.
    apply (pg_frames _ _ _ _ _ Hn (Block p' 0 Pool)); [| done]. by apply (pg_blocks _ _ _ _ _ Hn).
  - intros [[Hb Hf] Hne]. split_and!; try done. rewrite <- Hf.
    apply (pg_frames _ _ _ _ _ Hn (Block p' 0 Pool)); [| done]. by apply (pg_blocks _ _ _ _ _ Hn).
Qed.

Lemma page_gone_chunks b bs b3 bs3 p i x :
  page_gone b bs b3 bs3 p -> chunk_of b3 bs3 i x <-> chunk_of b bs i x /\ ~ in_page b p x.
Proof.
  intros Hn. pose proof (pg_globals _ _ _ _ _ Hn) as Hg. unfold chunk_of, slot. split.
  - intros (p' & g & Hp & <- & [Hs Hd]). apply (page_gone_pool _ _ _ _ _ _ _ Hn) in Hp as [Hp Hne].
    apply (same_globals_in_page b) in Hs; [| done]. split; [by exists p', g |].
    intros Hx. apply Hne. by eapply in_page_unique.
  - intros [(p' & g & Hp & <- & [Hs Hd]) Hx]. exists p', g. rewrite (page_gone_pool _ _ _ _ _ _ _ Hn).
    rewrite (same_globals_in_page b b3) by done. split_and!; try done. intros ->. done.
Qed.

Lemma free_release_awf st bs F p f a i b3 bs3 l' :
  awf st bs F -> pool_page (bud st) bs p f -> meta_pool_idx f = i -> slot (bud st) i p a -> a ∉ F i ->
  ref_count f = 1 -> page_gone (bud st) bs b3 bs3 p ->
  let ys := filter (fun x => ~ in_page (bud st) p x) (a :: F i) in
  is_list l' (PoolHead i) (Chunk <$> ys) ->
  same_outside (PoolHead i :: (Chunk <$> a :: F i)) (free_list st) l' ->
  awf (set_free_list l' (set_bud b3 st)) bs3 (<[i := ys]> F) /\
  (forall x, live b3 bs3 (<[i := ys]> F) x <-> live (bud st) bs F x /\ x <> a).
Proof.
  intros Haw Hpp Hm Hs Hna Hrc1 Hn ys Hl' Ho. pose proof Haw as [Hwf Hrd Hsz Hls Hfr Hpg Hcw].
  pose proof (Hpg p f Hpp) as (Hi & Hrc & _). rewrite Hm in Hi, Hrc.
  assert (Hca : chunk_of (bud st) bs i a) by (by exists p, f).
  assert (Hys : forall x, x ∈ ys <-> x ∈ F i /\ ~ in_page (bud st) p x).
  { intros x. unfold ys. rewrite list_elem_of_filter, elem_of_cons. split; [| tauto].
    intros [Hx [-> | ?]]; [by destruct Hx; apply Hs | tauto]. }
  pose proof (fun j x => page_gone_chunks _ _ _ _ _ j x Hn) as Hco.
  assert (Hother : forall j x, j <> i -> chunk_of (bud st) bs j x -> ~ in_page (bud st) p x).
  { intros j x Hne (p' & g & [Hb Hf] & <- & [Hx _]) Hxp.
    assert (p' = p) as -> by (by eapply in_page_unique). destruct Hpp as [_ Hf']. congruence. }
  split; [split |]; cbn [bud free_list g_allocator_ready chunk_sizes set_free_list set_bud]; try done; [apply Hn | ..].
  - intros j Hj. destruct (decide (j = i)) as [-> | Hne]; [by rewrite fn_lookup_insert |].
    rewrite fn_lookup_insert_ne by done.
    apply (lists_other (bud st) bs (free_list st) l' i j _ _ (not_eq_sym Hne) (Hls j Hj) Ho); [| intros; by apply Hfr].
    intros n. apply pool_nodes. intros x [-> | ?]%elem_of_cons; [done | by apply Hfr].
  - intros j x Hj. rewrite Hco. destruct (decide (j = i)) as [-> | Hne].
    + rewrite fn_lookup_insert, Hys. intros [? ?]. split; [by apply Hfr | done].
    + rewrite fn_lookup_insert_ne by done. intros Hx. split; [by apply Hfr |]. eapply Hother; [done | by apply Hfr].
  - intros p' g Hp. apply (page_gone_pool _ _ _ _ _ _ _ Hn) in Hp as [Hp Hne].
    destruct (Hpg p' g Hp) as (Hmg & Hrg & Hpos). rewrite (free_in_globals (bud st)) by apply Hn.
    split_and!; [lia | lia | | done]. rewrite Hrg. f_equal.
    destruct (decide (meta_pool_idx g = i)) as [-> | ?]; [| by rewrite fn_lookup_insert_ne].
    rewrite fn_lookup_insert. unfold ys. rewrite free_in_filter by (intros x Hx; intros ?; apply Hne; by eapply in_page_unique).
    symmetry. by apply (free_in_cons_other _ p); [apply Hs |].
  - intros p' o g Hb Hg'. pose proof Hb as Hb'. apply (pg_blocks _ _ _ _ _ Hn) in Hb' as [Hb' _]; [| done].
    eapply Hcw; [exact Hb' |]. rewrite <- Hg'. symmetry. by apply (pg_frames _ _ _ _ _ Hn (Block p' o Alloc)).
  - intros x. unfold live. setoid_rewrite Hco. split.
    + intros (j & [Hc Hxp] & Hx). split.
      * exists j. split; [done |]. destruct (decide (j = i)) as [-> | ?]; [| by rewrite fn_lookup_insert_ne in Hx].
        rewrite fn_lookup_insert, Hys in Hx. tauto.
      * intros ->. apply Hxp, Hs.
    + intros [(j & Hc & Hx) Hxa]. destruct (decide (in_page (bud st) p x)) as [Hxp | Hxp].
      * exfalso. destruct (decide (j = i)) as [-> | Hne]; [| by apply (Hother j x)].
        assert (Hsx : slot (bud st) i p x).
        { destruct Hc as (p' & g & _ & _ & Hs'). destruct Hs' as [Hin Hd]. done. }
        pose proof (free_in_bound (-1) st bs F p f [a; x] Haw Hpp) as Hbd. rewrite Hm in Hbd. simpl in Hbd.
        assert (Z.of_nat 2 + free_in (bud st) p (F i) <= 2 ^ (8 - i)); [| lia]. apply Hbd.
        -- apply NoDup_cons. split; [| apply NoDup_singleton]. rewrite list_elem_of_singleton. congruence.
        -- intros y. rewrite !elem_of_cons, elem_of_nil. intros [-> | [-> | []]]; done.
      * exists j. split; [done |]. destruct (decide (j = i)) as [-> | ?]; [| by rewrite fn_lookup_insert_ne].
        rewrite fn_lookup_insert, Hys. tauto.
Qed.

(** ** [free] on a chunk *)

Lemma free_chunk_spec st bs F p f a i :
  awf st bs F -> pool_page (bud st) bs p f -> meta_pool_idx f = i -> slot (bud st) i p a -> a ∉ F i ->
  exists st' bs' F', free_chunk a p f st = Some st' /\ awf st' bs' F' /\ same_globals (bud st) (bud st') /\
    (forall j x, chunk_of (bud st') bs' j x -> chunk_of (bud st) bs j x) /\
    (forall x, live (bud st') bs' F' x <-> live (bud st) bs F x /\ x <> a) /\
    (forall q o, Block q o Alloc ∈ bs' <-> Block q o Alloc ∈ bs) /\ pages_kept (bud st) (bud st') bs.
Proof.
  intros Haw Hpp Hm Hs Hna. pose proof Haw as [Hwf Hrd Hsz Hls Hfr Hpg Hcw].
  destruct (Hpg p f Hpp) as (Hi & Hrc & Hpos). rewrite Hm in Hi.
  pose proof (tiled_range _ _ _ Hwf (proj1 Hpp)) as Hpr. simpl in Hpr. specialize (Hpos ltac:(lia)).
  destruct (in_page_facts _ _ _ (wf_region _ _ Hwf) Hpr (proj1 Hs)) as (_ & _ & Hdn & Ha64 & Hend).
  pose proof (ro_start _ (wf_region _ _ Hwf)) as Hst0.
  assert (Hb0 : 0 <= page_base (bud st) p) by (unfold page_base; rewrite PAGE_SIZE_val; lia).
  unfold free_chunk. rewrite Hm, Hdn. unfold CHUNK_POOL_COUNT.
  destruct (Z.ltb_spec i 0), (Z.leb_spec 8 i); try lia. cbn [orb].
  rewrite (chunk_size_spec st i Hsz Hi). cbn [mbind option_bind].
  pose proof (csize_pos i ltac:(lia)) as Hcp.
  replace ((a ⊟ page_base (bud st) p) mod csize i) with 0.
  2: { destruct Hs as [[Hlo Hhi] Hd]. rewrite u64_small by (rewrite PAGE_SIZE_val in *; lia). symmetry.
       apply Z.mod_divide; [lia |]. apply Z.divide_sub_r; [done | by apply page_base_divide; [apply Hwf |]]. }
  simpl negb. cbv iota.
  pose proof (Hls i Hi) as Hli. pose proof Hli as [_ Hc0].
  destruct (chain_mid _ _ [] _ _ Hc0) as [Hn0 _]. simpl default in Hn0 at 1. rewrite Hn0. cbn [mbind option_bind].
  rewrite (on_list_spec _ _ [] (F i)); [| done | done | by eapply list_fuel_spec]. cbn [mbind option_bind].
  rewrite bool_decide_false by done.
  destruct (list_add_spec (free_list st) (PoolHead i) (Chunk <$> F i) (Chunk a)) as (l1 & -> & Hl1 & Ho1); [done | |].
  { rewrite elem_of_cons, list_elem_of_fmap. intros [? | (x & [= <-] & ?)]; done. }
  cbn [mbind option_bind]. set (g := fun f0 : frame => set_ref_count (ref_count f0 - 1) f0).
  destruct (decide (ref_count f = 1)) as [E1 | E1].
  - destruct (release_page (bud st) bs p f g Hwf Hpp) as (b1 & b2 & b3 & bs3 & -> & Hfa & Eb2 & Eb3 & Hn); [done | done |].
    cbn [mbind option_bind]. rewrite Hfa, lookup_insert_eq. cbn [mbind option_bind].
    replace (ref_count (g f)) with 0 by (subst g; simpl; lia). simpl (0 =? 0). cbv iota.
    pose proof Hl1 as [_ Hc1]. destruct (chain_mid _ _ [] _ _ Hc1) as [Hn1 _]. simpl default in Hn1 at 1.
    rewrite Hn1. cbn [mbind option_bind].
    destruct (purge_page_spec (list_fuel l1) l1 (PoolHead i) [] (a :: F i) (bud st) p) as (l2 & E2 & Hl2 & Ho2);
      [done | by eapply list_fuel_spec | done | done |].
    rewrite fmap_cons in E2. rewrite E2. cbn [mbind option_bind]. rewrite Eb2. cbn [mbind option_bind].
    rewrite Eb3. cbn [mbind option_bind]. eexists _, bs3, _. split; [done |].
    destruct (free_release_awf st bs F p f a i b3 bs3 l2) as [Hw Hlv]; try done.
    { eapply same_outside_mono; [| exact (same_outside_trans _ _ _ _ _ Ho1 Ho2)].
      intros m. cbn [app]. rewrite ?fmap_app, ?fmap_cons. repeat rewrite ?elem_of_app, ?elem_of_cons. tauto. }
    assert (Hbs : forall q o, Block q o Alloc ∈ bs3 <-> Block q o Alloc ∈ bs).
    { intros q o. rewrite (pg_blocks _ _ _ _ _ Hn) by done. split; [tauto |]. intros Hb. split; [done |].
      intros E. simpl in E. subst q. pose proof (page_unique _ _ _ _ Hwf Hb (proj1 Hpp) eq_refl). done. }
    split_and!; [exact Hw | apply Hn | | exact Hlv | exact Hbs |].
    + intros j x Hc. by apply (page_gone_chunks _ _ _ _ _ _ _ Hn) in Hc as [? _].
    + intros q o Hb%Hbs. by apply (pg_frames _ _ _ _ _ Hn (Block q o Alloc)).
  - destruct (wf_upd_same (bud st) bs p f g Hwf (proj2 Hpp)) as (b1 & -> & Hwf1 & Hg1 & Hfa1); [done | done |].
    cbn [mbind option_bind]. rewrite Hfa1, lookup_insert_eq. cbn [mbind option_bind].
    destruct (Z.eqb_spec (ref_count (g f)) 0) as [E | _]; [subst g; simpl in E; lia |].
    eexists _, bs, _. split; [done |].
    destruct (free_keep_awf st bs F p f a i b1 l1) as [Hw Hlv]; try done.
    split_and!; [exact Hw | exact Hg1 | | exact Hlv | done |].
    2: { intros q o Hb. cbn [bud set_free_list set_bud]. rewrite Hfa1, lookup_insert_ne; [done |]. intros <-.
         by pose proof (page_unique _ _ _ _ Hwf Hb (proj1 Hpp) eq_refl). }
    intros j x. apply (chunk_of_upd (bud st) b1 bs p f g); [done | exact Hfa1 | apply Hpp | done].
Qed.

(** A chunk that is already free, or a pointer that is not a chunk, is rejected. *)
Lemma free_chunk_reject st bs F p f a :
  awf st bs F -> pool_page (bud st) bs p f -> in_page (bud st) p a -> ~ live (bud st) bs F a ->
  free_chunk a p f st = Some st.
Proof.
  intros Haw Hpp Hin Hnl. pose proof Haw as [Hwf Hrd Hsz Hls Hfr Hpg Hcw].
  destruct (Hpg p f Hpp) as (Hi & _). pose proof (tiled_range _ _ _ Hwf (proj1 Hpp)) as Hpr. simpl in Hpr.
  destruct (in_page_facts _ _ _ (wf_region _ _ Hwf) Hpr Hin) as (_ & _ & Hdn & _).
  pose proof (ro_start _ (wf_region _ _ Hwf)) as Hst0.
  assert (Hb0 : 0 <= page_base (bud st) p) by (unfold page_base; rewrite PAGE_SIZE_val; lia).
  unfold free_chunk. rewrite Hdn. set (i := meta_pool_idx f) in *. unfold CHUNK_POOL_COUNT.
  destruct (Z.ltb_spec i 0), (Z.leb_spec 8 i); try lia. cbn [orb].
  rewrite (chunk_size_spec st i Hsz Hi). cbn [mbind option_bind].
  pose proof (csize_pos i ltac:(lia)) as Hcp.
  destruct (Z.eqb_spec ((a ⊟ page_base (bud st) p) mod csize i) 0) as [Hd |]; [| done]. simpl negb. cbv iota.
  assert (Hs : slot (bud st) i p a).
  { split; [done |]. unfold in_page in Hin. rewrite u64_small in Hd by (rewrite PAGE_SIZE_val in *; lia).
    apply Z.mod_divide in Hd; [| lia]. pose proof (page_base_divide (bud st) i p (wf_region _ _ Hwf) Hi) as Hpd.
    pose proof (Z.divide_add_r _ _ _ Hd Hpd) as Hr. by replace (a - page_base (bud st) p + page_base (bud st) p) with a in Hr by lia. }
  destruct (decide (a ∈ F i)) as [Hf | Hf]; [| destruct Hnl; exists i; split; [by exists p, f | done]].
  pose proof (Hls i Hi) as Hli. pose proof Hli as [_ Hc0].
  destruct (chain_mid _ _ [] _ _ Hc0) as [Hn0 _]. simpl default in Hn0 at 1. rewrite Hn0. cbn [mbind option_bind].
  rewrite (on_list_spec _ _ [] (F i)); [| done | done | by eapply list_fuel_spec]. cbn [mbind option_bind].
  by rewrite bool_decide_true.
Qed.
