(* ===== verification/AllocHeap.v ===== *)
(** * The abstract heap of the kernel allocator

    The abstract heap is a set of objects, each an address with a size: the
    live chunks and the allocated page blocks.  [allocate] adds one object,
    [free] removes one, and the objects never overlap. *)

From stdpp Require Import functions.
From S2P Require Import Prelude Config Align IList Buddy BuddySpec BuddyProofs BuddyInit BuddyProps Allocator AllocSizes AllocProofs AllocFree.

(** ** Objects *)

(** The objects of a block: the live chunks of a pool page, or the block itself. *)
Definition obj_at (st : allocator) (F : Z -> list Z) (k : block) (a n : Z) : Prop :=
  match b_kind k with
  | Pool => exists f, frame_array (bud st) !! b_idx k = Some f /\ n = csize (meta_pool_idx f) /\
              slot (bud st) (meta_pool_idx f) (b_idx k) a /\ a ∉ F (meta_pool_idx f)
  | Alloc => a = page_base (bud st) (b_idx k) /\ n = 2 ^ b_order k * PAGE_SIZE
  | _ => False
  end.

Definition object (st : allocator) (bs : list block) (F : Z -> list Z) (a n : Z) : Prop :=
  exists k, k ∈ bs /\ obj_at st F k a n.

Lemma object_live st bs F a : awf st bs F ->
  live (bud st) bs F a <-> exists k n, k ∈ bs /\ b_kind k = Pool /\ obj_at st F k a n.
Proof.
  intros Haw. split.
  - intros (i & (p & f & [Hb Hf] & <- & Hs) & Ha). exists (Block p 0 Pool), (csize (meta_pool_idx f)).
    split_and!; [done | done |]. by exists f.
  - intros ([p o kd] & n & Hb & Hk & Ho). simpl in Hk. subst kd. destruct Ho as (f & Hf & -> & Hs & Ha). simpl in *.
    destruct (tiled_elem _ _ _ _ _ (wf_tiled _ _ (aw_buddy _ _ _ _ Haw)) Hb) as (_ & _ & [_ _ Hz _ _]).
    assert (o = 0) as -> by (apply Hz; by left). exists (meta_pool_idx f). split; [| done]. by exists p, f.
Qed.

Lemma slot_end c m q r base a :
  0 < c -> c * m = 4096 -> a = r * c -> base = q * c -> base <= a < base + 4096 -> a + c <= base + 4096.
Proof. intros ? ? -> -> ?. assert (r < q + m) by nia. nia. Qed.

Lemma multiples_apart c r r' : 0 < c -> r * c = r' * c \/ r * c + c <= r' * c \/ r' * c + c <= r * c.
Proof. intros ?. destruct (Z.lt_trichotomy r r') as [? | [-> | ?]]; [right; left; nia | by left | right; right; nia]. Qed.

(** An object lies in its block, and the block in the pool. *)
Lemma object_in_block st bs F k a n : awf st bs F -> k ∈ bs -> obj_at st F k a n ->
  0 <= b_idx k /\ b_end k <= G_MEM_TOTAL_PAGE (bud st) /\
  page_base (bud st) (b_idx k) <= a /\ 0 < n /\ a + n <= page_base (bud st) (b_end k).
Proof.
  intros Haw Hb Ho. pose proof (aw_buddy _ _ _ _ Haw) as Hwf.
  destruct (tiled_elem _ _ _ _ _ (wf_tiled _ _ Hwf) Hb) as (? & ? & [[? _] _ Hz _ _]).
  destruct k as [p o kd]. unfold obj_at, b_end in *. simpl in *. destruct kd; try done.
  - destruct Ho as (-> & ->). pose proof (pow2_pos o). unfold page_base. rewrite PAGE_SIZE_val. lia.
  - destruct Ho as (f & Hf & -> & [Hin [r Hr]] & _). assert (o = 0) as -> by (apply Hz; by left).
    destruct (aw_pages _ _ _ _ Haw p f (conj Hb Hf)) as (Hi & _). set (i := meta_pool_idx f) in *.
    destruct (csize_page i Hi) as [Hcs _]. pose proof (csize_pos i ltac:(lia)).
    destruct (page_base_divide (bud st) i p (wf_region _ _ Hwf) Hi) as [q Hq].
    unfold in_page, page_base in *. rewrite PAGE_SIZE_val in *. change (2 ^ 0) with 1 in *.
    pose proof (slot_end (csize i) (2 ^ (8 - i)) q r (G_MEMPOOL_START (bud st) + p * 4096) a). lia.
Qed.

Lemma objects_apart st bs F a n a' n' :
  awf st bs F -> object st bs F a n -> object st bs F a' n' ->
  (a = a' /\ n = n') \/ a + n <= a' \/ a' + n' <= a.
Proof.
  intros Haw (k & Hk & Ho) (k' & Hk' & Ho').
  pose proof (object_in_block _ _ _ _ _ _ Haw Hk Ho) as (_ & _ & Hlo & Hn & Hhi).
  pose proof (object_in_block _ _ _ _ _ _ Haw Hk' Ho') as (_ & _ & Hlo' & Hn' & Hhi').
  pose proof (wf_tiled _ _ (aw_buddy _ _ _ _ Haw)) as Ht.
  destruct (decide (k = k')) as [<- | Hne].
  - unfold obj_at in *. destruct (b_kind k); try done.
    + left. destruct Ho as [-> ->], Ho' as [-> ->]. done.
    + destruct Ho as (f & Hf & -> & [_ [r Hr]] & _), Ho' as (f' & Hf' & -> & [_ [r' Hr']] & _).
      rewrite Hf in Hf'. injection Hf' as <-.
      pose proof (multiples_apart (csize (meta_pool_idx f)) r r') as Hm. rewrite <- Hr, <- Hr' in Hm.
      destruct (Hm Hn) as [-> | ?]; [by left | by right].
  - right. unfold page_base in *. rewrite PAGE_SIZE_val in *.
    destruct (Z.le_gt_cases (b_end k) (b_idx k')); [lia |].
    destruct (Z.le_gt_cases (b_end k') (b_idx k)); [lia |]. exfalso. apply Hne.
    apply (tiled_disjoint _ _ _ _ _ _ (Z.max (b_idx k) (b_idx k')) Ht Hk Hk'); lia.
Qed.

(** Objects are the live chunks and the allocated blocks. *)
Lemma object_iff st bs F a n : awf st bs F ->
  object st bs F a n <->
  (exists i, chunk_of (bud st) bs i a /\ a ∉ F i /\ n = csize i) \/
  (exists p o, Block p o Alloc ∈ bs /\ a = page_base (bud st) p /\ n = 2 ^ o * PAGE_SIZE).
Proof.
  intros Haw. split.
  - intros ([p o kd] & Hb & Ho). unfold obj_at in Ho. destruct kd; simpl in Ho; try done.
    + right. by exists p, o.
    + left. destruct Ho as (f & Hf & -> & Hs & Ha).
      destruct (tiled_elem _ _ _ _ _ (wf_tiled _ _ (aw_buddy _ _ _ _ Haw)) Hb) as (_ & _ & [_ _ Hz _ _]).
      assert (o = 0) as -> by (apply Hz; by left). exists (meta_pool_idx f). split_and!; try done. by exists p, f.
  - intros [(i & (p & f & [Hb Hf] & <- & Hs) & Ha & ->) | (p & o & Hb & -> & ->)].
    + exists (Block p 0 Pool). split; [done |]. by exists f.
    + by exists (Block p o Alloc).
Qed.

Lemma same_globals_base b b' p : same_globals b b' -> page_base b' p = page_base b p.
Proof. intros Hg. unfold page_base. by rewrite (sg_start _ _ Hg). Qed.

(** Distinct objects have distinct addresses. *)
Lemma object_size st bs F a n n' : awf st bs F -> object st bs F a n -> object st bs F a n' -> n = n'.
Proof.
  intros Haw Ho Ho'. destruct (objects_apart st bs F a n a n' Haw Ho Ho') as [[_ ?] | Hd]; [done |].
  destruct Ho as (k & Hk & Ho), Ho' as (k' & Hk' & Ho').
  pose proof (object_in_block _ _ _ _ _ _ Haw Hk Ho). pose proof (object_in_block _ _ _ _ _ _ Haw Hk' Ho'). lia.
Qed.

(** ** Changes of page blocks *)

(** The references to a page block. *)
Definition shared (st : allocator) (bs : list block) (a c : Z) : Prop :=
  exists p o f, Block p o Alloc ∈ bs /\ a = page_base (bud st) p /\ frame_array (bud st) !! p = Some f /\ cow_ref_count f = c.

Lemma shared_kept st st' bs bs' a c : same_globals (bud st) (bud st') ->
  (forall p o, Block p o Alloc ∈ bs' <-> Block p o Alloc ∈ bs) -> pages_kept (bud st) (bud st') bs ->
  shared st' bs' a c <-> shared st bs a c.
Proof.
  intros Hg Hb Hk. unfold shared. setoid_rewrite Hb. setoid_rewrite (fun q => same_globals_base _ _ q Hg).
  split; intros (p & o & f & Hin & ? & Hf & ?); exists p, o, f; split_and!; try done.
  - by rewrite <- (Hk p o).
  - by rewrite (Hk p o).
Qed.

Lemma chunk_of_pages b bs b' bs' i x : same_globals b b' ->
  (forall p g, pool_page b' bs' p g <-> pool_page b bs p g) -> chunk_of b' bs' i x <-> chunk_of b bs i x.
Proof.
  intros Hg Hp. unfold chunk_of, slot. setoid_rewrite Hp.
  split; intros (p & f & ? & ? & [? ?]); exists p, f; split_and!; try done; by apply (same_globals_in_page b b').
Qed.

(** A change that keeps the pool pages keeps the chunk side of the invariant. *)
Lemma awf_blocks st bs F b' bs' :
  awf st bs F -> wf b' bs' -> same_globals (bud st) b' ->
  (forall p g, pool_page b' bs' p g <-> pool_page (bud st) bs p g) ->
  (forall p o g, Block p o Alloc ∈ bs' -> frame_array b' !! p = Some g -> 1 <= cow_ref_count g) ->
  awf (set_bud b' st) bs' F.
Proof.
  intros [Hwf Hrd Hsz Hls Hfr Hpg Hcw] Hwf' Hg Hpp Hc.
  split; cbn [bud free_list g_allocator_ready chunk_sizes set_bud]; try done.
  - intros i a Hi Ha. apply (chunk_of_pages (bud st) bs); [done | done |]. by apply Hfr.
  - intros p f Hp%Hpp. rewrite (free_in_globals (bud st)) by done. by apply Hpg.
Qed.

Lemma block_frame fa lo hi bs k : tiled fa lo hi bs -> k ∈ bs -> exists f, fa !! b_idx k = Some f.
Proof. intros Ht Hk. destruct (tiled_elem _ _ _ _ _ Ht Hk) as (_ & _ & [_ _ _ (f & ? & _) _]). by exists f. Qed.

(** ** [allocate] on large requests *)

Lemma alloc_pages_awf st bs F ord : awf st bs F -> 0 <= ord ->
  (buddy_alloc_pages ord (bud st) = Some (0, bud st) /\
     forall k, k ∈ bs -> b_kind k = Free -> b_order k < ord) \/
  exists p b' bs', buddy_alloc_pages ord (bud st) = Some (page_base (bud st) p, b') /\
    awf (set_bud b' st) bs' F /\ same_globals (bud st) b' /\ 0 <= p /\
    (forall q g, pool_page b' bs' q g <-> pool_page (bud st) bs q g) /\
    (forall k, k ∈ bs -> b_kind k <> Free -> b_idx k <> p) /\
    (forall q o, Block q o Alloc ∈ bs' <-> Block q o Alloc ∈ bs \/ (q = p /\ o = ord)) /\
    pages_kept (bud st) b' bs /\ cow_ref_count <$> frame_array b' !! p = Some 1.
Proof.
  intros Haw Ho. pose proof (aw_buddy _ _ _ _ Haw) as Hwf.
  destruct (buddy_alloc_pages_spec ord (bud st) bs Hwf Ho)
    as [? | (bs' & p & b' & E & Hp & _ & Hst & Hwf' & Hg & Hcow & Hkeep)]; [by left | right].
  pose proof (fun k Hk => alloc_step_nonfree ord bs p bs' k Ho Hst Hk) as Hnf.
  assert (Hfr : forall k, k ∈ bs -> b_kind k <> Free -> frame_array b' !! b_idx k = frame_array (bud st) !! b_idx k).
  { intros k Hk Hkf. apply (Hkeep k Hk Hkf).
    destruct (tiled_elem _ _ _ _ _ (wf_tiled _ _ Hwf) Hk) as (_ & _ & ?%block_ok_end). lia. }
  exists p, b', bs'.
  assert (Hpp : forall q g, pool_page b' bs' q g <-> pool_page (bud st) bs q g).
  { intros q g. unfold pool_page. rewrite Hnf by done. split.
    - intros [[Hb | ?] Hf]; [| done]. split; [done |]. rewrite <- Hf. symmetry. by apply (Hfr (Block q 0 Pool)).
    - intros [Hb Hf]. split; [by left |]. rewrite <- Hf. by apply (Hfr (Block q 0 Pool)). }
  split_and!; [rewrite E; unfold page_base; by rewrite PAGE_SIZE_pow | | done | lia | done | | | | done].
  - eapply awf_blocks; [exact Haw | done | done | done |]. intros q o g Hb Hf. apply Hnf in Hb as [Hb | [= -> ->]]; [| | done].
    + apply (aw_cow _ _ _ _ Haw q o g Hb). rewrite <- Hf. symmetry. by apply (Hfr (Block q o Alloc)).
    + rewrite Hf in Hcow. simpl in Hcow. injection Hcow as ->. lia.
  - intros k Hk Hkf E'. apply alloc_step_fresh in Hst as [cur Hc].
    pose proof (page_unique _ _ _ _ Hwf Hk Hc E'). subst k. by apply Hkf.
  - intros q o. rewrite Hnf by done. naive_solver.
  - intros q o Hb. by apply (Hfr (Block q o Alloc)).
Qed.

(** The objects after an allocation, large or small. *)
Definition heap_adds (st st' : allocator) (bs bs' : list block) (F F' : Z -> list Z) (p n : Z) : Prop :=
  awf st' bs' F' /\ p <> 0 /\ ~ (exists m, object st bs F p m) /\
  forall a m, object st' bs' F' a m <-> object st bs F a m \/ (a = p /\ m = n).

(** The base of a page in use is no object but the block's own. *)
Lemma fresh_page st bs F p m : awf st bs F -> 0 <= p -> (forall k, k ∈ bs -> b_kind k <> Free -> b_idx k <> p) ->
  object st bs F (page_base (bud st) p) m -> False.
Proof.
  intros Haw Hp Hq0 Ho. apply object_iff in Ho as [(i & (q & f & [Hb _] & _ & [Hin _]) & _) | (q & o & Hb & E & _)]; [| | done].
  - apply (Hq0 _ Hb); [done |]. simpl. eapply in_page_unique; [exact Hin |].
    unfold in_page. rewrite PAGE_SIZE_val. lia.
  - apply (Hq0 _ Hb); [done |]. simpl. unfold page_base in E. rewrite PAGE_SIZE_val in E. lia.
Qed.

Lemma allocate_large_spec st bs F size :
  awf st bs F -> 2048 < size <= MAX_ALLOC_SIZE ->
  (allocate size st = Some (0, st) /\ forall k, k ∈ bs -> b_kind k = Free -> 2 ^ b_order k * PAGE_SIZE < size) \/
  exists p n st' bs' F', allocate size st = Some (p, st') /\ size <= n /\ heap_adds st st' bs bs' F F' p n /\
    forall x c, shared st' bs' x c <-> shared st bs x c \/ (x = p /\ c = 1).
Proof.
  intros Haw Hs. unfold MAX_ALLOC_SIZE in Hs. unfold allocate. rewrite (aw_ready _ _ _ _ Haw). simpl negb. cbn [orb].
  destruct (Z.eqb_spec size 0); [lia |]. unfold MAX_ALLOC_SIZE. destruct (Z.ltb_spec 2147483647 size); [lia |]. cbn [orb].
  destruct (Z.leb_spec size 2048); [lia |]. rewrite PAGE_SIZE_val.
  rewrite (u64_small (size + _)), u64_small by lia. rewrite Z.shiftr_div_pow2 by done.
  unfold PAGE_SHIFT. change (2 ^ 12) with 4096.
  destruct (roundup_order_spec ((size + 4096 - 1) / 4096)) as (o & -> & Ho & Hle & Hb); [dlia |].
  cbn [mbind option_bind]. rewrite u32_small by lia.
  destruct (alloc_pages_awf st bs F o Haw ltac:(lia))
    as [[-> Hno] | (p & b' & bs' & -> & Haw' & Hg & Hp & Hpp & Hfr & Hal & Hkp & Hcow)]; cbn [mbind option_bind].
  - left. rewrite set_bud_id. split; [done |]. intros k Hk Hkf. pose proof (Hno k Hk Hkf).
    destruct (tiled_elem _ _ _ _ _ (wf_tiled _ _ (aw_buddy _ _ _ _ Haw)) Hk) as (_ & _ & [[? _] _ _ _ _]).
    destruct Hb as [-> | Hb]; [lia |]. pose proof (pow2_mono (b_order k) (o - 1)). dlia.
  - right. exists (page_base (bud st) p), (2 ^ o * 4096), (set_bud b' st), bs', F. split_and!; [done | dlia | |].
    2: { destruct (frame_array b' !! p) as [f |] eqn:Ef; [| done]. simpl in Hcow. injection Hcow as Hcow.
         intros x c. unfold shared. cbn [bud set_bud]. setoid_rewrite (fun q => same_globals_base _ _ q Hg). split.
         - intros (q & o' & f' & Hb' & -> & Hf' & <-). apply Hal in Hb' as [Hb' | [-> ->]]; [left | right].
           + exists q, o', f'. by rewrite <- (Hkp q o').
           + rewrite Ef in Hf'. by injection Hf' as <-.
         - intros [(q & o' & f' & Hb' & -> & Hf' & <-) | [-> ->]].
           + exists q, o', f'. rewrite (Hkp q o') by done. split; [apply Hal; by left | done].
           + exists p, o, f. split; [apply Hal; by right | done]. }
    pose proof (ro_start _ (wf_region _ _ (aw_buddy _ _ _ _ Haw))).
    split; [done | split_and!].
    + unfold page_base. rewrite PAGE_SIZE_val. lia.
    + intros [m Hm]. by apply (fresh_page st bs F p m).
    + intros a m. rewrite (object_iff _ _ _ _ _ Haw'), (object_iff _ _ _ _ _ Haw). cbn [bud set_bud].
      setoid_rewrite Hal. rewrite PAGE_SIZE_val.
      setoid_rewrite (fun i x => chunk_of_pages (bud st) bs b' bs' i x Hg Hpp).
      setoid_rewrite (fun q => same_globals_base (bud st) b' q Hg). naive_solver.
Qed.

(** Taking a free chunk adds it to the objects. *)
Lemma heap_adds_chunk st st' bs bs' F F' i a :
  awf st bs F -> awf st' bs' F' -> same_globals (bud st) (bud st') ->
  (forall j x, chunk_of (bud st) bs j x -> chunk_of (bud st') bs' j x) ->
  (forall p o, Block p o Alloc ∈ bs' <-> Block p o Alloc ∈ bs) ->
  chunk_of (bud st') bs' i a -> ~ live (bud st) bs F a ->
  (forall x, live (bud st') bs' F' x <-> live (bud st) bs F x \/ x = a) ->
  heap_adds st st' bs bs' F F' a (csize i).
Proof.
  intros Haw Haw' Hg Hch Hb Ha Hnl Hl. pose proof (aw_buddy _ _ _ _ Haw') as Hwf'.
  destruct (chunk_of_page _ _ _ _ Hwf' Ha) as (p & f & Hpp & _ & [Hin _] & Hp).
  split; [done | split_and!].
  - destruct (in_page_facts _ _ _ (wf_region _ _ Hwf') Hp Hin) as (_ & _ & _ & ? & _). lia.
  - intros [m Hm]. apply (object_iff _ _ _ _ _ Haw) in Hm as [(j & Hc & Hx & _) | (q & o & Hq & -> & _)].
    + apply Hnl. by exists j.
    + apply Hb in Hq. assert (p = q) as ->.
      { eapply in_page_unique; [exact Hin |]. rewrite <- (same_globals_base _ _ q Hg).
        unfold in_page. rewrite PAGE_SIZE_val. lia. }
      pose proof (page_unique _ _ _ _ Hwf' Hq (proj1 Hpp) eq_refl). done.
  - intros x m. rewrite (object_iff _ _ _ _ _ Haw'), (object_iff _ _ _ _ _ Haw).
    setoid_rewrite Hb. setoid_rewrite (fun q => same_globals_base _ _ q Hg). split.
    + intros [(j & Hc & Hx & ->) | ?]; [| by left; right].
      destruct (proj1 (Hl x)) as [(j' & Hc' & Hx') | ->]; [by exists j | |].
      * left. left. exists j'. split_and!; [done | done |]. f_equal. eapply chunk_of_functional; [exact Hc | by apply Hch].
      * right. split; [done |]. f_equal. by eapply chunk_of_functional.
    + intros [[(j & Hc & Hx & ->) | ?] | [-> ->]]; [left | by right | left].
      * destruct (proj2 (Hl x)) as (j' & Hc' & Hx'); [left; by exists j |].
        assert (j' = j) as -> by (eapply chunk_of_functional; [exact Hc' | by apply Hch]).
        exists j. split_and!; [by apply Hch | done | done].
      * destruct (proj2 (Hl a)) as (j' & Hc' & Hx'); [by right |].
        assert (j' = i) as -> by (by eapply chunk_of_functional). by exists i.
Qed.

Lemma allocate_small_spec st bs F size :
  awf st bs F -> 0 < size <= 2048 ->
  (allocate size st = Some (0, st) /\ forall k, k ∈ bs -> b_kind k = Free -> 2 ^ b_order k * PAGE_SIZE < size) \/
  exists p n st' bs' F', allocate size st = Some (p, st') /\ size <= n /\ heap_adds st st' bs bs' F F' p n /\
    forall x c, shared st' bs' x c <-> shared st bs x c.
Proof.
  intros Haw Hs. pose proof Haw as [Hwf Hrd Hsz Hls Hfr Hpg Hcw].
  unfold allocate. rewrite Hrd. simpl negb. cbn [orb]. unfold MAX_ALLOC_SIZE.
  destruct (Z.eqb_spec size 0), (Z.ltb_spec 2147483647 size); try lia. cbn [orb].
  destruct (Z.leb_spec size 2048); [| lia].
  destruct (find_pool_index_spec size st Hsz ltac:(lia)) as (i & -> & Hi & Hle & _). cbn [mbind option_bind].
  destruct (Z.ltb_spec i 0); [lia |].
  rewrite (list_empty_spec _ _ _ (Hls i Hi)). cbn [mbind option_bind].
  assert (Hfin : forall q st1 bs1 F1 a xs, awf_ex q st1 bs1 F1 -> F1 i = a :: xs -> q = -1 \/ in_page (bud st1) q a ->
    (forall j x, chunk_of (bud st) bs j x -> chunk_of (bud st1) bs1 j x) -> same_globals (bud st) (bud st1) ->
    (forall p o, Block p o Alloc ∈ bs1 <-> Block p o Alloc ∈ bs) ->
    (forall x, live (bud st1) bs1 F1 x <-> live (bud st) bs F x) -> pages_kept (bud st) (bud st1) bs ->
    exists st', alloc_chunk i st1 = Some (a, st') /\ heap_adds st st' bs bs1 F (<[i := xs]> F1) a (csize i) /\
      forall x c, shared st' bs1 x c <-> shared st bs x c).
  { intros q st1 bs1 F1 a xs Haw1 HF1 Hq Hch1 Hg1 Hb1 Hl1 Hk1.
    destruct (alloc_chunk_spec q st1 bs1 F1 i a xs Haw1 Hi HF1 Hq) as (st' & E & Haw' & Hg' & Hch' & Hl' & Hk').
    exists st'. split; [done |]. split.
    2: { intros x c. rewrite (shared_kept st1 st' bs1 bs1 x c Hg' ltac:(done) Hk'). by apply shared_kept. }
    assert (Hca : chunk_of (bud st1) bs1 i a) by (apply Haw1; [done | rewrite HF1; by left]).
    apply heap_adds_chunk; [done | done | by etrans | | done | by apply Hch' | |].
    - intros j x ?. by apply Hch', Hch1.
    - intros (j & Hc & Hx)%Hl1. rewrite (chunk_of_functional _ _ _ _ _ Hc Hca), HF1 in Hx. apply Hx. by left.
    - intros x. by rewrite Hl', Hl1. }
  case_bool_decide as HFi.
  - apply fmap_nil_inv in HFi. destruct (expand_chunk_pool_spec st bs F i Haw Hi HFi)
      as [[-> Hno] | (q & st1 & bs1 & a & xs & -> & Haw1 & Hqa & Hg1 & Hch1 & Hb1 & Hl1 & Hk1)]; cbn [mbind option_bind].
    + left. simpl. split; [done |]. intros k Hk Hkf. by destruct (Hno k Hk).
    + right. simpl. destruct (Hfin q st1 bs1 _ a xs Haw1) as (st' & -> & Hh & Hsh); try done.
      { by rewrite fn_lookup_insert. } { by right. } by eexists _, _, _, _, _.
  - right. destruct (F i) as [| a xs] eqn:EF; [done |].
    destruct (Hfin (-1) st bs F a xs Haw) as (st' & -> & Hh & Hsh); try done; [by left |]. by eexists _, _, _, _, _.
Qed.

(** ** [free] *)

(** The guards of [free] let an address of the pool through to its frame. *)
Lemma free_at st bs F p a f : awf st bs F -> 0 <= p < G_MEM_TOTAL_PAGE (bud st) -> in_page (bud st) p a ->
  frame_array (bud st) !! p = Some f ->
  free a st =
    if decide (state f = PAGE_STATE_ALLOC_CHUNK_POOL) then free_chunk a p f st
    else if decide (state f = PAGE_STATE_ALLOC_PAGE_HEAD) then
      if negb (Z.land a (PAGE_SIZE - 1) =? 0) then Some st else
      b ← upd_frame p (fun f => set_cow_ref_count (cow_ref_count f - 1) f) (bud st);
      f ← frame_array b !! p;
      if cow_ref_count f =? 0 then b ← buddy_free_pages a b; Some (set_bud b st)
      else Some (set_bud b st)
    else Some st.
Proof.
  intros Haw Hp Hin Hf. destruct (in_page_facts _ _ _ (wf_region _ _ (aw_buddy _ _ _ _ Haw)) Hp Hin) as (Hpool & Hidx & _ & Ha & _).
  unfold free. rewrite (aw_ready _ _ _ _ Haw). simpl negb. cbn [orb].
  destruct (Z.eqb_spec a 0); [lia |]. rewrite Hpool, Hidx. simpl negb. cbv iota.
  destruct (Z.leb_spec (G_MEM_TOTAL_PAGE (bud st)) p); [lia |]. rewrite Hf. done.
Qed.

Lemma head_of st bs F k : awf st bs F -> k ∈ bs ->
  exists f, frame_array (bud st) !! b_idx k = Some f /\ state f = head_state (b_kind k) /\ order f = b_order k /\
    0 <= b_idx k < G_MEM_TOTAL_PAGE (bud st).
Proof.
  intros Haw Hk. pose proof (aw_buddy _ _ _ _ Haw) as Hwf.
  destruct (tiled_elem _ _ _ _ _ (wf_tiled _ _ Hwf) Hk) as (_ & _ & [_ _ _ (f & Hf & Hs & Ho) _]).
  exists f. split_and!; try done; apply (tiled_range _ _ _ Hwf Hk).
Qed.

Lemma page_base_aligned b p : region_ok b -> 0 <= p < G_MEM_TOTAL_PAGE b ->
  in_page b p (page_base b p) /\ Z.land (page_base b p) (PAGE_SIZE - 1) =? 0 = true.
Proof.
  intros Hr Hp. split; [unfold in_page; rewrite PAGE_SIZE_val; lia |].
  change (PAGE_SIZE - 1) with (2 ^ 12 - 1). rewrite land_mask by lia. apply Z.eqb_eq, divide_mod; [lia |].
  unfold page_base. rewrite PAGE_SIZE_val. apply Z.divide_add_r; [apply Hr | exists p; done].
Qed.

(** A change of the reference count of a page block. *)
Lemma awf_recount st bs F p o f c :
  awf st bs F -> Block p o Alloc ∈ bs -> frame_array (bud st) !! p = Some f -> 1 <= c (cow_ref_count f) ->
  exists b', upd_frame p (fun f => set_cow_ref_count (c (cow_ref_count f)) f) (bud st) = Some b' /\
    frame_array b' !! p = Some (set_cow_ref_count (c (cow_ref_count f)) f) /\ awf (set_bud b' st) bs F /\
    (forall a m, object (set_bud b' st) bs F a m <-> object st bs F a m) /\
    shared (set_bud b' st) bs (page_base (bud st) p) (c (cow_ref_count f)) /\
    (forall x k, x <> page_base (bud st) p -> shared (set_bud b' st) bs x k <-> shared st bs x k).
Proof.
  intros Haw Hb Hf Hc. pose proof (aw_buddy _ _ _ _ Haw) as Hwf. set (g := fun f => set_cow_ref_count (c (cow_ref_count f)) f).
  destruct (wf_upd_same (bud st) bs p f g Hwf Hf) as (b' & -> & Hwf' & Hg & Hfa); [done | done |].
  assert (Hpp : forall q h, pool_page b' bs q h <-> pool_page (bud st) bs q h).
  { intros q h. unfold pool_page. rewrite Hfa. destruct (decide (p = q)) as [<- |]; [| by rewrite lookup_insert_ne].
    split; intros [Hb' _]; pose proof (page_unique _ _ _ _ Hwf Hb Hb' eq_refl); done. }
  assert (Haw' : awf (set_bud b' st) bs F).
  { eapply awf_blocks; [exact Haw | done | done | done |]. intros q o' h Hb' Hh. rewrite Hfa in Hh.
    destruct (decide (p = q)) as [<- |].
    - rewrite lookup_insert_eq in Hh. injection Hh as <-. done.
    - rewrite lookup_insert_ne in Hh by done. by eapply Haw. }
  exists b'. split_and!; [done | by rewrite Hfa, lookup_insert_eq | done | | |].
  3: { intros x k Hx. unfold shared. cbn [bud set_bud]. setoid_rewrite (fun q => same_globals_base _ _ q Hg).
       split; intros (q & o' & h & Hb' & -> & Hh & <-); exists q, o', h; split_and!; try done.
       - rewrite Hfa, lookup_insert_ne in Hh; [done |]. by intros <-.
       - rewrite Hfa, lookup_insert_ne; [done |]. by intros <-. }
  - intros a m. rewrite (object_iff _ _ _ _ _ Haw'), (object_iff _ _ _ _ _ Haw). cbn [bud set_bud].
    setoid_rewrite (fun i x => chunk_of_pages (bud st) bs b' bs i x Hg Hpp).
    by setoid_rewrite (fun q => same_globals_base (bud st) b' q Hg).
  - exists p, o, (g f). cbn [bud set_bud]. split_and!; [done | symmetry; by apply same_globals_base | by rewrite Hfa, lookup_insert_eq | done].
Qed.

Lemma free_last_ref st bs F p o f :
  awf st bs F -> Block p o Alloc ∈ bs -> frame_array (bud st) !! p = Some f -> cow_ref_count f = 1 ->
  exists st' bs', free (page_base (bud st) p) st = Some st' /\ awf st' bs' F /\
    (forall x m, object st' bs' F x m <-> object st bs F x m /\ x <> page_base (bud st) p) /\
    (forall x c, shared st' bs' x c <-> shared st bs x c /\ x <> page_base (bud st) p).
Proof.
  intros Haw Hb Hf Hc. pose proof (aw_buddy _ _ _ _ Haw) as Hwf.
  destruct (head_of st bs F _ Haw Hb) as (f' & Hf' & Hs & _ & Hp). simpl in Hf', Hs, Hp. rewrite Hf in Hf'. injection Hf' as <-.
  destruct (page_base_aligned (bud st) p (wf_region _ _ Hwf) Hp) as [Hin Hal].
  rewrite (free_at st bs F p _ f Haw Hp Hin Hf), Hs, Hal. rewrite decide_False, decide_True by done. simpl negb. cbv iota.
  set (g := fun f0 : frame => set_cow_ref_count (cow_ref_count f0 - 1) f0).
  destruct (wf_upd_same (bud st) bs p f g Hwf Hf) as (b1 & -> & Hwf1 & Hg1 & Hfa1); [done | done |].
  cbn [mbind option_bind]. rewrite Hfa1, lookup_insert_eq. cbn [mbind option_bind].
  replace (cow_ref_count (g f)) with 0 by (subst g; simpl; lia). simpl (0 =? 0). cbv iota.
  destruct (free_block_gone b1 bs p o Hwf1 Hb) as (b3 & bs3 & E3 & Hn).
  rewrite (same_globals_base _ _ p Hg1) in E3. rewrite E3. cbn [mbind option_bind]. exists (set_bud b3 st), bs3. split; [done |].
  assert (Hg3 : same_globals (bud st) b3) by (etrans; [exact Hg1 | apply Hn]).
  assert (Hfr : forall k, k ∈ bs3 -> b_kind k <> Free -> frame_array b3 !! b_idx k = frame_array (bud st) !! b_idx k).
  { intros k Hk Hnf. rewrite (pg_frames _ _ _ _ _ Hn k Hk Hnf), Hfa1.
    apply (pg_blocks _ _ _ _ _ Hn) in Hk as [_ Hkp]; [| done]. by rewrite lookup_insert_ne. }
  assert (Hpp : forall q h, pool_page b3 bs3 q h <-> pool_page (bud st) bs q h).
  { intros q h. unfold pool_page. split.
    - intros [Hq Hh]. split; [by apply (pg_blocks _ _ _ _ _ Hn) in Hq as [? _] |]. rewrite <- Hh. symmetry.
      by apply (Hfr (Block q 0 Pool)).
    - intros [Hq Hh]. assert (Hq' : Block q 0 Pool ∈ bs3).
      { apply (pg_blocks _ _ _ _ _ Hn); [done |]. split; [done |]. simpl. intros ->.
        pose proof (page_unique _ _ _ _ Hwf Hb Hq eq_refl). done. }
      split; [done |]. rewrite <- Hh. by apply (Hfr (Block q 0 Pool)). }
  assert (Haw' : awf (set_bud b3 st) bs3 F).
  { eapply awf_blocks; [exact Haw | apply Hn | done | done |]. intros q o' h Hb' Hh.
    pose proof (Hfr (Block q o' Alloc) Hb' ltac:(done)) as Hq. simpl in Hq. rewrite Hq in Hh. apply (pg_blocks _ _ _ _ _ Hn) in Hb' as [Hb' _]; [| done]. by eapply Haw. }
  assert (Hbl : forall q o', Block q o' Alloc ∈ bs3 <-> Block q o' Alloc ∈ bs /\ q <> p)
    by (intros q o'; by rewrite (pg_blocks _ _ _ _ _ Hn)).
  split; [done |]. split; intros x m.
  2: { unfold shared. cbn [bud set_bud]. setoid_rewrite (fun q => same_globals_base _ _ q Hg3). split.
       - intros (q & o' & h & Hq & -> & Hh & <-). pose proof (Hfr _ Hq ltac:(done)) as Hqf. simpl in Hqf. rewrite Hqf in Hh.
         apply Hbl in Hq as [Hq Hne]. split; [by exists q, o', h |]. unfold page_base. rewrite PAGE_SIZE_val. lia.
       - intros [(q & o' & h & Hq & -> & Hh & <-) Hne]. assert (q <> p) by (intros ->; done).
         assert (Hq' : Block q o' Alloc ∈ bs3) by (by apply Hbl). exists q, o', h.
         pose proof (Hfr _ Hq' ltac:(done)) as Hqf. simpl in Hqf. by rewrite Hqf. }
  rewrite (object_iff _ _ _ _ _ Haw'), (object_iff _ _ _ _ _ Haw). cbn [bud set_bud].
  setoid_rewrite (fun i y => chunk_of_pages (bud st) bs b3 bs3 i y Hg3 Hpp).
  setoid_rewrite (fun q => same_globals_base (bud st) b3 q Hg3).
  setoid_rewrite Hbl. unfold page_base. rewrite PAGE_SIZE_val. split.
  - intros [(i & (q & h & [Hq Hh] & Hm & Hsl) & Hx & ->) | (q & o' & [Hq Hne] & -> & ->)].
    + split; [left; exists i; split_and!; try done; by exists q, h |]. intros ->.
      assert (q = p) as -> by (eapply in_page_unique; [apply Hsl | exact Hin]).
      pose proof (page_unique _ _ _ _ Hwf Hb Hq eq_refl). done.
    + split; [right; by exists q, o' | lia].
  - intros [[? | (q & o' & Hq & -> & ->)] Hne]; [by left | right].
    exists q, o'. split_and!; try done. intros ->. done.
Qed.

Lemma free_object st bs F a n :
  awf st bs F -> object st bs F a n -> (forall c, shared st bs a c -> c = 1) ->
  exists st' bs' F', free a st = Some st' /\ awf st' bs' F' /\
    (forall x m, object st' bs' F' x m <-> object st bs F x m /\ x <> a) /\
    (forall x c, shared st' bs' x c <-> shared st bs x c /\ x <> a).
Proof.
  intros Haw Ho Hsh. pose proof (aw_buddy _ _ _ _ Haw) as Hwf.
  pose proof Ho as Hor. apply (object_iff _ _ _ _ _ Haw) in Hor as [(i & Hc & Hx & _) | (p & o & Hb & -> & _)].
  - destruct (chunk_of_page _ _ _ _ Hwf Hc) as (p & f & Hpp & Hm & Hs & Hp).
    destruct (head_of st bs F _ Haw (proj1 Hpp)) as (f' & Hf' & Hst & _). simpl in Hf', Hst.
    pose proof (proj2 Hpp) as Hf. rewrite Hf in Hf'. injection Hf' as <-.
    destruct (free_chunk_spec st bs F p f a i Haw Hpp Hm Hs Hx) as (st' & bs' & F' & E & Haw' & Hg & Hch & Hl & Hb & Hk).
    exists st', bs', F'. rewrite (free_at st bs F p a f Haw Hp (proj1 Hs) Hf), decide_True by done.
    split; [done |]. split; [done |]. split; intros x m.
    2: { rewrite (shared_kept _ _ _ _ _ _ Hg Hb Hk). split; [| tauto]. intros Hsx. split; [done |]. intros ->.
         destruct Hsx as (q & o & h & Hq & E' & _). assert (q = p) as ->.
         { eapply in_page_unique; [| apply Hs]. rewrite E'. unfold in_page. rewrite PAGE_SIZE_val. lia. }
         by pose proof (page_unique _ _ _ _ Hwf Hq (proj1 Hpp) eq_refl). }
    rewrite (object_iff _ _ _ _ _ Haw'), (object_iff _ _ _ _ _ Haw).
    setoid_rewrite Hb. setoid_rewrite (fun q => same_globals_base _ _ q Hg). split.
    + intros [(j & Hcj & Hxj & ->) | (q & o & Hq & -> & ->)].
      * destruct (proj1 (Hl x)) as [(j' & Hc' & Hx') Hne]; [by exists j |]. split; [| done]. left.
        exists j'. split_and!; [done | done |]. f_equal. eapply chunk_of_functional; [by apply Hch | exact Hc'].
      * split; [right; by exists q, o |]. intros E'. assert (q = p) as ->.
        { eapply in_page_unique; [| apply Hs]. rewrite <- E'. unfold in_page. rewrite PAGE_SIZE_val. lia. }
        pose proof (page_unique _ _ _ _ Hwf Hq (proj1 Hpp) eq_refl). done.
    + intros [[(j & Hcj & Hxj & ->) | ?] Hne]; [left | by right].
      destruct (proj2 (Hl x)) as (j' & Hc' & Hx'); [split; [by exists j | done] |].
      exists j'. split_and!; [done | done |]. f_equal. eapply chunk_of_functional; [exact Hcj | by apply Hch].
  - destruct (head_of st bs F _ Haw Hb) as (f & Hf & _). simpl in Hf.
    assert (cow_ref_count f = 1) as Hc by (apply Hsh; by exists p, o, f).
    destruct (free_last_ref st bs F p o f Haw Hb Hf Hc) as (st' & bs' & E & Haw' & Hob & Hsb).
    by exists st', bs', F.
Qed.

Lemma free_none st bs F a : awf st bs F -> 0 <= a < 2 ^ 64 -> (forall n, ~ object st bs F a n) -> free a st = Some st.
Proof.
  intros Haw Ha Hno. pose proof (aw_buddy _ _ _ _ Haw) as Hwf. destruct (in_pool a (bud st)) eqn:Hpool.
  - destruct (in_pool_page _ _ (wf_region _ _ Hwf) (proj1 Ha) Hpool) as (p & Hp & Hin).
    destruct (tiled_is_some _ _ _ _ _ (wf_tiled _ _ Hwf) Hp) as [f Hf].
    rewrite (free_at st bs F p a f Haw Hp Hin Hf). case_decide as Hs; [| case_decide as Hs'; [| done]].
    + destruct (tiled_head _ _ _ _ _ _ Pool (wf_tiled _ _ Hwf) Hp Hf Hs) as (l1 & l2 & Ebs).
      assert (Hb : Block p (order f) Pool ∈ bs) by (rewrite Ebs; set_solver).
      destruct (tiled_elem _ _ _ _ _ (wf_tiled _ _ Hwf) Hb) as (_ & _ & [_ _ Hz _ _]).
      assert (order f = 0) as Eo by (apply Hz; by left). rewrite Eo in Hb.
      apply (free_chunk_reject st bs F p f a Haw (conj Hb Hf) Hin).
      intros (k & n & Hk & _ & Ho)%(object_live _ _ _ _ Haw). apply (Hno n). by exists k.
    + destruct (tiled_head _ _ _ _ _ _ Alloc (wf_tiled _ _ Hwf) Hp Hf Hs') as (l1 & l2 & Ebs).
      destruct (Z.eqb_spec (Z.land a (PAGE_SIZE - 1)) 0) as [E |]; [exfalso | done].
      apply (Hno (2 ^ order f * PAGE_SIZE)). exists (Block p (order f) Alloc). split; [rewrite Ebs; set_solver |].
      split; [| done]. simpl. change (PAGE_SIZE - 1) with (2 ^ 12 - 1) in E. rewrite land_mask in E by lia.
      unfold in_page, page_base in *. rewrite PAGE_SIZE_val in *.
      destruct (ro_align _ (wf_region _ _ Hwf)) as [q Hq]. unfold PAGE_SHIFT in Hq. change (2 ^ 12) with 4096 in *. dlia.
  - unfold free. rewrite (aw_ready _ _ _ _ Haw), Hpool. simpl negb. cbn [orb]. by destruct (a =? 0).
Qed.

Lemma get_page_ref_spec st bs F a c : awf st bs F -> shared st bs a c -> get_page_ref a st = Some c.
Proof.
  intros Haw (p & o & f & Hb & -> & Hf & <-). pose proof (aw_buddy _ _ _ _ Haw) as Hwf.
  destruct (head_of st bs F _ Haw Hb) as (f' & _ & _ & _ & Hp). simpl in Hp.
  destruct (page_base_aligned (bud st) p (wf_region _ _ Hwf) Hp) as [Hin _].
  destruct (in_page_facts _ _ _ (wf_region _ _ Hwf) Hp Hin) as (Hpool & Hidx & _).
  unfold get_page_ref. by rewrite Hpool, Hidx, Hf.
Qed.
