(* ===== verification/AllocProps.v ===== *)
(** * Properties of the kernel allocator

    Initialisation from the boot information, and the heap specification of
    [allocate], [free] and [page_inc_ref] over sets of objects. *)

From stdpp Require Import functions.
From S2P Require Import Prelude Config Align IList Buddy BuddySpec BuddyProofs BuddyInit BuddyProps Allocator AllocSizes AllocProofs AllocFree AllocHeap.

(** ** Initialisation *)

Lemma zero_frames_spec n i fa j :
  zero_frames n i fa !! j = if decide (i <= j < i + Z.of_nat n) then Some zero_frame else fa !! j.
Proof.
  revert i fa. induction n as [| n IH]; intros i fa; cbn [zero_frames].
  { by rewrite decide_False by lia. }
  rewrite IH. destruct (decide (i = j)) as [-> |].
  - rewrite decide_False, decide_True by lia. by rewrite lookup_insert_eq.
  - rewrite lookup_insert_ne by done. repeat case_decide; done || lia.
Qed.

(** The pages of the pool that a region touches. *)
Definition touches (b : buddy) (r z j : Z) : Prop :=
  0 < z /\ 0 <= j < G_MEM_TOTAL_PAGE b /\
  G_MEMPOOL_START b + j * PAGE_SIZE < r + z /\ r < G_MEMPOOL_START b + (j + 1) * PAGE_SIZE.

#[export] Instance touches_dec b r z j : Decision (touches b r z j).
Proof. unfold touches. apply _. Defined.

Lemma mark_reserved_rgns_spec rgns b :
  region_ok b -> (forall j, 0 <= j < G_MEM_TOTAL_PAGE b -> is_Some (frame_array b !! j)) ->
  G_MEMPOOL_START b + G_MEMPOOL_SIZE b + PAGE_SIZE <= 2 ^ 64 -> rgns_below (2 ^ 64 - 1) rgns ->
  exists b', mark_reserved_rgns rgns b = Some b' /\ same_globals b b' /\
    (forall j, is_Some (frame_array b !! j) -> is_Some (frame_array b' !! j)) /\
    forall j, reserved (frame_array b') j <->
      reserved (frame_array b) j \/ exists r z, (r, z) ∈ rgns /\ touches b r z j.
Proof.
  revert b. induction rgns as [| [r z] rgns IH]; intros b Hr Hin He Hb; cbn [mark_reserved_rgns].
  { exists b. split_and!; try done. intros j. split; [by left |]. intros [? | (r & z & []%elem_of_nil & _)]; done. }
  destruct (Hb r z) as (? & ? & ?); [by left |].
  destruct (reserve_range_spec r z b Hr Hin He) as (b1 & -> & Hg1 & _ & Hfa1); [lia | lia | lia |].
  cbn [mbind option_bind].
  assert (Hy : forall j, touches b r z j -> frame_array b1 !! j = set_state PAGE_STATE_RESERVED <$> frame_array b !! j)
    by (intros j Hj; rewrite Hfa1; by apply decide_True).
  assert (Hn : forall j, ~ touches b r z j -> frame_array b1 !! j = frame_array b !! j)
    by (intros j Hj; rewrite Hfa1; by apply decide_False).
  assert (Hs1 : forall j, is_Some (frame_array b !! j) -> is_Some (frame_array b1 !! j)).
  { intros j Hj. destruct (decide (touches b r z j)) as [Ht | Ht]; [rewrite (Hy j Ht) | by rewrite (Hn j Ht)].
    by apply fmap_is_Some. }
  destruct (IH b1) as (b' & -> & Hg' & Hs' & Hres).
  { by eapply same_globals_region. }
  { intros j Hj. apply Hs1, Hin. by rewrite <- (sg_total _ _ Hg1). }
  { by rewrite (sg_start _ _ Hg1), (sg_size _ _ Hg1). }
  { intros r' z' ?. apply Hb. by right. }
  exists b'. split_and!; [done | by etrans | auto |]. intros j. rewrite Hres.
  assert (Ht : forall r z, touches b1 r z j <-> touches b r z j).
  { intros r' z'. unfold touches. by rewrite (sg_start _ _ Hg1), (sg_total _ _ Hg1). }
  assert (Hone : reserved (frame_array b1) j <-> reserved (frame_array b) j \/ touches b r z j).
  { unfold reserved. destruct (decide (touches b r z j)) as [Hd | Hd]; [rewrite (Hy j Hd) | rewrite (Hn j Hd); tauto].
    split; [by right |]. intros _. destruct (Hin j) as [f Hf]; [apply Hd |]. rewrite Hf. by eexists. }
  rewrite Hone. setoid_rewrite Ht. setoid_rewrite elem_of_cons. split.
  - intros [[? | ?] | (r' & z' & ? & ?)]; [by left | right; exists r, z; split; [by left | done] |].
    right. exists r', z'. split; [by right | done].
  - intros [? | (r' & z' & [[= -> ->] | ?] & ?)]; [by left; left | by left; right |]. right. by exists r', z'.
Qed.

Lemma init_pools_spec n i st :
  0 <= i -> i + Z.of_nat n = 8 -> length (chunk_sizes st) = 8%nat ->
  (forall j, 0 <= j < i -> chunk_sizes st !! Z.to_nat j = g_pool_sizes !! Z.to_nat j) ->
  (forall j, 0 <= j < i -> is_list (free_list st) (PoolHead j) []) ->
  exists st', init_pools n i st = Some st' /\ bud st' = bud st /\ chunk_sizes st' = g_pool_sizes /\
    forall j, 0 <= j < 8 -> is_list (free_list st') (PoolHead j) [].
Proof.
  revert i st. induction n as [| n IH]; intros i st Hi Hn Hl Hc Hls; cbn [init_pools].
  { assert (i = 8) as -> by lia. exists st. split_and!; try done. apply list_eq. intros k.
    destruct (decide (k < 8)%nat).
    - rewrite <- (Nat2Z.id k). apply Hc. lia.
    - rewrite !lookup_ge_None_2; [done | simpl; lia | lia]. }
  destruct (lookup_lt_is_Some_2 g_pool_sizes (Z.to_nat i)) as [c Ec]; [simpl; lia |].
  rewrite Ec. cbn [mbind option_bind].
  destruct (IH (i + 1) (set_free_list (INIT_LIST_HEAD (PoolHead i) (free_list st))
    (set_chunk_sizes (<[Z.to_nat i:=c]> (chunk_sizes st)) st))) as (st' & -> & Hb & Hs & Hl');
    cbn [bud chunk_sizes free_list set_free_list set_chunk_sizes].
  - lia.
  - lia.
  - by rewrite length_insert.
  - intros j Hj. destruct (decide (j = i)) as [-> |].
    + rewrite list_lookup_insert_eq by lia. done.
    + rewrite list_lookup_insert_ne by lia. apply Hc. lia.
  - intros j Hj. destruct (decide (j = i)) as [-> |]; [apply INIT_LIST_HEAD_spec |].
    eapply is_list_frame; [apply INIT_LIST_HEAD_outside | | apply Hls; lia].
    intros x. rewrite !elem_of_cons, elem_of_nil. intros [-> | []] [[=] | []]. lia.
  - exists st'. done.
Qed.

Lemma allocator_init_spec {blob} `{BI : BootInfo blob} fuel (fdt : option blob) st a st1 :
  startup_alloc fuel fdt st = Some (a, st1) -> a <> 0 -> region_ok (bud st1) ->
  G_MEMPOOL_START (bud st1) + G_MEMPOOL_SIZE (bud st1) + PAGE_SIZE <= 2 ^ 64 ->
  rgns_below (2 ^ 64 - 1) (reserved_rgns st1) -> length (chunk_sizes st1) = 8%nat ->
  exists st' bs, allocator_init fuel fdt st = Some st' /\ awf st' bs (fun _ => []) /\ coalesced bs /\
    (forall x n, ~ object st' bs (fun _ => []) x n) /\
    (forall r z j, (r, z) ∈ reserved_rgns st1 -> touches (bud st1) r z j -> Block j 0 Reserved ∈ bs).
Proof.
  intros E Ha Hr He Hb Hc. unfold allocator_init. rewrite E. cbn [mbind option_bind].
  destruct (Z.eqb_spec a 0); [done |].
  set (b0 := set_frame_array _ (bud st1)). pose proof (ro_total _ Hr) as Htot.
  assert (Hin : forall j, 0 <= j < G_MEM_TOTAL_PAGE b0 -> is_Some (frame_array b0 !! j)).
  { intros j Hj. change (G_MEM_TOTAL_PAGE b0) with (G_MEM_TOTAL_PAGE (bud st1)) in Hj. unfold b0.
    cbn [frame_array set_frame_array]. rewrite zero_frames_spec, decide_True by lia. done. }
  assert (Hr0 : region_ok b0) by (by apply (same_globals_region (bud st1))).
  destruct (mark_reserved_rgns_spec (reserved_rgns st1) b0 Hr0 Hin He Hb) as (b1 & -> & Hg1 & Hs1 & Hres).
  cbn [mbind option_bind].
  destruct (buddy_init_run b1) as (b2 & bs & -> & Hwf & Hco & Hini & Hst2 & Htot2).
  { by eapply same_globals_region. }
  { intros j Hj. apply Hs1, Hin. by rewrite <- (sg_total _ _ Hg1). }
  cbn [mbind option_bind].
  destruct (init_pools_spec 8 0 (set_bud b2 st1)) as (st' & E' & Hbud & Hsz & Hls); [done | done | done | lia | lia |].
  change (Z.to_nat CHUNK_POOL_COUNT) with 8%nat. rewrite E'. cbn [mbind option_bind].
  assert (Hno : forall k, k ∈ bs -> b_kind k <> Pool /\ b_kind k <> Alloc).
  { intros k Hk. destruct (Hini k Hk) as [[-> | ->] _]; done. }
  assert (Haw : awf (set_allocator_ready true st') bs (fun _ => [])).
  { split; cbn [bud free_list g_allocator_ready chunk_sizes set_allocator_ready]; try done.
    - by rewrite Hbud.
    - by intros i x _ ?%elem_of_nil.
    - intros p f [Hk _]. destruct (Hno _ Hk). done.
    - intros p o f Hk _. destruct (Hno _ Hk). done. }
  exists (set_allocator_ready true st'), bs. split_and!; [done | done | done | |].
  - intros x n0 ([p o k] & Hk & Ho). destruct (Hno _ Hk). unfold obj_at in Ho. simpl in *. by destruct k.
  - intros r z j Hrz Ht. assert (Hj : 0 <= j < G_MEM_TOTAL_PAGE b2).
    { rewrite Htot2, (sg_total _ _ Hg1). apply Ht. }
    destruct (tiled_cover _ _ _ _ _ (wf_tiled _ _ Hwf) Hj) as (l1 & k & l2 & Ebs & Hk).
    assert (Hkb : k ∈ bs) by (rewrite Ebs; set_solver).
    destruct (Hini k Hkb) as [_ Hkr]. specialize (Hkr j Hk).
    assert (Hkind : b_kind k = Reserved).
    { apply Hkr, Hres. right. by exists r, z. }
    destruct (tiled_elem _ _ _ _ _ (wf_tiled _ _ Hwf) Hkb) as (_ & _ & [_ _ Hz _ _]).
    assert (Ho : b_order k = 0) by (apply Hz; by right). destruct k as [p o kd]. unfold b_end in Hk. simpl in *. subst kd o.
    change (2 ^ 0) with 1 in Hk. by assert (j = p) as -> by lia.
Qed.

(** C40: [allocator_init] leaves a working allocator: when the boot search has
    placed the frame array at [a], initialisation terminates with the invariant
    established, no object allocated, and every page that a recorded reserved
    region touches withheld from the buddy allocator for good. *)
Theorem allocator_init_ready {blob} `{BI : BootInfo blob} fuel (fdt : option blob) st a st1 :
  startup_alloc fuel fdt st = Some (a, st1) -> a <> 0 -> region_ok (bud st1) ->
  G_MEMPOOL_START (bud st1) + G_MEMPOOL_SIZE (bud st1) + PAGE_SIZE <= 2 ^ 64 ->
  rgns_below (2 ^ 64 - 1) (reserved_rgns st1) -> length (chunk_sizes st1) = 8%nat ->
  exists st' bs, allocator_init fuel fdt st = Some st' /\ awf st' bs (fun _ => []) /\ coalesced bs /\
    (forall x n, ~ object st' bs (fun _ => []) x n) /\
    (forall r z j, (r, z) ∈ reserved_rgns st1 -> touches (bud st1) r z j -> Block j 0 Reserved ∈ bs).
Proof. apply allocator_init_spec. Qed.

(** A full table of reserved regions drops every further region without a
    trace, the frame array's own region included. *)
Lemma memory_reserve_full start size st :
  MAX_RESERVED_REGIONS <= Z.of_nat (length (reserved_rgns st)) -> memory_reserve start size st = st.
Proof.
  intros Hl. unfold memory_reserve. destruct (Z.leb_spec MAX_RESERVED_REGIONS (Z.of_nat (length (reserved_rgns st)))); [| lia].
  by rewrite orb_true_r.
Qed.

(** ** The heap *)

(** C1: [allocate] adds exactly one object: on success the answer is a fresh,
    non-null address of an object of at least the requested size, every other
    object is unchanged and the invariant holds; NULL is answered only when
    every free block is smaller than the request, and changes nothing. *)
Theorem allocate_adds_object st bs F size :
  awf st bs F -> 0 < size <= MAX_ALLOC_SIZE ->
  (allocate size st = Some (0, st) /\ forall k, k ∈ bs -> b_kind k = Free -> 2 ^ b_order k * PAGE_SIZE < size) \/
  exists p n st' bs' F', allocate size st = Some (p, st') /\ size <= n /\ heap_adds st st' bs bs' F F' p n.
Proof.
  intros Haw Hs. destruct (decide (size <= 2048)).
  - destruct (allocate_small_spec st bs F size Haw) as [? | (p & n0 & st' & bs' & F' & ? & ? & ? & _)]; [lia | by left |].
    right. by exists p, n0, st', bs', F'.
  - destruct (allocate_large_spec st bs F size Haw) as [? | (p & n0 & st' & bs' & F' & ? & ? & ? & _)]; [lia | by left |].
    right. by exists p, n0, st', bs', F'.
Qed.

(** C2: [free] removes exactly the object at its argument: a chunk goes back to
    its pool (and its page to the buddy allocator when no live chunk is left in
    it), a page block with a single reference goes back to the buddy allocator;
    every other object is unchanged and the invariant holds. *)
Theorem free_removes_object st bs F a n :
  awf st bs F -> object st bs F a n -> (forall c, shared st bs a c -> c = 1) ->
  exists st' bs' F', free a st = Some st' /\ awf st' bs' F' /\
    forall x m, object st' bs' F' x m <-> object st bs F x m /\ x <> a.
Proof.
  intros Haw Ho Hs. destruct (free_object st bs F a n Haw Ho Hs) as (st' & bs' & F' & ? & ? & ? & _).
  by exists st', bs', F'.
Qed.

(** [free] of an address that is not an object has no effect: double frees
    of chunks and of pages, interior, unaligned and foreign pointers, NULL. *)
Theorem free_rejects_invalid st bs F a :
  awf st bs F -> 0 <= a < 2 ^ 64 -> (forall n, ~ object st bs F a n) -> free a st = Some st.
Proof. apply free_none. Qed.

(** Distinct objects never overlap: no byte of the pool belongs to two
    callers, whatever sequence of operations led to the state. *)
Theorem objects_disjoint st bs F a n a' n' :
  awf st bs F -> object st bs F a n -> object st bs F a' n' ->
  (a = a' /\ n = n') \/ a + n <= a' \/ a' + n' <= a.
Proof. apply objects_apart. Qed.

(** The reference count of a page block: [page_inc_ref] adds one,
    [get_page_ref] reads it, and [free] of a block with more than one reference
    only drops one, so that the block stays allocated while it is shared. *)
Theorem page_refs_counted st bs F a c :
  awf st bs F -> shared st bs a c ->
  get_page_ref a st = Some c /\
  (exists st', page_inc_ref a st = Some st' /\ awf st' bs F /\ shared st' bs a (c + 1) /\
     forall x m, object st' bs F x m <-> object st bs F x m) /\
  (1 < c -> exists st', free a st = Some st' /\ awf st' bs F /\ shared st' bs a (c - 1) /\
     forall x m, object st' bs F x m <-> object st bs F x m).
Proof.
  intros Haw Hsh. split; [by eapply get_page_ref_spec |]. destruct Hsh as (p & o & f & Hb & -> & Hf & <-).
  pose proof (aw_buddy _ _ _ _ Haw) as Hwf.
  destruct (head_of st bs F _ Haw Hb) as (f' & Hf' & Hs & _ & Hp). simpl in Hf', Hs, Hp. rewrite Hf in Hf'. injection Hf' as <-.
  destruct (page_base_aligned (bud st) p (wf_region _ _ Hwf) Hp) as [Hin Hal].
  destruct (in_page_facts _ _ _ (wf_region _ _ Hwf) Hp Hin) as (Hpool & Hidx & _).
  pose proof (aw_cow _ _ _ _ Haw p o f Hb Hf) as Hc. split.
  - unfold page_inc_ref. rewrite Hpool, Hidx. simpl negb. cbv iota.
    destruct (awf_recount st bs F p o f (fun c => c + 1) Haw Hb Hf ltac:(lia)) as (b' & -> & _ & ? & ? & ? & _).
    cbn [mbind option_bind]. by eexists.
  - intros Hc1. rewrite (free_at st bs F p _ f Haw Hp Hin Hf), Hs, Hal. rewrite decide_False, decide_True by done.
    simpl negb. cbv iota.
    destruct (awf_recount st bs F p o f (fun c => c - 1) Haw Hb Hf ltac:(lia)) as (b' & -> & Hf1 & ? & ? & ? & _).
    cbn [mbind option_bind]. rewrite Hf1. cbn [mbind option_bind].
    destruct (Z.eqb_spec (cow_ref_count (set_cow_ref_count (cow_ref_count f - 1) f)) 0) as [E |]; [simpl in E; lia |].
    by eexists.
Qed.

(** ** A concrete boot, used by the witnesses *)

(** 64 KiB of memory, the kernel image in its first two pages. *)
#[local] Instance demo_boot : BootInfo unit := {
  kernel_start := 0xffffffc081000000; kernel_size := 0x1800;
  fdt_addr := fun _ => 0; fdt_totalsize := fun _ => 0;
  fdt_memory_reg := fun _ => Some [0x81; 0; 0; 0; 0; 1; 0; 0];
  get_initrd_start := fun _ => 0; get_initrd_end := fun _ => 0;
  fdt_get_reserved_memory_region := fun _ _ => None;
}.

Definition boot_array : Z := fst (default (0, unready) (startup_alloc 1 (Some tt) unready)).
Definition booted : allocator := snd (default (0, unready) (startup_alloc 1 (Some tt) unready)).
Definition heap0 : allocator := default unready (allocator_init 1 (Some tt) unready).
Definition heap1 : allocator := snd (default (0, unready) (allocate 5000 heap0)).

Lemma boot_run : startup_alloc 1 (Some tt) unready = Some (boot_array, booted).
Proof. vm_compute. reflexivity. Qed.

Lemma boot_array_at : boot_array = 0xffffffc081002000.
Proof. vm_compute. reflexivity. Qed.

Lemma init_run : allocator_init 1 (Some tt) unready = Some heap0.
Proof. vm_compute. reflexivity. Qed.

Lemma alloc_run : allocate 5000 heap0 = Some (0xffffffc081004000, heap1).
Proof. vm_compute. reflexivity. Qed.

Lemma booted_region : region_ok (bud booted).
Proof. split; [exists 0xffffffc081000 | ..]; vm_compute; congruence. Qed.

Lemma booted_rgns : rgns_below (2 ^ 64 - 1) (reserved_rgns booted).
Proof.
  assert (E : reserved_rgns booted = [(0xffffffc081000000, 0x1800); (0xffffffc081002000, 640)]) by (vm_compute; reflexivity).
  rewrite E. intros r z. rewrite !elem_of_cons, elem_of_nil. intros [[= -> ->] | [[= -> ->] | []]]; lia.
Qed.

(** The boot state is only compared through the lemmas above from here on. *)
#[local] Opaque allocator_init startup_alloc allocate free page_inc_ref get_page_ref heap0 heap1 booted boot_array.

Lemma heap0_awf : exists bs, awf heap0 bs (fun _ => []) /\ forall x n, ~ object heap0 bs (fun _ => []) x n.
Proof.
  destruct (allocator_init_spec 1 (Some tt) unready boot_array booted boot_run)
    as (st' & bs & E & Haw & _ & Hno & _); [by rewrite boot_array_at | apply booted_region | vm_compute; congruence |
      apply booted_rgns | vm_compute; reflexivity |].
  rewrite init_run in E. apply (inj Some) in E. subst st'. exists bs. split; [exact Haw | exact Hno].
Qed.

Lemma heap1_awf : exists bs F n, awf heap1 bs F /\ object heap1 bs F 0xffffffc081004000 n /\
  shared heap1 bs 0xffffffc081004000 1.
Proof.
  destruct heap0_awf as (bs & Haw & Hno).
  destruct (allocate_large_spec heap0 bs (fun _ => []) 5000 Haw)
    as [[E _] | (p & n & st' & bs' & F' & E & _ & (Haw' & _ & _ & Hob) & Hsh)];
    [unfold MAX_ALLOC_SIZE; lia | |]; rewrite alloc_run in E; apply (inj Some) in E.
  - apply (f_equal fst) in E. cbn [fst] in E. lia.
  - pose proof (f_equal fst E) as E1. pose proof (f_equal snd E) as E2. cbn [fst snd] in E1, E2. subst p st'.
    exists bs', F', n. split_and!; [exact Haw' | apply Hob; right; split; reflexivity | apply Hsh; right; split; reflexivity].
Qed.

Lemma allocator_init_ready_witness :
  exists st' bs, allocator_init 1 (Some tt) unready = Some st' /\ awf st' bs (fun _ => []) /\ Block 1 0 Reserved ∈ bs.
Proof.
  destruct (allocator_init_ready 1 (Some tt) unready boot_array booted boot_run)
    as (st' & bs & E & Haw & _ & _ & Hr); [by rewrite boot_array_at | apply booted_region | vm_compute; congruence |
      apply booted_rgns | vm_compute; reflexivity |].
  exists st', bs. split_and!; [exact E | exact Haw |].
  apply (Hr 0xffffffc081000000 0x1800).
  - assert (E' : reserved_rgns booted = [(0xffffffc081000000, 0x1800); (0xffffffc081002000, 640)]) by (vm_compute; reflexivity).
    rewrite E'. by left.
  - split_and!; vm_compute; congruence.
Defined.

Lemma allocate_adds_object_witness :
  exists bs p n st' bs' F', allocate 100 heap0 = Some (p, st') /\ 100 <= n /\ heap_adds heap0 st' bs bs' (fun _ => []) F' p n.
Proof.
  destruct heap0_awf as (bs & Haw & Hno). exists bs.
  destruct (allocate_adds_object heap0 bs (fun _ => []) 100 Haw) as [[E _] | H]; [unfold MAX_ALLOC_SIZE; lia | | exact H].
  exfalso. assert (E' : (fst <$> allocate 100 heap0) <> Some 0) by (vm_compute; congruence).
  apply E'. rewrite E. reflexivity.
Defined.

Lemma objects_disjoint_witness :
  exists st bs F p n p' n', awf st bs F /\ object st bs F p n /\ object st bs F p' n' /\ 100 <= n' /\
    ((p = p' /\ n = n') \/ p + n <= p' \/ p' + n' <= p).
Proof.
  destruct heap1_awf as (bs & F & n & Haw & Ho & _).
  destruct (allocate_small_spec heap1 bs F 100 Haw) as [[E _] | (p' & n' & st' & bs' & F' & _ & Hn & (Haw' & _ & _ & Hob) & _)]; [lia | |].
  - exfalso. assert (E' : (fst <$> allocate 100 heap1) <> Some 0) by (vm_compute; congruence).
    apply E'. rewrite E. reflexivity.
  - assert (H1 : object st' bs' F' 0xffffffc081004000 n) by (apply Hob; left; exact Ho).
    assert (H2 : object st' bs' F' p' n') by (apply Hob; right; split; reflexivity).
    exists st', bs', F', 0xffffffc081004000, n, p', n'. split_and!; [exact Haw' | exact H1 | exact H2 | exact Hn |].
    apply (objects_disjoint st' bs' F' _ _ _ _ Haw' H1 H2).
Defined.

Lemma free_removes_object_witness :
  exists st' bs' F', free 0xffffffc081004000 heap1 = Some st' /\ awf st' bs' F' /\
    forall m, ~ object st' bs' F' 0xffffffc081004000 m.
Proof.
  destruct heap1_awf as (bs & F & n & Haw & Ho & Hsh).
  destruct (free_removes_object heap1 bs F _ n Haw Ho) as (st' & bs' & F' & E & Haw' & Hob).
  - intros c Hc. pose proof (get_page_ref_spec _ _ _ _ _ Haw Hc) as H1.
    rewrite (get_page_ref_spec _ _ _ _ _ Haw Hsh) in H1. by injection H1.
  - exists st', bs', F'. split_and!; [exact E | exact Haw' |]. intros m Hm. apply Hob in Hm as [_ Hm]. by apply Hm.
Defined.

Lemma free_rejects_invalid_witness : free 0xffffffc081000000 heap0 = Some heap0.
Proof.
  destruct heap0_awf as (bs & Haw & Hno). apply (free_rejects_invalid heap0 bs _ _ Haw); [lia | apply Hno].
Defined.

Lemma page_refs_counted_witness :
  get_page_ref 0xffffffc081004000 heap1 = Some 1 /\
  exists st' bs, page_inc_ref 0xffffffc081004000 heap1 = Some st' /\ shared st' bs 0xffffffc081004000 2.
Proof.
  destruct heap1_awf as (bs & F & n & Haw & _ & Hsh).
  destruct (page_refs_counted heap1 bs F _ 1 Haw Hsh) as (E & (st' & E' & _ & Hsh' & _) & _).
  split; [exact E |]. exists st', bs. split; [exact E' | exact Hsh'].
Defined.
