(* ===== verification/Heap.v ===== *)
(** * The page allocator as the rest of the kernel sees it, and its memory

    The class [HeapOps] names the operations of [src/allocator.c] that the
    other components call, [HeapSpec] is what they rely on; [HeapInst] shows
    that the allocator of [Allocator] keeps it.  The contents of the pages are
    64-bit words by address. *)

From S2P Require Import Prelude Config.

Class HeapOps (H : Type) := {
  h_allocate : Z -> H -> option (Z * H);
  h_free : Z -> H -> option H;
  h_inc_ref : Z -> H -> option H;
  h_get_ref : Z -> H -> option Z;
}.

(** ** Contract *)

(** [m] maps the address of every live object to its size and to the number of
    references to it. *)
Class HeapSpec (H : Type) `{HeapOps H} := {
  owns : H -> gmap Z (Z * Z) -> Prop;
  owns_allocate h m sz : owns h m -> 0 < sz <= MAX_ALLOC_SIZE ->
    h_allocate sz h = Some (0, h) \/
    exists p h' n, h_allocate sz h = Some (p, h') /\ sz <= n /\ m !! p = None /\ owns h' (<[p := (n, 1)]> m);
  owns_free h m p n : owns h m -> m !! p = Some (n, 1) ->
    exists h', h_free p h = Some h' /\ owns h' (delete p m);
  owns_unshare h m p n c : owns h m -> m !! p = Some (n, c) -> 1 < c ->
    exists h', h_free p h = Some h' /\ owns h' (<[p := (n, c - 1)]> m);
  owns_free_none h m p : owns h m -> 0 <= p < 2 ^ 64 -> m !! p = None -> h_free p h = Some h;
  owns_share h m p n c : owns h m -> m !! p = Some (n, c) -> PAGE_SIZE <= n ->
    exists h', h_inc_ref p h = Some h' /\ owns h' (<[p := (n, c + 1)]> m);
  owns_get_ref h m p n c : owns h m -> m !! p = Some (n, c) -> PAGE_SIZE <= n -> h_get_ref p h = Some c;
  owns_bounds h m p n c : owns h m -> m !! p = Some (n, c) ->
    0 < p /\ 0 < n /\ p + n <= 2 ^ 64 /\ 1 <= c /\ (PAGE_SIZE <= n -> (PAGE_SIZE | p));
  owns_apart h m p n c p' n' c' : owns h m -> m !! p = Some (n, c) -> m !! p' = Some (n', c') ->
    p = p' \/ p + n <= p' \/ p' + n' <= p;
}.

(** ** Memory *)

(** The allocator and the words of the pages: a word that was never written
    has no value, and reading it fails. *)
Record memory (H : Type) := Memory { heap : H; mem : gmap Z Z }.
Arguments Memory {H} _ _.
Arguments heap {H} _.
Arguments mem {H} _.

Definition set_heap {H} (h : H) (vm : memory H) : memory H := Memory h (mem vm).
Definition set_mem {H} (m : gmap Z Z) (vm : memory H) : memory H := Memory (heap vm) m.

(** The [i]-th word of an array at [p]. *)
Definition word (p i : Z) : Z := p + 8 * i.

(** [memset(p, 0, 8 * n)] *)
Fixpoint zero_words (n : nat) (p : Z) (m : gmap Z Z) : gmap Z Z :=
  match n with O => m | S n => zero_words n (p + 8) (<[p := 0]> m) end.

Definition zero_page (p : Z) (m : gmap Z Z) : gmap Z Z := zero_words 512 p m.

(** [memcpy(dst, src, 8 * n)] of words that were written *)
Fixpoint copy_words (n : nat) (dst src : Z) (m : gmap Z Z) : option (gmap Z Z) :=
  match n with
  | O => Some m
  | S n => w ← m !! src; copy_words n (dst + 8) (src + 8) (<[dst := w]> m)
  end.

(** The same of memory that may never have been written. *)
Fixpoint clone_words (n : nat) (dst src : Z) (m : gmap Z Z) : gmap Z Z :=
  match n with
  | O => m
  | S n => clone_words n (dst + 8) (src + 8) (partial_alter (fun _ => m !! src) dst m)
  end.

(** The byte at [a] of a little-endian word memory. *)
Definition load_byte (a : Z) (m : gmap Z Z) : option Z :=
  w ← m !! (a - a mod 8); Some (Z.land (Z.shiftr w (8 * (a mod 8))) 255).

Definition store_byte (a c : Z) (m : gmap Z Z) : option (gmap Z Z) :=
  w ← m !! (a - a mod 8);
  let sh := 8 * (a mod 8) in
  Some (<[a - a mod 8 := Z.lor (Z.land w (Z.lxor (2 ^ 64 - 1) (Z.shiftl 255 sh))) (Z.shiftl (Z.land c 255) sh)]> m).

(** [memcpy(dst, data, n)] of bytes *)
Fixpoint store_bytes (a : Z) (bs : list Z) (m : gmap Z Z) : option (gmap Z Z) :=
  match bs with [] => Some m | c :: bs => m ← store_byte a c m; store_bytes (a + 1) bs m end.

(** ** Lemmas *)

(** The words of the page at [p]. *)
Definition in_words (n p a : Z) : Prop := exists i, 0 <= i < n /\ a = word p i.

Lemma zero_words_in n p m i : 0 <= i < Z.of_nat n -> zero_words n p m !! word p i = Some 0.
Proof.
  unfold word. revert p m i. induction n as [| n IH]; intros p m i Hi; [lia |]. cbn [zero_words].
  destruct (decide (i = 0)) as [-> |].
  - replace (p + 8 * 0) with p by lia. clear IH Hi. revert p m. assert (Hgen : forall q p m, p < q -> m !! p = Some 0 -> zero_words n q m !! p = Some 0).
    { induction n as [| n IH]; intros q p m Hq Hp; [done |]. cbn [zero_words]. apply IH; [lia |]. by rewrite lookup_insert_ne by lia. }
    intros p m. apply Hgen; [lia | by rewrite lookup_insert_eq].
  - replace (p + 8 * i) with (p + 8 + 8 * (i - 1)) by lia. apply IH. lia.
Qed.

Lemma zero_words_out n p m a : (forall i, 0 <= i < Z.of_nat n -> a <> word p i) -> zero_words n p m !! a = m !! a.
Proof.
  unfold word. revert p m. induction n as [| n IH]; intros p m Ha; [done |]. cbn [zero_words]. rewrite IH.
  - apply lookup_insert_ne. intros ->. apply (Ha 0); lia.
  - intros i Hi ->. apply (Ha (i + 1)); lia.
Qed.

Lemma zero_page_in p m i : 0 <= i < 512 -> zero_page p m !! word p i = Some 0.
Proof. intros. unfold zero_page. apply zero_words_in. lia. Qed.

Lemma zero_page_out p m a : ~ p <= a < p + PAGE_SIZE -> zero_page p m !! a = m !! a.
Proof. intros Ha. unfold zero_page. apply zero_words_out. rewrite PAGE_SIZE_val in Ha. unfold word. intros i Hi ->. apply Ha. lia. Qed.

Lemma clone_words_out n dst src m a : (forall i, 0 <= i < Z.of_nat n -> a <> word dst i) -> clone_words n dst src m !! a = m !! a.
Proof.
  unfold word. revert dst src m. induction n as [| n IH]; intros dst src m Ha; [done |]. cbn [clone_words]. rewrite IH.
  - apply lookup_partial_alter_ne. specialize (Ha 0). lia.
  - intros i Hi E. apply (Ha (i + 1)); lia.
Qed.

(** Disjoint source and destination. *)
Lemma clone_words_in n dst src m i : 0 <= i < Z.of_nat n -> dst + 8 * Z.of_nat n <= src \/ src + 8 * Z.of_nat n <= dst ->
  clone_words n dst src m !! word dst i = m !! word src i.
Proof.
  unfold word. revert dst src m i. induction n as [| n IH]; intros dst src m i Hi Hd; [lia |]. cbn [clone_words].
  destruct (decide (i = 0)) as [-> |].
  - rewrite !Z.mul_0_r, !Z.add_0_r. rewrite clone_words_out by (unfold word; lia). by rewrite lookup_partial_alter_eq.
  - replace (dst + 8 * i) with (dst + 8 + 8 * (i - 1)) by lia. rewrite IH by lia.
    rewrite lookup_partial_alter_ne by lia. f_equal. lia.
Qed.

(** ** Bytes *)

Lemma land_255_bits x n : 0 <= n -> Z.testbit (Z.land x 255) n = Z.testbit x n && (n <? 8).
Proof. intros. change 255 with (Z.ones 8). by rewrite Z.land_spec, Z.testbit_ones_nonneg by lia. Qed.

Lemma clear_byte_bits w sh n : 0 <= sh -> 0 <= n ->
  Z.testbit (Z.land w (Z.lxor (2 ^ 64 - 1) (Z.shiftl 255 sh))) n = Z.testbit w n && xorb (n <? 64) ((sh <=? n) && (n <? sh + 8)).
Proof.
  intros Hs Hn. change 255 with (Z.ones 8). change (2 ^ 64 - 1) with (Z.ones 64). rewrite Z.land_spec, Z.lxor_spec, Z.testbit_ones_nonneg, Z.shiftl_spec by lia.
  do 2 f_equal. destruct (Z.leb_spec sh n); [| by rewrite Z.testbit_neg_r by lia].
  rewrite Z.testbit_ones_nonneg by lia. destruct (Z.ltb_spec (n - sh) 8), (Z.ltb_spec n (sh + 8)); (lia || done).
Qed.

(** The byte [j] of a word of which the byte [i] was replaced. *)
Lemma replace_byte w c i j : 0 <= i < 8 -> 0 <= j < 8 ->
  Z.land (Z.shiftr (Z.lor (Z.land w (Z.lxor (2 ^ 64 - 1) (Z.shiftl 255 (8 * i)))) (Z.shiftl (Z.land c 255) (8 * i))) (8 * j)) 255 =
  if i =? j then Z.land c 255 else Z.land (Z.shiftr w (8 * j)) 255.
Proof.
  intros Hi Hj. apply Z.bits_inj'. intros n Hn. rewrite land_255_bits, Z.shiftr_spec, Z.lor_spec, clear_byte_bits, Z.shiftl_spec by lia.
  destruct (Z.eqb_spec i j) as [<- | Hne].
  - replace (n + 8 * i - 8 * i) with n by lia. rewrite !land_255_bits by lia.
    destruct (Z.ltb_spec n 8); [| by rewrite !andb_false_r].
    destruct (Z.ltb_spec (n + 8 * i) 64), (Z.leb_spec (8 * i) (n + 8 * i)), (Z.ltb_spec (n + 8 * i) (8 * i + 8)); try lia. cbn [andb xorb]. by destruct (Z.testbit w _), (Z.testbit c _).
  - rewrite (land_255_bits (Z.shiftr w _)), Z.shiftr_spec by lia. destruct (Z.ltb_spec n 8); [| by rewrite !andb_false_r]. rewrite !andb_true_r.
    assert (E : Z.testbit (Z.land c 255) (n + 8 * j - 8 * i) = false).
    { destruct (Z.ltb_spec (n + 8 * j - 8 * i) 0); [by rewrite Z.testbit_neg_r by lia |]. rewrite land_255_bits by lia.
      destruct (Z.ltb_spec (n + 8 * j - 8 * i) 8); [lia | by rewrite andb_false_r]. }
    rewrite E, orb_false_r. destruct (Z.ltb_spec (n + 8 * j) 64); [| lia].
    destruct (Z.leb_spec (8 * i) (n + 8 * j)), (Z.ltb_spec (n + 8 * j) (8 * i + 8)); try lia; cbn; by rewrite andb_true_r.
Qed.

Lemma byte_word a : 0 <= a mod 8 < 8 /\ (a - a mod 8) mod 8 = 0 /\ a = a - a mod 8 + a mod 8.
Proof. dlia. Qed.

Lemma store_byte_spec a c m : is_Some (m !! (a - a mod 8)) -> exists m', store_byte a c m = Some m' /\
  (forall b, load_byte b m' = if b =? a then Some (Z.land c 255) else load_byte b m) /\
  (forall x, x <> a - a mod 8 -> m' !! x = m !! x) /\ (forall x, is_Some (m !! x) -> is_Some (m' !! x)).
Proof.
  intros [w Hw]. unfold store_byte. rewrite Hw. cbn [mbind option_bind]. eexists. split; [reflexivity |].
  destruct (byte_word a) as (Ha & _ & Ea). split_and!.
  - intros b. destruct (byte_word b) as (Hb & _ & Eb). unfold load_byte. destruct (decide (b - b mod 8 = a - a mod 8)) as [E | E].
    + rewrite E, lookup_insert_eq, Hw. cbn [mbind option_bind]. rewrite replace_byte by done.
      destruct (Z.eqb_spec (a mod 8) (b mod 8)), (Z.eqb_spec b a); (lia || done).
    + rewrite lookup_insert_ne by done. destruct (Z.eqb_spec b a); [congruence | done].
  - intros x Hx. by rewrite lookup_insert_ne.
  - intros x Hx. destruct (decide (x = a - a mod 8)) as [-> |]; [rewrite lookup_insert_eq; by eexists | by rewrite lookup_insert_ne].
Qed.

(** [memcpy] to words that were written: the bytes are there, the others and the
    words outside of the destination are as before. *)
Lemma store_bytes_spec bs : forall a m, (forall x, a <= x < a + Z.of_nat (length bs) -> is_Some (m !! (x - x mod 8))) ->
  exists m', store_bytes a bs m = Some m' /\
    (forall b, load_byte b m' = match bs !! Z.to_nat (b - a) with Some c => if a <=? b then Some (Z.land c 255) else load_byte b m | None => load_byte b m end) /\
    (forall x, (forall b, a <= b < a + Z.of_nat (length bs) -> x <> b - b mod 8) -> m' !! x = m !! x).
Proof.
  induction bs as [| c bs IH]; intros a m Hm; cbn [store_bytes].
  - exists m. by split_and!.
  - destruct (store_byte_spec a c m) as (m1 & -> & Hb1 & Hx1 & Hs1); [apply Hm; cbn [length]; lia |]. cbn [mbind option_bind].
    destruct (IH (a + 1) m1) as (m' & -> & Hb & Hx); [intros x Hx; apply Hs1, Hm; cbn [length]; lia |].
    exists m'. split_and!; [done | |].
    + intros b. rewrite Hb, Hb1. destruct (Z.leb_spec a b) as [Hab | Hab].
      * destruct (decide (b = a)) as [-> | Hne].
        -- replace (Z.to_nat (a - a)) with 0%nat by lia. rewrite Z.eqb_refl. destruct (Z.leb_spec (a + 1) a); [lia |]. cbn. by destruct (bs !! _).
        -- replace (Z.to_nat (b - a)) with (S (Z.to_nat (b - (a + 1)))) by lia. cbn [lookup list_lookup].
           destruct (Z.leb_spec (a + 1) b), (Z.eqb_spec b a); (lia || done).
      * destruct (Z.leb_spec (a + 1) b), (Z.eqb_spec b a); try lia. by destruct (bs !! _), ((c :: bs) !! _).
    + intros x Hne. rewrite Hx, Hx1; [done | | intros b Hb'; apply Hne; cbn [length]; lia]. apply Hne. cbn [length]. lia.
Qed.

Lemma zero_page_bytes p m : (8 | p) -> forall i, 0 <= i < PAGE_SIZE -> load_byte (p + i) (zero_page p m) = Some 0.
Proof.
  intros [q ->] i Hi. rewrite PAGE_SIZE_val in Hi. unfold load_byte. replace (q * 8 + i - (q * 8 + i) mod 8) with (word (q * 8) (i / 8)) by (unfold word; dlia).
  rewrite zero_page_in by dlia. cbn [mbind option_bind]. by rewrite Z.shiftr_0_l.
Qed.

#[global] Opaque zero_page.
