(* ===== verification/HeapInst.v ===== *)
(** * The allocator keeps the contract of [Heap]

    The instance of [HeapOps] for the allocator of [src/allocator.c], and the
    proof of [HeapSpec]: its live objects are those of [AllocHeap], the pages
    counted by [page_inc_ref]. *)

From S2P Require Import Prelude Config Buddy BuddySpec BuddyProofs Allocator AllocSizes AllocProofs AllocHeap Heap.

#[export] Instance allocator_ops : HeapOps allocator := {
  h_allocate := allocate; h_free := free; h_inc_ref := page_inc_ref; h_get_ref := get_page_ref;
}.

(** The references to an object: those counted for a page block, one for a chunk. *)
Definition refs (st : allocator) (bs : list block) (a c : Z) : Prop :=
  shared st bs a c \/ (c = 1 /\ forall c', ~ shared st bs a c').

Definition alloc_owns (st : allocator) (m : gmap Z (Z * Z)) : Prop :=
  exists bs F, awf st bs F /\ forall a n c, m !! a = Some (n, c) <-> object st bs F a n /\ refs st bs a c.

Section Instance_.
  Context (st : allocator) (bs : list block) (F : Z -> list Z) (Haw : awf st bs F).

Lemma shared_functional a c c' : shared st bs a c -> shared st bs a c' -> c = c'.
Proof.
  intros Hs Hs'. pose proof (get_page_ref_spec _ _ _ _ _ Haw Hs) as H1.
  rewrite (get_page_ref_spec _ _ _ _ _ Haw Hs') in H1. congruence.
Qed.

Lemma refs_functional a c c' : refs st bs a c -> refs st bs a c' -> c = c'.
Proof.
  intros [Hs | [-> Hn]] [Hs' | [-> Hn']]; [by eapply shared_functional | by destruct (Hn' c) | by destruct (Hn c') | done].
Qed.

Lemma shared_object a c : shared st bs a c -> exists n, object st bs F a n /\ PAGE_SIZE <= n.
Proof.
  intros (p & o & f & Hb & -> & Hf & _). exists (2 ^ o * PAGE_SIZE). split.
  - apply (object_iff _ _ _ _ _ Haw). right. by exists p, o.
  - destruct (tiled_elem _ _ _ _ _ (wf_tiled _ _ (aw_buddy _ _ _ _ Haw)) Hb) as (_ & _ & [[? _] _ _ _ _]). simpl in *.
    pose proof (pow2_pos o). rewrite PAGE_SIZE_val. lia.
Qed.

Lemma page_shared a n : object st bs F a n -> PAGE_SIZE <= n -> exists c, shared st bs a c.
Proof.
  intros Ho Hn. apply (object_iff _ _ _ _ _ Haw) in Ho as [(i & Hc & _ & ->) | (p & o & Hb & -> & ->)].
  - exfalso. destruct (chunk_of_page _ _ _ _ (aw_buddy _ _ _ _ Haw) Hc) as (p & f & Hp & <- & _).
    destruct (aw_pages _ _ _ _ Haw p f Hp) as (Hi & _). unfold csize in Hn.
    pose proof (pow2_mono (meta_pool_idx f + 4) 11). rewrite PAGE_SIZE_val in Hn. lia.
  - destruct (head_of st bs F _ Haw Hb) as (f & Hf & _). exists (cow_ref_count f). by exists p, o, f.
Qed.

Lemma refs_total a n : object st bs F a n -> exists c, refs st bs a c.
Proof.
  intros Ho. destruct (decide (PAGE_SIZE <= n)) as [Hn | Hn].
  - destruct (page_shared a n Ho Hn) as [c Hc]. exists c. by left.
  - exists 1. right. split; [done |]. intros c (n' & Ho' & Hn')%shared_object.
    by rewrite (object_size _ _ _ _ _ _ Haw Ho Ho') in Hn.
Qed.

Lemma object_bounds a n : object st bs F a n ->
  0 < a /\ 0 < n /\ a + n <= 2 ^ 64 /\ (PAGE_SIZE <= n -> (PAGE_SIZE | a)).
Proof.
  intros Ho. pose proof (aw_buddy _ _ _ _ Haw) as Hwf. pose proof (wf_region _ _ Hwf) as Hr.
  pose proof Ho as (k & Hk & Hob). pose proof (object_in_block _ _ _ _ _ _ Haw Hk Hob) as (? & Hend & Hlo & ? & Hhi).
  destruct Hr as [Hal ? ? Hsz ?]. unfold page_base, PAGE_SHIFT in *. rewrite PAGE_SIZE_val in *. change (2 ^ 12) with 4096 in *.
  split_and!; [nia | done | nia |]. intros Hn.
  destruct (page_shared a n Ho) as (c & p & o & f & _ & -> & _); [by rewrite PAGE_SIZE_val |].
  unfold page_base. rewrite PAGE_SIZE_val. apply Z.divide_add_r; [done | by exists p].
Qed.

Lemma refs_pos a n c : object st bs F a n -> refs st bs a c -> 1 <= c.
Proof.
  intros Ho [(p & o & f & Hb & _ & Hf & <-) | [-> _]]; [| done]. by eapply Haw.
Qed.

End Instance_.

(** A change that adds, drops or recounts one object. *)
Lemma owns_add st st' bs bs' F F' m p n :
  awf st bs F -> (forall a n c, m !! a = Some (n, c) <-> object st bs F a n /\ refs st bs a c) ->
  heap_adds st st' bs bs' F F' p n -> refs st' bs' p 1 ->
  (forall a c, a <> p -> refs st' bs' a c <-> refs st bs a c) ->
  m !! p = None /\ alloc_owns st' (<[p := (n, 1)]> m).
Proof.
  intros Haw Hm (Haw' & _ & Hnew & Hob) Hp Hr. split.
  - destruct (m !! p) as [[n' c'] |] eqn:E; [| done]. apply Hm in E as [Ho _]. destruct Hnew. by exists n'.
  - exists bs', F'. split; [done |]. intros a n' c. rewrite Hob. destruct (decide (a = p)) as [-> | Hne].
    + rewrite lookup_insert_eq. split.
      * intros [= <- <-]. split; [by right | done].
      * intros [[Ho | [_ ->]] Hc]; [destruct Hnew; by exists n' |]. by rewrite (refs_functional _ _ _ Haw' _ _ _ Hc Hp).
    + rewrite lookup_insert_ne by done. rewrite Hm, Hr by done. naive_solver.
Qed.

Lemma owns_recount st st' bs F m p n c :
  awf st bs F -> (forall a n c, m !! a = Some (n, c) <-> object st bs F a n /\ refs st bs a c) ->
  awf st' bs F -> (forall a n, object st' bs F a n <-> object st bs F a n) ->
  object st bs F p n -> shared st' bs p c -> (forall a c, a <> p -> shared st' bs a c <-> shared st bs a c) ->
  alloc_owns st' (<[p := (n, c)]> m).
Proof.
  intros Haw Hm Haw' Hob Hp Hc Hr. exists bs, F. split; [done |]. intros a n' c'. rewrite Hob.
  destruct (decide (a = p)) as [-> | Hne].
  - rewrite lookup_insert_eq. split.
    + intros [= <- <-]. split; [done | by left].
    + intros [Ho Hc']. rewrite (object_size _ _ _ _ _ _ Haw Ho Hp).
      by rewrite (refs_functional _ _ _ Haw' p c' c Hc' (or_introl Hc)).
  - rewrite lookup_insert_ne by done. rewrite Hm. unfold refs. by setoid_rewrite (fun c => Hr a c Hne).
Qed.

(** The frame of a shared block, as the operations find it. *)
Lemma shared_frame st bs F a c : awf st bs F -> shared st bs a c ->
  exists p o f, Block p o Alloc ∈ bs /\ a = page_base (bud st) p /\ frame_array (bud st) !! p = Some f /\
    cow_ref_count f = c /\ in_pool a (bud st) = true /\ addr_to_page_idx a (bud st) = p /\
    0 <= p < G_MEM_TOTAL_PAGE (bud st) /\ in_page (bud st) p a /\
    Z.land a (PAGE_SIZE - 1) =? 0 = true /\ state f = PAGE_STATE_ALLOC_PAGE_HEAD.
Proof.
  intros Haw (p & o & f & Hb & -> & Hf & <-). pose proof (aw_buddy _ _ _ _ Haw) as Hwf.
  destruct (head_of st bs F _ Haw Hb) as (f' & Hf' & Hs & _ & Hp). simpl in Hf', Hs, Hp. rewrite Hf in Hf'. injection Hf' as <-.
  destruct (page_base_aligned (bud st) p (wf_region _ _ Hwf) Hp) as [Hin Hal].
  destruct (in_page_facts _ _ _ (wf_region _ _ Hwf) Hp Hin) as (Hpool & Hidx & _).
  by exists p, o, f.
Qed.

Lemma share_spec st bs F a c : awf st bs F -> shared st bs a c ->
  exists st', page_inc_ref a st = Some st' /\ awf st' bs F /\ (forall x n, object st' bs F x n <-> object st bs F x n) /\
    shared st' bs a (c + 1) /\ (forall x k, x <> a -> shared st' bs x k <-> shared st bs x k).
Proof.
  intros Haw Hs. destruct (shared_frame st bs F a c Haw Hs) as (p & o & f & Hb & -> & Hf & <- & Hpool & Hidx & Hp & _ & _ & _).
  pose proof (aw_cow _ _ _ _ Haw p o f Hb Hf) as Hc. unfold page_inc_ref. rewrite Hpool, Hidx. simpl negb. cbv iota.
  destruct (awf_recount st bs F p o f (fun c => c + 1) Haw Hb Hf ltac:(lia)) as (b' & -> & _ & ? & ? & ? & ?).
  cbn [mbind option_bind]. by eexists.
Qed.

Lemma unshare_spec st bs F a c : awf st bs F -> shared st bs a c -> 1 < c ->
  exists st', free a st = Some st' /\ awf st' bs F /\ (forall x n, object st' bs F x n <-> object st bs F x n) /\
    shared st' bs a (c - 1) /\ (forall x k, x <> a -> shared st' bs x k <-> shared st bs x k).
Proof.
  intros Haw Hs Hc. destruct (shared_frame st bs F a c Haw Hs) as (p & o & f & Hb & -> & Hf & <- & _ & _ & Hp & Hin & Hal & Hst).
  rewrite (free_at st bs F p _ f Haw Hp Hin Hf), Hst, Hal. rewrite decide_False, decide_True by done. simpl negb. cbv iota.
  destruct (awf_recount st bs F p o f (fun c => c - 1) Haw Hb Hf ltac:(lia)) as (b' & -> & Hf1 & ? & ? & ? & ?).
  cbn [mbind option_bind]. rewrite Hf1. cbn [mbind option_bind].
  destruct (Z.eqb_spec (cow_ref_count (set_cow_ref_count (cow_ref_count f - 1) f)) 0) as [E |]; [simpl in E; lia |].
  by eexists.
Qed.

Lemma alloc_owns_allocate st m sz : alloc_owns st m -> 0 < sz <= MAX_ALLOC_SIZE ->
  allocate sz st = Some (0, st) \/
  exists p st' n, allocate sz st = Some (p, st') /\ sz <= n /\ m !! p = None /\ alloc_owns st' (<[p := (n, 1)]> m).
Proof.
  intros (bs & F & Haw & Hm) Hs. destruct (decide (sz <= 2048)) as [Hsz | Hsz].
  - destruct (allocate_small_spec st bs F sz Haw) as [[? _] | (p & n & st' & bs' & F' & E & Hn & Ha & Hsh)]; [lia | by left |].
    right. exists p, st', n. split; [done |]. split; [done |]. eapply owns_add; try done.
    + right. split; [done |]. intros c' Hc'%Hsh%(shared_object _ _ F Haw). destruct Hc' as (n' & Ho & _).
      destruct Ha as (_ & _ & Hnew & _). destruct Hnew. by exists n'.
    + intros a c _. unfold refs. by setoid_rewrite Hsh.
  - destruct (allocate_large_spec st bs F sz Haw) as [[? _] | (p & n & st' & bs' & F' & E & Hn & Ha & Hsh)]; [lia | by left |].
    right. exists p, st', n. split; [done |]. split; [done |]. eapply owns_add; try done.
    + left. apply Hsh. by right.
    + intros a c Ha'. unfold refs. setoid_rewrite Hsh. naive_solver.
Qed.

Lemma alloc_owns_free st m p n : alloc_owns st m -> m !! p = Some (n, 1) ->
  exists st', free p st = Some st' /\ alloc_owns st' (delete p m).
Proof.
  intros (bs & F & Haw & Hm) [Ho Hr]%Hm.
  destruct (free_object st bs F p n Haw Ho) as (st' & bs' & F' & E & Haw' & Hob & Hsh).
  { intros c Hc. by apply (refs_functional st bs F Haw p); [left |]. }
  exists st'. split; [done |]. exists bs', F'. split; [done |]. intros a n' c.
  rewrite Hob. unfold refs. setoid_rewrite Hsh. destruct (decide (a = p)) as [-> | Hne].
  - rewrite lookup_delete_eq. naive_solver.
  - rewrite lookup_delete_ne by done. rewrite Hm. unfold refs. naive_solver.
Qed.

(** The allocator keeps the contract its clients rely on: the objects and the
    references to them change as a finite map does, and never overlap. *)
#[export] Program Instance allocator_spec : HeapSpec allocator := { owns := alloc_owns }.
Next Obligation. intros. apply alloc_owns_allocate; assumption. Qed.
Next Obligation. intros. eapply alloc_owns_free; eassumption. Qed.
Next Obligation.
  intros st m p k c (bs & F & Haw & Hm) [Ho Hr]%Hm Hc.
  destruct Hr as [Hs | [-> _]]; [| lia]. destruct (unshare_spec st bs F p c Haw Hs Hc) as (st' & ? & ? & ? & ? & ?).
  exists st'. split; [done |]. by apply (owns_recount st st' bs F m).
Qed.
Next Obligation.
  intros st m p (bs & F & Haw & Hm) Hp E. apply (free_none st bs F p Haw Hp). intros n Ho.
  destruct (refs_total st bs F Haw p n Ho) as [c Hc]. assert (m !! p = Some (n, c)) by (by apply Hm). congruence.
Qed.
Next Obligation.
  intros st m p k c (bs & F & Haw & Hm) [Ho Hr]%Hm Hn.
  destruct (page_shared st bs F Haw p k Ho Hn) as [c' Hs].
  assert (c = c') as <- by (eapply refs_functional; [exact Haw | exact Hr | by left]).
  destruct (share_spec st bs F p c Haw Hs) as (st' & ? & ? & ? & ? & ?).
  exists st'. split; [done |]. by apply (owns_recount st st' bs F m).
Qed.
Next Obligation.
  intros st m p k c (bs & F & Haw & Hm) [Ho Hr]%Hm Hn.
  destruct (page_shared st bs F Haw p k Ho Hn) as [c' Hs].
  assert (c = c') as <- by (eapply refs_functional; [exact Haw | exact Hr | by left]).
  by eapply get_page_ref_spec.
Qed.
Next Obligation.
  intros st m p k c (bs & F & Haw & Hm) [Ho Hr]%Hm.
  destruct (object_bounds st bs F Haw p k Ho) as (? & ? & ? & ?). split_and!; try done. by eapply refs_pos.
Qed.
Next Obligation.
  intros st m p k c p' k' c' (bs & F & Haw & Hm) [Ho _]%Hm [Ho' _]%Hm.
  destruct (objects_apart st bs F p k p' k' Haw Ho Ho') as [[? _] | ?]; [by left | by right].
Qed.
