(* ===== verification/Mmu.v ===== *)
(** * Sv39 page tables: [src/mmu.c]

    The boot tables, the walk that allocates missing levels, mapping, the
    copy-on-write duplication of an address space and its release.  Page tables
    are words of the memory of [Heap], addressed by kernel virtual addresses. *)

From S2P Require Import Prelude Config Heap.

(** ** Constants *)

Definition PGD_SHIFT : Z := 30.
Definition PMD_SHIFT : Z := 21.
Definition PTE_SHIFT : Z := 12.
Definition VPN_MASK : Z := 0x1FF.

Definition PTE_V : Z := Z.shiftl 1 0.
Definition PTE_R : Z := Z.shiftl 1 1.
Definition PTE_W : Z := Z.shiftl 1 2.
Definition PTE_X : Z := Z.shiftl 1 3.
Definition PTE_U : Z := Z.shiftl 1 4.
Definition PTE_G : Z := Z.shiftl 1 5.
Definition PTE_A : Z := Z.shiftl 1 6.
Definition PTE_D : Z := Z.shiftl 1 7.

Definition flags (fs : list Z) : Z := foldr Z.lor 0 fs.
Definition PROT_KERNEL : Z := flags [PTE_V; PTE_R; PTE_W; PTE_X; PTE_G; PTE_A; PTE_D].
Definition PROT_MMIO : Z := flags [PTE_V; PTE_R; PTE_W; PTE_G; PTE_A; PTE_D].

Definition SATP_SV39 : Z := 8 ⋘ 60.
Definition MAKE_SATP (pgd_pa : Z) : Z := Z.lor SATP_SV39 (pgd_pa ⋙ 12).

(** ** Entries *)

Definition vpn2 (va : Z) : Z := Z.land (va ⋙ PGD_SHIFT) VPN_MASK.
Definition vpn1 (va : Z) : Z := Z.land (va ⋙ PMD_SHIFT) VPN_MASK.
Definition vpn0 (va : Z) : Z := Z.land (va ⋙ PTE_SHIFT) VPN_MASK.

Definition has (w f : Z) : bool := negb (Z.land w f =? 0).

(** [((pte >> 10) << 12) + PAGE_OFFSET]: the page an entry points to. *)
Definition pte_page (pte : Z) : Z := ((pte ⋙ 10) ⋘ 12) ⊞ PAGE_OFFSET.

(** [((pg - PAGE_OFFSET) >> 12 << 10) | PTE_V]: the entry of a new table. *)
Definition table_pte (pg : Z) : Z := Z.lor (((pg ⊟ PAGE_OFFSET) ⋙ 12) ⋘ 10) PTE_V.

(** [(pa >> 12 << 10) | prot] *)
Definition leaf_pte (pa prot : Z) : Z := Z.lor ((pa ⋙ 12) ⋘ 10) prot.

(** ** Boot tables *)

(** The four gigapages of the higher half. *)
Definition map_high (boot_pgd i : Z) (m : gmap Z Z) : option (gmap Z Z) :=
  let pa := i ⋘ 30 in
  Some (<[word boot_pgd (vpn2 (PAGE_OFFSET ⊞ pa)) := Z.lor ((pa ⋙ 30) ⋘ 28) PROT_KERNEL]> m).

(** The offset the caller jumps by, the new [satp] and the memory.  [kernel_pa]
    is where the kernel runs, [boot_pgd] the address of its first table. *)
Definition setup_vm (boot_pgd kernel_pa : Z) (m : gmap Z Z) : option (Z * Z * gmap Z Z) :=
  let m := zero_page boot_pgd m in
  let ram_base := Z.land kernel_pa (Z.lxor (2 ^ 64 - 1) ((1 ⋘ PGD_SHIFT) ⊟ 1)) in
  let vpn2_ident := Z.land (ram_base ⋙ PGD_SHIFT) VPN_MASK in
  let m := <[word boot_pgd vpn2_ident := Z.lor ((ram_base ⋙ PGD_SHIFT) ⋘ 28) PROT_KERNEL]> m in
  m ← for_range 4 0 (map_high boot_pgd) m;
  Some (PAGE_OFFSET, MAKE_SATP boot_pgd, m).

Definition drop_identity_map (boot_pgd : Z) (m : gmap Z Z) : option (gmap Z Z) :=
  for_range 256 0 (fun i m => Some (<[word boot_pgd i := 0]> m)) m.

Section Mmu.
Context {H : Type} `{HO : HeapOps H}.
Notation memory := (memory H).

(** ** Walking and mapping *)

(** One level: the table the entry at [slot] points to, allocated on demand.
    The inner [option] is the code's [return 0]. *)
Definition walk_level (alloc : bool) (slot : Z) (vm : memory) : option (option Z * memory) :=
  pte ← mem vm !! slot;
  if negb (has pte PTE_V) then
    if negb alloc then Some (None, vm) else
    '(new_pg, h) ← h_allocate PAGE_SIZE (heap vm);
    let vm := set_heap h vm in
    if new_pg =? 0 then Some (None, vm) else
    let vm := set_mem (<[slot := table_pte new_pg]> (zero_page new_pg (mem vm))) vm in
    pte ← mem vm !! slot; Some (Some (pte_page pte), vm)
  else Some (Some (pte_page pte), vm).

(** The address of the entry of [va]. *)
Definition pagewalk (pgd va : Z) (alloc : bool) (vm : memory) : option (option Z * memory) :=
  '(pmd, vm) ← walk_level alloc (word pgd (vpn2 va)) vm;
  match pmd with
  | None => Some (None, vm)
  | Some pmd =>
      '(pt, vm) ← walk_level alloc (word pmd (vpn1 va)) vm;
      match pt with
      | None => Some (None, vm)
      | Some pt => Some (Some (word pt (vpn0 va)), vm)
      end
  end.

Definition store_pte (pte : option Z) (w : Z) (vm : memory) : memory :=
  match pte with Some a => set_mem (<[a := w]> (mem vm)) vm | None => vm end.

Fixpoint map_loop (fuel : nat) (pgd a end_ pa prot : Z) (vm : memory) : option memory :=
  if a <? end_ then
    match fuel with
    | O => None
    | S fuel =>
        '(pte, vm) ← pagewalk pgd a true vm;
        map_loop fuel pgd (a ⊞ PAGE_SIZE) end_ (pa ⊞ PAGE_SIZE) prot (store_pte pte (leaf_pte pa prot) vm)
    end
  else Some vm.

Definition map_pages_at (pgd va pa size prot : Z) (vm : memory) : option memory :=
  map_loop (Z.to_nat (size / PAGE_SIZE + 1)) pgd va (va ⊞ size) pa prot vm.

(** ** Releasing an address space *)

Definition free_vm (p : Z) (vm : memory) : option memory :=
  h ← h_free p (heap vm); Some (set_heap h vm).

Definition free_leaf (pt k : Z) (vm : memory) : option memory :=
  w ← mem vm !! word pt k; if has w PTE_V then free_vm (pte_page w) vm else Some vm.

Definition free_pt (pmd j : Z) (vm : memory) : option memory :=
  w ← mem vm !! word pmd j;
  if has w PTE_V then
    let pt := pte_page w in vm ← for_range 512 0 (free_leaf pt) vm; free_vm pt vm
  else Some vm.

Definition free_pmd (pgd i : Z) (vm : memory) : option memory :=
  w ← mem vm !! word pgd i;
  if has w PTE_V then
    let pmd := pte_page w in vm ← for_range 512 0 (free_pt pmd) vm; free_vm pmd vm
  else Some vm.

Definition free_pgd (pgd : Z) (vm : memory) : option memory :=
  vm ← for_range 256 0 (free_pmd pgd) vm; free_vm pgd vm.

(** ** Copy-on-write duplication *)

(** A zeroed page from the allocator; None inside when there is none. *)
Definition new_page (vm : memory) : option (option Z * memory) :=
  '(p, h) ← h_allocate PAGE_SIZE (heap vm);
  let vm := set_heap h vm in
  if p =? 0 then Some (None, vm) else Some (Some p, set_mem (zero_page p (mem vm)) vm).

Definition copy_leaf (parent_pt child_pt k : Z) (vm : memory) : option memory :=
  w ← mem vm !! word parent_pt k;
  if has w PTE_V then
    let w' := Z.land w (Z.lxor (2 ^ 64 - 1) PTE_W) in
    let vm := set_mem (<[word child_pt k := w']> (<[word parent_pt k := w']> (mem vm))) vm in
    h ← h_inc_ref (pte_page w) (heap vm); Some (set_heap h vm)
  else Some vm.

(** The boolean is false when a page is missing and the copy stops. *)
Definition copy_pt (parent_pmd child_pmd j : Z) (vm : memory) : option (bool * memory) :=
  w ← mem vm !! word parent_pmd j;
  if has w PTE_V then
    '(child_pt, vm) ← new_page vm;
    match child_pt with
    | None => Some (false, vm)
    | Some child_pt =>
        let vm := set_mem (<[word child_pmd j := table_pte child_pt]> (mem vm)) vm in
        vm ← for_range 512 0 (copy_leaf (pte_page w) child_pt) vm; Some (true, vm)
    end
  else Some (true, vm).

Definition copy_pmd (pgd new_pgd i : Z) (vm : memory) : option (bool * memory) :=
  w ← mem vm !! word pgd i;
  if has w PTE_V then
    '(child_pmd, vm) ← new_page vm;
    match child_pmd with
    | None => Some (false, vm)
    | Some child_pmd =>
        let vm := set_mem (<[word new_pgd i := table_pte child_pmd]> (mem vm)) vm in
        for_until 512 0 (copy_pt (pte_page w) child_pmd) vm
    end
  else Some (true, vm).

Definition copy_entry (src dst i : Z) (m : gmap Z Z) : option (gmap Z Z) :=
  w ← m !! word src i; Some (<[word dst i := w]> m).

(** The kernel half is shared: [new_pgd[i] = pgd[i]] for 256 <= i < 512. *)
Definition copy_kernel_half (src dst : Z) (vm : memory) : option memory :=
  m ← for_range 256 256 (copy_entry src dst) (mem vm); Some (set_mem m vm).

(** The new table, or None for NULL. *)
Definition copy_pgd (pgd : Z) (vm : memory) : option (option Z * memory) :=
  '(new_pgd, vm) ← new_page vm;
  match new_pgd with
  | None => Some (None, vm)
  | Some new_pgd =>
      vm ← copy_kernel_half pgd new_pgd vm;
      '(ok, vm) ← for_until 256 0 (copy_pmd pgd new_pgd) vm;
      if (ok : bool) then Some (Some new_pgd, vm)
      else vm ← free_pgd new_pgd vm; Some (None, vm)
  end.

(** ** The kernel's own tables *)

(** Addresses of the linker script and of the devices. *)
Record layout := Layout {
  l_start : Z; l_text_end : Z; l_rodata_end : Z;
  l_pool_start : Z; l_pool_size : Z; l_uart_base : Z; l_plic_base : Z;
}.

(** [kernel_pgd], the new [satp] and the memory; the writes through an
    unchecked NULL make the outcome None.  This is the build with QEMU. *)
Definition mmu_init (l : layout) (vm : memory) : option (Z * Z * memory) :=
  '(p, vm) ← new_page vm;
  kernel_pgd ← p;
  let kernel_pa := l_start l ⊟ PAGE_OFFSET in
  let ram_pa := l_pool_start l ⊟ PAGE_OFFSET in
  vm ← map_pages_at kernel_pgd (l_pool_start l) ram_pa (l_pool_size l) (flags [PTE_V; PTE_R; PTE_W; PTE_A; PTE_D; PTE_G]) vm;
  let text_size := l_text_end l ⊟ l_start l in
  vm ← map_pages_at kernel_pgd (l_start l) kernel_pa text_size (flags [PTE_V; PTE_R; PTE_X; PTE_A; PTE_G]) vm;
  let rodata_size := l_rodata_end l ⊟ l_text_end l in
  vm ← map_pages_at kernel_pgd (l_text_end l) (kernel_pa ⊞ text_size) rodata_size (flags [PTE_V; PTE_R; PTE_A; PTE_G]) vm;
  vm ← (if l_uart_base l =? 0 then Some vm
        else map_pages_at kernel_pgd (l_uart_base l) (l_uart_base l ⊟ PAGE_OFFSET) PAGE_SIZE PROT_MMIO vm);
  vm ← (if l_plic_base l =? 0 then Some vm
        else map_pages_at kernel_pgd (l_plic_base l) (l_plic_base l ⊟ PAGE_OFFSET) 0x400000 PROT_MMIO vm);
  vm ← map_pages_at kernel_pgd (0x10100000 ⊞ PAGE_OFFSET) 0x10100000 PAGE_SIZE PROT_MMIO vm;
  vm ← map_pages_at kernel_pgd (0x87000000 ⊞ PAGE_OFFSET) 0x87000000 0x800000 PROT_MMIO vm;
  Some (kernel_pgd, MAKE_SATP (kernel_pgd ⊟ PAGE_OFFSET), vm).

End Mmu.
