(* ===== verification/MmuProofs.v ===== *)
(** * Page tables as finite maps

    The tree of the tables of an address space, the invariant that ties it to
    the words of memory, and what a walk and a store do to it. *)

From S2P Require Import Prelude Config Heap Mmu.

(** ** Entries *)

Lemma lor_low x n f : 0 <= n -> 0 <= f < 2 ^ n -> Z.lor (x * 2 ^ n) f = x * 2 ^ n + f.
Proof.
  intros Hn Hf. symmetry. apply Z.add_nocarry_lor. rewrite <- Z.shiftl_mul_pow2 by done.
  apply Z.bits_inj'. intros i Hi. rewrite Z.land_spec, Z.bits_0.
  destruct (Z.lt_ge_cases i n).
  - by rewrite Z.shiftl_spec_low.
  - rewrite andb_comm. assert (Z.testbit f i = false) as ->; [| done].
    rewrite <- (Z.mod_small f (2 ^ n)) by done. by apply Z.mod_pow2_bits_high.
Qed.

(** An entry with frame number [x] and flags [f]. *)
Definition entry (x f : Z) : Z := x * 1024 + f.

Lemma leaf_pte_entry pa prot : 0 <= pa < 2 ^ 64 -> 0 <= prot < 1024 -> leaf_pte pa prot = entry (pa / 4096) prot.
Proof.
  intros Hpa Hp. unfold leaf_pte, entry. rewrite Z.shiftr_div_pow2, Z.shiftl_mul_pow2 by done.
  change (2 ^ 12) with 4096. rewrite u64_small by (change (2 ^ 10) with 1024; dlia). by apply (lor_low _ 10).
Qed.

Lemma pte_page_entry x f : 0 <= x < 2 ^ 52 -> 0 <= f < 1024 -> pte_page (entry x f) = (x * 4096) ⊞ PAGE_OFFSET.
Proof.
  intros Hx Hf. unfold pte_page, entry. rewrite Z.shiftr_div_pow2, Z.shiftl_mul_pow2 by done.
  change (2 ^ 10) with 1024. change (2 ^ 12) with 4096. rewrite Z.div_add_l, (Z.div_small f), Z.add_0_r by lia.
  by rewrite (u64_small (x * 4096)) by lia.
Qed.

Lemma has_entry x f b : 0 <= f < 1024 -> Z.land b 1023 = b -> has (entry x f) b = has f b.
Proof.
  intros Hf Hb. unfold has, entry. do 2 f_equal. rewrite <- Hb, (Z.land_comm b), !Z.land_assoc.
  change 1023 with (2 ^ 10 - 1). rewrite !(land_mask _ 10) by lia. change (2 ^ 10) with 1024. f_equal.
  by rewrite Z.add_comm, Z_mod_plus_full.
Qed.

Lemma table_pte_entry pg : (PAGE_SIZE | pg) -> 0 <= pg < 2 ^ 64 ->
  table_pte pg = entry ((pg ⊟ PAGE_OFFSET) / 4096) 1 /\ pte_page (table_pte pg) = pg /\ has (table_pte pg) PTE_V = true.
Proof.
  intros [q Hq] Hp. rewrite PAGE_SIZE_val in Hq. pose proof (u64_range (pg - PAGE_OFFSET)) as Hr.
  assert (E : table_pte pg = entry ((pg ⊟ PAGE_OFFSET) / 4096) 1).
  { unfold table_pte. change PTE_V with 1. fold (leaf_pte (pg ⊟ PAGE_OFFSET) 1). apply leaf_pte_entry; [exact Hr | lia]. }
  split; [done |]. rewrite E. split; [| by rewrite has_entry].
  rewrite pte_page_entry by dlia.
  replace ((pg ⊟ PAGE_OFFSET) / 4096 * 4096) with (pg ⊟ PAGE_OFFSET).
  - unfold u64. rewrite Zplus_mod_idemp_l. rewrite Z.mod_small; lia.
  - unfold u64, PAGE_OFFSET in *. dlia.
Qed.

(** ** Virtual page numbers *)

Definition vpn (va : Z) : Z := (va / 4096) mod 2 ^ 27.

Lemma vpn_split va : 0 <= va -> vpn2 va = va / 2 ^ 30 mod 512 /\ vpn1 va = va / 2 ^ 21 mod 512 /\ vpn0 va = va / 2 ^ 12 mod 512.
Proof.
  intros. unfold vpn2, vpn1, vpn0, VPN_MASK, PGD_SHIFT, PMD_SHIFT, PTE_SHIFT.
  change 0x1FF with (2 ^ 9 - 1). rewrite !land_mask by lia. rewrite !Z.shiftr_div_pow2 by lia. done.
Qed.

Lemma vpn_range va : 0 <= va -> 0 <= vpn2 va < 512 /\ 0 <= vpn1 va < 512 /\ 0 <= vpn0 va < 512.
Proof. intros Hv. destruct (vpn_split va Hv) as (-> & -> & ->). split_and!; apply Z.mod_pos_bound; lia. Qed.

Lemma vpn_eq va va' : 0 <= va -> 0 <= va' ->
  vpn va = vpn va' <-> vpn2 va = vpn2 va' /\ vpn1 va = vpn1 va' /\ vpn0 va = vpn0 va'.
Proof.
  intros Hv Hv'. destruct (vpn_split va Hv) as (-> & -> & ->), (vpn_split va' Hv') as (-> & -> & ->).
  unfold vpn. change (2 ^ 12) with 4096. change (2 ^ 27) with (512 * 512 * 512).
  replace (2 ^ 21) with (4096 * 512) by done. replace (2 ^ 30) with (4096 * 512 * 512) by done.
  rewrite <- !Z.div_div by lia. generalize (va / 4096) (va' / 4096). intros a b. split.
  - intros E. split_and!; dlia.
  - intros (E2 & E1 & E0). dlia.
Qed.

(** Sv39 addresses are sign-extended from bit 38. *)
Definition canonical (va : Z) : Prop := 0 <= va < 2 ^ 38 \/ 2 ^ 64 - 2 ^ 38 <= va < 2 ^ 64.

Lemma canonical_nonneg va : canonical va -> 0 <= va.
Proof. unfold canonical. lia. Qed.

Lemma canonical_vpn a b : canonical a -> canonical b -> vpn a = vpn b -> a / 4096 = b / 4096.
Proof.
  unfold canonical, vpn. change (2 ^ 64) with 18446744073709551616. change (2 ^ 38) with 274877906944.
  change (2 ^ 27) with 134217728. dlia.
Qed.

(** ** The hardware walk *)

(** The walk of the privileged architecture: the physical address and the flags
    of the leaf, None for a page fault.  Tables are read through the kernel's
    linear map. *)
Definition is_leaf (w : Z) : bool := has w PTE_R || has w PTE_X.

Definition leaf_at (shift w va : Z) : option (Z * Z) :=
  Some (w / 1024 mod 2 ^ 44 * 4096 + va mod 2 ^ shift, w mod 1024).

Definition sv39 (m : gmap Z Z) (pgd va : Z) : option (Z * Z) :=
  w2 ← m !! word pgd (vpn2 va);
  if negb (has w2 PTE_V) then None
  else if is_leaf w2 then (if w2 / 1024 mod 2 ^ 18 =? 0 then leaf_at 30 w2 va else None)
  else
    w1 ← m !! word (pte_page w2) (vpn1 va);
    if negb (has w1 PTE_V) then None
    else if is_leaf w1 then (if w1 / 1024 mod 2 ^ 9 =? 0 then leaf_at 21 w1 va else None)
    else
      w0 ← m !! word (pte_page w1) (vpn0 va);
      if has w0 PTE_V && is_leaf w0 then leaf_at 12 w0 va else None.

(** ** The tree of tables *)

(** [T] gives the page of the table at each path of indices from the root. *)
Notation tables := (gmap (list Z) Z).

Record pt_ok (m : gmap Z Z) (pgd : Z) (T : tables) : Prop := {
  pt_root : T !! [] = Some pgd;
  pt_page p q : T !! p = Some q -> (PAGE_SIZE | q) /\ 0 < q /\ q + PAGE_SIZE <= 2 ^ 64;
  pt_inj p p' q : T !! p = Some q -> T !! p' = Some q -> p = p';
  pt_path p i q : T !! (p ++ [i]) = Some q -> is_Some (T !! p) /\ 0 <= i < 512 /\ (length p < 2)%nat;
  pt_entry p q i : T !! p = Some q -> 0 <= i < 512 -> (length p < 2)%nat ->
    match T !! (p ++ [i]) with
    | Some q' => m !! word q i = Some (table_pte q')
    | None => exists w, m !! word q i = Some w /\ has w PTE_V = false
    end;
  pt_leaf p q i : T !! p = Some q -> length p = 2%nat -> 0 <= i < 512 -> is_Some (m !! word q i);
}.

(** The entry of [va], 0 when its table is missing. *)
Definition pte_of (m : gmap Z Z) (T : tables) (va : Z) : Z :=
  match T !! [vpn2 va; vpn1 va] with
  | Some pt => default 0 (m !! word pt (vpn0 va))
  | None => 0
  end.

(** Every table is a live page of the allocator. *)
Definition tables_live (T : tables) (mm : gmap Z (Z * Z)) : Prop :=
  forall p q, T !! p = Some q -> exists n c, mm !! q = Some (n, c) /\ PAGE_SIZE <= n.

Lemma pt_word m pgd T p q i p' q' i' : pt_ok m pgd T -> T !! p = Some q -> T !! p' = Some q' ->
  0 <= i < 512 -> 0 <= i' < 512 -> word q i = word q' i' -> p = p' /\ i = i'.
Proof.
  intros Hok Hp Hp' Hi Hi' E. destruct (pt_page _ _ _ Hok p q Hp) as [[a Ha] _], (pt_page _ _ _ Hok p' q' Hp') as [[b Hb] _].
  rewrite PAGE_SIZE_val in *. unfold word in E. assert (q = q') as -> by lia. split; [by eapply pt_inj | lia].
Qed.

(** The hardware sees what [pte_of] says. *)
Definition decode (w va : Z) : option (Z * Z) := if has w PTE_V && is_leaf w then leaf_at 12 w va else None.

Lemma decode_0 va : decode 0 va = None.
Proof. done. Qed.

Lemma table_not_leaf q : (PAGE_SIZE | q) -> 0 < q -> q + PAGE_SIZE <= 2 ^ 64 ->
  has (table_pte q) PTE_V = true /\ is_leaf (table_pte q) = false /\ pte_page (table_pte q) = q.
Proof.
  intros Hd Hq He. rewrite PAGE_SIZE_val in He. destruct (table_pte_entry q Hd) as (E & Hp & Hv); [lia |].
  split_and!; [done | | done]. unfold is_leaf. rewrite E, !has_entry by (done || lia). done.
Qed.

Lemma sv39_pte_of m pgd T va : pt_ok m pgd T -> 0 <= va -> sv39 m pgd va = decode (pte_of m T va) va.
Proof.
  intros Hok Hva. destruct (vpn_range va Hva) as (H2 & H1 & H0). unfold sv39, pte_of.
  pose proof (pt_entry _ _ _ Hok [] pgd (vpn2 va) (pt_root _ _ _ Hok) H2 ltac:(simpl; lia)) as E2. cbn [app] in E2.
  destruct (T !! [vpn2 va]) as [pmd |] eqn:T2.
  2: { destruct E2 as (w & -> & Hw). cbn [mbind option_bind]. rewrite Hw.
       destruct (T !! [vpn2 va; vpn1 va]) eqn:T1; [| done].
       destruct (pt_path _ _ _ Hok [vpn2 va] (vpn1 va) _ T1) as [[? ?] _]. congruence. }
  rewrite E2. cbn [mbind option_bind].
  destruct (pt_page _ _ _ Hok _ _ T2) as (? & ? & ?). destruct (table_not_leaf pmd) as (-> & -> & ->); [done .. |].
  pose proof (pt_entry _ _ _ Hok [vpn2 va] pmd (vpn1 va) T2 H1 ltac:(simpl; lia)) as E1. cbn [app] in E1.
  destruct (T !! [vpn2 va; vpn1 va]) as [pt |] eqn:T1.
  2: { destruct E1 as (w & -> & Hw). cbn [mbind option_bind negb]. by rewrite Hw. }
  rewrite E1. cbn [mbind option_bind negb].
  destruct (pt_page _ _ _ Hok _ _ T1) as (? & ? & ?). destruct (table_not_leaf pt) as (-> & -> & ->); [done .. |].
  destruct (pt_leaf _ _ _ Hok _ pt (vpn0 va) T1 eq_refl H0) as [w ->]. done.
Qed.

(** ** Walking with allocation *)

Section Walk.
Context {H : Type} {HO : HeapOps H} {HS : HeapSpec H}.
Implicit Types (vm : memory H) (mm : gmap Z (Z * Z)) (T : tables).

(** Outside the tables. *)
Definition off_tables T (a : Z) : Prop := forall p q, T !! p = Some q -> ~ q <= a < q + PAGE_SIZE.

Lemma off_tables_mono T T' a : T ⊆ T' -> off_tables T' a -> off_tables T a.
Proof. intros Hs Ho p q Hq. eapply Ho. by eapply lookup_weaken. Qed.

(** A table that was not there is an object that was not live. *)
Definition fresh_tables T mm T' : Prop := forall p q, T' !! p = Some q -> T !! p = Some q \/ mm !! q = None.

Lemma fresh_tables_trans T1 mm1 T2 mm2 T3 : mm1 ⊆ mm2 -> fresh_tables T1 mm1 T2 -> fresh_tables T2 mm2 T3 -> fresh_tables T1 mm1 T3.
Proof. intros Hm H1 H2 p q Hq. destruct (H2 p q Hq) as [Hq' | Hq']; [by apply H1 | right]. by eapply lookup_weaken_None. Qed.

(** The allocator has no page left: it answers 0 and stays as it is. *)
Definition no_page (h : H) : Prop := h_allocate PAGE_SIZE h = Some (0, h).

(** The tables grow, nothing is unmapped, no other word changes; an allocator
    that has no page left is not changed. *)
Record grown (pgd : Z) vm mm T vm' mm' T' : Prop := {
  gr_owns : owns (heap vm') mm';
  gr_ok : pt_ok (mem vm') pgd T';
  gr_live : tables_live T' mm';
  gr_tables : T ⊆ T';
  gr_heap : mm ⊆ mm';
  gr_pte va : 0 <= va -> pte_of (mem vm') T' va = pte_of (mem vm) T va;
  gr_frame a : off_tables T' a -> mem vm' !! a = mem vm !! a;
  gr_new : fresh_tables T mm T';
  gr_full : no_page (heap vm) -> heap vm' = heap vm;
}.

Lemma grown_refl pgd vm mm T : owns (heap vm) mm -> pt_ok (mem vm) pgd T -> tables_live T mm -> grown pgd vm mm T vm mm T.
Proof. split; try done. by left. Qed.

Lemma grown_trans pgd vm1 mm1 T1 vm2 mm2 T2 vm3 mm3 T3 :
  grown pgd vm1 mm1 T1 vm2 mm2 T2 -> grown pgd vm2 mm2 T2 vm3 mm3 T3 -> grown pgd vm1 mm1 T1 vm3 mm3 T3.
Proof.
  intros [_ _ _ HT HM Hpte Hfr Hnew Hfull] [Ho Hok Hl HT' HM' Hpte' Hfr' Hnew' Hfull'].
  split; try done; [by etrans | by etrans | | | by eapply fresh_tables_trans |].
  - intros va Hva. by rewrite Hpte', Hpte.
  - intros a Ha. rewrite Hfr' by done. apply Hfr. by eapply off_tables_mono.
  - intros Hn. pose proof (Hfull Hn) as E. rewrite Hfull'; [done | by rewrite E].
Qed.

(** A new table below the entry [i] of the table [q]: the facts that keep the
    invariant. *)
Section NewTable.
  Context (m : gmap Z Z) (pgd : Z) (T : tables) (p : list Z) (q i new : Z).
  Hypothesis Hok : pt_ok m pgd T.
  Hypothesis Hq : T !! p = Some q.
  Hypothesis Hi : 0 <= i < 512.
  Hypothesis Hp : (length p < 2)%nat.
  Hypothesis Hnone : T !! (p ++ [i]) = None.
  Hypothesis Hpage : (PAGE_SIZE | new) /\ 0 < new /\ new + PAGE_SIZE <= 2 ^ 64.
  Hypothesis Hfresh : forall p' q', T !! p' = Some q' -> new + PAGE_SIZE <= q' \/ q' + PAGE_SIZE <= new.

Let m' := <[word q i := table_pte new]> (zero_page new m).
Let T' := <[p ++ [i] := new]> T.

Lemma new_table_out p' q' j : T !! p' = Some q' -> 0 <= j < 512 -> (p', j) <> (p, i) -> m' !! word q' j = m !! word q' j.
Proof.
  intros Hq' Hj Hne. unfold m'. rewrite lookup_insert_ne.
  - apply zero_page_out. pose proof (Hfresh p' q' Hq'). unfold word. rewrite PAGE_SIZE_val in *. lia.
  - intros E. destruct (pt_word _ _ _ _ _ _ _ _ _ Hok Hq Hq' Hi Hj E) as [-> ->]. done.
Qed.

Lemma new_table_in j : 0 <= j < 512 -> m' !! word new j = Some 0.
Proof.
  intros Hj. unfold m'. rewrite lookup_insert_ne; [by apply zero_page_in |].
  pose proof (Hfresh p q Hq). unfold word. rewrite PAGE_SIZE_val in *. lia.
Qed.

Lemma new_table_path p' : p' <> p ++ [i] -> T' !! p' = T !! p'.
Proof. intros ?. by apply lookup_insert_ne. Qed.

Lemma new_table_below j : T' !! ((p ++ [i]) ++ [j]) = None.
Proof.
  rewrite new_table_path by (intros E; apply (f_equal length) in E; rewrite !length_app in E; simpl in E; lia).
  destruct (T !! ((p ++ [i]) ++ [j])) eqn:E; [| done].
  destruct (pt_path _ _ _ Hok _ _ _ E) as [[? ?] _]. congruence.
Qed.

Lemma new_table_ok : pt_ok m' pgd T'.
Proof.
  assert (Hinj : forall p' q', T !! p' = Some q' -> q' <> new).
  { intros p' q' Hq' ->. pose proof (Hfresh _ _ Hq'). rewrite PAGE_SIZE_val in *. lia. }
  split.
  - rewrite new_table_path; [apply Hok | by destruct p].
  - intros p' q'. unfold T'. destruct (decide (p' = p ++ [i])) as [-> | Hne].
    + rewrite lookup_insert_eq. by intros [= <-].
    + rewrite lookup_insert_ne by done. apply Hok.
  - intros p1 p2 q'. unfold T'. destruct (decide (p1 = p ++ [i])) as [-> | H1], (decide (p2 = p ++ [i])) as [-> | H2];
      [done | | |]; rewrite ?lookup_insert_eq, ?lookup_insert_ne by done.
    + intros [= <-] H3. by destruct (Hinj _ _ H3).
    + intros H3 [= <-]. by destruct (Hinj _ _ H3).
    + apply Hok.
  - intros p' j q' Hq'. destruct (decide (p' ++ [j] = p ++ [i])) as [E | Hne].
    + apply app_inj_tail in E as [-> ->]. split_and!; [| lia | lia | done].
      rewrite new_table_path; [by eexists |]. intros E. apply (f_equal length) in E. rewrite length_app in E. simpl in E. lia.
    + rewrite new_table_path in Hq' by done. destruct (pt_path _ _ _ Hok _ _ _ Hq') as ([q1 Hq1] & ? & ?).
      split_and!; try lia. unfold T'. destruct (decide (p' = p ++ [i])) as [-> |]; [by rewrite lookup_insert_eq |].
      rewrite lookup_insert_ne by done. by exists q1.
  - intros p' q' j Hq' Hj Hl. destruct (decide (p' = p ++ [i])) as [-> | Hne].
    + rewrite new_table_below. unfold T' in Hq'. rewrite lookup_insert_eq in Hq'. injection Hq' as <-.
      exists 0. by rewrite new_table_in.
    + rewrite new_table_path in Hq' by done. destruct (decide ((p', j) = (p, i))) as [[= -> ->] | Hpj].
      * unfold T'. rewrite lookup_insert_eq. rewrite Hq in Hq'. injection Hq' as <-. unfold m'. by rewrite lookup_insert_eq.
      * rewrite new_table_path by (intros E; apply app_inj_tail in E as [-> ->]; done).
        rewrite (new_table_out p' q' j Hq' Hj Hpj). by apply Hok.
  - intros p' q' j Hq' Hl Hj. destruct (decide (p' = p ++ [i])) as [-> | Hne].
    + unfold T' in Hq'. rewrite lookup_insert_eq in Hq'. injection Hq' as <-. rewrite new_table_in by done. by eexists.
    + rewrite new_table_path in Hq' by done. rewrite (new_table_out p' q' j Hq' Hj) by (intros [= -> ->]; lia).
      by eapply pt_leaf.
Qed.

Lemma new_table_pte va : 0 <= va -> pte_of m' T' va = pte_of m T va.
Proof.
  intros Hva. destruct (vpn_range va Hva) as (_ & _ & H0). unfold pte_of.
  destruct (decide ([vpn2 va; vpn1 va] = p ++ [i])) as [E | Hne].
  - rewrite E, Hnone. unfold T'. rewrite lookup_insert_eq. by rewrite new_table_in.
  - rewrite new_table_path by done. destruct (T !! [vpn2 va; vpn1 va]) as [pt |] eqn:Ept; [| done].
    rewrite (new_table_out _ _ _ Ept H0); [done |]. intros [= <- _]. simpl in Hp. lia.
Qed.

End NewTable.

Lemma walk_level_ok pgd vm mm T p q i :
  owns (heap vm) mm -> pt_ok (mem vm) pgd T -> tables_live T mm ->
  T !! p = Some q -> 0 <= i < 512 -> (length p < 2)%nat ->
  exists vm' T' mm', walk_level true (word q i) vm = Some (T' !! (p ++ [i]), vm') /\ grown pgd vm mm T vm' mm' T' /\
    (T' !! (p ++ [i]) = None -> no_page (heap vm')).
Proof.
  intros Ho Hok Hl Hq Hi Hp. unfold walk_level. pose proof (pt_entry _ _ _ Hok p q i Hq Hi Hp) as He.
  destruct (T !! (p ++ [i])) as [q' |] eqn:Eq'.
  - rewrite He. cbn [mbind option_bind]. destruct (pt_page _ _ _ Hok _ _ Eq') as (Hd & Hq0 & Hend).
    destruct (table_not_leaf q' Hd Hq0 Hend) as (-> & _ & ->). simpl negb. cbv iota.
    exists vm, T, mm. rewrite Eq'. split_and!; [done | by apply grown_refl | done].
  - destruct He as (w & -> & Hw). cbn [mbind option_bind]. rewrite Hw. simpl negb. cbv iota.
    destruct (owns_allocate _ _ PAGE_SIZE Ho) as [E | (new & h' & n & E & Hn & Hnew & Ho')]; [done | |];
      rewrite E; cbn [mbind option_bind].
    + exists vm, T, mm. rewrite Eq'. split_and!; [by destruct vm | by apply grown_refl | done].
    + destruct (owns_bounds _ _ new n 1 Ho') as (H0 & _ & Hend & _ & Hal); [by rewrite lookup_insert_eq |].
      destruct (Z.eqb_spec new 0); [lia |]. cbn [mem set_mem set_heap]. rewrite lookup_insert_eq. cbn [mbind option_bind].
      assert (Hpage : (PAGE_SIZE | new) /\ 0 < new /\ new + PAGE_SIZE <= 2 ^ 64) by (split_and!; [by apply Hal | done | lia]).
      destruct (table_not_leaf new) as (_ & _ & ->); try apply Hpage.
      assert (Hfresh : forall p' q', T !! p' = Some q' -> new + PAGE_SIZE <= q' \/ q' + PAGE_SIZE <= new).
      { intros p' q' Hq'. destruct (Hl _ _ Hq') as (n' & c & Hc & Hn'). assert (q' <> new) by (intros ->; congruence).
        destruct (owns_apart h' _ new n 1 q' n' c Ho') as [? | ?]; [by rewrite lookup_insert_eq | by rewrite lookup_insert_ne | done | lia]. }
      eexists _, (<[p ++ [i] := new]> T), _. rewrite lookup_insert_eq. split; [done |]. split; [| done].
      split; cbn [heap mem set_mem set_heap]; [exact Ho' | by apply new_table_ok | | by apply insert_subseteq | by apply insert_subseteq | intros va ?; by apply (new_table_pte _ pgd) | | |].
      4: { unfold no_page. rewrite E. intros [= -> _]. lia. }
      { intros p' q'. destruct (decide (p' = p ++ [i])) as [-> | Hne].
      * rewrite lookup_insert_eq. intros [= <-]. exists n, 1. by rewrite lookup_insert_eq.
      * rewrite lookup_insert_ne by done. intros Hq'. destruct (Hl _ _ Hq') as (n' & c & Hc & Hn'). exists n', c.
        rewrite lookup_insert_ne by (intros ->; congruence). done.
      }
      2: { intros p' q'. destruct (decide (p' = p ++ [i])) as [-> | Hne]; [rewrite lookup_insert_eq; intros [= <-]; by right | rewrite lookup_insert_ne by done; by left]. }
      intros a Ha. pose proof (Ha (p ++ [i]) new) as Hn1. rewrite lookup_insert_eq in Hn1. specialize (Hn1 eq_refl).
      pose proof (Ha p q) as Hn2. rewrite lookup_insert_ne in Hn2 by (intros Ep; apply (f_equal length) in Ep; rewrite length_app in Ep; simpl in Ep; lia).
      specialize (Hn2 Hq). rewrite lookup_insert_ne by (unfold word; rewrite PAGE_SIZE_val in *; lia). by apply zero_page_out.
Qed.

Lemma pagewalk_ok pgd vm mm T va :
  owns (heap vm) mm -> pt_ok (mem vm) pgd T -> tables_live T mm -> 0 <= va ->
  exists vm' T' mm', pagewalk pgd va true vm = Some ((fun pt => word pt (vpn0 va)) <$> T' !! [vpn2 va; vpn1 va], vm') /\
    grown pgd vm mm T vm' mm' T' /\ (T' !! [vpn2 va; vpn1 va] = None -> no_page (heap vm')).
Proof.
  intros Ho Hok Hl Hva. destruct (vpn_range va Hva) as (H2 & H1 & H0). unfold pagewalk.
  destruct (walk_level_ok pgd vm mm T [] pgd (vpn2 va) Ho Hok Hl (pt_root _ _ _ Hok) H2 ltac:(simpl; lia))
    as (vm1 & T1 & mm1 & -> & G1 & Hf1). cbn [mbind option_bind app].
  destruct (T1 !! [vpn2 va]) as [pmd |] eqn:E1.
  - destruct (walk_level_ok pgd vm1 mm1 T1 [vpn2 va] pmd (vpn1 va) (gr_owns _ _ _ _ _ _ _ G1) (gr_ok _ _ _ _ _ _ _ G1)
      (gr_live _ _ _ _ _ _ _ G1) E1 H1 ltac:(simpl; lia)) as (vm2 & T2 & mm2 & -> & G2 & Hf2).
    cbn [mbind option_bind app]. exists vm2, T2, mm2. split_and!; [by destruct (T2 !! _) | by eapply grown_trans | exact Hf2].
  - exists vm1, T1, mm1. split_and!; [| done | intros _; by apply Hf1].
    destruct (T1 !! [vpn2 va; vpn1 va]) eqn:E; [| done].
    destruct (pt_path _ _ _ (gr_ok _ _ _ _ _ _ _ G1) [vpn2 va] _ _ E) as [[? ?] _]. congruence.
Qed.

(** ** Storing a leaf *)

Lemma store_leaf_ok pgd m T va pt w :
  pt_ok m pgd T -> T !! [vpn2 va; vpn1 va] = Some pt -> 0 <= va ->
  pt_ok (<[word pt (vpn0 va) := w]> m) pgd T /\
  pte_of (<[word pt (vpn0 va) := w]> m) T va = w /\
  (forall va', 0 <= va' -> vpn va' <> vpn va -> pte_of (<[word pt (vpn0 va) := w]> m) T va' = pte_of m T va').
Proof.
  intros Hok Hpt Hva. destruct (vpn_range va Hva) as (_ & _ & H0).
  assert (Hout : forall p q i, T !! p = Some q -> 0 <= i < 512 -> (p, i) <> ([vpn2 va; vpn1 va], vpn0 va) ->
    <[word pt (vpn0 va) := w]> m !! word q i = m !! word q i).
  { intros p q i Hq Hi Hne. apply lookup_insert_ne. intros E.
    destruct (pt_word _ _ _ _ _ _ _ _ _ Hok Hpt Hq H0 Hi E) as [<- <-]. done. }
  split_and!.
  - split; try apply Hok.
    + intros p q i Hq Hi Hl. pose proof (pt_entry _ _ _ Hok p q i Hq Hi Hl) as He.
      rewrite (Hout p q i Hq Hi); [done |]. intros [= -> _]. simpl in Hl. lia.
    + intros p q i Hq Hl Hi. destruct (decide ((p, i) = ([vpn2 va; vpn1 va], vpn0 va))) as [[= -> ->] | Hne].
      * rewrite Hpt in Hq. injection Hq as <-. rewrite lookup_insert_eq. by eexists.
      * rewrite (Hout p q i Hq Hi Hne). by eapply pt_leaf.
  - unfold pte_of. by rewrite Hpt, lookup_insert_eq.
  - intros va' Hva' Hne. unfold pte_of. destruct (T !! [vpn2 va'; vpn1 va']) as [pt' |] eqn:E; [| done].
    rewrite (Hout _ _ _ E); [done | by apply vpn_range |]. intros [= E2 E1 E0]. apply Hne. by apply vpn_eq.
Qed.

(** ** Walking without allocation, and words outside the tables *)

Lemma walk_level_find pgd vm T p q i : pt_ok (mem vm) pgd T -> T !! p = Some q -> 0 <= i < 512 -> (length p < 2)%nat ->
  walk_level false (word q i) vm = Some (T !! (p ++ [i]), vm).
Proof.
  intros Hok Hq Hi Hp. unfold walk_level. pose proof (pt_entry _ _ _ Hok p q i Hq Hi Hp) as He.
  destruct (T !! (p ++ [i])) as [q' |] eqn:Eq'.
  - rewrite He. cbn [mbind option_bind]. destruct (pt_page _ _ _ Hok _ _ Eq') as (Hd & Hq0 & Hend).
    destruct (table_not_leaf q' Hd Hq0 Hend) as (-> & _ & ->). done.
  - destruct He as (w & -> & Hw). cbn [mbind option_bind]. by rewrite Hw.
Qed.

Lemma pagewalk_find pgd vm T va : pt_ok (mem vm) pgd T -> 0 <= va ->
  pagewalk pgd va false vm = Some ((fun pt => word pt (vpn0 va)) <$> T !! [vpn2 va; vpn1 va], vm).
Proof.
  intros Hok Hva. destruct (vpn_range va Hva) as (H2 & H1 & _). unfold pagewalk.
  rewrite (walk_level_find pgd vm T [] pgd) by (done || apply Hok || simpl; lia). cbn [mbind option_bind app].
  destruct (T !! [vpn2 va]) as [pmd |] eqn:E.
  - rewrite (walk_level_find pgd vm T [vpn2 va] pmd) by (done || simpl; lia). cbn [mbind option_bind app]. by destruct (T !! [vpn2 va; vpn1 va]).
  - destruct (T !! [vpn2 va; vpn1 va]) as [pt |] eqn:E'; [| done].
    destruct (pt_path _ _ _ Hok [vpn2 va] (vpn1 va) pt E') as [[x Hx] _]. congruence.
Qed.

Lemma pt_ok_frame m m' pgd T : pt_ok m pgd T ->
  (forall p q i, T !! p = Some q -> 0 <= i < 512 -> m' !! word q i = m !! word q i) ->
  pt_ok m' pgd T /\ forall va, 0 <= va -> pte_of m' T va = pte_of m T va.
Proof.
  intros Hok Hm. split.
  - split; try apply Hok.
    + intros p q i Hq Hi Hl. rewrite (Hm p q i) by done. by apply Hok.
    + intros p q i Hq Hl Hi. rewrite (Hm p q i) by done. by eapply pt_leaf.
  - intros va Hva. unfold pte_of. destruct (T !! _) as [pt |] eqn:E; [| done]. rewrite (Hm _ pt) by (done || apply (vpn_range va Hva)). done.
Qed.

(** A live object that is no table lies outside of them. *)
Lemma object_off_tables h mm T p n c : owns h mm -> tables_live T mm -> mm !! p = Some (n, c) -> (forall q p', T !! p' = Some q -> q <> p) ->
  forall a, p <= a < p + n -> off_tables T a.
Proof.
  intros Ho Hl Hp Hne a Ha p' q Hq Hin. destruct (Hl _ _ Hq) as (n' & c' & Hq' & Hn').
  destruct (owns_apart _ _ _ _ _ _ _ _ Ho Hp Hq') as [E | [? | ?]]; [by apply (Hne q p') | lia | lia].
Qed.

End Walk.
