(* ===== verification/MmuProps.v ===== *)
(** * Properties of the page tables: what the hardware walk finds *)

From S2P Require Import Prelude Config Allocator AllocHeap AllocProps Heap HeapInst Mmu MmuProofs.

(** ** Mapping a range *)

Section Map.
Context {H : Type} {HO : HeapOps H} {HS : HeapSpec H}.
Implicit Types (vm : memory H) (mm : gmap Z (Z * Z)) (T : tables).

Definition page_in (a e va : Z) : Prop := exists k, 0 <= k /\ a + 4096 * k < e /\ vpn va = vpn (a + 4096 * k).

Lemma map_loop_ok fuel pgd vm mm T a e pa prot :
  owns (heap vm) mm -> pt_ok (mem vm) pgd T -> tables_live T mm ->
  0 <= a -> e + 4096 <= 2 ^ 64 -> e <= a + 4096 * Z.of_nat fuel -> (forall x, a <= x < e -> canonical x) ->
  0 <= pa -> pa + (e - a) + 4096 <= 2 ^ 64 ->
  exists vm' T' mm', map_loop fuel pgd a e pa prot vm = Some vm' /\
    owns (heap vm') mm' /\ pt_ok (mem vm') pgd T' /\ tables_live T' mm' /\ T ⊆ T' /\ mm ⊆ mm' /\ fresh_tables T mm T' /\
    (forall a, off_tables T' a -> mem vm' !! a = mem vm !! a) /\ (no_page (heap vm) -> heap vm' = heap vm) /\
    (forall va, 0 <= va -> ~ page_in a e va -> pte_of (mem vm') T' va = pte_of (mem vm) T va) /\
    (forall k, 0 <= k -> a + 4096 * k < e ->
       pte_of (mem vm') T' (a + 4096 * k) = leaf_pte (pa + 4096 * k) prot \/
       (pte_of (mem vm') T' (a + 4096 * k) = 0 /\ T !! [vpn2 (a + 4096 * k); vpn1 (a + 4096 * k)] = None /\ no_page (heap vm'))).
Proof.
  revert vm mm T a pa. induction fuel as [| fuel IH]; intros vm mm T a pa Ho Hok Hl Ha He Hf Hc Hpa Hpe; simpl map_loop;
    (destruct (Z.ltb_spec a e); [| exists vm, T, mm; split_and!; try done; [by left | lia ..]]); [lia |].
  destruct (pagewalk_ok pgd vm mm T a Ho Hok Hl Ha) as (vm1 & T1 & mm1 & -> & [Ho1 Hok1 Hl1 HT1 HM1 Hpte1 Hfr1 Hnew1 Hfull1] & Hno1).
  cbn [mbind option_bind]. rewrite (u64_small (a + _)), (u64_small (pa + _)) by (rewrite PAGE_SIZE_val; lia).
  rewrite PAGE_SIZE_val.
  set (vm2 := store_pte _ _ vm1).
  assert (Hs : heap vm2 = heap vm1 /\ pt_ok (mem vm2) pgd T1 /\ (forall b, off_tables T1 b -> mem vm2 !! b = mem vm1 !! b) /\
    (forall va, 0 <= va -> vpn va <> vpn a -> pte_of (mem vm2) T1 va = pte_of (mem vm1) T1 va) /\
    (pte_of (mem vm2) T1 a = leaf_pte pa prot \/ (pte_of (mem vm2) T1 a = 0 /\ T1 !! [vpn2 a; vpn1 a] = None))).
  { subst vm2. destruct (T1 !! [vpn2 a; vpn1 a]) as [pt |] eqn:E; cbn [fmap option_fmap option_map store_pte set_mem heap mem].
    - destruct (store_leaf_ok pgd (mem vm1) T1 a pt (leaf_pte pa prot) Hok1 E Ha) as (? & ? & ?).
      split_and!; [done | done | | done | by left].
      intros b Hb. apply lookup_insert_ne. intros <-. destruct (vpn_range a Ha) as (_ & _ & ?). apply (Hb _ _ E). unfold word. rewrite PAGE_SIZE_val. lia.
    - split_and!; [done | done | done | done |]. right. unfold pte_of. by rewrite E. }
  destruct Hs as (Eh & Hok2 & Hfr2 & Hout & Hat). rewrite <- Eh in Ho1.
  destruct (IH vm2 mm1 T1 (a + 4096) (pa + 4096) Ho1 Hok2 Hl1) as (vm3 & T3 & mm3 & E & Ho3 & Hok3 & Hl3 & HT3 & HM3 & Hnew3 & Hfr3 & Hfull3 & Hout3 & Hat3);
    try lia; [intros x Hx; apply Hc; lia |].
  rewrite Eh in Hfull3.
  exists vm3, T3, mm3. split_and!; try done; [by etrans | by etrans | by eapply fresh_tables_trans | | | |].
  { intros b Hb. pose proof (off_tables_mono _ _ _ HT3 Hb) as Hb1. by rewrite Hfr3, Hfr2, Hfr1. }
  { intros Hn. pose proof (Hfull1 Hn) as E1. rewrite Hfull3; [exact E1 | by rewrite E1]. }
  - intros va Hva Hno. rewrite Hout3, Hout, Hpte1; try done.
    + intros Ev. apply Hno. exists 0. by rewrite Z.mul_0_r, Z.add_0_r.
    + intros (k & Hk & Hke & Ev). apply Hno. exists (k + 1). split_and!; [lia | lia | rewrite Ev; f_equal; lia].
  - intros k Hk Hke. destruct (decide (k = 0)) as [-> | Hk0].
    + rewrite Z.mul_0_r, !Z.add_0_r. rewrite Hout3.
      * destruct Hat as [-> | [-> Hn]]; [by left | right]. specialize (Hno1 Hn).
        split_and!; [done | by eapply lookup_weaken_None | by rewrite (Hfull3 Hno1)].
      * done.
      * intros (j & Hj & Hje & Ev). apply canonical_vpn in Ev; [dlia | apply Hc; lia | apply Hc; lia].
    + destruct (Hat3 (k - 1)) as [Hm | (Hm & Hn & Hno)]; [lia | lia | |];
        replace (a + 4096 + 4096 * (k - 1)) with (a + 4096 * k) in * by lia.
      * left. rewrite Hm. f_equal. lia.
      * right. split_and!; [done | by eapply lookup_weaken_None | done].
Qed.

Lemma pte_of_vpn m T va va' : 0 <= va -> 0 <= va' -> vpn va = vpn va' -> pte_of m T va = pte_of m T va'.
Proof. intros ? ? E. apply vpn_eq in E as (E2 & E1 & E0); try done. unfold pte_of. by rewrite E2, E1, E0. Qed.

Lemma decode_leaf pa prot va : 0 <= pa < 2 ^ 56 -> 0 <= prot < 1024 -> has prot PTE_V = true -> is_leaf prot = true ->
  decode (leaf_pte pa prot) va = Some (pa / 4096 * 4096 + va mod 4096, prot).
Proof.
  intros Hpa Hp Hv Hl. rewrite leaf_pte_entry by lia. unfold decode, is_leaf in *. rewrite !has_entry, Hv, Hl by (done || lia).
  unfold leaf_at, entry. cbn [andb]. rewrite Z.div_add_l, (Z.div_small prot), Z.add_0_r by lia.
  rewrite (Z.mod_small (pa / 4096)) by dlia. do 2 f_equal. by rewrite Z.add_comm, Z_mod_plus_full, Z.mod_small.
Qed.

Lemma map_pages_at_lemma pgd vm mm T va pa size prot :
  owns (heap vm) mm -> pt_ok (mem vm) pgd T -> tables_live T mm ->
  0 <= va -> 0 <= size -> (PAGE_SIZE | va) -> (PAGE_SIZE | size) -> va + size + PAGE_SIZE <= 2 ^ 64 ->
  (forall x, va <= x < va + size -> canonical x) ->
  0 <= pa -> (PAGE_SIZE | pa) -> pa + size + PAGE_SIZE <= 2 ^ 56 ->
  0 <= prot < 1024 -> has prot PTE_V = true -> is_leaf prot = true ->
  exists vm' T' mm', map_pages_at pgd va pa size prot vm = Some vm' /\
    owns (heap vm') mm' /\ pt_ok (mem vm') pgd T' /\ tables_live T' mm' /\ T ⊆ T' /\ mm ⊆ mm' /\ fresh_tables T mm T' /\
    (forall a, off_tables T' a -> mem vm' !! a = mem vm !! a) /\ (no_page (heap vm) -> heap vm' = heap vm) /\
    (forall x, va <= x < va + size ->
       sv39 (mem vm') pgd x = Some (pa + (x - va), prot) \/
       (sv39 (mem vm') pgd x = None /\ T !! [vpn2 x; vpn1 x] = None /\ no_page (heap vm'))) /\
    (forall x, canonical x -> ~ va <= x < va + size -> sv39 (mem vm') pgd x = sv39 (mem vm) pgd x).
Proof.
  intros Ho Hok Hl Hva Hs [a Ea] [s Es] Hend Hc Hpa [q Eq] Hpe Hp Hv Hlf. rewrite PAGE_SIZE_val in *. unfold map_pages_at.
  rewrite (u64_small (va + size)) by lia.
  destruct (map_loop_ok (Z.to_nat (size / PAGE_SIZE + 1)) pgd vm mm T va (va + size) pa prot)
    as (vm' & T' & mm' & -> & Ho' & Hok' & Hl' & HT & HM & Hnew & Hfr & Hfull & Hout & Hat); try done; try lia; [rewrite PAGE_SIZE_val; dlia |].
  exists vm', T', mm'. split_and!; try done.
  - intros x Hx. set (k := (x - va) / 4096).
    assert (Hk : 0 <= k /\ va + 4096 * k < va + size /\ x / 4096 = (va + 4096 * k) / 4096) by (subst k; dlia).
    destruct Hk as (Hk & Hke & Hkx). assert (Ev : vpn x = vpn (va + 4096 * k)) by (unfold vpn; by rewrite Hkx).
    rewrite (sv39_pte_of _ _ T' x Hok') by lia. rewrite (pte_of_vpn _ _ x (va + 4096 * k)) by (done || lia).
    apply vpn_eq in Ev as (E2 & E1 & _); [| lia ..]. rewrite E2, E1.
    destruct (Hat k Hk Hke) as [-> | (-> & Hn)]; [left | by right].
    rewrite decode_leaf by (done || lia). do 2 f_equal. subst k. dlia.
  - intros x Hx Hnx. pose proof (canonical_nonneg x Hx) as Hx0.
    rewrite (sv39_pte_of _ _ T' x Hok'), (sv39_pte_of _ _ T x Hok) by lia. rewrite Hout; [done | lia |].
    intros (k & Hk & Hke & Ev). apply canonical_vpn in Ev; [dlia | done | apply Hc; lia].
Qed.

(** C9: [map_pages_at] maps: it terminates with well-formed tables, the hardware
    walk then takes every address of the range to the physical address at the
    same offset with the flags asked for, every other address translates as
    before, and no word outside the tables changes.  An address stays unmapped
    only if its table did not exist and the allocator has no page left: it
    answers 0 to the next request for one. *)
Theorem map_pages_at_translates pgd vm mm T va pa size prot :
  owns (heap vm) mm -> pt_ok (mem vm) pgd T -> tables_live T mm ->
  0 <= va -> 0 <= size -> (PAGE_SIZE | va) -> (PAGE_SIZE | size) -> va + size + PAGE_SIZE <= 2 ^ 64 ->
  (forall x, va <= x < va + size -> canonical x) ->
  0 <= pa -> (PAGE_SIZE | pa) -> pa + size + PAGE_SIZE <= 2 ^ 56 ->
  0 <= prot < 1024 -> has prot PTE_V = true -> is_leaf prot = true ->
  exists vm' T' mm', map_pages_at pgd va pa size prot vm = Some vm' /\
    owns (heap vm') mm' /\ pt_ok (mem vm') pgd T' /\ tables_live T' mm' /\ T ⊆ T' /\ mm ⊆ mm' /\ fresh_tables T mm T' /\
    (forall a, off_tables T' a -> mem vm' !! a = mem vm !! a) /\ (no_page (heap vm) -> heap vm' = heap vm) /\
    (forall x, va <= x < va + size ->
       sv39 (mem vm') pgd x = Some (pa + (x - va), prot) \/
       (sv39 (mem vm') pgd x = None /\ T !! [vpn2 x; vpn1 x] = None /\ no_page (heap vm'))) /\
    (forall x, canonical x -> ~ va <= x < va + size -> sv39 (mem vm') pgd x = sv39 (mem vm) pgd x).
Proof. apply map_pages_at_lemma. Qed.

(** ** A fresh root table *)

Lemma new_page_ok vm mm : owns (heap vm) mm ->
  new_page vm = Some (None, vm) \/
  exists p vm' n, new_page vm = Some (Some p, vm') /\ owns (heap vm') (<[p := (n, 1)]> mm) /\ mm !! p = None /\
    PAGE_SIZE <= n /\ (PAGE_SIZE | p) /\ 0 < p /\ p + n <= 2 ^ 64 /\ mem vm' = zero_page p (mem vm).
Proof.
  intros Ho. unfold new_page. destruct (owns_allocate _ _ PAGE_SIZE Ho) as [E | (p & h' & n & E & Hn & Hp & Ho')]; [done | |];
    rewrite E; cbn [mbind option_bind].
  - left. by destruct vm.
  - right. destruct (owns_bounds _ _ p n 1 Ho') as (H0 & _ & Hend & _ & Hal); [by rewrite lookup_insert_eq |].
    destruct (Z.eqb_spec p 0); [lia |]. eexists p, _, n. split_and!; try done. by apply Hal.
Qed.

Lemma fresh_pgd_ok m p : (PAGE_SIZE | p) -> 0 < p -> p + PAGE_SIZE <= 2 ^ 64 ->
  pt_ok (zero_page p m) p {[ [] := p ]} /\ forall va, pte_of (zero_page p m) {[ [] := p ]} va = 0.
Proof.
  intros Hd H0 He. split.
  2: { intros va. unfold pte_of. by rewrite lookup_singleton_ne. }
  split.
  - by rewrite lookup_singleton_eq.
  - intros q a [<- <-]%lookup_singleton_Some. done.
  - intros q q' a [<- _]%lookup_singleton_Some [<- _]%lookup_singleton_Some. done.
  - intros q i a [E _]%lookup_singleton_Some. by destruct q.
  - intros q a i [<- <-]%lookup_singleton_Some Hi _. cbn [app]. rewrite lookup_singleton_ne by done.
    exists 0. by rewrite zero_page_in.
  - intros q a i [<- _]%lookup_singleton_Some ?. done.
Qed.

(** ** The kernel's address space *)

(** Every translation is linear, with flags that [perm] allows. *)
Definition linear (perm : Z -> Z -> Prop) (m : gmap Z Z) (pgd : Z) : Prop :=
  forall x pa f, canonical x -> sv39 m pgd x = Some (pa, f) -> pa = x - PAGE_OFFSET /\ perm x f.

Definition tables_ok pgd vm : Prop :=
  exists mm T, owns (heap vm) mm /\ pt_ok (mem vm) pgd T /\ tables_live T mm.

(** A range of the linear map: aligned, in the higher half, physical addresses
    of 38 bits. *)
Definition high_range (va size : Z) : Prop :=
  PAGE_OFFSET <= va /\ 0 <= size /\ (PAGE_SIZE | va) /\ (PAGE_SIZE | size) /\ va + size + PAGE_SIZE <= 2 ^ 64.

(** The range [(va, size, prot)] added last decides about its addresses. *)
Fixpoint flags_in (rs : list (Z * Z * Z)) (x : Z) : option Z :=
  match rs with
  | [] => None
  | (va, size, prot) :: rs' => if (va <=? x) && (x <? va + size) then Some prot else flags_in rs' x
  end.

(** The linear map of the ranges, exactly; an address is missing only if no page
    is left for its table. *)
Definition maps_linearly pgd vm (rs : list (Z * Z * Z)) : Prop :=
  forall x, canonical x ->
    sv39 (mem vm) pgd x = (fun f => (x - PAGE_OFFSET, f)) <$> flags_in rs x \/
    (sv39 (mem vm) pgd x = None /\ no_page (heap vm)).

Lemma map_range pgd vm rs va size prot :
  tables_ok pgd vm -> maps_linearly pgd vm rs -> high_range va size ->
  0 <= prot < 1024 -> has prot PTE_V = true -> is_leaf prot = true ->
  exists vm', map_pages_at pgd va (va ⊟ PAGE_OFFSET) size prot vm = Some vm' /\ tables_ok pgd vm' /\
    maps_linearly pgd vm' ((va, size, prot) :: rs).
Proof.
  intros (mm & T & Ho & Hok & Hl) Hlin (Hva & Hs & Hda & Hds & He) Hp Hv Hlf.
  assert (Hoff : PAGE_OFFSET = 2 ^ 64 - 2 ^ 38) by reflexivity. rewrite PAGE_SIZE_val in He.
  rewrite (u64_small (va - PAGE_OFFSET)) by lia.
  destruct (map_pages_at_lemma pgd vm mm T va (va - PAGE_OFFSET) size prot)
    as (vm' & T' & mm' & -> & Ho' & Hok' & Hl' & _ & _ & _ & _ & Hfull & Hin & Hout); try done; try (rewrite ?PAGE_SIZE_val; lia).
  { intros x Hx. right. lia. }
  { apply Z.divide_sub_r; [done |]. by exists (PAGE_OFFSET / 4096). }
  exists vm'. split; [done |]. split; [by exists mm', T' |]. intros x Hx. cbn [flags_in].
  destruct (Z.leb_spec va x), (Z.ltb_spec x (va + size)); cbn [andb].
  { destruct (Hin x ltac:(lia)) as [-> | (-> & _ & Hn)]; [left | by right]. cbn. do 2 f_equal. lia. }
  all: rewrite Hout by (done || lia); destruct (Hlin x Hx) as [-> | [-> Hn]]; [by left | right]; split; [done |]; by rewrite (Hfull Hn).
Qed.

(** What [mmu_init] is given: the sections in order, page aligned, apart from
    the devices. *)
Record layout_ok (l : layout) : Prop := {
  lo_pool : high_range (l_pool_start l) (l_pool_size l);
  lo_text : high_range (l_start l) (l_text_end l - l_start l);
  lo_rodata : high_range (l_text_end l) (l_rodata_end l - l_text_end l);
  lo_uart : l_uart_base l = 0 \/ high_range (l_uart_base l) PAGE_SIZE;
  lo_plic : l_plic_base l = 0 \/ high_range (l_plic_base l) 0x400000;
  lo_uart_apart : l_uart_base l + PAGE_SIZE <= l_start l \/ l_rodata_end l <= l_uart_base l;
  lo_plic_apart : l_plic_base l + 0x400000 <= l_start l \/ l_rodata_end l <= l_plic_base l;
  lo_fw : 0x10101000 + PAGE_OFFSET <= l_start l;
  lo_fb : l_rodata_end l <= 0x87000000 + PAGE_OFFSET;
}.

Definition kernel_perm (l : layout) (x f : Z) : Prop :=
  (has f PTE_W && has f PTE_X = false) /\ has f PTE_U = false /\
  (l_start l <= x < l_text_end l -> f = flags [PTE_V; PTE_R; PTE_X; PTE_A; PTE_G]) /\
  (l_text_end l <= x < l_rodata_end l -> f = flags [PTE_V; PTE_R; PTE_A; PTE_G]).

(** The ranges of [mmu_init], the last one mapped first. *)
Definition kernel_ranges (l : layout) : list (Z * Z * Z) :=
  [(0x87000000 + PAGE_OFFSET, 0x800000, PROT_MMIO); (0x10100000 + PAGE_OFFSET, PAGE_SIZE, PROT_MMIO)] ++
  (if l_plic_base l =? 0 then [] else [(l_plic_base l, 0x400000, PROT_MMIO)]) ++
  (if l_uart_base l =? 0 then [] else [(l_uart_base l, PAGE_SIZE, PROT_MMIO)]) ++
  [(l_text_end l, l_rodata_end l - l_text_end l, flags [PTE_V; PTE_R; PTE_A; PTE_G]);
   (l_start l, l_text_end l - l_start l, flags [PTE_V; PTE_R; PTE_X; PTE_A; PTE_G]);
   (l_pool_start l, l_pool_size l, flags [PTE_V; PTE_R; PTE_W; PTE_A; PTE_D; PTE_G])].

Lemma flags_in_cons va size prot rs x f : flags_in ((va, size, prot) :: rs) x = Some f ->
  (va <= x < va + size /\ f = prot) \/ flags_in rs x = Some f.
Proof.
  cbn [flags_in]. destruct (Z.leb_spec va x), (Z.ltb_spec x (va + size)); cbn [andb]; [intros [= <-]; left; lia | by right ..].
Qed.

Lemma flags_in_skip rs rs' x : (forall va size prot, (va, size, prot) ∈ rs -> ~ va <= x < va + size) ->
  flags_in (rs ++ rs') x = flags_in rs' x.
Proof.
  induction rs as [| [[va size] prot] rs IH]; intros Hn; [done |]. cbn [app flags_in].
  pose proof (Hn va size prot ltac:(by left)). rewrite IH by (intros v z p Hv; apply (Hn v z p); by right).
  destruct (Z.leb_spec va x), (Z.ltb_spec x (va + size)); cbn [andb]; (lia || done).
Qed.

(** The devices are mapped outside of the text and of the constants. *)
Lemma kernel_ranges_perm l x f : layout_ok l -> flags_in (kernel_ranges l) x = Some f -> kernel_perm l x f.
Proof.
  intros Hlo Hf. assert (Hord : l_start l <= l_text_end l <= l_rodata_end l) by (destruct Hlo as [_ (_ & ? & _) (_ & ? & _) _ _ _ _ _ _]; lia).
  assert (Hdev : f = PROT_MMIO /\ ~ l_start l <= x < l_rodata_end l \/
    flags_in [(l_text_end l, l_rodata_end l - l_text_end l, flags [PTE_V; PTE_R; PTE_A; PTE_G]);
      (l_start l, l_text_end l - l_start l, flags [PTE_V; PTE_R; PTE_X; PTE_A; PTE_G]);
      (l_pool_start l, l_pool_size l, flags [PTE_V; PTE_R; PTE_W; PTE_A; PTE_D; PTE_G])] x = Some f).
  { destruct Hlo as [_ _ _ _ _ Hua Hpa Hfw Hfb]. unfold kernel_ranges in Hf. cbn [app] in Hf. rewrite PAGE_SIZE_val in *.
    apply flags_in_cons in Hf as [[? ->] | Hf]; [left; split; [done | lia] |].
    apply flags_in_cons in Hf as [[? ->] | Hf]; [left; split; [done | lia] |].
    destruct (l_plic_base l =? 0); cbn [app] in Hf; [| apply flags_in_cons in Hf as [[? ->] | Hf]; [left; split; [done | lia] |]];
      (destruct (l_uart_base l =? 0); cbn [app] in Hf; [| apply flags_in_cons in Hf as [[? ->] | Hf]; [left; split; [done | lia] |]]); by right. }
  destruct Hdev as [[-> Hx] | Hk]; [unfold kernel_perm; split_and!; [done | done | intros; lia ..] |]. clear Hf.
  cbn [flags_in] in Hk. unfold kernel_perm.
  destruct (Z.leb_spec (l_text_end l) x), (Z.ltb_spec x (l_text_end l + (l_rodata_end l - l_text_end l))),
    (Z.leb_spec (l_start l) x), (Z.ltb_spec x (l_start l + (l_text_end l - l_start l))), (Z.leb_spec (l_pool_start l) x),
    (Z.ltb_spec x (l_pool_start l + l_pool_size l)); cbn [andb] in Hk; try lia; try discriminate Hk;
    injection Hk as <-; split_and!; try reflexivity; intros; (reflexivity || lia).
Qed.

Lemma high_range_const va size : (PAGE_SIZE | va) -> (PAGE_SIZE | size) -> 0 <= va -> 0 <= size -> va + size + PAGE_SIZE <= 2 ^ 38 ->
  high_range (va ⊞ PAGE_OFFSET) size /\ va ⊞ PAGE_OFFSET = va + PAGE_OFFSET /\ (va ⊞ PAGE_OFFSET) ⊟ PAGE_OFFSET = va.
Proof.
  intros Hv Hs Hv0 Hs0 He. assert (Hoff : PAGE_OFFSET = 2 ^ 64 - 2 ^ 38) by reflexivity. rewrite PAGE_SIZE_val in He.
  rewrite (u64_small (va + _)) by lia. split_and!; [| done | rewrite u64_small; lia].
  split_and!; [lia | done | | done | rewrite PAGE_SIZE_val; lia].
  apply Z.divide_add_r; [done | by exists (PAGE_OFFSET / 4096)].
Qed.

Lemma kernel_sections l pgd vm : layout_ok l -> tables_ok pgd vm -> maps_linearly pgd vm [] ->
  exists vm1 vm2 vm3,
    map_pages_at pgd (l_pool_start l) (l_pool_start l ⊟ PAGE_OFFSET) (l_pool_size l) (flags [PTE_V; PTE_R; PTE_W; PTE_A; PTE_D; PTE_G]) vm = Some vm1 /\
    map_pages_at pgd (l_start l) (l_start l ⊟ PAGE_OFFSET) (l_text_end l ⊟ l_start l) (flags [PTE_V; PTE_R; PTE_X; PTE_A; PTE_G]) vm1 = Some vm2 /\
    map_pages_at pgd (l_text_end l) ((l_start l ⊟ PAGE_OFFSET) ⊞ (l_text_end l ⊟ l_start l)) (l_rodata_end l ⊟ l_text_end l)
      (flags [PTE_V; PTE_R; PTE_A; PTE_G]) vm2 = Some vm3 /\
    tables_ok pgd vm3 /\
    maps_linearly pgd vm3 [(l_text_end l, l_rodata_end l - l_text_end l, flags [PTE_V; PTE_R; PTE_A; PTE_G]);
      (l_start l, l_text_end l - l_start l, flags [PTE_V; PTE_R; PTE_X; PTE_A; PTE_G]);
      (l_pool_start l, l_pool_size l, flags [PTE_V; PTE_R; PTE_W; PTE_A; PTE_D; PTE_G])].
Proof.
  intros [Hpool Htext Hro _ _ _ _ _ _] Ht Hl. assert (Hoff : PAGE_OFFSET = 2 ^ 64 - 2 ^ 38) by reflexivity.
  pose proof Htext as (H1 & H2 & H3 & H4 & H5). pose proof Hro as (H6 & H7 & H8 & H9 & H10). rewrite PAGE_SIZE_val in H5, H10.
  rewrite (u64_small (l_text_end l - l_start l)), (u64_small (l_rodata_end l - l_text_end l)) by lia.
  destruct (map_range pgd vm _ _ _ (flags [PTE_V; PTE_R; PTE_W; PTE_A; PTE_D; PTE_G]) Ht Hl Hpool) as (vm1 & E1 & Ht1 & Hl1); try done.
  destruct (map_range pgd vm1 _ _ _ (flags [PTE_V; PTE_R; PTE_X; PTE_A; PTE_G]) Ht1 Hl1 Htext) as (vm2 & E2 & Ht2 & Hl2); try done.
  destruct (map_range pgd vm2 _ _ _ (flags [PTE_V; PTE_R; PTE_A; PTE_G]) Ht2 Hl2 Hro) as (vm3 & E3 & Ht3 & Hl3); try done.
  exists vm1, vm2, vm3. split_and!; [done | done | | done | done].
  rewrite <- E3. f_equal. rewrite !(u64_small (_ - PAGE_OFFSET)) by lia. rewrite u64_small by lia. lia.
Qed.

Lemma map_device pgd vm rs base size : tables_ok pgd vm -> maps_linearly pgd vm rs -> base = 0 \/ high_range base size ->
  exists vm', (if base =? 0 then Some vm else map_pages_at pgd base (base ⊟ PAGE_OFFSET) size PROT_MMIO vm) = Some vm' /\
    tables_ok pgd vm' /\ maps_linearly pgd vm' ((if base =? 0 then [] else [(base, size, PROT_MMIO)]) ++ rs).
Proof.
  intros Ht Hm Hb. destruct (Z.eqb_spec base 0) as [E0 | E0]; [by exists vm |]. destruct Hb as [Hb | Hb]; [destruct (E0 Hb) |].
  by apply map_range.
Qed.

(** C10: the kernel's own address space: [mmu_init] terminates with exactly the
    linear map of the kernel's ranges (the allocator's memory, the text, the
    constants, the devices the tree names, the configuration page and the frame
    buffer): every address of a range is mapped to its physical address, which
    is PAGE_OFFSET below, with the flags of the last range that holds it, and no
    other address is mapped.  Only when no page is left can an address be
    missing.  No page is both writable and executable, none is open to user
    mode, the text is readable and executable only, the constants readable
    only. *)
Theorem mmu_init_linear l vm mm :
  layout_ok l -> owns (heap vm) mm -> h_allocate PAGE_SIZE (heap vm) <> Some (0, heap vm) ->
  exists pgd vm', mmu_init l vm = Some (pgd, MAKE_SATP (pgd ⊟ PAGE_OFFSET), vm') /\ tables_ok pgd vm' /\
    maps_linearly pgd vm' (kernel_ranges l) /\ linear (kernel_perm l) (mem vm') pgd.
Proof.
  intros Hlo Ho Hnz. destruct (new_page_ok vm mm Ho) as [E | (pgd & vm0 & n & E & Ho0 & Hnew & Hn & Hd & H0 & He & Em)].
  { exfalso. unfold new_page in E. destruct (owns_allocate _ _ PAGE_SIZE Ho) as [E' | (p & h' & k & E' & _ & Hp & Ho')]; [done | done |].
    rewrite E' in E. cbn [mbind option_bind] in E. destruct (owns_bounds _ _ p k 1 Ho') as (Hp0 & _); [by rewrite lookup_insert_eq |].
    destruct (Z.eqb_spec p 0); [lia | done]. }
  destruct (fresh_pgd_ok (mem vm) pgd Hd H0 ltac:(lia)) as [Hok Hpte]. rewrite <- Em in Hok, Hpte.
  assert (Ht0 : tables_ok pgd vm0).
  { exists (<[pgd := (n, 1)]> mm), {[ [] := pgd ]}. split_and!; [done | done |].
    intros p q [<- <-]%lookup_singleton_Some. exists n, 1. rewrite lookup_insert_eq. split; [reflexivity | exact Hn]. }
  assert (Hm0 : maps_linearly pgd vm0 []).
  { intros x Hx. left. by rewrite (sv39_pte_of _ _ _ _ Hok (canonical_nonneg x Hx)), Hpte. }
  destruct (kernel_sections l pgd vm0 Hlo Ht0 Hm0) as (vm1 & vm2 & vm3 & E1 & E2 & E3 & Ht3 & Hm3).
  unfold mmu_init. rewrite E. cbn [mbind option_bind]. rewrite E1. cbn [mbind option_bind]. rewrite E2. cbn [mbind option_bind].
  rewrite E3. cbn [mbind option_bind]. clear E E1 E2 E3 Ht0 Hm0.
  destruct (map_device pgd vm3 _ _ PAGE_SIZE Ht3 Hm3 (lo_uart l Hlo)) as (vm4 & -> & Ht4 & Hm4). cbn [mbind option_bind].
  destruct (map_device pgd vm4 _ _ 0x400000 Ht4 Hm4 (lo_plic l Hlo)) as (vm5 & -> & Ht5 & Hm5). cbn [mbind option_bind].
  destruct (high_range_const 0x10100000 PAGE_SIZE) as (Hr & Ev & Ep); [by exists (0x10100000 / 4096) | done | done | done | done |].
  destruct (map_range pgd vm5 _ _ PAGE_SIZE PROT_MMIO Ht5 Hm5 Hr) as (vm6 & E6 & Ht6 & Hm6); [done .. |].
  rewrite Ep in E6. rewrite E6. cbn [mbind option_bind]. rewrite Ev in Hm6.
  destruct (high_range_const 0x87000000 0x800000) as (Hr' & Ev' & Ep'); [by exists (0x87000000 / 4096) | by exists 2048 | done | done | done |].
  destruct (map_range pgd vm6 _ _ 0x800000 PROT_MMIO Ht6 Hm6 Hr') as (vm7 & E7 & Ht7 & Hm7); [done .. |].
  rewrite Ep' in E7. rewrite E7. cbn [mbind option_bind]. rewrite Ev' in Hm7. clear E6 E7.
  assert (Hm : maps_linearly pgd vm7 (kernel_ranges l)) by exact Hm7.
  exists pgd, vm7. split; [reflexivity |]. split; [exact Ht7 |]. split; [exact Hm |].
  intros x pa f Hx Ef. destruct (Hm x Hx) as [E' | [E' _]]; rewrite E' in Ef; [| done].
  destruct (flags_in (kernel_ranges l) x) as [g |] eqn:Eg; [| done]. injection Ef as <- <-. split; [done | by apply kernel_ranges_perm].
Qed.

End Map.

(** ** The boot tables *)

Lemma boot_high_entries b m :
  for_range 4 0 (map_high b) m =
  Some (<[word b 259 := entry (3 * 2 ^ 18) PROT_KERNEL]> (<[word b 258 := entry (2 * 2 ^ 18) PROT_KERNEL]>
       (<[word b 257 := entry (1 * 2 ^ 18) PROT_KERNEL]> (<[word b 256 := entry (0 * 2 ^ 18) PROT_KERNEL]> m)))).
Proof. reflexivity. Qed.

Lemma gigapage m b va x : 0 <= va -> 0 <= x < 2 ^ 26 -> m !! word b (vpn2 va) = Some (entry (x * 2 ^ 18) PROT_KERNEL) ->
  sv39 m b va = Some (x * 2 ^ 30 + va mod 2 ^ 30, PROT_KERNEL).
Proof.
  intros Hva Hx E. unfold sv39. rewrite E. cbn [mbind option_bind]. change PROT_KERNEL with 239 in *.
  unfold is_leaf. rewrite !has_entry by (done || lia). change (has 239 PTE_V) with true. change (has 239 PTE_R) with true.
  cbn [negb orb]. unfold leaf_at, entry. rewrite Z.div_add_l, (Z.div_small 239), Z.add_0_r by lia.
  rewrite Z.mod_mul by lia. cbn [Z.eqb]. rewrite (Z.mod_small (x * 2 ^ 18)) by lia. do 2 f_equal; [lia |].
  by rewrite Z.add_comm, Z_mod_plus_full.
Qed.

Lemma word_inj b i j : word b i = word b j -> i = j.
Proof. unfold word. lia. Qed.

(** The entry of the identity mapping. *)
Lemma ident_entry kernel_pa : 0 <= kernel_pa < 2 ^ 38 ->
  let ram_base := Z.land kernel_pa (Z.lxor (2 ^ 64 - 1) ((1 ⋘ PGD_SHIFT) ⊟ 1)) in
  Z.land (ram_base ⋙ PGD_SHIFT) VPN_MASK = kernel_pa / 2 ^ 30 /\
  Z.lor ((ram_base ⋙ PGD_SHIFT) ⋘ 28) PROT_KERNEL = entry (kernel_pa / 2 ^ 30 * 2 ^ 18) PROT_KERNEL.
Proof.
  intros Hk. change (Z.lxor (2 ^ 64 - 1) ((1 ⋘ PGD_SHIFT) ⊟ 1)) with (u64 (Z.lnot (2 ^ 30 - 1))).
  rewrite land_lnot_mask by lia. cbv zeta. unfold PGD_SHIFT. rewrite Z.shiftr_div_pow2 by lia.
  replace ((kernel_pa - kernel_pa mod 2 ^ 30) / 2 ^ 30) with (kernel_pa / 2 ^ 30).
  2: { change (2 ^ 30) with 1073741824. dlia. }
  assert (0 <= kernel_pa / 2 ^ 30 < 256) as Hg by (change (2 ^ 30) with 1073741824; dlia).
  unfold VPN_MASK. change 0x1FF with (2 ^ 9 - 1). rewrite land_mask, Z.mod_small by lia. split; [done |].
  rewrite Z.shiftl_mul_pow2, u64_small by lia. unfold entry.
  replace (kernel_pa / 2 ^ 30 * 2 ^ 28) with (kernel_pa / 2 ^ 30 * 2 ^ 18 * 2 ^ 10) by lia.
  change PROT_KERNEL with 239. by rewrite (lor_low _ 10) by lia.
Qed.

Lemma vpn2_high pa : 0 <= pa < 2 ^ 38 -> vpn2 (PAGE_OFFSET + pa) = 256 + pa / 2 ^ 30.
Proof.
  intros Hp. destruct (vpn_split (PAGE_OFFSET + pa)) as [-> _]; [unfold PAGE_OFFSET; lia |].
  unfold PAGE_OFFSET. change (2 ^ 30) with 1073741824. change (2 ^ 38) with 274877906944 in *. dlia.
Qed.

Lemma vpn2_low x : 0 <= x < 2 ^ 38 -> vpn2 x = x / 2 ^ 30.
Proof.
  intros Hx. destruct (vpn_split x) as [-> _]; [lia |].
  change (2 ^ 30) with 1073741824. change (2 ^ 38) with 274877906944 in *. dlia.
Qed.

Lemma drop_identity_spec b m : exists m', drop_identity_map b m = Some m' /\
  (forall j, 0 <= j < 256 -> m' !! word b j = Some 0) /\ (forall j, 256 <= j -> m' !! word b j = m !! word b j).
Proof.
  destruct (for_range_inv (fun i m' => (forall j, 0 <= j < i -> m' !! word b j = Some 0) /\
    (forall j, i <= j -> m' !! word b j = m !! word b j)) 256 0
    (fun i m => Some (<[word b i := 0]> m)) m) as (m' & E & Hz & Ho).
  - split; [lia | done].
  - intros i m' Hi [Hz Ho]. eexists. split; [done |]. split; intros j Hj.
    + destruct (decide (j = i)) as [-> | Hne]; [by rewrite lookup_insert_eq |].
      rewrite lookup_insert_ne by (intros ?%word_inj; lia). apply Hz. lia.
    + rewrite lookup_insert_ne by (intros ?%word_inj; lia). apply Ho. lia.
  - exists m'. split; [done |]. split; intros j Hj; [by apply Hz | apply Ho; lia].
Qed.

(** The boot tables: after [setup_vm] the hardware takes the first 4 GiB of
    the higher half to the physical addresses at the same offset, and the
    gigabyte that contains the kernel to itself; [drop_identity_map] then
    removes every translation of the lower half and keeps the higher one. *)
Theorem setup_vm_translates b kernel_pa m : 0 <= kernel_pa < 2 ^ 38 ->
  exists m1 m2, setup_vm b kernel_pa m = Some (PAGE_OFFSET, MAKE_SATP b, m1) /\
    drop_identity_map b m1 = Some m2 /\
    (forall pa, 0 <= pa < 2 ^ 32 -> sv39 m1 b (PAGE_OFFSET + pa) = Some (pa, PROT_KERNEL) /\
                                   sv39 m2 b (PAGE_OFFSET + pa) = Some (pa, PROT_KERNEL)) /\
    (forall x, 0 <= x < 2 ^ 64 -> x / 2 ^ 30 = kernel_pa / 2 ^ 30 -> sv39 m1 b x = Some (x, PROT_KERNEL)) /\
    (forall x, 0 <= x < 2 ^ 38 -> sv39 m2 b x = None).
Proof.
  intros Hk. unfold setup_vm. destruct (ident_entry kernel_pa Hk) as [-> ->]. rewrite boot_high_entries. cbn [mbind option_bind].
  set (g := kernel_pa / 2 ^ 30). assert (0 <= g < 256) as Hg by (subst g; change (2 ^ 30) with 1073741824; dlia).
  set (m1 := <[word b 259 := _]> _). destruct (drop_identity_spec b m1) as (m2 & E2 & Hz & Hhigh).
  assert (Hm1 : forall i, 0 <= i < 4 -> m1 !! word b (256 + i) = Some (entry (i * 2 ^ 18) PROT_KERNEL)).
  { intros i Hi. subst m1. assert (i = 0 \/ i = 1 \/ i = 2 \/ i = 3) as [-> | [-> | [-> | ->]]] by lia; cbn [Z.add Pos.add Pos.succ];
      rewrite ?lookup_insert_eq, ?lookup_insert_ne by (intros ?%word_inj; lia); rewrite ?lookup_insert_eq; done. }
  assert (Hg1 : m1 !! word b g = Some (entry (g * 2 ^ 18) PROT_KERNEL)).
  { subst m1. rewrite !lookup_insert_ne by (intros ?%word_inj; lia). by rewrite lookup_insert_eq. }
  exists m1, m2. split_and!; [done | done | | |].
  - intros pa Hpa. assert (0 <= pa / 2 ^ 30 < 4) as Hi by (change (2 ^ 30) with 1073741824; dlia).
    assert (Epa : pa / 2 ^ 30 * 2 ^ 30 + (PAGE_OFFSET + pa) mod 2 ^ 30 = pa).
    { unfold PAGE_OFFSET. change (2 ^ 30) with 1073741824. dlia. }
    assert (0 <= PAGE_OFFSET + pa) by (unfold PAGE_OFFSET; lia).
    split; (rewrite (gigapage _ _ _ (pa / 2 ^ 30)), Epa; [reflexivity | assumption | lia |]);
      rewrite vpn2_high by lia; [apply Hm1, Hi | rewrite Hhigh by lia; apply Hm1, Hi].
  - intros x Hx Eg. assert (0 <= x < 2 ^ 38) as Hx' by (fold g in Eg; change (2 ^ 30) with 1073741824 in *; dlia).
    rewrite (gigapage _ _ _ g); [| lia | lia |].
    + do 2 f_equal. subst g. rewrite <- Eg. change (2 ^ 30) with 1073741824. dlia.
    + rewrite vpn2_low by done. by rewrite Eg.
  - intros x Hx. unfold sv39. rewrite vpn2_low by exact Hx. rewrite Hz; [reflexivity |].
    change (2 ^ 30) with 1073741824. dlia.
Qed.

(** ** Concrete inputs, used by the witnesses *)

(** The heap of [AllocProps] and no memory written yet. *)
Definition demo_vm : memory allocator := Memory heap0 ∅.

Lemma heap0_owns : owns heap0 ∅.
Proof.
  destruct heap0_awf as (bs & Haw & Hno). exists bs, (fun _ => []). split; [exact Haw |].
  intros a n c. rewrite lookup_empty. split; [intros E; discriminate E | intros [Ho _]; destruct (Hno _ _ Ho)].
Qed.

Lemma demo_page : h_allocate PAGE_SIZE heap0 <> Some (0, heap0).
Proof.
  assert (E' : (fst <$> allocate PAGE_SIZE heap0) <> Some 0) by (vm_compute; congruence).
  intros E. apply E'. change (h_allocate PAGE_SIZE heap0) with (allocate PAGE_SIZE heap0) in E. rewrite E. reflexivity.
Qed.

Definition demo_layout : layout :=
  Layout 0xffffffc081000000 0xffffffc081001000 0xffffffc081002000 0xffffffc081000000 0x10000 0xffffffc010000000 0.

Lemma demo_layout_ok : layout_ok demo_layout.
Proof.
  assert (Hd : forall z, z mod 4096 = 0 -> (PAGE_SIZE | z)) by (intros z Hz; apply Z.mod_divide; [| exact Hz]; rewrite PAGE_SIZE_val; lia).
  split; cbn [demo_layout l_start l_text_end l_rodata_end l_pool_start l_pool_size l_uart_base l_plic_base]; unfold high_range, PAGE_OFFSET;
    rewrite ?PAGE_SIZE_val; try lia.
  - split_and!; try lia; rewrite <- PAGE_SIZE_val; apply Hd; reflexivity.
  - split_and!; try lia; rewrite <- PAGE_SIZE_val; apply Hd; reflexivity.
  - split_and!; try lia; rewrite <- PAGE_SIZE_val; apply Hd; reflexivity.
  - right. split_and!; try lia; rewrite <- PAGE_SIZE_val; apply Hd; reflexivity.
Qed.

(** A page is left after [mmu_init] and after the mapping of the witness. *)
Definition gives_page (vm : memory allocator) : bool :=
  match h_allocate PAGE_SIZE (heap vm) with Some (p, _) => negb (p =? 0) | None => true end.

Lemma gives_page_ok vm : gives_page vm = true -> ~ no_page (heap vm).
Proof. unfold gives_page, no_page. intros Hg E. rewrite E in Hg. discriminate Hg. Qed.

Lemma demo_init_pages pgd satp vm : mmu_init demo_layout demo_vm = Some (pgd, satp, vm) -> ~ no_page (heap vm).
Proof.
  assert (E : (gives_page ∘ snd) <$> mmu_init demo_layout demo_vm = Some true) by (vm_compute; reflexivity).
  intros E'. rewrite E' in E. apply gives_page_ok. injection E as E. exact E.
Qed.

Lemma demo_map_pages pgd vm vm' : new_page demo_vm = Some (Some pgd, vm) ->
  map_pages_at pgd 0x1000 0x81001000 0x2000 (flags [PTE_V; PTE_R; PTE_U]) vm = Some vm' -> ~ no_page (heap vm').
Proof.
  assert (E : ('(p, vm) ← new_page demo_vm; pgd ← p;
    gives_page <$> map_pages_at pgd 0x1000 0x81001000 0x2000 (flags [PTE_V; PTE_R; PTE_U]) vm) = Some true) by (vm_compute; reflexivity).
  intros E1 E2. rewrite E1 in E. cbn [mbind option_bind] in E. rewrite E2 in E. apply gives_page_ok. injection E as E. exact E.
Qed.

#[local] Opaque heap0.

Lemma mmu_init_linear_witness :
  exists pgd vm', mmu_init demo_layout demo_vm = Some (pgd, MAKE_SATP (pgd ⊟ PAGE_OFFSET), vm') /\ tables_ok pgd vm' /\
    sv39 (mem vm') pgd 0xffffffc081000123 = Some (0x81000123, flags [PTE_V; PTE_R; PTE_X; PTE_A; PTE_G]) /\
    sv39 (mem vm') pgd 0xffffffc081004567 = Some (0x81004567, flags [PTE_V; PTE_R; PTE_W; PTE_A; PTE_D; PTE_G]) /\
    sv39 (mem vm') pgd 0xffffffc087000008 = Some (0x87000008, PROT_MMIO) /\
    sv39 (mem vm') pgd 0xffffffc010000005 = Some (0x10000005, PROT_MMIO) /\
    sv39 (mem vm') pgd 0xffffffc0c0000000 = None.
Proof.
  destruct (mmu_init_linear demo_layout demo_vm ∅ demo_layout_ok heap0_owns demo_page) as (pgd & vm' & E & Ht & Hm & _).
  pose proof (demo_init_pages _ _ _ E) as Hn. exists pgd, vm'. split; [exact E |]. split; [exact Ht |].
  assert (Hat : forall x, canonical x -> sv39 (mem vm') pgd x = (fun f => (x - PAGE_OFFSET, f)) <$> flags_in (kernel_ranges demo_layout) x).
  { intros x Hx. destruct (Hm x Hx) as [E' | [_ Hf]]; [exact E' | destruct (Hn Hf)]. }
  split_and!; (rewrite Hat by (right; lia); vm_compute; reflexivity).
Defined.

Lemma map_pages_at_translates_witness :
  exists pgd vm vm', new_page demo_vm = Some (Some pgd, vm) /\
    map_pages_at pgd 0x1000 0x81001000 0x2000 (flags [PTE_V; PTE_R; PTE_U]) vm = Some vm' /\
    sv39 (mem vm') pgd 0x2010 = Some (0x81002010, 19).
Proof.
  destruct (new_page_ok demo_vm ∅ heap0_owns) as [E | (pgd & vm0 & n & E & Ho0 & Hnew & Hn & Hd & H0 & He & Em)].
  { exfalso. assert (E' : is_Some ('(p, _) ← new_page demo_vm; p)) by (vm_compute; eexists; reflexivity).
    rewrite E in E'. destruct E' as [? E']. discriminate E'. }
  destruct (fresh_pgd_ok (mem demo_vm) pgd Hd H0 ltac:(lia)) as [Hok _]. rewrite <- Em in Hok.
  destruct (map_pages_at_translates pgd vm0 (<[pgd := (n, 1)]> ∅) {[ [] := pgd ]} 0x1000 0x81001000 0x2000 (flags [PTE_V; PTE_R; PTE_U]))
    as (vm' & T' & mm' & E' & _ & _ & _ & _ & _ & _ & _ & _ & Hin & _); [exact Ho0 | exact Hok | | lia | lia | by exists 1 | by exists 2 | rewrite PAGE_SIZE_val; lia |
      intros x Hx; left; lia | lia | by exists 0x81001 | rewrite PAGE_SIZE_val; lia | vm_compute; split; congruence | reflexivity | reflexivity |].
  { intros p q [<- <-]%lookup_singleton_Some. exists n, 1. rewrite lookup_insert_eq. split; [reflexivity | exact Hn]. }
  exists pgd, vm0, vm'. split; [exact E |]. split; [exact E' |].
  destruct (Hin 0x2010 ltac:(lia)) as [Hm | (_ & _ & Hno)]; [exact Hm | destruct (demo_map_pages _ _ _ E E' Hno)].
Defined.

Lemma setup_vm_translates_witness :
  exists m1 m2, setup_vm 0x80201000 0x80200000 ∅ = Some (PAGE_OFFSET, MAKE_SATP 0x80201000, m1) /\
    drop_identity_map 0x80201000 m1 = Some m2 /\ sv39 m1 0x80201000 0x80200000 = Some (0x80200000, PROT_KERNEL) /\
    sv39 m2 0x80201000 (PAGE_OFFSET + 0x80200000) = Some (0x80200000, PROT_KERNEL) /\ sv39 m2 0x80201000 0x80200000 = None.
Proof.
  destruct (setup_vm_translates 0x80201000 0x80200000 ∅ ltac:(lia)) as (m1 & m2 & E1 & E2 & Hh & Hi & Hn).
  exists m1, m2. split; [exact E1 |]. split; [exact E2 |]. split; [apply Hi; [lia | reflexivity] |].
  split; [apply (Hh 0x80200000); lia | apply Hn; lia].
Defined.
