(* ===== verification/PgdProps.v ===== *)
(** * Properties of address spaces: release ([free_pgd]) and duplication
    ([copy_pgd])

    What a release gives back is a list of addresses, the [footprint]; what a
    duplication retains is the list of the pages that are mapped. *)

From S2P Require Import Prelude Config Heap Mmu MmuProofs MmuProps.

(** ** Counting *)

Definition cnt (p : Z) (l : list Z) : Z := Z.of_nat (length (filter (fun q => q = p) l)).

Lemma cnt_cons p q l : cnt p (q :: l) = (if decide (q = p) then 1 else 0) + cnt p l.
Proof. unfold cnt. rewrite filter_cons. destruct (decide (q = p)); cbn [length]; lia. Qed.

Lemma cnt_app p l l' : cnt p (l ++ l') = cnt p l + cnt p l'.
Proof. unfold cnt. rewrite filter_app, length_app. lia. Qed.

Lemma cnt_nonneg p l : 0 <= cnt p l.
Proof. unfold cnt. lia. Qed.

Lemma cnt_elem p l : p ∈ l <-> 0 < cnt p l.
Proof.
  induction l as [| q l IH].
  - split; [by intros ?%elem_of_nil | by intros ?].
  - rewrite cnt_cons, elem_of_cons, IH. pose proof (cnt_nonneg p l). destruct (decide (q = p)) as [-> |]; [| naive_solver lia]. split; [lia | by left].
Qed.

Lemma cnt_none p l : p ∉ l -> cnt p l = 0.
Proof. rewrite cnt_elem. pose proof (cnt_nonneg p l). lia. Qed.

Lemma cnt_NoDup p l : NoDup l -> p ∈ l -> cnt p l = 1.
Proof.
  induction 1 as [| q l Hq Hl IH]; [by intros ?%elem_of_nil |]. rewrite cnt_cons. intros [-> | Hp]%elem_of_cons.
  - rewrite decide_True by done. by rewrite cnt_none.
  - rewrite decide_False by (intros ->; done). by rewrite IH.
Qed.

(** The concatenation of [F i], [F (i + 1)], ... [n] times. *)
Definition flat (F : Z -> list Z) (i : Z) (n : nat) : list Z := seqZ i (Z.of_nat n) ≫= F.

Lemma flat_0 F i : flat F i 0 = [].
Proof. done. Qed.

Lemma flat_S F i n : flat F i (S n) = F i ++ flat F (i + 1) n.
Proof. unfold flat. rewrite seqZ_cons by lia. rewrite bind_cons. unfold Z.succ. by replace (Z.pred (Z.of_nat (S n))) with (Z.of_nat n) by lia. Qed.

Lemma flat_app F i n n' : flat F i (n + n') = flat F i n ++ flat F (i + Z.of_nat n) n'.
Proof. unfold flat. rewrite Nat2Z.inj_add, seqZ_app by lia. by rewrite bind_app. Qed.

Lemma flat_elem F i n x : x ∈ flat F i n <-> exists j, i <= j < i + Z.of_nat n /\ x ∈ F j.
Proof. unfold flat. rewrite list_elem_of_bind. setoid_rewrite elem_of_seqZ. naive_solver. Qed.

Lemma flat_nil F i n : (forall j, i <= j < i + Z.of_nat n -> F j = []) -> flat F i n = [].
Proof.
  intros H. destruct (flat F i n) as [| x l] eqn:E; [done |]. exfalso. assert (Hx : x ∈ flat F i n) by (rewrite E; by left).
  apply flat_elem in Hx as (j & Hj & Hx). rewrite H in Hx by done. by apply elem_of_nil in Hx.
Qed.

Lemma flat_ext F G i n : (forall j, i <= j < i + Z.of_nat n -> F j = G j) -> flat F i n = flat G i n.
Proof.
  revert i. induction n as [| n IH]; intros i H; [done |]. rewrite !flat_S, (H i) by lia. f_equal. apply IH. intros j Hj. apply H. lia.
Qed.

Lemma flat_cnt_add p F G K i n : (forall j, i <= j < i + Z.of_nat n -> cnt p (F j) = cnt p (G j) + cnt p (K j)) ->
  cnt p (flat F i n) = cnt p (flat G i n) + cnt p (flat K i n).
Proof.
  revert i. induction n as [| n IH]; intros i H; [done |]. rewrite !flat_S, !cnt_app, (H i) by lia. rewrite IH by (intros j Hj; apply H; lia). lia.
Qed.

(** A loop of loops. *)
Lemma flat_flat F a b i : 0 <= i -> flat F (i * Z.of_nat b) (a * b) = flat (fun j => flat F (j * Z.of_nat b) b) i a.
Proof.
  revert i. induction a as [| a IH]; intros i Hi; [done |]. rewrite flat_S. cbn [Nat.mul]. rewrite flat_app. f_equal.
  rewrite <- IH by lia. f_equal. lia.
Qed.

(** ** Release *)

Section Release.
Context {H : Type} {HO : HeapOps H} {HS : HeapSpec H}.
Implicit Types (vm : memory H) (mm : gmap Z (Z * Z)) (T : tables).

Fixpoint free_all (l : list Z) (h : H) : option H :=
  match l with [] => Some h | p :: l => h ← h_free p h; free_all l h end.

Lemma free_all_app l l' h : free_all (l ++ l') h = (h ← free_all l h; free_all l' h).
Proof.
  revert h. induction l as [| p l IH]; intros h; [done |]. cbn [free_all app]. destruct (h_free p h) as [h' |]; [| done]. cbn [mbind option_bind]. apply IH.
Qed.

(** [mm'] is [mm] less one reference for each occurrence in [l]. *)
Definition released (l : list Z) mm mm' : Prop :=
  forall p, mm' !! p = match mm !! p with Some (n, c) => if c <=? cnt p l then None else Some (n, c - cnt p l) | None => None end.

(** Every occurrence in [l] is a reference that [mm] counts. *)
Definition counted (l : list Z) mm : Prop := forall p, p ∈ l -> exists n c, mm !! p = Some (n, c) /\ cnt p l <= c.

Lemma free_all_ok l : forall h mm mm', owns h mm -> counted l mm -> released l mm mm' -> exists h', free_all l h = Some h' /\ owns h' mm'.
Proof.
  induction l as [| p l IH]; intros h mm mm' Ho Hc Hr; cbn [free_all].
  - exists h. split; [done |]. assert (mm' = mm) as ->; [| done]. apply map_eq. intros p. rewrite Hr.
    destruct (mm !! p) as [[n c] |] eqn:E; [| done]. destruct (owns_bounds _ _ _ _ _ Ho E) as (_ & _ & _ & ? & _).
    change (cnt p []) with 0. destruct (Z.leb_spec c 0); [lia |]. do 2 f_equal. lia.
  - destruct (Hc p) as (n & c & E & Hcnt); [by left |]. rewrite cnt_cons, decide_True in Hcnt by done.
    destruct (owns_bounds _ _ _ _ _ Ho E) as (_ & _ & _ & Hc1 & _). pose proof (cnt_nonneg p l).
    set (mm1 := if decide (c = 1) then delete p mm else <[p := (n, c - 1)]> mm).
    assert (Hstep : exists h1, h_free p h = Some h1 /\ owns h1 mm1).
    { subst mm1. destruct (decide (c = 1)) as [-> |]; [by apply (owns_free _ _ _ n) | apply (owns_unshare _ _ _ n c); [done | done | lia]]. }
    destruct Hstep as (h1 & -> & Ho1). cbn [mbind option_bind].
    assert (Hne : forall q, q <> p -> mm1 !! q = mm !! q) by (intros q ?; subst mm1; case_decide; [by rewrite lookup_delete_ne | by rewrite lookup_insert_ne]).
    assert (Hp : mm1 !! p = if decide (c = 1) then None else Some (n, c - 1)) by (subst mm1; case_decide; [by rewrite lookup_delete_eq | by rewrite lookup_insert_eq]).
    apply (IH h1 mm1 mm' Ho1).
    + intros q Hq. destruct (decide (q = p)) as [-> | Hqp].
      * rewrite Hp. apply cnt_elem in Hq. rewrite decide_False by lia. exists n, (c - 1). split; [done | lia].
      * rewrite Hne by done. destruct (Hc q) as (n' & c' & Eq & Hq'); [by right |]. rewrite cnt_cons, decide_False in Hq' by congruence. by exists n', c'.
    + intros q. rewrite Hr. destruct (decide (q = p)) as [-> | Hqp].
      * rewrite E, Hp, cnt_cons, decide_True by done. destruct (decide (c = 1)) as [-> | Hc'].
        -- by destruct (Z.leb_spec 1 (1 + cnt p l)); [| lia].
        -- destruct (Z.leb_spec c (1 + cnt p l)), (Z.leb_spec (c - 1) (cnt p l)); try lia; [done |]. do 2 f_equal. lia.
      * rewrite Hne by done. rewrite cnt_cons, decide_False by congruence. done.
Qed.

Definition release_in (l : list Z) vm : option (memory H) := h ← free_all l (heap vm); Some (set_heap h vm).

Lemma release_in_app l l' vm : release_in (l ++ l') vm = (vm ← release_in l vm; release_in l' vm).
Proof.
  unfold release_in. rewrite free_all_app. destruct (free_all l (heap vm)) as [h |]; [| done]. cbn [mbind option_bind set_heap heap].
  by destruct (free_all l' h).
Qed.

Lemma release_in_mem l vm vm' : release_in l vm = Some vm' -> mem vm' = mem vm.
Proof. unfold release_in. destruct (free_all l (heap vm)); [| done]. by intros [= <-]. Qed.

Lemma release_in_one p vm : free_vm p vm = release_in [p] vm.
Proof. unfold free_vm, release_in, free_all. by destruct (h_free p (heap vm)). Qed.

Lemma release_in_nil vm : release_in [] vm = Some vm.
Proof. by destruct vm. Qed.

(** A loop of releases. *)
Lemma for_range_release m F body n i vm :
  (forall j vm', i <= j < i + Z.of_nat n -> mem vm' = m -> body j vm' = release_in (F j) vm') -> mem vm = m ->
  for_range n i body vm = release_in (flat F i n) vm.
Proof.
  revert i vm. induction n as [| n IH]; intros i vm Hb Hm; cbn [for_range]; [by rewrite flat_0, release_in_nil |].
  rewrite flat_S, release_in_app, Hb by (lia || done). destruct (release_in (F i) vm) as [vm' |] eqn:E; [| done]. cbn [mbind option_bind].
  apply IH; [intros j vm1 Hj; apply Hb; lia |]. by rewrite (release_in_mem _ _ _ E).
Qed.

(** What [free_pgd] gives back, in its order. *)
Definition leaf_page (m : gmap Z Z) (pt k : Z) : list Z :=
  match m !! word pt k with Some w => if has w PTE_V then [pte_page w] else [] | None => [] end.
Definition pt_objects m T (i j : Z) : list Z :=
  match T !! [i; j] with Some pt => flat (leaf_page m pt) 0 512 ++ [pt] | None => [] end.
Definition pmd_objects m T (i : Z) : list Z :=
  match T !! [i] with Some pmd => flat (pt_objects m T i) 0 512 ++ [pmd] | None => [] end.
Definition footprint m pgd T : list Z := flat (pmd_objects m T) 0 256 ++ [pgd].

Lemma free_leaf_release m pgd T p pt k vm : pt_ok m pgd T -> T !! p = Some pt -> length p = 2%nat -> 0 <= k < 512 -> mem vm = m ->
  free_leaf pt k vm = release_in (leaf_page m pt k) vm.
Proof.
  intros Hok Hp Hl Hk Hm. unfold free_leaf, leaf_page. rewrite Hm. destruct (pt_leaf _ _ _ Hok p pt k Hp Hl Hk) as [w ->]. cbn [mbind option_bind].
  destruct (has w PTE_V); [apply release_in_one | by rewrite release_in_nil].
Qed.

(** The two upper levels are alike. *)
Lemma free_level_release m pgd T p q i F n body vm : pt_ok m pgd T -> T !! p = Some q -> (length p < 2)%nat -> 0 <= i < 512 -> mem vm = m ->
  (forall q' vm', T !! (p ++ [i]) = Some q' -> mem vm' = m -> for_range n 0 (body q') vm' = release_in (F q') vm') ->
  (w ← mem vm !! word q i; if has w PTE_V then vm ← for_range n 0 (body (pte_page w)) vm; free_vm (pte_page w) vm else Some vm) =
  release_in (match T !! (p ++ [i]) with Some q' => F q' ++ [q'] | None => [] end) vm.
Proof.
  intros Hok Hp Hl Hi Hm Hb. pose proof (pt_entry _ _ _ Hok p q i Hp Hi Hl) as He. rewrite Hm.
  destruct (T !! (p ++ [i])) as [q' |] eqn:E.
  - rewrite He. cbn [mbind option_bind]. destruct (pt_page _ _ _ Hok _ _ E) as (Hd & H0 & Hend). destruct (table_not_leaf q' Hd H0 Hend) as (-> & _ & ->).
    rewrite Hb by done. rewrite release_in_app. destruct (release_in (F q') vm) as [vm' |]; [| done]. cbn [mbind option_bind]. apply release_in_one.
  - destruct He as (w & -> & Hw). cbn [mbind option_bind]. by rewrite Hw, release_in_nil.
Qed.

Lemma free_pt_release m pgd T i pmd j vm : pt_ok m pgd T -> T !! [i] = Some pmd -> 0 <= j < 512 -> mem vm = m ->
  free_pt pmd j vm = release_in (pt_objects m T i j) vm.
Proof.
  intros Hok Hi Hj Hm. unfold free_pt, pt_objects.
  rewrite (free_level_release m pgd T [i] pmd j (fun pt => flat (leaf_page m pt) 0 512) 512 free_leaf vm Hok Hi ltac:(simpl; lia) Hj Hm); [done |].
  intros pt vm' Hpt Hm'. apply (for_range_release m); [| done]. intros k vm1 Hk Hm1. by eapply free_leaf_release.
Qed.

Lemma free_pmd_release m pgd T i vm : pt_ok m pgd T -> 0 <= i < 256 -> mem vm = m -> free_pmd pgd i vm = release_in (pmd_objects m T i) vm.
Proof.
  intros Hok Hi Hm. unfold free_pmd, pmd_objects.
  rewrite (free_level_release m pgd T [] pgd i (fun pmd => flat (pt_objects m T i) 0 512) 512 free_pt vm Hok (pt_root _ _ _ Hok) ltac:(simpl; lia) ltac:(lia) Hm);
    [done |].
  intros pmd vm' Hpmd Hm'. apply (for_range_release m); [| done]. intros k vm1 Hk Hm1. by eapply free_pt_release.
Qed.

Lemma free_pgd_release m pgd T vm : pt_ok m pgd T -> mem vm = m -> free_pgd pgd vm = release_in (footprint m pgd T) vm.
Proof.
  intros Hok Hm. unfold free_pgd, footprint. rewrite release_in_app, (for_range_release m (pmd_objects m T)); [| | done].
  - destruct (release_in _ vm) as [vm' |]; [| done]. cbn [mbind option_bind]. apply release_in_one.
  - intros j vm' Hj Hm'. by apply free_pmd_release.
Qed.

Lemma free_pgd_ok m pgd T vm mm mm' : pt_ok m pgd T -> mem vm = m -> owns (heap vm) mm -> counted (footprint m pgd T) mm -> released (footprint m pgd T) mm mm' ->
  exists vm', free_pgd pgd vm = Some vm' /\ owns (heap vm') mm' /\ mem vm' = m.
Proof.
  intros Hok Hm Ho Hc Hr. rewrite (free_pgd_release m pgd T) by done. unfold release_in.
  destruct (free_all_ok _ _ _ _ Ho Hc Hr) as (h' & -> & Ho'). cbn [mbind option_bind]. eexists. split; [done |]. by split.
Qed.

End Release.

(** ** The pages and the tables of an address space *)

Section Pages.
Implicit Types (m : gmap Z Z) (T : tables).

(** The page mapped at the virtual page [v], and those below [N], in order. *)
Definition mapped m T (v : Z) : list Z := let w := pte_of m T (v * 4096) in if has w PTE_V then [pte_page w] else [].
Definition pages m T (N : Z) : list Z := flat (mapped m T) 0 (Z.to_nat N).

Definition USER_PAGES : Z := 2 ^ 26.

(** The root and the tables of the user half. *)
Definition tables_at T (i : Z) : list Z := flat (fun j => option_list (T !! [i; j])) 0 512 ++ option_list (T !! [i]).
Definition user_tables T : list Z := flat (tables_at T) 0 256 ++ option_list (T !! []).

Lemma vpn_page v : 0 <= v -> vpn2 (v * 4096) = v / 2 ^ 18 mod 512 /\ vpn1 (v * 4096) = v / 2 ^ 9 mod 512 /\ vpn0 (v * 4096) = v mod 512.
Proof.
  intros Hv. destruct (vpn_split (v * 4096)) as (-> & -> & ->); [lia |]. change 4096 with (2 ^ 12).
  change (2 ^ 30) with (2 ^ 12 * 2 ^ 18). change (2 ^ 21) with (2 ^ 12 * 2 ^ 9).
  rewrite <- !Z.div_div, !Z.div_mul by lia. done.
Qed.

Lemma mapped_at m T i j k : 0 <= i < 512 -> 0 <= j < 512 -> 0 <= k < 512 ->
  mapped m T ((i * 512 + j) * 512 + k) = match T !! [i; j] with Some pt => leaf_page m pt k | None => [] end.
Proof.
  intros Hi Hj Hk. unfold mapped, pte_of, leaf_page. destruct (vpn_page ((i * 512 + j) * 512 + k)) as (-> & -> & ->); [lia |].
  replace (((i * 512 + j) * 512 + k) / 2 ^ 18 mod 512) with i by dlia. replace (((i * 512 + j) * 512 + k) / 2 ^ 9 mod 512) with j by dlia.
  replace (((i * 512 + j) * 512 + k) mod 512) with k by dlia. destruct (T !! [i; j]) as [pt |]; [| done]. by destruct (m !! word pt k).
Qed.

Lemma flat_shift F i b n : flat F (i + b) n = flat (fun k => F (i + k)) b n.
Proof.
  revert b. induction n as [| n IH]; intros b; [done |]. rewrite !flat_S. f_equal. rewrite <- IH. f_equal. lia.
Qed.

Lemma pages_split m T : pages m T USER_PAGES =
  flat (fun i => flat (fun j => match T !! [i; j] with Some pt => flat (leaf_page m pt) 0 512 | None => [] end) 0 512) 0 256.
Proof.
  unfold pages. replace (Z.to_nat USER_PAGES) with (256 * Z.to_nat 262144)%nat by (unfold USER_PAGES; lia).
  change 0 with (0 * Z.of_nat (Z.to_nat 262144)) at 1. rewrite flat_flat by lia. apply flat_ext. intros i Hi.
  replace (Z.to_nat 262144) with (512 * 512)%nat at 2 by lia.
  replace (i * Z.of_nat (Z.to_nat 262144)) with (i * 512 * Z.of_nat 512) by lia. rewrite flat_flat by lia.
  rewrite <- (Z.add_0_r (i * 512)), flat_shift. apply flat_ext. intros j Hj.
  rewrite <- (Z.add_0_r ((i * 512 + j) * Z.of_nat 512)), flat_shift.
  etrans; [apply (flat_ext _ (fun k => match T !! [i; j] with Some pt => leaf_page m pt k | None => [] end)); intros k Hk; apply (mapped_at m T i j k); lia |].
  destruct (T !! [i; j]); [done | by apply flat_nil].
Qed.

Lemma footprint_cnt m pgd T p : pt_ok m pgd T -> cnt p (footprint m pgd T) = cnt p (pages m T USER_PAGES) + cnt p (user_tables T).
Proof.
  intros Hok. rewrite pages_split. unfold footprint, user_tables. rewrite (pt_root _ _ _ Hok), !cnt_app. cbn [option_list].
  rewrite Z.add_assoc. f_equal. apply flat_cnt_add. intros i Hi. unfold pmd_objects, tables_at. rewrite cnt_app.
  destruct (T !! [i]) as [pmd |] eqn:Ei.
  - rewrite cnt_app, Z.add_assoc. cbn [option_list]. f_equal. apply flat_cnt_add. intros j Hj. unfold pt_objects.
    destruct (T !! [i; j]); [by rewrite cnt_app | done].
  - assert (Hn : forall j, T !! [i; j] = None).
    { intros j. destruct (T !! [i; j]) as [q |] eqn:E; [| done]. destruct (pt_path _ _ _ Hok [i] j q E) as [[x Hx] _]. congruence. }
    rewrite !flat_nil; [done | |]; intros j Hj; by rewrite Hn.
Qed.

Lemma option_list_elem (o : option Z) x : x ∈ option_list o <-> o = Some x.
Proof. destruct o as [y |]; cbn; [rewrite list_elem_of_singleton; naive_solver | split; [by intros ?%elem_of_nil | done]]. Qed.

(** Paths of the root and the user half. *)
Definition user_path (p : list Z) : Prop := match p with [] => True | i :: _ => i < 256 end.

#[export] Instance user_path_dec p : Decision (user_path p).
Proof. destruct p; cbn; apply _. Defined.

Lemma user_tables_elem m pgd T p : pt_ok m pgd T -> p ∈ user_tables T <-> exists path, T !! path = Some p /\ user_path path.
Proof.
  intros Hok. assert (Hlen : forall i j r q, T !! (i :: j :: r) = Some q -> r = []).
  { intros i j r q Hq. destruct r as [| x0 r0]; [done |]. exfalso. destruct (exists_last (l := x0 :: r0)) as (r' & x & Er); [done |]. rewrite Er in Hq.
    destruct (pt_path _ _ _ Hok (i :: j :: r') x q Hq) as (_ & _ & Hl). cbn in Hl. lia. }
  unfold user_tables, tables_at. rewrite elem_of_app, flat_elem. setoid_rewrite elem_of_app. setoid_rewrite flat_elem. setoid_rewrite option_list_elem. split.
  - intros [(i & Hi & [(j & Hj & E) | E]) | E]; eexists; (split; [exact E |]); cbn; lia || done.
  - intros (path & E & Hu). destruct path as [| i [| j r]]; [by right | left | left].
    + destruct (pt_path _ _ _ Hok [] i p E) as (_ & ? & _). cbn in Hu. exists i. split; [lia | by right].
    + pose proof (Hlen _ _ _ _ E) as ->. destruct (pt_path _ _ _ Hok [i] j p E) as ([q Hq] & ? & _).
      destruct (pt_path _ _ _ Hok [] i q Hq) as (_ & ? & _). cbn in Hu. exists i. split; [lia |]. left. exists j. split; [lia | done].
Qed.

Lemma flat_NoDup F i n : (forall j, i <= j < i + Z.of_nat n -> NoDup (F j)) ->
  (forall j j' x, x ∈ F j -> x ∈ F j' -> j = j') -> NoDup (flat F i n).
Proof.
  intros Hd Hi. unfold flat. apply NoDup_bind; [intros j j' x _ _; apply Hi | intros j Hj%elem_of_seqZ; by apply Hd | apply NoDup_seqZ].
Qed.

Lemma user_tables_NoDup m pgd T : pt_ok m pgd T -> NoDup (user_tables T).
Proof.
  intros Hok. assert (Hd : forall o : option Z, NoDup (option_list o)) by (intros [x |]; [apply NoDup_singleton | constructor]).
  assert (Hin : forall i x, x ∈ tables_at T i -> exists r, T !! (i :: r) = Some x).
  { intros i x. unfold tables_at. rewrite elem_of_app, flat_elem. intros [(j & _ & E%option_list_elem) | E%option_list_elem]; by eexists. }
  unfold user_tables. apply NoDup_app. split_and!.
  - apply flat_NoDup.
    + intros i _. unfold tables_at. apply NoDup_app. split_and!; [| | done].
      * apply flat_NoDup; [intros; apply Hd |]. intros j j' x E%option_list_elem E'%option_list_elem. by pose proof (pt_inj _ _ _ Hok _ _ _ E E') as [= ->].
      * intros x (j & _ & E%option_list_elem)%flat_elem E'%option_list_elem. by pose proof (pt_inj _ _ _ Hok _ _ _ E E').
    + intros i i' x (r & E)%Hin (r' & E')%Hin. by pose proof (pt_inj _ _ _ Hok _ _ _ E E') as [= -> _].
  - intros x (i & _ & (r & E)%Hin)%flat_elem E'%option_list_elem. by pose proof (pt_inj _ _ _ Hok _ _ _ E E').
  - done.
Qed.

Lemma pages_S m T N : 0 <= N -> pages m T (N + 1) = pages m T N ++ mapped m T N.
Proof.
  intros HN. unfold pages. replace (Z.to_nat (N + 1)) with (Z.to_nat N + 1)%nat by lia. rewrite flat_app, flat_S, flat_0, app_nil_r. do 2 f_equal. lia.
Qed.

Lemma pages_skip m T N N' : 0 <= N <= N' -> (forall v, N <= v < N' -> mapped m T v = []) -> pages m T N' = pages m T N.
Proof.
  intros HN Hm. unfold pages. replace (Z.to_nat N') with (Z.to_nat N + Z.to_nat (N' - N))%nat by lia. rewrite flat_app, (flat_nil _ (0 + _)), app_nil_r; [done |].
  intros j Hj. apply Hm. lia.
Qed.

Lemma pages_elem m T N p : p ∈ pages m T N <-> exists v, 0 <= v < N /\ has (pte_of m T (v * 4096)) PTE_V = true /\ p = pte_page (pte_of m T (v * 4096)).
Proof.
  unfold pages. rewrite flat_elem. split.
  - intros (v & Hv & Hp). exists v. unfold mapped in Hp. cbv zeta in Hp. destruct (has (pte_of m T (v * 4096)) PTE_V); [apply list_elem_of_singleton in Hp; split; [lia | by split] | by apply elem_of_nil in Hp].
  - intros (v & Hv & Hb & ->). exists v. split; [lia |]. unfold mapped. rewrite Hb. by left.
Qed.
End Pages.
