(* ===== verification/PgdCopy.v ===== *)
(** * The duplication of an address space: [copy_pgd]

    The loops of the code visit the virtual pages of the user half in order; the
    invariant [copying] says what holds when those below [N] are done. *)

From S2P Require Import Prelude Config Heap Mmu MmuProofs MmuProps PgdProps.

(** ** Entries *)

Definition NOT_W : Z := Z.lxor (2 ^ 64 - 1) PTE_W.

(** The entry of the parent afterwards, and that of the child. *)
Definition cow_pte (w : Z) : Z := if has w PTE_V then Z.land w NOT_W else w.
Definition child_pte (w : Z) : Z := if has w PTE_V then Z.land w NOT_W else 0.

Lemma not_w_bits n : 0 <= n -> Z.testbit NOT_W n = (n <? 64) && negb (n =? 2).
Proof.
  intros Hn. unfold NOT_W. change PTE_W with (2 ^ 2). change (2 ^ 64 - 1) with (Z.ones 64).
  rewrite Z.lxor_spec, Z.testbit_ones_nonneg, Z.pow2_bits_eqb by lia. rewrite (Z.eqb_sym 2 n). destruct (Z.ltb_spec n 64), (Z.eqb_spec n 2); (done || lia).
Qed.

Lemma land_not_w w f : 0 <= w < 2 ^ 64 -> Z.land f PTE_W = 0 -> 0 <= f -> Z.land (Z.land w NOT_W) f = Z.land w f.
Proof.
  intros Hw Hf Hf0. rewrite <- Z.land_assoc. apply Z.bits_inj'. intros n Hn. rewrite !Z.land_spec, not_w_bits by lia.
  destruct (Z.eqb_spec n 2) as [-> |].
  - assert (E : Z.testbit (Z.land f PTE_W) 2 = false) by (rewrite Hf; apply Z.bits_0). rewrite Z.land_spec in E. change (Z.testbit PTE_W 2) with true in E.
    rewrite andb_true_r in E. rewrite E. by rewrite !andb_false_r.
  - destruct (Z.ltb_spec n 64); [done |]. rewrite (Z.bits_above_log2 w n); [done | lia |].
    destruct (decide (w = 0)) as [-> |]; [cbn; lia |]. apply Z.lt_le_trans with 64; [apply Z.log2_lt_pow2; lia | lia].
Qed.

Lemma has_not_w w f : 0 <= w < 2 ^ 64 -> Z.land f PTE_W = 0 -> 0 <= f -> has (Z.land w NOT_W) f = has w f.
Proof. intros. unfold has. by rewrite land_not_w. Qed.

Lemma not_w_range w : 0 <= w < 2 ^ 64 -> 0 <= Z.land w NOT_W < 2 ^ 64.
Proof.
  intros Hw. assert (E : Z.land w NOT_W = Z.land w NOT_W mod 2 ^ 64).
  { apply Z.bits_inj'. intros n Hn. rewrite (Z.testbit_mod_pow2) by lia. rewrite Z.land_spec, not_w_bits by lia.
    by destruct (Z.ltb_spec n 64), (Z.testbit w n), (negb (n =? 2)). }
  rewrite E. apply Z.mod_pos_bound. lia.
Qed.

Lemma not_w_shift w : 0 <= w < 2 ^ 64 -> Z.shiftr (Z.land w NOT_W) 10 = Z.shiftr w 10.
Proof.
  intros Hw. apply Z.bits_inj'. intros n Hn. rewrite !Z.shiftr_spec, Z.land_spec, not_w_bits by lia.
  destruct (Z.eqb_spec (n + 10) 2); [lia |]. destruct (Z.ltb_spec (n + 10) 64); [by rewrite andb_true_r |].
  rewrite (Z.bits_above_log2 w); [done | lia |]. destruct (decide (w = 0)) as [-> |]; [cbn; lia |].
  apply Z.lt_le_trans with 64; [apply Z.log2_lt_pow2; lia | lia].
Qed.

Lemma not_w_page w : 0 <= w < 2 ^ 64 -> pte_page (Z.land w NOT_W) = pte_page w.
Proof. intros Hw. unfold pte_page. by rewrite not_w_shift. Qed.

(** What the hardware makes of them: the same page, without W. *)
Definition read_only (o : option (Z * Z)) : option (Z * Z) := (fun '(pa, f) => (pa, Z.land f (1023 - PTE_W))) <$> o.

Lemma decode_not_w w va : 0 <= w < 2 ^ 64 -> decode (Z.land w NOT_W) va = read_only (decode w va).
Proof.
  intros Hw. unfold decode, is_leaf. rewrite !has_not_w by done. destruct (has w PTE_V && (has w PTE_R || has w PTE_X)); [| done].
  unfold leaf_at, read_only. cbn [fmap option_fmap option_map]. change 1024 with (2 ^ 10).
  rewrite <- !(Z.shiftr_div_pow2 _ 10), not_w_shift by lia. do 2 f_equal. rewrite <- !land_mask by lia. change (1023 - PTE_W) with 1019. change (2 ^ 10 - 1) with 1023.
  rewrite <- !Z.land_assoc. change (Z.land 1023 1019) with 1019. rewrite <- (land_not_w w 1019) by done. rewrite <- Z.land_assoc. done.
Qed.

Lemma decode_cow w va : 0 <= w < 2 ^ 64 -> decode (cow_pte w) va = read_only (decode w va).
Proof.
  intros Hw. unfold cow_pte. destruct (has w PTE_V) eqn:E; [by apply decode_not_w |]. unfold decode. by rewrite E.
Qed.

Lemma decode_child w va : 0 <= w < 2 ^ 64 -> decode (child_pte w) va = read_only (decode w va).
Proof.
  intros Hw. unfold child_pte. destruct (has w PTE_V) eqn:E; [by apply decode_not_w |]. unfold decode at 2. by rewrite E.
Qed.

#[local] Opaque zero_page.

(** ** The invariant of the loops *)

Section Copy.
Context {H : Type} {HO : HeapOps H} {HS : HeapSpec H}.
Implicit Types (vm : memory H) (mm : gmap Z (Z * Z)) (T : tables).

(** The address space [pgd], [T] before the copy, in the memory [m0]; its user
    pages are live objects of [mm0]. *)
Record source (m0 : gmap Z Z) pgd T (h0 : H) mm0 : Prop := {
  src_owns : owns h0 mm0;
  src_ok : pt_ok m0 pgd T;
  src_live : tables_live T mm0;
  src_page v : 0 <= v < USER_PAGES -> has (pte_of m0 T (v * 4096)) PTE_V = true ->
    0 <= pte_of m0 T (v * 4096) < 2 ^ 64 /\ exists n c, mm0 !! pte_page (pte_of m0 T (v * 4096)) = Some (n, c) /\ PAGE_SIZE <= n;
}.

Context (m0 : gmap Z Z) (pgd : Z) (T : tables) (h0 : H) (mm0 : gmap Z (Z * Z)) (new : Z).
Hypothesis Hsrc : source m0 pgd T h0 mm0.

(** The entries of the virtual page [v] when those below [N] are done. *)
Definition parent_entry (N v : Z) : Z := let w := pte_of m0 T (v * 4096) in if v <? N then cow_pte w else w.
Definition child_entry (N v : Z) : Z := let w := pte_of m0 T (v * 4096) in if v <? N then child_pte w else 0.

Record copying (N : Z) vm (T' : tables) mm' : Prop := {
  cp_owns : owns (heap vm) mm';
  cp_ok : pt_ok (mem vm) pgd T;
  cp_child : pt_ok (mem vm) new T';
  cp_live : tables_live T' mm';
  cp_user p q : T' !! p = Some q -> user_path p -> mm0 !! q = None;
  cp_kernel p : ~ user_path p -> T' !! p = T !! p;
  cp_pte v : 0 <= v < USER_PAGES -> pte_of (mem vm) T (v * 4096) = parent_entry N v /\ pte_of (mem vm) T' (v * 4096) = child_entry N v;
  cp_high va : 0 <= va -> 256 <= vpn2 va -> pte_of (mem vm) T va = pte_of m0 T va /\ pte_of (mem vm) T' va = pte_of m0 T va;
  cp_refs p n c : mm0 !! p = Some (n, c) -> mm' !! p = Some (n, c + cnt p (pages m0 T N));
  cp_tables p n c : mm0 !! p = None -> mm' !! p = Some (n, c) -> c = 1 /\ exists path, T' !! path = Some p /\ user_path path;
  cp_frame a : off_tables T a -> off_tables T' a -> mem vm !! a = m0 !! a;
}.

Implicit Types (N : Z).

(** A table of the child's user half lies apart from the tables of the parent. *)
Lemma child_apart N vm T' mm' p q p' q' : copying N vm T' mm' -> T !! p = Some q -> T' !! p' = Some q' -> user_path p' ->
  q' + PAGE_SIZE <= q \/ q + PAGE_SIZE <= q'.
Proof.
  intros Hc Hq Hq' Hu. destruct (src_live _ _ _ _ _ Hsrc p q Hq) as (n & c & Hn & Hs). destruct (cp_live _ _ _ _ Hc p' q' Hq') as (n' & c' & Hn' & Hs').
  pose proof (cp_user _ _ _ _ Hc p' q' Hq' Hu). pose proof (cp_refs _ _ _ _ Hc _ _ _ Hn) as Hr.
  destruct (owns_apart _ _ _ _ _ _ _ _ (cp_owns _ _ _ _ Hc) Hr Hn') as [-> | ?]; [congruence | lia].
Qed.

Lemma child_word N vm T' mm' p q p' q' a b : copying N vm T' mm' -> T !! p = Some q -> T' !! p' = Some q' -> user_path p' ->
  0 <= a < 512 -> 0 <= b < 512 -> word q a <> word q' b.
Proof. intros Hc Hq Hq' Hu Ha Hb. pose proof (child_apart _ _ _ _ _ _ _ _ Hc Hq Hq' Hu). unfold word. rewrite PAGE_SIZE_val in *. lia. Qed.

(** A table of the parent's user half is no table of the child. *)
Lemma parent_word N vm T' mm' p q p' q' a b : copying N vm T' mm' -> T !! p = Some q -> user_path p -> T' !! p' = Some q' ->
  0 <= a < 512 -> 0 <= b < 512 -> word q' b <> word q a.
Proof.
  intros Hc Hq Hu Hq' Ha Hb. destruct (decide (user_path p')) as [Hu' | Hk].
  - intros E. symmetry in E. revert E. by eapply child_word.
  - rewrite (cp_kernel _ _ _ _ Hc p' Hk) in Hq'. intros E. destruct (pt_word _ _ _ _ _ _ _ _ _ (cp_ok _ _ _ _ Hc) Hq' Hq Hb Ha E) as [-> _]. done.
Qed.

Lemma vpn_page_eq v v' : 0 <= v < 2 ^ 27 -> 0 <= v' < 2 ^ 27 -> vpn (v * 4096) = vpn (v' * 4096) -> v = v'.
Proof. intros Hv Hv'. unfold vpn. rewrite !Z.div_mul by lia. rewrite !Z.mod_small by lia. done. Qed.

Lemma user_vpn2 v : 0 <= v < USER_PAGES -> 0 <= vpn2 (v * 4096) < 256.
Proof. unfold USER_PAGES. intros Hv. destruct (vpn_page v) as (-> & _); [lia |]. change (2 ^ 26) with 67108864 in *. change (2 ^ 18) with 262144. dlia. Qed.

(** The stores into the entries of the page [N] in both trees. *)
Lemma store_both N vm T' mm' pt cpt w : copying N vm T' mm' -> 0 <= N < USER_PAGES ->
  let va := N * 4096 in T !! [vpn2 va; vpn1 va] = Some pt -> T' !! [vpn2 va; vpn1 va] = Some cpt ->
  let m' := <[word cpt (vpn0 va) := w]> (<[word pt (vpn0 va) := w]> (mem vm)) in
  pt_ok m' pgd T /\ pt_ok m' new T' /\ pte_of m' T va = w /\ pte_of m' T' va = w /\
  (forall va', 0 <= va' -> vpn va' <> vpn va -> pte_of m' T va' = pte_of (mem vm) T va' /\ pte_of m' T' va' = pte_of (mem vm) T' va') /\
  (forall a, off_tables T a -> off_tables T' a -> m' !! a = mem vm !! a).
Proof.
  intros Hc HN va Hpt Hcpt m'. assert (Hva : 0 <= va) by (subst va; lia). destruct (vpn_range va Hva) as (_ & _ & H0).
  assert (Hu : user_path [vpn2 va; vpn1 va]) by (cbn; pose proof (user_vpn2 N HN); subst va; lia).
  set (m1 := <[word pt (vpn0 va) := w]> (mem vm)) in *.
  destruct (store_leaf_ok pgd (mem vm) T va pt w (cp_ok _ _ _ _ Hc) Hpt Hva) as (Hok1 & Hat1 & Hout1). fold m1 in Hok1, Hat1, Hout1.
  destruct (pt_ok_frame (mem vm) m1 new T' (cp_child _ _ _ _ Hc)) as [Hok1' Hpte1'].
  { intros p q i Hq Hi. apply lookup_insert_ne, not_eq_sym. by eapply parent_word. }
  destruct (store_leaf_ok new m1 T' va cpt w Hok1' Hcpt Hva) as (Hok2' & Hat2 & Hout2). fold m' in Hok2', Hat2, Hout2.
  destruct (pt_ok_frame m1 m' pgd T Hok1) as [Hok2 Hpte2].
  { intros p q i Hq Hi. apply lookup_insert_ne, not_eq_sym. by eapply child_word. }
  split_and!; try done.
  - by rewrite Hpte2.
  - intros va' Hva' Hne. split; [by rewrite Hpte2, Hout1 | by rewrite Hout2, Hpte1'].
  - intros a Ha Ha'. subst m' m1. rewrite !lookup_insert_ne; [done | |]; intros <-; [apply (Ha _ _ Hpt) | apply (Ha' _ _ Hcpt)]; unfold word; rewrite PAGE_SIZE_val; lia.
Qed.

Lemma entry_next N v : v <> N -> parent_entry (N + 1) v = parent_entry N v /\ child_entry (N + 1) v = child_entry N v.
Proof. intros Hne. unfold parent_entry, child_entry. destruct (Z.ltb_spec v (N + 1)), (Z.ltb_spec v N); (done || lia). Qed.

Lemma entry_now N : parent_entry N N = pte_of m0 T (N * 4096) /\ child_entry N N = 0.
Proof. unfold parent_entry, child_entry. by rewrite Z.ltb_irrefl. Qed.

Lemma entry_done N : parent_entry (N + 1) N = cow_pte (pte_of m0 T (N * 4096)) /\ child_entry (N + 1) N = child_pte (pte_of m0 T (N * 4096)).
Proof. unfold parent_entry, child_entry. by destruct (Z.ltb_spec N (N + 1)); [| lia]. Qed.

(** A page that is not mapped. *)
Lemma copying_skip N vm T' mm' : copying N vm T' mm' -> 0 <= N < USER_PAGES -> has (pte_of m0 T (N * 4096)) PTE_V = false -> copying (N + 1) vm T' mm'.
Proof.
  intros [] HN Hv. assert (Ep : pages m0 T (N + 1) = pages m0 T N) by (rewrite pages_S by lia; unfold mapped; by rewrite Hv, app_nil_r).
  split; try done.
  - intros v Hvr. destruct (cp_pte0 v Hvr) as [E E']. destruct (decide (v = N)) as [-> | Hne].
    + rewrite E, E'. destruct (entry_now N) as [-> ->], (entry_done N) as [-> ->]. unfold cow_pte, child_pte. by rewrite Hv.
    + destruct (entry_next N v Hne) as [-> ->]. done.
  - intros p n c Hp. rewrite Ep. by apply cp_refs0.
Qed.

Lemma copying_jump N N' vm T' mm' : copying N vm T' mm' -> 0 <= N <= N' -> N' <= USER_PAGES ->
  (forall v, N <= v < N' -> has (pte_of m0 T (v * 4096)) PTE_V = false) -> copying N' vm T' mm'.
Proof.
  intros Hc HN HN' Hv. replace N' with (N + Z.of_nat (Z.to_nat (N' - N))) by lia.
  assert (Hb : Z.of_nat (Z.to_nat (N' - N)) <= N' - N) by lia. induction (Z.to_nat (N' - N)) as [| d IH]; [by rewrite Z.add_0_r |].
  replace (N + Z.of_nat (S d)) with (N + Z.of_nat d + 1) by lia. apply copying_skip; [apply IH; lia | lia | apply Hv; lia].
Qed.

(** The body of the inner loop. *)
Lemma copy_leaf_step N vm T' mm' pt cpt : copying N vm T' mm' -> 0 <= N < USER_PAGES ->
  let va := N * 4096 in T !! [vpn2 va; vpn1 va] = Some pt -> T' !! [vpn2 va; vpn1 va] = Some cpt ->
  exists vm' mm2, copy_leaf pt cpt (vpn0 va) vm = Some vm' /\ copying (N + 1) vm' T' mm2.
Proof.
  intros Hc HN va Hpt Hcpt. assert (Hva : 0 <= va) by (subst va; lia). destruct (vpn_range va Hva) as (_ & _ & H0).
  destruct (cp_pte _ _ _ _ Hc N HN) as [Ep Ec]. destruct (entry_now N) as [EN _]. rewrite EN in Ep. fold va in Ep.
  destruct (pt_leaf _ _ _ (cp_ok _ _ _ _ Hc) _ pt (vpn0 va) Hpt eq_refl H0) as [w Hw].
  assert (Ew : pte_of m0 T va = w) by (rewrite <- Ep; unfold pte_of; by rewrite Hpt, Hw). unfold copy_leaf. rewrite Hw. cbn [mbind option_bind].
  destruct (has w PTE_V) eqn:Hv.
  2: { exists vm, mm'. split; [done |]. apply copying_skip; [done | done |]. fold va. by rewrite Ew. }
  destruct (src_page _ _ _ _ _ Hsrc N HN) as (Hwr & n & c & Hpg & Hn); [fold va; by rewrite Ew |]. fold va in Hwr, Hpg. rewrite Ew in Hwr, Hpg.
  pose proof (cp_refs _ _ _ _ Hc _ _ _ Hpg) as Hpg'. destruct (owns_share _ _ _ _ _ (cp_owns _ _ _ _ Hc) Hpg' Hn) as (h' & E & Ho').
  destruct (store_both N vm T' mm' pt cpt (Z.land w NOT_W) Hc HN Hpt Hcpt) as (Hok & Hok' & Hat & Hat' & Hout & Hfr). fold va in Hok, Hok', Hat, Hat', Hout, Hfr.
  change (Z.lxor (2 ^ 64 - 1) PTE_W) with NOT_W. cbn [heap set_mem]. rewrite E. cbn [mbind option_bind].
  eexists _, _. split; [reflexivity |]. destruct Hc. split; cbn [heap mem set_heap set_mem]; try done.
  - intros p q Hq. destruct (cp_live0 p q Hq) as (n' & c' & Hq' & Hn'). destruct (decide (q = pte_page w)) as [-> | Hne].
    + rewrite lookup_insert_eq. eexists _, _. split; [done |]. congruence.
    + rewrite lookup_insert_ne by done. by exists n', c'.
  - intros v Hvr. destruct (decide (v = N)) as [-> | Hne].
    + fold va. rewrite Hat, Hat'. destruct (entry_done N) as [-> ->]. fold va. rewrite Ew. unfold cow_pte, child_pte. by rewrite Hv.
    + destruct (Hout (v * 4096)) as [-> ->]; [lia | intros Ev; apply vpn_page_eq in Ev; [done | unfold USER_PAGES in *; lia ..] |].
      destruct (entry_next N v Hne) as [-> ->]. by apply cp_pte0.
  - intros va' Hva' Hh. destruct (Hout va' Hva') as [-> ->]; [| by apply cp_high0].
    intros Ev. apply vpn_eq in Ev as (E2 & _); [| done | done]. pose proof (user_vpn2 N HN) as Hv2. fold va in Hv2. lia.
  - intros p n' c' Hp. rewrite pages_S, cnt_app by lia. unfold mapped. fold va. rewrite Ew, Hv, cnt_cons. change (cnt p []) with 0.
    destruct (decide (pte_page w = p)) as [<- | Hne].
    + rewrite lookup_insert_eq. assert (n' = n /\ c' = c) as [-> ->] by (split; congruence). do 2 f_equal. lia.
    + rewrite lookup_insert_ne by done. rewrite (cp_refs0 p n' c' Hp). do 2 f_equal. lia.
  - intros p n' c' Hp. rewrite lookup_insert_ne by congruence. by apply cp_tables0.
  - intros a Ha Ha'. rewrite Hfr by done. by apply cp_frame0.
Qed.

Lemma user_path_app p i : user_path (p ++ [i]) -> user_path p.
Proof. by destruct p. Qed.

(** A new table below a table of the child. *)
Lemma copying_table N vm T' mm' p cq i : copying N vm T' mm' -> T' !! p = Some cq -> (length p < 2)%nat -> 0 <= i < 512 -> user_path (p ++ [i]) ->
  T' !! (p ++ [i]) = None ->
  new_page vm = Some (None, vm) \/
  exists np vm1 mm2, new_page vm = Some (Some np, vm1) /\
    copying N (set_mem (<[word cq i := table_pte np]> (mem vm1)) vm1) (<[p ++ [i] := np]> T') mm2.
Proof.
  intros Hc Hcq Hl Hi Hu Hnone. pose proof (user_path_app _ _ Hu) as Hup.
  destruct (new_page_ok vm mm' (cp_owns _ _ _ _ Hc)) as [E | (np & vm1 & n & E & Ho & Hnew & Hn & Hd & H0 & He & Em)]; [by left | right].
  assert (Hpage : (PAGE_SIZE | np) /\ 0 < np /\ np + PAGE_SIZE <= 2 ^ 64) by (split_and!; [done | done | lia]).
  assert (Hapart : forall q x y, mm' !! q = Some (x, y) -> PAGE_SIZE <= x -> np + PAGE_SIZE <= q \/ q + PAGE_SIZE <= np).
  { intros q x y Hq Hx. destruct (owns_apart _ _ np n 1 q x y Ho) as [-> | ?]; [by rewrite lookup_insert_eq | rewrite lookup_insert_ne by congruence; done | congruence | lia]. }
  assert (Hf' : forall p' q', T' !! p' = Some q' -> np + PAGE_SIZE <= q' \/ q' + PAGE_SIZE <= np).
  { intros p' q' Hq'. destruct (cp_live _ _ _ _ Hc p' q' Hq') as (x & y & Hxy & Hx). by eapply Hapart. }
  assert (Hf : forall p' q', T !! p' = Some q' -> np + PAGE_SIZE <= q' \/ q' + PAGE_SIZE <= np).
  { intros p' q' Hq'. destruct (src_live _ _ _ _ _ Hsrc p' q' Hq') as (x & y & Hxy & Hx). eapply Hapart; [exact (cp_refs _ _ _ _ Hc _ _ _ Hxy) | done]. }
  pose proof (new_table_ok _ _ _ p cq i np (cp_child _ _ _ _ Hc) Hcq Hi Hl Hnone Hpage Hf') as Hok'.
  pose proof (new_table_pte _ _ _ p cq i np (cp_child _ _ _ _ Hc) Hcq Hi Hl Hnone Hpage Hf') as Hpte'.
  destruct (pt_ok_frame (mem vm) (<[word cq i := table_pte np]> (zero_page np (mem vm))) pgd T (cp_ok _ _ _ _ Hc)) as [Hok Hpte].
  { intros q' q j Hq Hj. rewrite lookup_insert_ne by (apply not_eq_sym; by eapply child_word). apply zero_page_out.
    pose proof (Hf _ _ Hq). unfold word. rewrite PAGE_SIZE_val in *. lia. }
  exists np, vm1, (<[np := (n, 1)]> mm'). split; [done |]. rewrite Em. destruct Hc.
  split; cbn [heap mem set_mem]; [exact Ho | exact Hok | exact Hok' | clear cp_frame0 | clear cp_frame0 | clear cp_frame0 | clear cp_frame0 | clear cp_frame0 |
    clear cp_frame0 | clear cp_frame0 | ].
  - intros p' q'. destruct (decide (p' = p ++ [i])) as [-> | Hne].
    + rewrite lookup_insert_eq. intros [= <-]. exists n, 1. by rewrite lookup_insert_eq.
    + rewrite lookup_insert_ne by done. intros Hq'. destruct (cp_live0 p' q' Hq') as (x & y & Hxy & Hx). exists x, y. rewrite lookup_insert_ne by congruence. done.
  - intros p' q'. destruct (decide (p' = p ++ [i])) as [-> | Hne].
    + rewrite lookup_insert_eq. intros [= <-] _. destruct (mm0 !! np) as [[x y] |] eqn:E0; [| done]. apply cp_refs0 in E0. congruence.
    + rewrite lookup_insert_ne by done. apply cp_user0.
  - intros p' Hk. rewrite lookup_insert_ne by (intros <-; done). by apply cp_kernel0.
  - intros v Hv. rewrite Hpte, Hpte' by lia. by apply cp_pte0.
  - intros va Hva Hh. rewrite Hpte, Hpte' by done. by apply cp_high0.
  - intros q x y Hq. pose proof (cp_refs0 _ _ _ Hq). rewrite lookup_insert_ne by congruence. done.
  - intros q x y Hq. destruct (decide (q = np)) as [-> | Hne].
    + rewrite lookup_insert_eq. intros [= <- <-]. split; [done |]. exists (p ++ [i]). by rewrite lookup_insert_eq.
    + rewrite lookup_insert_ne by done. intros Hq'. destruct (cp_tables0 q x y Hq Hq') as (-> & path & Hp & Hpu). split; [done |].
      exists path. rewrite lookup_insert_ne; [done |]. intros <-. congruence.
  - intros a Ha Ha'. rewrite lookup_insert_ne.
    + rewrite zero_page_out; [apply cp_frame0; [done |] |].
      * intros p' q' Hq'. apply (Ha' p'). rewrite lookup_insert_ne; [done |]. intros <-. congruence.
      * apply (Ha' (p ++ [i])). by rewrite lookup_insert_eq.
    + intros <-. apply (Ha' p cq); [| unfold word; rewrite PAGE_SIZE_val; lia].
      rewrite lookup_insert_ne; [done |]. intros E'. apply (f_equal length) in E'. rewrite length_app in E'. cbn in E'. lia.
Qed.

(** ** The loops *)

Lemma vpn_index i j k : 0 <= i < 512 -> 0 <= j < 512 -> 0 <= k < 512 ->
  let va := ((i * 512 + j) * 512 + k) * 4096 in vpn2 va = i /\ vpn1 va = j /\ vpn0 va = k.
Proof.
  intros Hi Hj Hk va. subst va. destruct (vpn_page ((i * 512 + j) * 512 + k)) as (-> & -> & ->); [lia |].
  change (2 ^ 18) with 262144. change (2 ^ 9) with 512. split_and!; dlia.
Qed.

Lemma no_table_invalid m i j k : 0 <= i < 512 -> 0 <= j < 512 -> 0 <= k < 512 -> T !! [i; j] = None ->
  has (pte_of m T (((i * 512 + j) * 512 + k) * 4096)) PTE_V = false.
Proof. intros Hi Hj Hk Hn. unfold pte_of. destruct (vpn_index i j k Hi Hj Hk) as (-> & -> & _). by rewrite Hn. Qed.

(** The child has no table yet from the given places on. *)
Definition todo (T' : tables) (b1 b2 : Z) : Prop :=
  (forall i q, 0 <= i < 256 -> T' !! [i] = Some q -> i < b1) /\ (forall i j q, 0 <= i < 256 -> T' !! [i; j] = Some q -> i * 512 + j < b2).

(** A copy that stopped for want of memory. *)
Definition stopped vm : Prop := exists N T' mm', 0 <= N <= USER_PAGES /\ copying N vm T' mm'.

Definition pt_inv (i cpmd j : Z) vm : Prop :=
  exists T' mm', copying ((i * 512 + j) * 512) vm T' mm' /\ T' !! [i] = Some cpmd /\ todo T' (i + 1) (i * 512 + j).

Lemma copy_pt_step i j pmd cpmd vm : 0 <= i < 256 -> 0 <= j < 512 -> T !! [i] = Some pmd -> pt_inv i cpmd j vm ->
  exists vm', (copy_pt pmd cpmd j vm = Some (true, vm') /\ pt_inv i cpmd (j + 1) vm') \/ (copy_pt pmd cpmd j vm = Some (false, vm') /\ stopped vm').
Proof.
  intros Hi Hj Hpmd (T' & mm' & Hc & Hcpmd & Ht1 & Ht2). set (N := (i * 512 + j) * 512) in *.
  assert (HN : 0 <= N /\ N + 512 <= USER_PAGES) by (subst N; unfold USER_PAGES; lia).
  pose proof (pt_entry _ _ _ (cp_ok _ _ _ _ Hc) [i] pmd j Hpmd Hj ltac:(simpl; lia)) as He. unfold copy_pt.
  destruct (T !! ([i] ++ [j])) as [pt |] eqn:Ept.
  2: { destruct He as (w & -> & Hw). cbn [mbind option_bind]. rewrite Hw. exists vm. left. split; [done |]. exists T', mm'. split_and!; [| done |].
    - replace ((i * 512 + (j + 1)) * 512) with (N + 512) by (subst N; lia). apply (copying_jump N); [done | lia | lia |].
      intros v Hv. replace v with ((i * 512 + j) * 512 + (v - N)) by (subst N; lia). apply no_table_invalid; [lia | lia | lia | exact Ept].
    - split; [done |]. intros i' j' q Hi' Hq. specialize (Ht2 _ _ _ Hi' Hq). lia. }
  rewrite He. cbn [mbind option_bind]. destruct (pt_page _ _ _ (cp_ok _ _ _ _ Hc) _ _ Ept) as (Hd & H0 & Hend). destruct (table_not_leaf pt Hd H0 Hend) as (-> & _ & ->).
  destruct (copying_table N vm T' mm' [i] cpmd j Hc Hcpmd ltac:(simpl; lia) Hj ltac:(cbn; lia)) as [-> | (np & vm1 & mm2 & -> & Hc2)].
  { destruct (T' !! ([i] ++ [j])) as [q |] eqn:E; [| done]. specialize (Ht2 i j q Hi E). lia. }
  { exists vm. right. split; [done |]. exists N, T', mm'. split; [lia | done]. }
  cbn [mbind option_bind]. set (T2 := <[[i] ++ [j] := np]> T') in *. set (vm2 := set_mem _ vm1) in *.
  destruct (for_range_inv (fun k s => exists mm3, copying (N + k) s T2 mm3) 512 0 (copy_leaf pt np) vm2) as (vm3 & -> & mm3 & Hc3).
  { exists mm2. by rewrite Z.add_0_r. }
  { intros k s Hk (mm3 & Hc3). destruct (vpn_index i j k) as (E2 & E1 & E0); [lia | lia | lia |]. fold N in E2, E1, E0.
    destruct (copy_leaf_step (N + k) s T2 mm3 pt np Hc3) as (s' & mm4 & E & Hc4); [lia | by rewrite E2, E1 | rewrite E2, E1; apply lookup_insert_eq |].
    rewrite E0 in E. exists s'. split; [exact E |]. exists mm4. by rewrite Z.add_assoc. }
  cbn [mbind option_bind]. exists vm3. left. split; [done |]. exists T2, mm3. split_and!.
  - replace ((i * 512 + (j + 1)) * 512) with (N + (0 + Z.of_nat 512)) by (subst N; lia). exact Hc3.
  - subst T2. by rewrite lookup_insert_ne.
  - split.
    + intros i' q Hi' Hq. subst T2. rewrite lookup_insert_ne in Hq by done. by eapply Ht1.
    + intros i' j' q Hi' Hq. destruct (decide ([i'; j'] = [i] ++ [j])) as [[= -> ->] | Hne]; [lia |].
      subst T2. rewrite lookup_insert_ne in Hq by done. specialize (Ht2 _ _ _ Hi' Hq). lia.
Qed.

Definition pmd_inv (i : Z) vm : Prop := exists T' mm', copying (i * 512 * 512) vm T' mm' /\ todo T' i (i * 512).

Lemma copy_pmd_step i vm : 0 <= i < 256 -> pmd_inv i vm ->
  exists vm', (copy_pmd pgd new i vm = Some (true, vm') /\ pmd_inv (i + 1) vm') \/ (copy_pmd pgd new i vm = Some (false, vm') /\ stopped vm').
Proof.
  intros Hi (T' & mm' & Hc & Ht1 & Ht2). set (N := i * 512 * 512) in *.
  assert (HN : 0 <= N /\ N + 512 * 512 <= USER_PAGES) by (subst N; unfold USER_PAGES; lia).
  pose proof (pt_entry _ _ _ (cp_ok _ _ _ _ Hc) [] pgd i (pt_root _ _ _ (cp_ok _ _ _ _ Hc)) ltac:(lia) ltac:(simpl; lia)) as He. unfold copy_pmd.
  destruct (T !! ([] ++ [i])) as [pmd |] eqn:Epmd.
  2: { destruct He as (w & -> & Hw). cbn [mbind option_bind]. rewrite Hw. exists vm. left. split; [done |]. exists T', mm'. split.
    - replace ((i + 1) * 512 * 512) with (N + 512 * 512) by (subst N; lia). apply (copying_jump N); [done | lia | lia |].
      intros v Hv. replace v with ((i * 512 + (v - N) / 512) * 512 + (v - N) mod 512) by (subst N; dlia). apply no_table_invalid; [lia | dlia | dlia |].
      destruct (T !! [i; (v - N) / 512]) as [q |] eqn:E; [| done]. destruct (pt_path _ _ _ (cp_ok _ _ _ _ Hc) [i] _ _ E) as [[x Hx] _]. cbn in Epmd. congruence.
    - split; [intros i' q Hi' Hq; specialize (Ht1 _ _ Hi' Hq); lia | intros i' j' q Hi' Hq; specialize (Ht2 _ _ _ Hi' Hq); lia]. }
  rewrite He. cbn [mbind option_bind]. destruct (pt_page _ _ _ (cp_ok _ _ _ _ Hc) _ _ Epmd) as (Hd & H0 & Hend). destruct (table_not_leaf pmd Hd H0 Hend) as (-> & _ & ->).
  destruct (copying_table N vm T' mm' [] new i Hc (pt_root _ _ _ (cp_child _ _ _ _ Hc)) ltac:(simpl; lia) ltac:(lia) ltac:(cbn; lia)) as [-> | (np & vm1 & mm2 & -> & Hc2)].
  { destruct (T' !! ([] ++ [i])) as [q |] eqn:E; [| done]. specialize (Ht1 i q Hi E). lia. }
  { exists vm. right. split; [done |]. exists N, T', mm'. split; [lia | done]. }
  cbn [mbind option_bind]. set (T2 := <[[] ++ [i] := np]> T') in *. set (vm2 := set_mem _ vm1) in *.
  destruct (for_until_inv (pt_inv i np) stopped 512 0 (copy_pt pmd np) vm2) as (vm3 & [[-> Hinv] | [-> Hs]]).
  - exists T2, mm2. split_and!; [by rewrite Z.add_0_r | apply lookup_insert_eq | split].
    + intros i' q Hi' Hq. destruct (decide ([i'] = [] ++ [i])) as [[= ->] | Hne]; [lia |]. subst T2. rewrite lookup_insert_ne in Hq by done.
      specialize (Ht1 _ _ Hi' Hq). lia.
    + intros i' j' q Hi' Hq. subst T2. rewrite lookup_insert_ne in Hq by done. specialize (Ht2 _ _ _ Hi' Hq). lia.
  - intros j s Hj Hs. apply copy_pt_step; [done | lia | exact Epmd | done].
  - exists vm3. left. split; [done |]. destruct Hinv as (T3 & mm3 & Hc3 & _ & Ht3). exists T3, mm3. split.
    + by replace ((i + 1) * 512 * 512) with ((i * 512 + (0 + Z.of_nat 512)) * 512) by lia.
    + by replace ((i + 1) * 512) with (i * 512 + (0 + Z.of_nat 512)) by lia.
  - exists vm3. by right.
Qed.

(** ** The start: a new root with the kernel half *)

Definition kernel_tables : tables := filter (fun x => ~ user_path x.1) T.
Definition start_tables : tables := <[[] := new]> kernel_tables.

Lemma kernel_tables_lookup p : kernel_tables !! p = if decide (user_path p) then None else T !! p.
Proof.
  unfold kernel_tables. destruct (decide (user_path p)) as [Hu | Hu].
  - apply map_lookup_filter_None. right. intros x _ Hn. by apply Hn.
  - destruct (T !! p) as [q |] eqn:E.
    + by apply map_lookup_filter_Some_2.
    + apply map_lookup_filter_None. by left.
Qed.

Lemma start_tables_lookup p : start_tables !! p = if decide (p = []) then Some new else if decide (user_path p) then None else T !! p.
Proof.
  unfold start_tables. destruct (decide (p = [])) as [-> |]; [apply lookup_insert_eq |]. rewrite lookup_insert_ne by done. apply kernel_tables_lookup.
Qed.

Lemma start_tables_app p i : start_tables !! (p ++ [i]) = if decide (user_path (p ++ [i])) then None else T !! (p ++ [i]).
Proof. rewrite start_tables_lookup. by rewrite decide_False by (by destruct p). Qed.

Lemma kernel_path_app p i : p <> [] -> user_path (p ++ [i]) <-> user_path p.
Proof. by destruct p. Qed.

(** The words of the new root. *)
Definition root_words (m m1 : gmap Z Z) : Prop :=
  (forall i, 0 <= i < 512 -> m1 !! word new i = if i <? 256 then Some 0 else m !! word pgd i) /\
  (forall a, ~ new <= a < new + PAGE_SIZE -> m1 !! a = m !! a).

Lemma start_tables_ok m m1 : pt_ok m pgd T -> root_words m m1 -> (PAGE_SIZE | new) /\ 0 < new /\ new + PAGE_SIZE <= 2 ^ 64 ->
  (forall p q, T !! p = Some q -> new + PAGE_SIZE <= q \/ q + PAGE_SIZE <= new) -> pt_ok m1 new start_tables.
Proof.
  intros Hok [Hin Hout] Hpage Hfar.
  assert (Hw : forall p q i, T !! p = Some q -> 0 <= i < 512 -> m1 !! word q i = m !! word q i).
  { intros p q i Hq Hi. apply Hout. pose proof (Hfar p q Hq). unfold word. rewrite PAGE_SIZE_val in *. lia. }
  assert (Hne : forall p q, T !! p = Some q -> q <> new) by (intros p q Hq ->; pose proof (Hfar p new Hq); rewrite PAGE_SIZE_val in *; lia).
  assert (Hcase : forall p q, start_tables !! p = Some q -> (p = [] /\ q = new) \/ (p <> [] /\ ~ user_path p /\ T !! p = Some q)).
  { intros p q. rewrite start_tables_lookup. destruct (decide (p = [])); [intros [= ->]; by left |]. destruct (decide (user_path p)); [done | by right]. }
  split.
  - apply lookup_insert_eq.
  - intros p q [[-> ->] | (_ & _ & Hq)]%Hcase; [done | by eapply Hok].
  - intros p p' q [[-> ->] | (_ & _ & Hq)]%Hcase [[-> E] | (_ & _ & Hq')]%Hcase; [done | by destruct (Hne _ _ Hq') | subst; by destruct (Hne _ _ Hq) | by eapply Hok].
  - intros p i q Hq. rewrite start_tables_app in Hq. destruct (decide (user_path (p ++ [i]))) as [|Hu]; [done |].
    destruct (pt_path _ _ _ Hok p i q Hq) as (Hs & Hi & Hl). split_and!; [| lia | lia | done]. rewrite start_tables_lookup.
    destruct (decide (p = [])) as [-> | Hp]; [by eexists |]. rewrite decide_False; [done |]. by rewrite <- (kernel_path_app p i).
  - intros p q i [[-> ->] | (Hp & Hu & Hq)]%Hcase Hi Hl; rewrite start_tables_app.
    + rewrite Hin by done. cbn [app user_path]. destruct (decide (i < 256)) as [Hlt | Hge].
      * destruct (Z.ltb_spec i 256); [by exists 0 | lia].
      * destruct (Z.ltb_spec i 256); [lia |]. exact (pt_entry _ _ _ Hok [] pgd i (pt_root _ _ _ Hok) Hi ltac:(simpl; lia)).
    + rewrite decide_False by (by rewrite kernel_path_app). rewrite (Hw p) by done. by apply (pt_entry _ _ _ Hok).
  - intros p q i [[-> ->] | (Hp & Hu & Hq)]%Hcase Hl Hi; [done |]. rewrite (Hw p) by done. by eapply (pt_leaf _ _ _ Hok).
Qed.

Lemma copy_kernel_half_ok vm : pt_ok m0 pgd T -> mem vm = zero_page new m0 -> (forall p q, T !! p = Some q -> new + PAGE_SIZE <= q \/ q + PAGE_SIZE <= new) ->
  exists vm', copy_kernel_half pgd new vm = Some vm' /\ heap vm' = heap vm /\ root_words m0 (mem vm').
Proof.
  intros Hok Em Hfar. pose proof (pt_root _ _ _ Hok) as Hroot. unfold copy_kernel_half.
  assert (Hne : forall i j, 0 <= i < 512 -> 0 <= j < 512 -> word new i <> word pgd j).
  { intros i j Hi Hj. pose proof (Hfar [] pgd Hroot). unfold word. rewrite PAGE_SIZE_val in *. lia. }
  destruct (for_range_inv (fun i m => (forall j, 0 <= j < 512 -> m !! word new j = if (256 <=? j) && (j <? i) then m0 !! word pgd j else Some 0) /\
      (forall a, ~ new <= a < new + PAGE_SIZE -> m !! a = m0 !! a)) 256 256 (copy_entry pgd new) (mem vm)) as (m' & -> & Hin & Hout).
  - rewrite Em. split; [| intros a Ha; by apply zero_page_out]. intros j Hj. rewrite zero_page_in by done.
    destruct (Z.leb_spec 256 j), (Z.ltb_spec j 256); (lia || done).
  - intros i m Hi [Hin Hout]. unfold copy_entry.
    assert (Hr : m !! word pgd i = m0 !! word pgd i) by (apply Hout; pose proof (Hfar [] pgd Hroot); unfold word; rewrite PAGE_SIZE_val in *; lia).
    assert (Hs : is_Some (m0 !! word pgd i)).
    { pose proof (pt_entry _ _ _ Hok [] pgd i Hroot ltac:(lia) ltac:(simpl; lia)) as He. destruct (T !! ([] ++ [i])); [rewrite He; by eexists | destruct He as (w & -> & _); by eexists]. }
    rewrite Hr. destruct Hs as [w Hw]. rewrite Hw. cbn [mbind option_bind]. eexists. split; [done |]. split.
    + intros j Hj. destruct (decide (j = i)) as [-> | Hji].
      * rewrite lookup_insert_eq. destruct (Z.leb_spec 256 i), (Z.ltb_spec i (i + 1)); (lia || done).
      * rewrite lookup_insert_ne by (intros E; apply word_inj in E; lia). rewrite Hin by done.
        destruct (Z.leb_spec 256 j), (Z.ltb_spec j i), (Z.ltb_spec j (i + 1)); (lia || done).
    + intros a Ha. rewrite lookup_insert_ne; [by apply Hout |]. intros <-. apply Ha. unfold word. rewrite PAGE_SIZE_val. lia.
  - cbn [mbind option_bind]. eexists. split; [done |]. split; [done |]. split; [| exact Hout]. intros i Hi. cbn [mem set_mem]. rewrite Hin by done.
    destruct (Z.leb_spec 256 i), (Z.ltb_spec i (256 + Z.of_nat 256)), (Z.ltb_spec i 256); (lia || done).
Qed.

Lemma copying_start h1 n m1 : mm0 !! new = None -> owns h1 (<[new := (n, 1)]> mm0) -> PAGE_SIZE <= n -> root_words m0 m1 ->
  copying 0 (Memory h1 m1) start_tables (<[new := (n, 1)]> mm0).
Proof.
  intros Hnew Ho Hn Hroot. destruct (owns_bounds _ _ new n 1 Ho) as (H0 & _ & He & _ & Hal); [by rewrite lookup_insert_eq |].
  assert (Hfar : forall p q, T !! p = Some q -> new + PAGE_SIZE <= q \/ q + PAGE_SIZE <= new).
  { intros p q Hq. destruct (src_live _ _ _ _ _ Hsrc p q Hq) as (x & y & Hxy & Hx).
    destruct (owns_apart _ _ new n 1 q x y Ho) as [-> | ?]; [by rewrite lookup_insert_eq | rewrite lookup_insert_ne by congruence; done | congruence | lia]. }
  assert (Hw : forall p q i, T !! p = Some q -> 0 <= i < 512 -> m1 !! word q i = m0 !! word q i).
  { intros p q i Hq Hi. apply (proj2 Hroot). pose proof (Hfar p q Hq). unfold word. rewrite PAGE_SIZE_val in *. lia. }
  destruct (pt_ok_frame m0 m1 pgd T (src_ok _ _ _ _ _ Hsrc) Hw) as [Hok Hpte].
  split; cbn [heap mem]; try done.
  - apply (start_tables_ok m0); [apply Hsrc | done | | done]. split_and!; [by apply Hal | done | lia].
  - intros p q. rewrite start_tables_lookup. destruct (decide (p = [])); [intros [= <-]; exists n, 1; by rewrite lookup_insert_eq |].
    destruct (decide (user_path p)); [done |]. intros Hq. destruct (src_live _ _ _ _ _ Hsrc p q Hq) as (x & y & Hxy & Hx). exists x, y.
    rewrite lookup_insert_ne by congruence. done.
  - intros p q. rewrite start_tables_lookup. destruct (decide (p = [])); [intros [= <-]; done |]. by destruct (decide (user_path p)).
  - intros p Hk. rewrite start_tables_lookup. destruct (decide (p = [])) as [-> |]; [by destruct Hk |]. by rewrite decide_False.
  - intros v Hv. rewrite Hpte by lia. unfold parent_entry, child_entry. destruct (Z.ltb_spec v 0); [lia |]. split; [done |].
    unfold pte_of. rewrite start_tables_lookup, decide_False by done. rewrite decide_True; [done |]. cbn. by apply user_vpn2.
  - intros va Hva Hh. split; [by apply Hpte |]. rewrite <- Hpte by done. unfold pte_of. rewrite start_tables_lookup, decide_False by done. rewrite decide_False; [done | cbn; lia].
  - intros p x y Hp. change (pages m0 T 0) with (@nil Z). change (cnt p []) with 0. rewrite Z.add_0_r, lookup_insert_ne by congruence. done.
  - intros p x y Hp. destruct (decide (p = new)) as [-> | Hne].
    + rewrite lookup_insert_eq. intros [= <- <-]. split; [done |]. exists []. split; [apply lookup_insert_eq | done].
    + rewrite lookup_insert_ne by done. congruence.
  - intros a _ Ha. apply (proj2 Hroot). apply (Ha []). apply lookup_insert_eq.
Qed.

Lemma todo_start : todo start_tables 0 0.
Proof.
  split; [intros i q Hi | intros i j q Hi]; rewrite start_tables_lookup, decide_False by done; rewrite decide_True by (cbn; lia); done.
Qed.

(** ** The end: success, or the release of what there is *)

Lemma child_pages N vm T' mm' : copying N vm T' mm' -> 0 <= N <= USER_PAGES -> pages (mem vm) T' USER_PAGES = pages m0 T N.
Proof.
  intros Hc HN.
  assert (Hm : forall v, 0 <= v < USER_PAGES -> mapped (mem vm) T' v = if v <? N then mapped m0 T v else []).
  { intros v Hv. unfold mapped. destruct (cp_pte _ _ _ _ Hc v Hv) as [_ ->]. unfold child_entry. destruct (Z.ltb_spec v N); [| done].
    unfold child_pte. destruct (has (pte_of m0 T (v * 4096)) PTE_V) eqn:Ev; [| done].
    destruct (src_page _ _ _ _ _ Hsrc v Hv Ev) as (Hr & _). by rewrite has_not_w, Ev, not_w_page. }
  rewrite (pages_skip _ _ N USER_PAGES HN); [| intros v Hv; rewrite Hm by lia; by destruct (Z.ltb_spec v N); [lia |]].
  unfold pages. apply flat_ext. intros v Hv. rewrite Hm by lia. by destruct (Z.ltb_spec v N); [| lia].
Qed.

Lemma pages_live N p : 0 <= N <= USER_PAGES -> p ∈ pages m0 T N -> exists n c, mm0 !! p = Some (n, c).
Proof.
  intros HN (v & Hv & Hb & ->)%pages_elem. destruct (src_page _ _ _ _ _ Hsrc v ltac:(lia) Hb) as (_ & n & c & Hn & _). by exists n, c.
Qed.

Lemma stopped_release N vm T' mm' : copying N vm T' mm' -> 0 <= N <= USER_PAGES ->
  counted (footprint (mem vm) new T') mm' /\ released (footprint (mem vm) new T') mm' mm0.
Proof.
  intros Hc HN. pose proof (cp_child _ _ _ _ Hc) as Hok.
  assert (Hcnt : forall p, cnt p (footprint (mem vm) new T') = cnt p (pages m0 T N) + cnt p (user_tables T')).
  { intros p. by rewrite (footprint_cnt _ _ _ _ Hok), (child_pages _ _ _ _ Hc HN). }
  assert (Hold : forall p n c, mm0 !! p = Some (n, c) -> cnt p (user_tables T') = 0).
  { intros p n c Hp. apply cnt_none. intros (path & Hq & Hu)%(user_tables_elem (mem vm) new); [| done]. pose proof (cp_user _ _ _ _ Hc _ _ Hq Hu). congruence. }
  assert (Hfresh : forall p, mm0 !! p = None -> cnt p (pages m0 T N) = 0).
  { intros p Hp. apply cnt_none. intros (n & c & Hn)%pages_live; [congruence | done]. }
  split.
  - intros p Hp. rewrite Hcnt. destruct (mm0 !! p) as [[n c] |] eqn:E.
    + rewrite (Hold _ _ _ E). exists n, (c + cnt p (pages m0 T N)). split; [by apply (cp_refs _ _ _ _ Hc) |].
      destruct (owns_bounds _ _ _ _ _ (src_owns _ _ _ _ _ Hsrc) E). lia.
    + rewrite (Hfresh p E). apply cnt_elem in Hp. rewrite Hcnt, (Hfresh p E) in Hp.
      assert (Hin : p ∈ user_tables T') by (apply cnt_elem; lia). rewrite (cnt_NoDup _ _ (user_tables_NoDup _ _ _ Hok) Hin).
      apply (user_tables_elem (mem vm) new) in Hin as (path & Hq & Hu); [| done]. destruct (cp_live _ _ _ _ Hc _ _ Hq) as (n & c & Hn & _).
      destruct (cp_tables _ _ _ _ Hc p n c E Hn) as [-> _]. exists n, 1. split; [done | lia].
  - intros p. rewrite Hcnt. destruct (mm0 !! p) as [[n c] |] eqn:E.
    + rewrite (cp_refs _ _ _ _ Hc p n c E), (Hold _ _ _ E). destruct (owns_bounds _ _ _ _ _ (src_owns _ _ _ _ _ Hsrc) E) as (_ & _ & _ & ? & _).
      destruct (Z.leb_spec (c + cnt p (pages m0 T N)) (cnt p (pages m0 T N) + 0)); [lia |]. do 2 f_equal. lia.
    + destruct (mm' !! p) as [[n c] |] eqn:E'; [| done]. destruct (cp_tables _ _ _ _ Hc p n c E E') as (-> & path & Hq & Hu).
      rewrite (Hfresh p E), (cnt_NoDup _ _ (user_tables_NoDup _ _ _ Hok)); [done |]. by eapply user_tables_elem; [| exists path].
Qed.

(** The hardware's view of the entries. *)
Lemma user_page va : 0 <= va < 2 ^ 38 -> 0 <= va / 4096 < USER_PAGES /\ forall m T', pte_of m T' va = pte_of m T' (va / 4096 * 4096).
Proof.
  intros Hva. split; [unfold USER_PAGES; change (2 ^ 38) with 274877906944 in Hva; change (2 ^ 26) with 67108864; dlia |].
  intros m T'. apply pte_of_vpn; [lia | dlia |]. unfold vpn. by rewrite Z.div_mul.
Qed.

Lemma parent_view N vm T' mm' va : copying N vm T' mm' -> 0 <= va < 2 ^ 38 ->
  sv39 (mem vm) pgd va = if va / 4096 <? N then read_only (sv39 m0 pgd va) else sv39 m0 pgd va.
Proof.
  intros Hc Hva. destruct (user_page va Hva) as [Hv Hpage]. rewrite (sv39_pte_of _ _ T) by (apply Hc || lia). rewrite (sv39_pte_of _ _ T) by (apply Hsrc || lia).
  rewrite (Hpage (mem vm)), (Hpage m0). destruct (cp_pte _ _ _ _ Hc _ Hv) as [-> _]. unfold parent_entry. destruct (_ <? N); [| done].
  destruct (has (pte_of m0 T (va / 4096 * 4096)) PTE_V) eqn:Ev.
  - apply decode_cow. by apply (src_page _ _ _ _ _ Hsrc _ Hv).
  - unfold cow_pte. rewrite Ev. unfold decode. by rewrite Ev.
Qed.

Lemma child_view vm T' mm' va : copying USER_PAGES vm T' mm' -> 0 <= va < 2 ^ 38 -> sv39 (mem vm) new va = read_only (sv39 m0 pgd va).
Proof.
  intros Hc Hva. destruct (user_page va Hva) as [Hv Hpage]. rewrite (sv39_pte_of _ _ T') by (apply Hc || lia). rewrite (sv39_pte_of _ _ T) by (apply Hsrc || lia).
  rewrite (Hpage (mem vm)), (Hpage m0). destruct (cp_pte _ _ _ _ Hc _ Hv) as [_ ->]. unfold child_entry. destruct (Z.ltb_spec (va / 4096) USER_PAGES); [| lia].
  destruct (has (pte_of m0 T (va / 4096 * 4096)) PTE_V) eqn:Ev.
  - apply decode_child. by apply (src_page _ _ _ _ _ Hsrc _ Hv).
  - unfold child_pte. rewrite Ev. unfold decode at 2. by rewrite Ev.
Qed.

Lemma high_view N vm T' mm' va : copying N vm T' mm' -> 2 ^ 64 - 2 ^ 38 <= va < 2 ^ 64 ->
  sv39 (mem vm) pgd va = sv39 m0 pgd va /\ sv39 (mem vm) new va = sv39 m0 pgd va.
Proof.
  intros Hc Hva. assert (Hh : 256 <= vpn2 va).
  { destruct (vpn_split va) as (-> & _); [lia |]. change (2 ^ 64) with 18446744073709551616 in Hva. change (2 ^ 38) with 274877906944 in Hva. change (2 ^ 30) with 1073741824. dlia. }
  destruct (cp_high _ _ _ _ Hc va ltac:(lia) Hh) as [E E'].
  rewrite (sv39_pte_of _ _ T va (cp_ok _ _ _ _ Hc)), (sv39_pte_of _ _ T' va (cp_child _ _ _ _ Hc)), (sv39_pte_of _ _ T va (src_ok _ _ _ _ _ Hsrc)) by lia.
  by rewrite E, E'.
Qed.

End Copy.

(** ** The results *)

Section Results.
Context {H : Type} {HO : HeapOps H} {HS : HeapSpec H}.
Implicit Types (vm : memory H) (mm : gmap Z (Z * Z)) (T : tables).

Lemma released_ext l l' mm mm' : (forall p, cnt p l = cnt p l') -> released l mm mm' -> released l' mm mm'.
Proof. intros E Hr p. rewrite Hr. by rewrite E. Qed.

Lemma counted_ext l l' mm : (forall p, cnt p l = cnt p l') -> counted l mm -> counted l' mm.
Proof. intros E Hc p Hp. rewrite <- E. apply Hc. apply cnt_elem. rewrite E. by apply cnt_elem. Qed.

(** The address space and its copy after a success. *)
Record duplicated (m0 : gmap Z Z) pgd T mm0 new vm T' mm' : Prop := {
  du_fresh : mm0 !! new = None;
  du_owns : owns (heap vm) mm';
  du_parent : pt_ok (mem vm) pgd T;
  du_child : pt_ok (mem vm) new T';
  du_live : tables_live T mm' /\ tables_live T' mm';
  du_new : fresh_tables T mm0 T';
  du_user va : 0 <= va < 2 ^ 38 ->
    sv39 (mem vm) pgd va = read_only (sv39 m0 pgd va) /\ sv39 (mem vm) new va = read_only (sv39 m0 pgd va);
  du_kernel va : 2 ^ 64 - 2 ^ 38 <= va < 2 ^ 64 -> sv39 (mem vm) pgd va = sv39 m0 pgd va /\ sv39 (mem vm) new va = sv39 m0 pgd va;
  du_refs p n c : mm0 !! p = Some (n, c) -> mm' !! p = Some (n, c + cnt p (pages m0 T USER_PAGES));
  du_tables p n c : mm0 !! p = None -> mm' !! p = Some (n, c) -> c = 1 /\ p ∈ user_tables T';
  du_frame a : off_tables T a -> off_tables T' a -> mem vm !! a = m0 !! a;
}.

Lemma copying_duplicated m0 pgd T h0 mm0 new vm T' mm' : source m0 pgd T h0 mm0 -> mm0 !! new = None ->
  copying m0 pgd T mm0 new USER_PAGES vm T' mm' -> duplicated m0 pgd T mm0 new vm T' mm'.
Proof.
  intros Hs Hnew Hc. pose proof Hc as [Ho Hok Hok' Hl Huser Hk _ _ Hr Ht Hf]. split; try assumption.
  - split; [| done]. intros p q Hq. destruct (src_live _ _ _ _ _ Hs p q Hq) as (n & c & Hn & Hx). eexists _, _. split; [by apply Hr | done].
  - intros p q Hq. destruct (decide (user_path p)) as [Hp | Hp]; [right; by eapply Huser | left; by rewrite <- Hk].
  - intros va Hva. split; [| by eapply child_view]. rewrite (parent_view _ _ _ _ _ _ Hs _ _ _ _ va Hc Hva).
    destruct (user_page va Hva) as [Hv _]. by destruct (Z.ltb_spec (va / 4096) USER_PAGES); [| lia].
  - intros va Hva. by eapply high_view.
  - intros p n c Hp Hp'. destruct (Ht p n c Hp Hp') as (-> & path & Hq & Hu). split; [done |]. eapply user_tables_elem; [exact Hok' | by exists path].
Qed.

(** Giving back what the child has undoes the copy. *)
Lemma copying_undo m0 pgd T h0 mm0 new N vm T' mm' : source m0 pgd T h0 mm0 -> copying m0 pgd T mm0 new N vm T' mm' -> 0 <= N <= USER_PAGES ->
  exists vm', free_pgd new vm = Some vm' /\ owns (heap vm') mm0 /\ mem vm' = mem vm.
Proof.
  intros Hs Hc HN. destruct (stopped_release _ _ _ _ _ _ Hs N vm T' mm' Hc HN) as [Hcnt Hr].
  apply (free_pgd_ok (mem vm) new T' vm mm'); [apply Hc | done | apply Hc | done | done].
Qed.

Lemma copy_pgd_cases pgd T vm mm : source (mem vm) pgd T (heap vm) mm ->
  copy_pgd pgd vm = Some (None, vm) \/
  (exists new N vm1 T1 mm1 vm', copy_pgd pgd vm = Some (None, vm') /\ copying (mem vm) pgd T mm new N vm1 T1 mm1 /\ 0 <= N <= USER_PAGES /\
     owns (heap vm') mm /\ mem vm' = mem vm1) \/
  exists new vm' T' mm', copy_pgd pgd vm = Some (Some new, vm') /\ mm !! new = None /\ copying (mem vm) pgd T mm new USER_PAGES vm' T' mm'.
Proof.
  intros Hs. unfold copy_pgd. destruct (new_page_ok vm mm (src_owns _ _ _ _ _ Hs)) as [E | (new & vm1 & n & E & Ho & Hnew & Hn & Hd & H0 & He & Em)]; rewrite E; cbn [mbind option_bind].
  { by left. }
  right. assert (Hfar : forall p q, T !! p = Some q -> new + PAGE_SIZE <= q \/ q + PAGE_SIZE <= new).
  { intros p q Hq. destruct (src_live _ _ _ _ _ Hs p q Hq) as (x & y & Hxy & Hx).
    destruct (owns_apart _ _ new n 1 q x y Ho) as [-> | ?]; [by rewrite lookup_insert_eq | rewrite lookup_insert_ne by congruence; done | congruence | lia]. }
  destruct (copy_kernel_half_ok (mem vm) pgd T new vm1 (src_ok _ _ _ _ _ Hs) Em Hfar) as (vm2 & -> & Eh & Hroot). cbn [mbind option_bind].
  rewrite <- Eh in Ho. pose proof (copying_start _ _ _ _ _ new Hs (heap vm2) n (mem vm2) Hnew Ho Hn Hroot) as Hc0.
  replace (Memory (heap vm2) (mem vm2)) with vm2 in Hc0 by (by destruct vm2).
  destruct (for_until_inv (pmd_inv (mem vm) pgd T mm new) (stopped (mem vm) pgd T mm new) 256 0 (copy_pmd pgd new) vm2) as (vm3 & [[-> Hinv] | [-> Hst]]).
  - exists (start_tables T new), (<[new := (n, 1)]> mm). split; [exact Hc0 | apply todo_start].
  - intros i s Hi Hi'. eapply copy_pmd_step; [exact Hs | lia | done].
  - right. cbn [mbind option_bind]. destruct Hinv as (T' & mm' & Hc & _). exists new, vm3, T', mm'. split_and!; [done | done | exact Hc].
  - left. cbn [mbind option_bind]. destruct Hst as (N & T1 & mm1 & HN & Hc). destruct (copying_undo _ _ _ _ _ _ _ _ _ _ Hs Hc HN) as (vm' & -> & Ho' & Em').
    cbn [mbind option_bind]. exists new, N, vm3, T1, mm1, vm'. split; [done |]. split; [exact Hc |]. split; [exact HN | by split].
Qed.

(** A copy that failed: nothing is lost; pages of the parent may have become
    read-only. *)
Definition undisturbed (m0 m : gmap Z Z) pgd T : Prop :=
  pt_ok m pgd T /\ (forall va, 0 <= va < 2 ^ 38 -> sv39 m pgd va = sv39 m0 pgd va \/ sv39 m pgd va = read_only (sv39 m0 pgd va)) /\
  (forall va, 2 ^ 64 - 2 ^ 38 <= va < 2 ^ 64 -> sv39 m pgd va = sv39 m0 pgd va).

Lemma copy_pgd_spec pgd T vm mm : source (mem vm) pgd T (heap vm) mm ->
  (exists vm', copy_pgd pgd vm = Some (None, vm') /\ owns (heap vm') mm /\ undisturbed (mem vm) (mem vm') pgd T) \/
  exists new vm' T' mm', copy_pgd pgd vm = Some (Some new, vm') /\ duplicated (mem vm) pgd T mm new vm' T' mm' /\
    exists vm'', free_pgd new vm' = Some vm'' /\ owns (heap vm'') mm /\ mem vm'' = mem vm'.
Proof.
  intros Hs. destruct (copy_pgd_cases pgd T vm mm Hs) as [E | [(new & N & vm1 & T1 & mm1 & vm' & E & Hc & HN & Ho & Em) | (new & vm' & T' & mm' & E & Hnew & Hc)]].
  - left. exists vm. split; [exact E |]. split; [apply Hs |]. split; [apply Hs |]. split; [by left | done].
  - left. exists vm'. split; [exact E |]. split; [exact Ho |]. rewrite Em. split; [apply Hc | split].
    + intros va Hva. rewrite (parent_view _ _ _ _ _ _ Hs _ _ _ _ va Hc Hva). destruct (_ <? N); [by right | by left].
    + intros va Hva. apply (high_view _ _ _ _ _ _ Hs _ _ _ _ va Hc Hva).
  - right. exists new, vm', T', mm'. split; [exact E |]. split; [by eapply copying_duplicated |]. eapply copying_undo; [exact Hs | exact Hc |]. unfold USER_PAGES. lia.
Qed.

Lemma free_pgd_spec pgd T vm mm mm' : pt_ok (mem vm) pgd T -> owns (heap vm) mm ->
  counted (pages (mem vm) T USER_PAGES ++ user_tables T) mm -> released (pages (mem vm) T USER_PAGES ++ user_tables T) mm mm' ->
  exists vm', free_pgd pgd vm = Some vm' /\ owns (heap vm') mm' /\ mem vm' = mem vm.
Proof.
  intros Hok Ho Hc Hr. assert (E : forall p, cnt p (pages (mem vm) T USER_PAGES ++ user_tables T) = cnt p (footprint (mem vm) pgd T)).
  { intros p. exact (eq_trans (cnt_app _ _ _) (eq_sym (footprint_cnt _ _ _ _ Hok))). }
  apply (free_pgd_ok (mem vm) pgd T vm mm); [done | done | done | by eapply counted_ext | by eapply released_ext].
Qed.

End Results.
