(* ===== verification/CString.v ===== *)
(** * C strings: [src/lib/string.c]

    A buffer is the list of its bytes from the pointer on; a string is a buffer
    with a NUL in it.  A read or a write past the end of a buffer has no
    outcome. *)

From S2P Require Import Prelude.

(** ** The functions *)

Fixpoint strcmp (s1 s2 : list Z) : option Z :=
  match s1, s2 with
  | c1 :: s1, c2 :: s2 => if negb (c1 =? 0) && (c1 =? c2) then strcmp s1 s2 else Some (c1 - c2)
  | _, _ => None
  end.

Fixpoint strlen (s : list Z) : option Z :=
  match s with
  | [] => None
  | c :: s => if c =? 0 then Some 0 else n ← strlen s; Some (n + 1)
  end.

Fixpoint strncmp (s1 s2 : list Z) (n : nat) {struct n} : option Z :=
  match n with
  | O => Some 0
  | S n =>
      match s1, s2 with
      | c1 :: s1, c2 :: s2 => if negb (c1 =? 0) && (c1 =? c2) then strncmp s1 s2 n else Some (c1 - c2)
      | _, _ => None
      end
  end.

(** The destination after the copy. *)
Fixpoint strcpy (dest src : list Z) : option (list Z) :=
  match dest, src with
  | _ :: dest, c :: src => if c =? 0 then Some (c :: dest) else d ← strcpy dest src; Some (c :: d)
  | _, _ => None
  end.

Fixpoint memset (dest : list Z) (c : Z) (n : nat) {struct n} : option (list Z) :=
  match n, dest with
  | O, _ => Some dest
  | S n, _ :: dest => d ← memset dest c n; Some (Z.land c 255 :: d)
  | S _, [] => None
  end.

Fixpoint memcpy (dest src : list Z) (n : nat) {struct n} : option (list Z) :=
  match n, dest, src with
  | O, _, _ => Some dest
  | S n, _ :: dest, c :: src => d ← memcpy dest src n; Some (c :: d)
  | _, _, _ => None
  end.

(** [while (n && ( *d++ = *src++ )) n--;] and then [n] zeros: the NUL that ends
    the first loop is not counted. *)
Fixpoint strncpy (dest src : list Z) (n : nat) {struct n} : option (list Z) :=
  match n with
  | O => Some dest
  | S n' =>
      match dest, src with
      | _ :: dest, c :: src =>
          if c =? 0 then d ← memset dest 0 n; Some (c :: d)
          else d ← strncpy dest src n'; Some (c :: d)
      | _, _ => None
      end
  end.

(** [d] runs over the delimiters up to the NUL. *)
Fixpoint is_delim (delim : list Z) (c : Z) : option bool :=
  match delim with
  | [] => None
  | d :: delim => if d =? 0 then Some false else if d =? c then Some true else is_delim delim c
  end.

Fixpoint skip_delims (delim str : list Z) : option (list Z) :=
  match str with
  | [] => None
  | c :: str' =>
      if c =? 0 then Some str
      else b ← is_delim delim c; if (b : bool) then skip_delims delim str' else Some str
  end.

(** The token and what follows: [Some rest] after a delimiter, None at the end. *)
Fixpoint find_end (delim str : list Z) : option (list Z * option (list Z)) :=
  match str with
  | [] => None
  | c :: str =>
      if c =? 0 then Some ([], None)
      else b ← is_delim delim c;
           if (b : bool) then Some ([], Some str)
           else '(t, r) ← find_end delim str; Some (c :: t, r)
  end.

(** The token (None for NULL) and [*saveptr]; the NUL that replaces the
    delimiter is what ends the token. *)
Definition strtok_r (str : option (list Z)) (delim : list Z) (saveptr : option (list Z)) :
    option (option (list Z) * option (list Z)) :=
  match (match str with None => saveptr | Some _ => str end) with
  | None => Some (None, None)
  | Some str =>
      c ← head str;
      if c =? 0 then Some (None, None) else
      str ← skip_delims delim str;
      c ← head str;
      if c =? 0 then Some (None, None) else
      '(t, r) ← find_end delim str; Some (Some t, r)
  end.

(** [strtok] keeps its place in the static [__strtok_saveptr], which is state here. *)
Definition strtok (str : option (list Z)) (delim : list Z) (__strtok_saveptr : option (list Z)) :
    option (option (list Z) * option (list Z)) := strtok_r str delim __strtok_saveptr.

(** ** Strings *)

(** The bytes of a string: none of them is the NUL. *)
Definition is_str (s : list Z) : Prop := Forall (fun c => c <> 0) s.

(** A string in a buffer, anything after it. *)
Definition cstr (s rest : list Z) : list Z := s ++ 0 :: rest.

Lemma is_str_cons c s : is_str (c :: s) <-> c <> 0 /\ is_str s.
Proof. unfold is_str. by rewrite list.Forall_cons. Qed.

Ltac nonzero c := let E := fresh in destruct (Z.eqb_spec c 0) as [E | E]; [congruence |]; cbn [negb andb].

Lemma strcmp_spec s1 s2 r1 r2 : is_str s1 -> is_str s2 ->
  exists z, strcmp (cstr s1 r1) (cstr s2 r2) = Some z /\ (z = 0 <-> s1 = s2).
Proof.
  unfold cstr. revert s2. induction s1 as [| c1 s1 IH]; intros s2 H1 H2.
  - destruct s2 as [| c2 s2]; simpl; [by eexists |]. apply is_str_cons in H2 as [? _].
    eexists. split; [done |]. split; [lia | done].
  - apply is_str_cons in H1 as [Hc1 H1]. destruct s2 as [| c2 s2]; simpl; nonzero c1.
    + destruct (Z.eqb_spec c1 0); [done |]. eexists. split; [done |]. split; [lia | done].
    + apply is_str_cons in H2 as [Hc2 H2]. destruct (Z.eqb_spec c1 c2) as [-> | Hne].
      * destruct (IH s2 H1 H2) as (z & -> & Hz). exists z. split; [done |]. rewrite Hz. split; congruence.
      * eexists. split; [done |]. split; [lia | congruence].
Qed.

Lemma strncmp_spec s1 s2 r1 r2 : is_str s1 -> is_str s2 -> forall n, (length s2 < n)%nat ->
  exists z, strncmp (cstr s1 r1) (cstr s2 r2) n = Some z /\ (z = 0 <-> s1 = s2).
Proof.
  unfold cstr. revert s2. induction s1 as [| c1 s1 IH]; intros s2 H1 H2 n Hn; (destruct n as [| n]; [lia |]).
  - destruct s2 as [| c2 s2]; simpl; [by eexists |]. apply is_str_cons in H2 as [? _].
    eexists. split; [done |]. split; [lia | done].
  - apply is_str_cons in H1 as [Hc1 H1]. destruct s2 as [| c2 s2]; simpl; nonzero c1.
    + destruct (Z.eqb_spec c1 0); [done |]. eexists. split; [done |]. split; [lia | done].
    + apply is_str_cons in H2 as [Hc2 H2]. destruct (Z.eqb_spec c1 c2) as [-> | Hne].
      * destruct (IH s2 H1 H2 n) as (z & -> & Hz); [simpl in Hn; lia |]. exists z. split; [done |]. rewrite Hz. split; congruence.
      * eexists. split; [done |]. split; [lia | congruence].
Qed.

Lemma strlen_spec s r : is_str s -> strlen (cstr s r) = Some (Z.of_nat (length s)).
Proof.
  unfold cstr. induction s as [| c s IH]; intros Hs; [done |]. apply is_str_cons in Hs as [Hc Hs]. simpl. nonzero c.
  rewrite IH by done. simpl. f_equal. lia.
Qed.

Lemma strcpy_spec dest s r : is_str s -> (length s < length dest)%nat ->
  strcpy dest (cstr s r) = Some (cstr s (drop (S (length s)) dest)).
Proof.
  unfold cstr. revert dest. induction s as [| c s IH]; intros [| d dest] Hs Hl; simpl in Hl; try lia.
  - simpl. by rewrite drop_0.
  - apply is_str_cons in Hs as [Hc Hs]. simpl. nonzero c. by rewrite IH by (done || lia).
Qed.

Lemma memset_spec dest c n : (n <= length dest)%nat ->
  memset dest c n = Some (replicate n (Z.land c 255) ++ drop n dest).
Proof.
  unfold cstr. revert dest. induction n as [| n IH]; intros dest Hl; [done |].
  destruct dest as [| d dest]; simpl in Hl; [lia |]. cbn [memset replicate app drop]. rewrite IH by lia. reflexivity.
Qed.

Lemma memcpy_spec dest src n : (n <= length dest)%nat -> (n <= length src)%nat ->
  memcpy dest src n = Some (take n src ++ drop n dest).
Proof.
  unfold cstr. revert dest src. induction n as [| n IH]; intros dest src Hd Hs; [done |].
  destruct dest as [| d dest], src as [| c src]; simpl in *; try lia. by rewrite IH by lia.
Qed.

(** A long source is cut at [n] bytes and not terminated. *)
Lemma strncpy_long dest src n r : is_str src -> (n <= length src)%nat -> (n <= length dest)%nat ->
  strncpy dest (cstr src r) n = Some (take n src ++ drop n dest).
Proof.
  unfold cstr. revert dest src. induction n as [| n IH]; intros dest src Hs Hl Hd; [done |].
  destruct src as [| c src], dest as [| d dest]; simpl in *; try lia.
  apply is_str_cons in Hs as [Hc Hs]. nonzero c. by rewrite IH by (done || lia).
Qed.

(** A short source is padded with zeros up to [n + 1] bytes, one more than asked for. *)
Lemma strncpy_short dest src n r : is_str src -> (length src < n)%nat -> (n < length dest)%nat ->
  strncpy dest (cstr src r) n = Some (src ++ replicate (S n - length src) 0 ++ drop (S n) dest).
Proof.
  unfold cstr. revert dest src. induction n as [| n IH]; intros dest src Hs Hl Hd; [lia |].
  destruct dest as [| d dest]; cbn [length] in Hd; [lia |]. destruct src as [| c src]; cbn [app strncpy].
  - rewrite memset_spec by lia. reflexivity.
  - apply is_str_cons in Hs as [Hc Hs]. nonzero c. simpl in Hl. by rewrite IH by (done || lia).
Qed.

(** A destination of exactly [n] bytes is overrun by one. *)
Lemma strncpy_overrun dest src r : is_str src -> (length src < length dest)%nat ->
  strncpy dest (cstr src r) (length dest) = None.
Proof.
  assert (Hm : forall l k, (length l < k)%nat -> memset l 0 k = None).
  { clear. induction l as [| x l IH]; intros [| k] Hk; cbn [length] in Hk; try lia; [done |]. cbn [memset]. by rewrite IH by lia. }
  unfold cstr. revert dest. induction src as [| c src IH]; intros [| d dest] Hs Hl; cbn [length] in *; try lia; cbn [app strncpy].
  - rewrite Hm by (cbn [length]; lia). reflexivity.
  - apply is_str_cons in Hs as [Hc Hs]. nonzero c. by rewrite IH by (done || lia).
Qed.

(** ** Tokens *)

(** The components of a path: the maximal runs of bytes other than [sep]. *)
Fixpoint split_on (sep : Z) (s : list Z) : list (list Z) :=
  match s with
  | [] => [[]]
  | c :: s => match split_on sep s with
              | w :: ws => if c =? sep then [] :: w :: ws else (c :: w) :: ws
              | [] => []
              end
  end.

Definition components (sep : Z) (s : list Z) : list (list Z) := filter (fun w => w <> []) (split_on sep s).

(** The tokens of a string: the first call with the string, the next ones with NULL. *)
Fixpoint tokens (fuel : nat) (str : option (list Z)) (delim : list Z) (saveptr : option (list Z)) : option (list (list Z)) :=
  '(tok, saveptr) ← strtok_r str delim saveptr;
  match tok with
  | None => Some []
  | Some t => match fuel with O => None | S fuel => ts ← tokens fuel None delim saveptr; Some (t :: ts) end
  end.

Section Tokens.
  Context (sep : Z) (Hsep : sep <> 0).

Lemma split_on_hd s : exists w ws, split_on sep s = w :: ws.
Proof.
  induction s as [| c s (w & ws & IH)]; simpl; [by eexists _, _ |]. rewrite IH.
  destruct (c =? sep); by eexists _, _.
Qed.

Lemma is_delim_sep c : is_delim [sep; 0] c = Some (c =? sep).
Proof. simpl. nonzero sep. rewrite (Z.eqb_sym sep). by destruct (c =? sep). Qed.

Lemma split_on_sep s : split_on sep (sep :: s) = [] :: split_on sep s.
Proof. destruct (split_on_hd s) as (w & ws & E). simpl. by rewrite E, Z.eqb_refl. Qed.

Lemma components_sep s : components sep (sep :: s) = components sep s.
Proof. unfold components. by rewrite split_on_sep, filter_cons_False by (intros Hn; by apply Hn). Qed.

(** Skipping the leading delimiters keeps the components. *)
Lemma skip_delims_spec s r : is_str s ->
  exists s', skip_delims [sep; 0] (cstr s r) = Some (cstr s' r) /\ is_str s' /\ (length s' <= length s)%nat /\
    components sep s' = components sep s /\ (s' = [] \/ exists c s'', s' = c :: s'' /\ c <> sep).
Proof.
  induction s as [| c s IH]; intros Hs; [exists []; split_and!; [done | done | done | done | by left] |]. apply is_str_cons in Hs as [Hc Hs'].
  cbn [cstr app skip_delims]. nonzero c. rewrite is_delim_sep. cbn [mbind option_bind].
  destruct (Z.eqb_spec c sep) as [-> | Hne].
  - destruct (IH Hs') as (s' & E & ? & ? & Hcm & Hor). exists s'. rewrite components_sep.
    split_and!; try done. simpl. lia.
  - exists (c :: s). split_and!; [done | by apply is_str_cons | done | done | right; by exists c, s].
Qed.

(** The token is the first component; the rest holds the others. *)
Lemma find_end_spec s r : is_str s ->
  exists t rest, find_end [sep; 0] (cstr s r) = Some (t, (fun x => cstr x r) <$> rest) /\
    split_on sep s = t :: match rest with Some x => split_on sep x | None => [] end /\
    match rest with Some x => is_str x /\ (length x < length s)%nat | None => True end.
Proof.
  induction s as [| c s IH]; intros Hs; [exists [], None; done |]. apply is_str_cons in Hs as [Hc Hs].
  cbn [cstr app find_end]. nonzero c. rewrite is_delim_sep. cbn [mbind option_bind].
  destruct (Z.eqb_spec c sep) as [-> | Hne].
  - exists [], (Some s). rewrite split_on_sep. split_and!; try done. simpl. lia.
  - destruct (IH Hs) as (t & rest & E & Hsp & Hr). unfold cstr in E. rewrite E. cbn [mbind option_bind].
    exists (c :: t), rest. split; [done |]. cbn [split_on]. rewrite Hsp. destruct (Z.eqb_spec c sep); [done |].
    split; [done |]. destruct rest; [| done]. simpl. destruct Hr. split; [done | lia].
Qed.

Lemma strtok_spec s r str sv : is_str s -> str = Some (cstr s r) \/ (str = None /\ sv = Some (cstr s r)) ->
  match components sep s with
  | [] => strtok_r str [sep; 0] sv = Some (None, None)
  | t :: ts => exists rest, strtok_r str [sep; 0] sv = Some (Some t, (fun x => cstr x r) <$> rest) /\
      match rest with Some x => is_str x /\ (length x < length s)%nat /\ components sep x = ts | None => ts = [] end
  end.
Proof.
  intros Hs Hstr. assert (E : strtok_r str [sep; 0] sv = strtok_r (Some (cstr s r)) [sep; 0] None).
  { unfold strtok_r. by destruct Hstr as [-> | [-> ->]]. }
  rewrite E. clear E Hstr. unfold strtok_r. destruct s as [| c s]; [done |].
  pose proof Hs as Hs0. apply is_str_cons in Hs0 as [Hc _]. cbn [cstr app head mbind option_bind]. nonzero c.
  destruct (skip_delims_spec (c :: s) r Hs) as (s' & E & Hs' & Hl & <- & Hor). unfold cstr in E. cbn [app] in E. rewrite E.
  cbn [mbind option_bind]. destruct Hor as [-> | (c' & s'' & -> & Hne)]; [done |].
  pose proof Hs' as Hs0. apply is_str_cons in Hs0 as [Hc' _]. cbn [app head mbind option_bind]. nonzero c'.
  destruct (find_end_spec (c' :: s'') r Hs') as (t & rest & E' & Hsp & Hr). unfold cstr in E'. cbn [app] in E'. rewrite E'.
  cbn [mbind option_bind]. unfold components at 1. rewrite Hsp.
  assert (Ht : t <> []).
  { intros ->. simpl in Hsp. destruct (split_on_hd s'') as (w & ws & E''). rewrite E'' in Hsp.
    destruct (Z.eqb_spec c' sep); [done |]. discriminate Hsp. }
  rewrite filter_cons_True by done. exists rest. split; [done |]. destruct rest as [x |]; [| done].
  destruct Hr. split_and!; [done | lia | done].
Qed.

Lemma tokens_spec fuel s r str sv : is_str s -> str = Some (cstr s r) \/ (str = None /\ sv = Some (cstr s r)) ->
  (length s < fuel)%nat -> tokens fuel str [sep; 0] sv = Some (components sep s).
Proof.
  revert s str sv. induction fuel as [| fuel IH]; intros s str sv Hs Hstr Hf; [lia |]. cbn [tokens].
  pose proof (strtok_spec s r str sv Hs Hstr) as Ht. destruct (components sep s) as [| t ts]; [by rewrite Ht |].
  destruct Ht as (rest & -> & Hr). cbn [mbind option_bind]. destruct rest as [x |].
  - destruct Hr as (Hx & Hlx & <-). rewrite (IH x None _ Hx); [done | by right | lia].
  - subst ts. destruct fuel; [| done]. simpl in Hf. destruct s; simpl in *; [done | lia].
Qed.

End Tokens.
