(* ===== verification/VfsData.v ===== *)
(** * The virtual file system: data

    The objects of [src/vfs.h], [src/tmpfs.c], [src/ramfs.c] and [src/devfs.c],
    each in a store by address, and the state that the file systems share.
    A pointer is an address, 0 is NULL. *)

From Stdlib Require Import Ascii String.
From S2P Require Import Prelude Config Heap CString.
#[local] Open Scope Z_scope.
#[local] Open Scope list_scope.

(** ** Objects *)

(** The operation tables: an object points to those of one file system. *)
Inductive fs_ops := tmpfs_ops | ramfs_ops | devfs_ops.

#[export] Instance fs_ops_eq_dec : EqDecision fs_ops.
Proof. solve_decision. Defined.

Inductive fsnode_type := FS_DIR | FS_FILE.

#[export] Instance fsnode_type_eq_dec : EqDecision fsnode_type.
Proof. solve_decision. Defined.

(** [struct vnode]; [v_ops] stands for both tables of operations. *)
Record vnode := Vnode {
  v_mount : Z;
  v_ops : fs_ops;
  v_internal : Z;
  v_parent : Z;
}.
Definition set_v_mount (v : Z) (r : vnode) : vnode :=
  Vnode v (v_ops r) (v_internal r) (v_parent r).
Definition set_v_parent (v : Z) (r : vnode) : vnode :=
  Vnode (v_mount r) (v_ops r) (v_internal r) v.

(** [struct file] *)
Record file := File {
  f_vnode : Z;
  f_pos : Z;
  f_ops : fs_ops;
  f_flags : Z;
  ref_count : Z;
}.
Definition set_f_vnode (v : Z) (r : file) : file :=
  File v (f_pos r) (f_ops r) (f_flags r) (ref_count r).
Definition set_f_pos (v : Z) (r : file) : file :=
  File (f_vnode r) v (f_ops r) (f_flags r) (ref_count r).
Definition set_f_ops (v : fs_ops) (r : file) : file :=
  File (f_vnode r) (f_pos r) v (f_flags r) (ref_count r).
Definition set_ref_count (v : Z) (r : file) : file :=
  File (f_vnode r) (f_pos r) (f_ops r) (f_flags r) v.

(** [struct mount]: the root vnode and the file system, by index. *)
Record mount := Mount {
  m_root : Z;
  m_fs : Z;
}.

(** [struct tmpfs_vnode]; [t_data] is the pointer, [t_bytes] what it points to. *)
Record tmpfs_vnode := TmpfsVnode {
  t_type : fsnode_type;
  t_name : list Z;
  t_entry : list Z;
  t_data : Z;
  t_bytes : list Z;
  t_size : Z;
}.
Definition set_t_name (v : list Z) (r : tmpfs_vnode) : tmpfs_vnode :=
  TmpfsVnode (t_type r) v (t_entry r) (t_data r) (t_bytes r) (t_size r).
Definition set_t_entry (v : list Z) (r : tmpfs_vnode) : tmpfs_vnode :=
  TmpfsVnode (t_type r) (t_name r) v (t_data r) (t_bytes r) (t_size r).
Definition set_t_data (v : Z) (r : tmpfs_vnode) : tmpfs_vnode :=
  TmpfsVnode (t_type r) (t_name r) (t_entry r) v (t_bytes r) (t_size r).
Definition set_t_bytes (v : list Z) (r : tmpfs_vnode) : tmpfs_vnode :=
  TmpfsVnode (t_type r) (t_name r) (t_entry r) (t_data r) v (t_size r).
Definition set_t_size (v : Z) (r : tmpfs_vnode) : tmpfs_vnode :=
  TmpfsVnode (t_type r) (t_name r) (t_entry r) (t_data r) (t_bytes r) v.

(** [struct ramfs_inode]; [r_entries] are the vnodes of the list [entries], in
    order, and [r_data] is an offset in the initial ram disk. *)
Record ramfs_inode := RamfsInode {
  r_type : fsnode_type;
  r_name : list Z;
  r_entries : list Z;
  r_data : Z;
  r_size : Z;
}.
Definition set_r_entries (v : list Z) (r : ramfs_inode) : ramfs_inode :=
  RamfsInode (r_type r) (r_name r) v (r_data r) (r_size r).
Definition set_r_data (v : Z) (r : ramfs_inode) : ramfs_inode :=
  RamfsInode (r_type r) (r_name r) (r_entries r) v (r_size r).
Definition set_r_size (v : Z) (r : ramfs_inode) : ramfs_inode :=
  RamfsInode (r_type r) (r_name r) (r_entries r) (r_data r) v.

Definition MAX_FS : nat := 16.
Definition PATH_MAX : Z := 255.
Definition O_CREAT : Z := 64.

(** The globals: the stores, the registered file systems, the root mount, the
    device vnodes. *)
Record vfs := Vfs {
  vnodes : gmap Z vnode;
  files : gmap Z file;
  mounts : gmap Z mount;
  tnodes : gmap Z tmpfs_vnode;
  rnodes : gmap Z ramfs_inode;
  fs_list : list (option (list Z * fs_ops));
  rootfs : Z;
  uart_vnode : Z;
  fb_vnode : Z;
}.
Definition set_vnodes (v : gmap Z vnode) (r : vfs) : vfs :=
  Vfs v (files r) (mounts r) (tnodes r) (rnodes r) (fs_list r) (rootfs r) (uart_vnode r) (fb_vnode r).
Definition set_files (v : gmap Z file) (r : vfs) : vfs :=
  Vfs (vnodes r) v (mounts r) (tnodes r) (rnodes r) (fs_list r) (rootfs r) (uart_vnode r) (fb_vnode r).
Definition set_mounts (v : gmap Z mount) (r : vfs) : vfs :=
  Vfs (vnodes r) (files r) v (tnodes r) (rnodes r) (fs_list r) (rootfs r) (uart_vnode r) (fb_vnode r).
Definition set_tnodes (v : gmap Z tmpfs_vnode) (r : vfs) : vfs :=
  Vfs (vnodes r) (files r) (mounts r) v (rnodes r) (fs_list r) (rootfs r) (uart_vnode r) (fb_vnode r).
Definition set_rnodes (v : gmap Z ramfs_inode) (r : vfs) : vfs :=
  Vfs (vnodes r) (files r) (mounts r) (tnodes r) v (fs_list r) (rootfs r) (uart_vnode r) (fb_vnode r).
Definition set_fs_list (v : list (option (list Z * fs_ops))) (r : vfs) : vfs :=
  Vfs (vnodes r) (files r) (mounts r) (tnodes r) (rnodes r) v (rootfs r) (uart_vnode r) (fb_vnode r).
Definition set_rootfs (v : Z) (r : vfs) : vfs :=
  Vfs (vnodes r) (files r) (mounts r) (tnodes r) (rnodes r) (fs_list r) v (uart_vnode r) (fb_vnode r).
Definition set_uart_vnode (v : Z) (r : vfs) : vfs :=
  Vfs (vnodes r) (files r) (mounts r) (tnodes r) (rnodes r) (fs_list r) (rootfs r) v (fb_vnode r).
Definition set_fb_vnode (v : Z) (r : vfs) : vfs :=
  Vfs (vnodes r) (files r) (mounts r) (tnodes r) (rnodes r) (fs_list r) (rootfs r) (uart_vnode r) v.

(** Nothing registered, nothing mounted. *)
Definition vfs0 : vfs := Vfs ∅ ∅ ∅ ∅ ∅ (replicate MAX_FS None) 0 0 0.

Definition put_vnode (p : Z) (n : vnode) (r : vfs) : vfs := set_vnodes (<[p := n]> (vnodes r)) r.
Definition put_file (p : Z) (f : file) (r : vfs) : vfs := set_files (<[p := f]> (files r)) r.
Definition put_tnode (p : Z) (n : tmpfs_vnode) (r : vfs) : vfs := set_tnodes (<[p := n]> (tnodes r)) r.
Definition put_rnode (p : Z) (n : ramfs_inode) (r : vfs) : vfs := set_rnodes (<[p := n]> (rnodes r)) r.

(** Sizes of the objects, in bytes. *)
Definition SIZEOF_VNODE : Z := 40.
Definition SIZEOF_FILE : Z := 32.
Definition SIZEOF_MOUNT : Z := 16.
Definition SIZEOF_FILESYSTEM : Z := 16.
Definition SIZEOF_TMPFS_VNODE : Z := 184.
Definition SIZEOF_RAMFS_INODE : Z := 320.
Definition SIZEOF_RAMFS_DIR_ENTRY : Z := 24.

(** ** Strings *)

(** [strcmp(a, b) == 0] on strings. *)
Definition streq (a b : list Z) : bool := bool_decide (strcmp (cstr a []) (cstr b []) = Some 0).

Lemma streq_spec a b : is_str a -> is_str b -> streq a b = bool_decide (a = b).
Proof.
  intros Ha Hb. unfold streq. apply bool_decide_ext. destruct (strcmp_spec a b [] [] Ha Hb) as (z & -> & Hz).
  rewrite <- Hz. split; congruence.
Qed.

(** An ASCII literal. *)
Definition chars (s : string) : list Z := (fun a => Z.of_N (Ascii.N_of_ascii a)) <$> String.list_ascii_of_string s.

(** The heap and the file systems: [allocate] hands out the objects; a NULL is
    written through without a check, which has no outcome. *)
Record vstate (H : Type) := VState { vheap : H; vst : vfs }.
Arguments VState {H} _ _.
Arguments vheap {H} _.
Arguments vst {H} _.

Section State.
Context {H : Type} {HO : HeapOps H}.

Definition on_vst (f : vfs -> vfs) (s : vstate H) : vstate H := VState (vheap s) (f (vst s)).

Definition new_object (sz : Z) (s : vstate H) : option (Z * vstate H) :=
  '(p, h) ← h_allocate sz (vheap s);
  if p =? 0 then None else Some (p, VState h (vst s)).

Definition free_object_at (p : Z) (s : vstate H) : option (vstate H) :=
  h ← h_free p (vheap s); Some (VState h (vst s)).

End State.
