(* ===== verification/Stdio.v ===== *)
(** * Formatted output: [lib/stdio.c]

    The characters [printf] passes to [uart_putc], in order.  A buffer that is
    too small for the width asked for, or an argument of the wrong kind, has no
    outcome. *)

From Stdlib Require Import Ascii String.
From S2P Require Import Prelude CString VfsData.
#[local] Open Scope Z_scope.
#[local] Open Scope list_scope.

(** A line of text, ended by "\r\n". *)
Definition line (s : string) : list Z := chars s ++ [13; 10].

(** ** Numbers *)

Definition digit_char (rem : Z) : Z := if rem <? 10 then 48 + rem else 97 + rem - 10.

(** The digits, the lowest first; [64] turns are enough for 64 bits. *)
Fixpoint digits (fuel : nat) (num base : Z) : option (list Z) :=
  if num <=? 0 then Some [] else
  match fuel with
  | O => None
  | S fuel => ds ← digits fuel (num / base) base; Some (digit_char (num mod base) :: ds)
  end.

(** [print_uint] and [print_long], which differ in the size of [buf]. *)
Definition print_number (size num base width pad : Z) : option (list Z) :=
  ds ← (if num =? 0 then Some [48] else digits 64 num base);
  let buf := ds ++ replicate (Z.to_nat (width - Z.of_nat (length ds))) pad in
  if size <? Z.of_nat (length buf) then None else Some (reverse buf).

Definition print_uint (num base width pad : Z) : option (list Z) := print_number 32 num base width pad.
Definition print_long (num base width pad : Z) : option (list Z) := print_number 64 num base width pad.

Definition print_int (num width pad : Z) : option (list Z) :=
  if num <? 0 then
    let num := i32 (- num) in
    let width := if 0 <? width then width - 1 else width in
    s ← print_uint (u32 num) 10 width pad; Some (45 :: s)
  else print_uint (u32 num) 10 width pad.

(** ** Formats *)

(** An argument: a machine word, or a string with None for NULL. *)
Inductive arg := Word (v : Z) | Str (s : option (list Z)).

Definition is_digit (c : Z) : bool := (48 <=? c) && (c <=? 57).

Fixpoint scan_width (p : list Z) (width : Z) : Z * list Z :=
  match p with
  | c :: p' => if is_digit c then scan_width p' (i32 (i32 (width * 10) + (c - 48))) else (width, p)
  | [] => (width, [])
  end.

Fixpoint scan_longs (p : list Z) : bool * list Z :=
  match p with c :: p' => if c =? 108 then (true, snd (scan_longs p')) else (false, p) | [] => (false, []) end.

(** The characters of a string up to its NUL. *)
Fixpoint put_string (s : list Z) : option (list Z) :=
  match s with [] => None | c :: s => if c =? 0 then Some [] else o ← put_string s; Some (c :: o) end.

Definition next_word (args : list arg) : option (Z * list arg) := match args with Word v :: args => Some (v, args) | _ => None end.
Definition next_str (args : list arg) : option (option (list Z) * list arg) := match args with Str s :: args => Some (s, args) | _ => None end.

(** The conversion [c]: what is printed and the arguments left. *)
Definition convert (c pad width : Z) (long : bool) (args : list arg) : option (list Z * list arg) :=
  if c =? 100 then '(v, args) ← next_word args; o ← print_int (i32 v) width pad; Some (o, args)
  else if (c =? 117) || (c =? 120) then
    '(v, args) ← next_word args;
    let base := if c =? 117 then 10 else 16 in
    o ← (if long then print_long (u64 v) base width pad else print_uint (u32 v) base width pad);
    Some (o, args)
  else if c =? 115 then
    '(s, args) ← next_str args;
    o ← put_string (match s with Some s => s | None => chars "(null)" ++ [0] end);
    Some (o, args)
  else if c =? 99 then '(v, args) ← next_word args; Some ([Z.land v 255], args)
  else if c =? 112 then '(v, args) ← next_word args; o ← print_long (u64 v) 16 0 32; Some (chars "0x" ++ o, args)
  else Some (if c =? 0 then [37] else [37; c], args).

Fixpoint printf (fuel : nat) (p : list Z) (args : list arg) : option (list Z) :=
  c ← head p;
  if c =? 0 then Some [] else
  match fuel with
  | O => None
  | S fuel =>
      if negb (c =? 37) then o ← printf fuel (tail p) args; Some (c :: o) else
      let p := tail p in
      c ← head p;
      if c =? 37 then o ← printf fuel (tail p) args; Some (37 :: o) else
      let pad := if c =? 48 then 48 else 32 in
      let p := if c =? 48 then tail p else p in
      let '(width, p) := scan_width p 0 in
      let '(long, p) := scan_longs p in
      c ← head p;
      '(s, args) ← convert c pad width long args;
      o ← printf fuel (if c =? 0 then p else tail p) args;
      Some (s ++ o)
  end.
