(* ===== verification/StdioProps.v ===== *)
(** * Properties of formatted output

    The digits printed are the numeral of the number; [printf] prints the pieces
    of its format one after the other, each as [conversion] says. *)

From Stdlib Require Import Ascii String.
From S2P Require Import Prelude CString VfsData Stdio.
#[local] Open Scope Z_scope.
#[local] Open Scope list_scope.

(** ** Numerals *)

Definition digit_val (c : Z) : Z := if c <=? 57 then c - 48 else c - 87.

(** The number a numeral denotes, and that of its digits from the lowest. *)
Definition numeral (base : Z) (s : list Z) : Z := fold_left (fun n c => n * base + digit_val c) s 0.

Fixpoint low_value (base : Z) (ds : list Z) : Z := match ds with [] => 0 | c :: ds => digit_val c + base * low_value base ds end.

Lemma numeral_reverse base ds : numeral base (reverse ds) = low_value base ds.
Proof.
  unfold numeral. induction ds as [| c ds IH]; [done |]. rewrite reverse_cons, fold_left_app. cbn [fold_left low_value]. rewrite IH. lia.
Qed.

Lemma digit_val_char d : 0 <= d < 16 -> digit_val (digit_char d) = d.
Proof. intros Hd. unfold digit_char. destruct (Z.ltb_spec d 10); unfold digit_val; [destruct (Z.leb_spec (48 + d) 57) | destruct (Z.leb_spec (97 + d - 10) 57)]; lia. Qed.

(** The digits of a base: 0 to 9, then a to f. *)
Definition base_digit (base c : Z) : Prop := (48 <= c <= 57 \/ 97 <= c <= 102) /\ digit_val c < base.

Lemma digit_char_base base d : 0 <= d < base -> base <= 16 -> base_digit base (digit_char d).
Proof. intros Hd Hb. unfold base_digit. rewrite digit_val_char by lia. split; [| lia]. unfold digit_char. zcase; lia. Qed.

Lemma digits_spec base fuel : 2 <= base <= 16 -> forall num, 0 < num < base ^ Z.of_nat fuel ->
  exists ds c, digits fuel num base = Some (ds ++ [c]) /\ Forall (base_digit base) (ds ++ [c]) /\ low_value base (ds ++ [c]) = num /\ c <> 48 /\ base ^ Z.of_nat (length ds) <= num.
Proof.
  intros Hb. induction fuel as [| fuel IH]; intros num Hn; [cbn in Hn; lia |]. cbn [digits]. destruct (Z.leb_spec num 0); [lia |].
  assert (Hm : 0 <= num mod base < base) by (apply Z.mod_pos_bound; lia). pose proof (Z.div_mod num base ltac:(lia)) as Hdm.
  destruct (Z.eqb_spec (num / base) 0) as [Hq | Hq].
  - rewrite Hq. exists [], (digit_char (num mod base)). split.
    { destruct fuel; cbn; done. }
    split; [constructor; [by apply digit_char_base; lia | constructor] |].
    cbn [app low_value length Z.of_nat]. rewrite digit_val_char by lia. split_and!; [lia | | cbn; lia]. unfold digit_char. zcase; lia.
  - assert (0 <= num / base) by (apply Z.div_pos; lia).
    destruct (IH (num / base)) as (ds & c & E & Hd & Hv & Hc & Hl); [split; [lia |]; apply Z.div_lt_upper_bound; [lia |]; rewrite Nat2Z.inj_succ, Z.pow_succ_r in Hn; lia |].
    rewrite E. exists (digit_char (num mod base) :: ds), c. split; [done |].
    split; [constructor; [by apply digit_char_base; lia | exact Hd] |]. cbn [app low_value length]. rewrite digit_val_char, Hv by lia.
    split_and!; [lia | done |]. rewrite Nat2Z.inj_succ, Z.pow_succ_r by lia. nia.
Qed.

Lemma print_number_spec size num base width pad : size = 32 \/ size = 64 -> 2 <= base <= 16 -> 0 <= num < 2 ^ size -> width <= size ->
  exists s n, print_number size num base width pad = Some (replicate n pad ++ s) /\ Forall (base_digit base) s /\ numeral base s = num /\
    (num = 0 -> s = [48]) /\ (num <> 0 -> head s <> Some 48) /\ Z.of_nat (n + length s) = Z.max width (Z.of_nat (length s)).
Proof.
  intros Hs Hb Hn Hw. unfold print_number.
  assert (Hds : exists ds, (if num =? 0 then Some [48] else digits 64 num base) = Some ds /\ Forall (base_digit base) ds /\ low_value base ds = num /\
    (num = 0 -> ds = [48]) /\ (num <> 0 -> exists l c, ds = l ++ [c] /\ c <> 48) /\ 0 < Z.of_nat (length ds) <= size).
  { destruct (Z.eqb_spec num 0) as [-> | Hne].
    - exists [48]. split_and!; try done; [constructor; [| constructor]; split; cbn; lia | cbn; lia ..].
    - assert (H64 : num < base ^ Z.of_nat 64).
      { assert (2 ^ 64 <= base ^ Z.of_nat 64) by (apply Z.pow_le_mono_l; lia). destruct Hs as [-> | ->]; lia. }
      destruct (digits_spec base 64 Hb num ltac:(lia)) as (l & c & -> & Hd & Hv & Hc & Hl). exists (l ++ [c]). split_and!; try done; [by exists l, c | |];
        rewrite length_app; cbn [length]; [lia |].
      assert (2 ^ Z.of_nat (length l) <= base ^ Z.of_nat (length l)) by (apply Z.pow_le_mono_l; lia).
      assert (Z.of_nat (length l) < size) by (apply (Z.pow_lt_mono_r_iff 2); lia). lia. }
  destruct Hds as (ds & -> & Hd & Hv & H0 & H1 & Hlen). cbn [mbind option_bind].
  destruct (Z.ltb_spec size (Z.of_nat (length (ds ++ replicate (Z.to_nat (width - Z.of_nat (length ds))) pad)))) as [Hc | _].
  { rewrite length_app, length_replicate in Hc. lia. }
  exists (reverse ds), (Z.to_nat (width - Z.of_nat (length ds))). rewrite reverse_app, reverse_replicate, numeral_reverse, length_reverse.
  split_and!; [done | by apply Forall_reverse | done | | | lia].
  - intros E. by rewrite (H0 E).
  - intros E. destruct (H1 E) as (l & c & -> & Hc). rewrite reverse_app. cbn. congruence.
Qed.

(** The numeral of a number: the digits of the base that denote it, without
    leading zeros. *)
Definition numeral_of (base num : Z) (s : list Z) : Prop :=
  Forall (base_digit base) s /\ numeral base s = num /\ (num = 0 -> s = [48]) /\ (num <> 0 -> head s <> Some 48).

(** There is one only. *)
Lemma low_value_nonneg base ds : 0 <= base -> Forall (base_digit base) ds -> 0 <= low_value base ds.
Proof.
  intros Hb. induction 1 as [| c ds [Hc Hl] _ IH]; [done |]. cbn [low_value]. assert (0 <= digit_val c) by (unfold digit_val; zcase; lia). nia.
Qed.

Lemma base_digit_val base c : base_digit base c -> 0 <= digit_val c < base /\ (digit_val c = 0 -> c = 48).
Proof. intros [Hc Hl]. unfold digit_val in *. zcase; lia. Qed.

Lemma last_tail (c : Z) l : last (c :: l) <> Some 48 -> last l <> Some 48.
Proof. by destruct l. Qed.

Lemma low_value_pos base l : 1 < base -> Forall (base_digit base) l -> l <> [] -> last l <> Some 48 -> 0 < low_value base l.
Proof.
  intros Hb. induction 1 as [| c l Hc Hl IH]; [done |]. intros _ Hn. cbn [low_value]. destruct (base_digit_val _ _ Hc) as [Hv H0].
  destruct l as [| d l]; [cbn in *; assert (digit_val c <> 0) by (intros E; apply Hn; by rewrite (H0 E)); lia |].
  specialize (IH ltac:(done) (last_tail _ _ Hn)). nia.
Qed.

Lemma low_value_inj base l1 : 1 < base -> Forall (base_digit base) l1 -> forall l2, Forall (base_digit base) l2 ->
  last l1 <> Some 48 -> last l2 <> Some 48 -> low_value base l1 = low_value base l2 -> l1 = l2.
Proof.
  intros Hb. induction 1 as [| c l1 Hc H1 IH]; intros l2 H2 Hn1 Hn2 E.
  - destruct l2 as [| d l2]; [done |]. pose proof (low_value_pos base (d :: l2) Hb H2 ltac:(done) Hn2). cbn [low_value] in *. lia.
  - destruct H2 as [| d l2 Hd H2].
    { pose proof (low_value_pos base (c :: l1) Hb ltac:(by constructor) ltac:(done) Hn1). cbn [low_value] in *. lia. }
    destruct (base_digit_val _ _ Hc) as [Hv _], (base_digit_val _ _ Hd) as [Hv' _]. cbn [low_value] in E.
    assert (Ev : digit_val c = digit_val d /\ low_value base l1 = low_value base l2).
    { destruct (Z.lt_trichotomy (low_value base l1) (low_value base l2)) as [Hlt | [Heq | Hgt]]; [nia | split; nia | nia]. }
    destruct Ev as [Ec El]. f_equal; [| apply IH; [done | by eapply last_tail | by eapply last_tail | done]].
    destruct Hc as [Hc _], Hd as [Hd _]. unfold digit_val in Ec. zcase_in Ec; zcase_in Ec; lia.
Qed.

Lemma numeral_of_fun base num s s' : 1 < base -> numeral_of base num s -> numeral_of base num s' -> s = s'.
Proof.
  intros Hb (Hd & Hv & H0 & H1) (Hd' & Hv' & H0' & H1'). destruct (decide (num = 0)) as [E | E]; [by rewrite H0, H0' |].
  apply (inj reverse). apply (low_value_inj base); rewrite ?last_reverse; [done | by apply Forall_reverse | by apply Forall_reverse | by apply H1 | by apply H1' |].
  by rewrite <- !numeral_reverse, !reverse_involutive, Hv, Hv'.
Qed.

(** [s] after the padding that fills up the width. *)
Definition padded (pad width : Z) (s out : list Z) : Prop :=
  exists n, out = replicate n pad ++ s /\ Z.of_nat (length out) = Z.max width (Z.of_nat (length s)).

Lemma padded_fun pad width s out out' : padded pad width s out -> padded pad width s out' -> out = out'.
Proof.
  intros (n & -> & Hl) (n' & -> & Hl'). rewrite length_app, length_replicate in *. by replace n' with n by lia.
Qed.

(** The numbers printed, and nothing else: the buffer must have room for the width. *)
Lemma print_number_iff size num base width pad out : size = 32 \/ size = 64 -> 2 <= base <= 16 -> 0 <= num < 2 ^ size ->
  print_number size num base width pad = Some out <-> width <= size /\ exists s, numeral_of base num s /\ padded pad width s out.
Proof.
  intros Hs Hb Hn. destruct (decide (width <= size)) as [Hw | Hw].
  - destruct (print_number_spec size num base width pad Hs Hb Hn Hw) as (s & n & -> & Hd & Hv & H0 & H1 & Hl).
    assert (Hs' : numeral_of base num s) by by split_and!.
    assert (Hp : padded pad width s (replicate n pad ++ s)) by (exists n; split; [done |]; rewrite length_app, length_replicate; lia).
    split; [intros [= <-]; split; [done | by exists s] |]. intros (_ & s' & Hs2 & Hp'). f_equal.
    assert (s' = s) as -> by (by apply (numeral_of_fun base num); [lia |..]). by apply (padded_fun pad width s).
  - split; [| lia]. unfold print_number. destruct (if num =? 0 then _ else _) as [ds |]; [| done]. cbn [mbind option_bind].
    destruct (Z.ltb_spec size (Z.of_nat (length (ds ++ replicate (Z.to_nat (width - Z.of_nat (length ds))) pad)))) as [_ | Hc]; [done |].
    rewrite length_app, length_replicate in Hc. lia.
Qed.

(** ** Formats *)

Inductive piece := Lit (c : Z) | Percent | Conv (zero : bool) (width : list Z) (longs : nat) (c : Z).

Definition piece_fmt (p : piece) : list Z :=
  match p with
  | Lit c => [c]
  | Percent => [37; 37]
  | Conv zero width longs c => 37 :: (if zero then [48] else []) ++ width ++ replicate longs 108 ++ [c]
  end.

Definition piece_ok (p : piece) : Prop :=
  match p with
  | Lit c => c <> 0 /\ c <> 37
  | Percent => True
  | Conv zero width longs c =>
      Forall (fun d => is_digit d = true) width /\ (zero = false -> head width <> Some 48) /\ is_digit c = false /\ c <> 0 /\ c <> 37 /\ c <> 108
  end.

Definition width_of (width : list Z) : Z := fold_left (fun n d => i32 (i32 (n * 10) + (d - 48))) width 0.

(** The loop of [printf] over any conversions: [printf] of the kernel, and that of
    the boot loader, which has fewer of them. *)
Section Conversions.
Context (convert : Z -> Z -> Z -> bool -> list arg -> option (list Z * list arg)).

Fixpoint printf_with (fuel : nat) (p : list Z) (args : list arg) : option (list Z) :=
  c ← head p;
  if c =? 0 then Some [] else
  match fuel with
  | O => None
  | S fuel =>
      if negb (c =? 37) then o ← printf_with fuel (tail p) args; Some (c :: o) else
      let p := tail p in
      c ← head p;
      if c =? 37 then o ← printf_with fuel (tail p) args; Some (37 :: o) else
      let pad := if c =? 48 then 48 else 32 in
      let p := if c =? 48 then tail p else p in
      let '(width, p) := scan_width p 0 in
      let '(long, p) := scan_longs p in
      c ← head p;
      '(s, args) ← convert c pad width long args;
      o ← printf_with fuel (if c =? 0 then p else tail p) args;
      Some (s ++ o)
  end.

(** What a format prints, piece after piece, each with its argument. *)
Fixpoint print_pieces (ps : list piece) (args : list arg) : option (list Z) :=
  match ps with
  | [] => Some []
  | Lit c :: ps => o ← print_pieces ps args; Some (c :: o)
  | Percent :: ps => o ← print_pieces ps args; Some (37 :: o)
  | Conv zero width longs c :: ps =>
      '(s, args) ← convert c (if zero then 48 else 32) (width_of width) (negb (longs =? 0)%nat) args;
      o ← print_pieces ps args; Some (s ++ o)
  end.

Lemma scan_width_spec w rest : Forall (fun d => is_digit d = true) w -> (forall c r, rest = c :: r -> is_digit c = false) ->
  forall n, scan_width (w ++ rest) n = (fold_left (fun n d => i32 (i32 (n * 10) + (d - 48))) w n, rest).
Proof.
  intros Hw Hr. induction Hw as [| d w Hd _ IH]; intros n; cbn [app fold_left].
  - destruct rest as [| c r]; [done |]. cbn [scan_width]. by rewrite (Hr c r).
  - cbn [scan_width]. by rewrite Hd, IH.
Qed.

Lemma scan_longs_spec n c r : c <> 108 -> scan_longs (replicate n 108 ++ c :: r) = (negb (n =? 0)%nat, c :: r).
Proof.
  intros Hc. induction n as [| n IH]; cbn [replicate app scan_longs]; [by destruct (Z.eqb_spec c 108) |]. by rewrite IH.
Qed.

Lemma conv_fmt_0 (zero : bool) width longs c rest : Forall (fun d => is_digit d = true) width -> (zero = false -> head width <> Some 48) ->
  is_digit c = false -> c <> 37 -> exists c1 r1,
    (if zero then [48] else []) ++ width ++ replicate longs 108 ++ c :: rest = c1 :: r1 /\ c1 <> 37 /\ (c1 =? 48) = zero /\
    (if c1 =? 48 then r1 else c1 :: r1) = width ++ replicate longs 108 ++ c :: rest.
Proof.
  intros Hw Hz Hc Hc37. destruct zero; [by eexists _, _ |]. cbn [app]. destruct Hw as [| d w Hd _]; cbn [app].
  - destruct longs as [| n]; cbn [replicate app]; eexists _, _; split_and!; try done.
    + unfold is_digit in Hc. destruct (Z.eqb_spec c 48) as [-> |]; [discriminate Hc | done].
    + unfold is_digit in Hc. destruct (Z.eqb_spec c 48) as [-> |]; [discriminate Hc | done].
  - assert (d <> 48) by (intros ->; by apply Hz). assert (d <> 37) by (intros ->; discriminate Hd).
    eexists _, _. split_and!; [reflexivity | done | |]; by destruct (Z.eqb_spec d 48).
Qed.

Lemma printf_spec ps rest : Forall piece_ok ps -> forall fuel args, (length (ps ≫= piece_fmt) <= fuel)%nat ->
  printf_with fuel ((ps ≫= piece_fmt) ++ 0 :: rest) args = print_pieces ps args.
Proof.
  intros Hps. induction Hps as [| p ps Hp _ IH]; intros fuel args Hf.
  - by destruct fuel.
  - cbn [mbind list_bind] in *. rewrite length_app in Hf. rewrite <- app_assoc. change (list_bind _ _ piece_fmt ps) with (ps ≫= piece_fmt) in *.
    set (F := ps ≫= piece_fmt) in *. clearbody F.
    destruct fuel as [| fuel]; [destruct p; cbn in Hf; lia |]. destruct p as [c | | zero width longs c]; cbn [piece_fmt app print_pieces] in *.
    + destruct Hp as [H0 H37]. cbn [printf_with head mbind option_bind tail]. destruct (Z.eqb_spec c 0), (Z.eqb_spec c 37); try done. cbn [negb]. rewrite IH; [done | cbn in Hf; lia].
    + cbn [printf_with head mbind option_bind tail Z.eqb Pos.eqb negb]. rewrite IH; [done | cbn in Hf; lia].
    + destruct Hp as (Hw & Hz & Hc & H0 & H37 & H108). rewrite <- !app_assoc.
      destruct (conv_fmt_0 zero width longs c (F ++ 0 :: rest) Hw Hz Hc H37) as (c1 & r1 & E & Hc1 & Ez & Er).
      cbn [printf_with head mbind option_bind tail Z.eqb Pos.eqb negb]. cbn [app] in E |- *. rewrite E. cbn [head mbind option_bind tail].
      destruct (Z.eqb_spec c1 37); [done |]. rewrite Er, Ez.
      rewrite (scan_width_spec width _ Hw).
      2: { intros c' r'. destruct longs; cbn; by intros [= <- <-]. }
      rewrite scan_longs_spec by done. cbn [head mbind option_bind]. fold (width_of width).
      destruct (convert c _ _ _ args) as [[s args'] |]; [| done]. cbn [option_bind]. destruct (Z.eqb_spec c 0); [done |].
      cbn [tail mbind option_bind]. rewrite IH; [done |]. cbn [length] in Hf. lia.
Qed.

End Conversions.

Lemma printf_with_convert : printf = printf_with convert.
Proof. reflexivity. Qed.

(** ** What is printed *)

(** The bits of an unsigned argument. *)
Definition bits (long : bool) : Z := if long then 64 else 32.

(** A conversion with its padding, width and length: the argument it takes and
    what it prints.  [%d] is the number of the low 32 bits in two's complement,
    with its sign in front of the padding; [%u] and [%x] are decimal and
    hexadecimal; a width that the buffer cannot hold prints nothing known. *)
Inductive conversion (pad width : Z) (long : bool) : Z -> list arg -> list Z -> list arg -> Prop :=
  | conv_d v z s out args : -2 ^ 31 <= z < 2 ^ 31 -> (z - v) mod 2 ^ 32 = 0 -> 0 <= z -> width <= 32 ->
      numeral_of 10 z s -> padded pad width s out -> conversion pad width long 100 (Word v :: args) out args
  | conv_d_negative v z w s out args : -2 ^ 31 <= z < 2 ^ 31 -> (z - v) mod 2 ^ 32 = 0 -> z < 0 ->
      w = (if 0 <? width then width - 1 else width) -> w <= 32 ->
      numeral_of 10 (- z) s -> padded pad w s out -> conversion pad width long 100 (Word v :: args) (45 :: out) args
  | conv_u v s out args : width <= bits long -> numeral_of 10 (v mod 2 ^ bits long) s -> padded pad width s out ->
      conversion pad width long 117 (Word v :: args) out args
  | conv_x v s out args : width <= bits long -> numeral_of 16 (v mod 2 ^ bits long) s -> padded pad width s out ->
      conversion pad width long 120 (Word v :: args) out args
  | conv_s s r args : is_str s -> conversion pad width long 115 (Str (Some (s ++ 0 :: r)) :: args) s args
  | conv_null args : conversion pad width long 115 (Str None :: args) (chars "(null)") args
  | conv_c v args : conversion pad width long 99 (Word v :: args) [v mod 256] args
  | conv_p v s args : numeral_of 16 (v mod 2 ^ 64) s -> conversion pad width long 112 (Word v :: args) (chars "0x" ++ s) args
  | conv_other c args : c <> 0 -> c ∉ [100; 117; 120; 115; 99; 112] -> conversion pad width long c args [37; c] args.

(** A format, piece after piece. *)
Inductive prints : list piece -> list arg -> list Z -> Prop :=
  | prints_end args : prints [] args []
  | prints_char c ps args out : prints ps args out -> prints (Lit c :: ps) args (c :: out)
  | prints_percent ps args out : prints ps args out -> prints (Percent :: ps) args (37 :: out)
  | prints_conv (zero : bool) width longs c ps args args' o out :
      conversion (if zero then 48 else 32) (numeral 10 width) (negb (longs =? 0)%nat) c args o args' -> prints ps args' out ->
      prints (Conv zero width longs c :: ps) args (o ++ out).

Definition width_ok (p : piece) : Prop := match p with Conv _ width _ _ => numeral 10 width < 2 ^ 31 | _ => True end.

(** A width of 31 bits is read without overflow. *)
Lemma width_numeral (width : list Z) : Forall (fun d => is_digit d = true) width -> numeral 10 width < 2 ^ 31 ->
  width_of width = numeral 10 width /\ 0 <= numeral 10 width.
Proof.
  unfold width_of, numeral. induction width as [| d width IH] using rev_ind; [done |]. rewrite Forall_app, Forall_singleton. intros [Hw Hd].
  rewrite !fold_left_app. cbn [fold_left]. generalize dependent (fold_left (fun n c => n * 10 + digit_val c) width 0). intros m IH.
  generalize dependent (fold_left (fun n d => i32 (i32 (n * 10) + (d - 48))) width 0). intros n IH Hm.
  assert (Hv : 0 <= digit_val d < 10 /\ digit_val d = d - 48) by (unfold is_digit in Hd; apply andb_true_iff in Hd; unfold digit_val; zcase; lia).
  assert (Hm' : m < 2 ^ 31) by lia. destruct (IH Hw Hm') as [-> H0]. rewrite (i32_small (m * 10)) by lia. rewrite i32_small by lia. lia.
Qed.

Lemma i32_spec v z : i32 v = z <-> -2 ^ 31 <= z < 2 ^ 31 /\ (z - v) mod 2 ^ 32 = 0.
Proof.
  unfold i32. change (2 ^ 31) with 2147483648. change (2 ^ 32) with 4294967296. split; intros Hz; dlia.
Qed.

Lemma put_string_iff s o : put_string s = Some o <-> exists r, s = o ++ 0 :: r /\ is_str o.
Proof.
  split.
  - revert o. induction s as [| c s IH]; intros o; cbn [put_string]; [done |]. destruct (Z.eqb_spec c 0) as [-> | Hc]; [intros [= <-]; exists s; split; [done | constructor] |].
    destruct (put_string s) as [o' |]; [| done]. cbn [mbind option_bind]. intros [= <-]. destruct (IH o' eq_refl) as (r & -> & Hs). exists r. split; [done |].
    apply is_str_cons. by split.
  - intros (r & -> & Hs). induction o as [| c o IH]; [done |]. apply is_str_cons in Hs as [Hc Hs]. cbn [app put_string].
    destruct (Z.eqb_spec c 0); [done |]. by rewrite (IH Hs).
Qed.

(** [print_int]: the sign, then the digits. *)
Lemma print_int_iff v width pad out : print_int (i32 v) width pad = Some out <->
  exists z, -2 ^ 31 <= z < 2 ^ 31 /\ (z - v) mod 2 ^ 32 = 0 /\
    ((0 <= z /\ width <= 32 /\ exists s, numeral_of 10 z s /\ padded pad width s out) \/
     (z < 0 /\ exists o, out = 45 :: o /\ let w := if 0 <? width then width - 1 else width in
        w <= 32 /\ exists s, numeral_of 10 (- z) s /\ padded pad w s o)).
Proof.
  pose proof (proj1 (i32_spec v _) eq_refl) as [Hr Hm]. set (z := i32 v) in *.
  assert (Hz : forall z', -2 ^ 31 <= z' < 2 ^ 31 -> (z' - v) mod 2 ^ 32 = 0 -> z' = z) by (intros z' H1 H2; symmetry; by apply i32_spec).
  unfold print_int, print_uint. destruct (Z.ltb_spec z 0) as [Hn | Hn].
  - assert (Hneg : u32 (i32 (- z)) = - z).
    { unfold u32, i32. change (2 ^ 31) with 2147483648 in *. change (2 ^ 32) with 4294967296 in *. dlia. }
    rewrite Hneg. set (w := if 0 <? width then width - 1 else width). split.
    + destruct (print_number 32 (- z) 10 w pad) as [o |] eqn:E; [| done]. cbn [mbind option_bind]. intros [= <-].
      apply print_number_iff in E as [Hw Hs]; [| by left | lia | lia]. exists z. split_and!; [lia | lia | done |]. right. split; [done |]. by exists o.
    + intros (z' & H1 & H2 & Hc). assert (z' = z) as -> by by apply Hz. destruct Hc as [[? _] | (_ & o & -> & Hw & Hs)]; [lia |].
      rewrite (proj2 (print_number_iff 32 (- z) 10 w pad o ltac:(by left) ltac:(lia) ltac:(lia))) by by split. done.
  - rewrite u32_small by lia. rewrite print_number_iff by (lia || by left). split.
    + intros [Hw Hs]. exists z. split_and!; [lia | lia | done |]. left. by split_and!.
    + intros (z' & H1 & H2 & Hc). assert (z' = z) as -> by by apply Hz. destruct Hc as [(_ & Hw & Hs) | [? _]]; [by split | lia].
Qed.

Lemma unsigned_iff (long : bool) v base width pad out : base = 10 \/ base = 16 ->
  (if long then print_long (u64 v) base width pad else print_uint (u32 v) base width pad) = Some out <->
  width <= bits long /\ exists s, numeral_of base (v mod 2 ^ bits long) s /\ padded pad width s out.
Proof.
  intros Hb. unfold print_long, print_uint, bits. destruct long; rewrite print_number_iff; try done; try lia; try (by right); try (by left);
    apply Z.mod_pos_bound; lia.
Qed.

Lemma convert_unsigned (long : bool) v base pad width (o : list Z) (args args' : list arg) : base = 10 \/ base = 16 ->
  (o ← (if long then print_long (u64 v) base width pad else print_uint (u32 v) base width pad); Some (o, args)) = Some (o, args') <->
  args' = args /\ width <= bits long /\ exists s, numeral_of base (v mod 2 ^ bits long) s /\ padded pad width s o.
Proof.
  intros Hb. rewrite <- unsigned_iff by done. destruct (if long then _ else _) as [o' |]; cbn [mbind option_bind]; [| split; [done | by intros [_ ?]]].
  split; [by intros [= <- <-] | by intros [-> [= <-]]].
Qed.

(** The model converts as it is meant. *)
Lemma convert_iff c pad width long args o args' : c <> 0 ->
  convert c pad width long args = Some (o, args') <-> conversion pad width long c args o args'.
Proof.
  intros Hc0. split.
  - unfold convert. destruct (Z.eqb_spec c 100) as [-> | H1].
    { destruct args as [| [v |] args]; try done. cbn [next_word mbind option_bind]. destruct (print_int (i32 v) width pad) as [out |] eqn:E; [| done].
      cbn [mbind option_bind]. intros [= <- <-]. apply print_int_iff in E as (z & Hz & Hm & [(H0 & Hw & s & Hs & Hp) | (H0 & o' & -> & Hw & s & Hs & Hp)]);
        [by eapply conv_d | by eapply conv_d_negative]. }
    destruct (Z.eqb_spec c 117) as [-> | H2]; [| destruct (Z.eqb_spec c 120) as [-> | H3]]; cbn [orb].
    1,2: destruct args as [| [v |] args]; try done; cbn [next_word mbind option_bind Z.eqb Pos.eqb]; intros E;
      apply convert_unsigned in E as (-> & Hw & s & Hs & Hp); [by eapply conv_u || by eapply conv_x | auto].
    destruct (Z.eqb_spec c 115) as [-> | H4].
    { destruct args as [| [| [s |]] args]; try done; cbn [next_str mbind option_bind]; [| intros [= <- <-]; apply conv_null].
      destruct (put_string s) as [o' |] eqn:E; [| done]. cbn [mbind option_bind]. intros [= <- <-]. apply put_string_iff in E as (r & -> & Hs). by apply conv_s. }
    destruct (Z.eqb_spec c 99) as [-> | H5].
    { destruct args as [| [v |] args]; try done. cbn [next_word mbind option_bind]. intros [= <- <-].
      change 255 with (Z.ones 8). rewrite Z.land_ones by lia. apply conv_c. }
    destruct (Z.eqb_spec c 112) as [-> | H6].
    { destruct args as [| [v |] args]; try done. cbn [next_word mbind option_bind]. destruct (print_long (u64 v) 16 0 32) as [out |] eqn:E; [| done].
      cbn [mbind option_bind]. intros [= <- <-]. apply (unsigned_iff true v 16 0 32) in E as (_ & s & Hs & n & -> & Hl); [| by right].
      rewrite length_app, length_replicate in Hl. replace n with 0%nat by lia. by apply conv_p. }
    destruct (Z.eqb_spec c 0); [done |]. intros [= <- <-]. apply conv_other; [done |]. rewrite !elem_of_cons, elem_of_nil. tauto.
  - intros Hcv. destruct Hcv as [v z s out args Hz Hm H0 Hw Hs Hp | v z w s out args Hz Hm H0 -> Hw Hs Hp | v s out args Hw Hs Hp | v s out args Hw Hs Hp
      | s r args Hs | args | v args | v s args Hs | c args _ Hn]; cbn [convert Z.eqb Pos.eqb orb next_word next_str mbind option_bind].
    + rewrite (proj2 (print_int_iff v width pad out)); [done |]. exists z. split_and!; try lia. left. split_and!; try done. by exists s.
    + rewrite (proj2 (print_int_iff v width pad (45 :: out))); [done |]. exists z. split_and!; try lia. right. split; [done |]. exists out. split; [done |].
      split; [done |]. by exists s.
    + apply convert_unsigned; [by left |]. split_and!; [done | done |]. by exists s.
    + apply convert_unsigned; [by right |]. split_and!; [done | done |]. by exists s.
    + by rewrite (proj2 (put_string_iff (s ++ 0 :: r) s)) by (by exists r).
    + done.
    + change 255 with (Z.ones 8). by rewrite Z.land_ones by lia.
    + rewrite (proj2 (unsigned_iff true v 16 0 32 s ltac:(by right))); [done |]. split; [done |]. exists s. split; [done |]. exists 0%nat. split; [done | lia].
    + rewrite !elem_of_cons, elem_of_nil in Hn. unfold convert. by rewrite !(proj2 (Z.eqb_neq c _)) by tauto.
Qed.

Lemma print_pieces_iff ps : Forall piece_ok ps -> Forall width_ok ps -> forall args out, print_pieces convert ps args = Some out <-> prints ps args out.
Proof.
  induction 1 as [| p ps Hp _ IH]; intros Hw args out.
  { split; [intros [= <-]; constructor | intros Hpr; by inversion Hpr]. }
  apply list.Forall_cons in Hw as [Hwp Hw]. specialize (IH Hw). destruct p as [c | | zero width longs c]; cbn [print_pieces].
  - split.
    + destruct (print_pieces convert ps args) as [o |] eqn:E; [| done]. cbn [mbind option_bind]. intros [= <-]. constructor. by apply IH.
    + intros Hpr. inversion Hpr as [| ? ? ? ? Hrest | |]; subst. by rewrite (proj2 (IH _ _) Hrest).
  - split.
    + destruct (print_pieces convert ps args) as [o |] eqn:E; [| done]. cbn [mbind option_bind]. intros [= <-]. constructor. by apply IH.
    + intros Hpr. inversion Hpr as [| | ? ? ? Hrest |]; subst. by rewrite (proj2 (IH _ _) Hrest).
  - destruct Hp as (Hd & _ & _ & H0 & _). destruct (width_numeral width Hd Hwp) as [-> _]. split.
    + destruct (convert c _ _ _ args) as [[o args'] |] eqn:E; [| done]. cbn [mbind option_bind].
      destruct (print_pieces convert ps args') as [o' |] eqn:E'; [| done]. cbn [mbind option_bind]. intros [= <-].
      eapply prints_conv; [by apply convert_iff | by apply IH].
    + intros Hpr. inversion Hpr as [| | | ? ? ? ? ? ? ? ? ? Hcv Hrest]; subst. rewrite (proj2 (convert_iff _ _ _ _ _ _ _ H0) Hcv). cbn [mbind option_bind].
      by rewrite (proj2 (IH _ _) Hrest).
Qed.

(** ** The properties *)

(** The digits printed for a number are its numeral in the base, without
    leading zeros, after the padding that fills up the width: reading them back
    gives the number. *)
Theorem print_number_numeral size num base width pad : size = 32 \/ size = 64 -> 2 <= base <= 16 -> 0 <= num < 2 ^ size -> width <= size ->
  exists s n, print_number size num base width pad = Some (replicate n pad ++ s) /\ Forall (base_digit base) s /\ numeral base s = num /\
    (num = 0 -> s = [48]) /\ (num <> 0 -> head s <> Some 48) /\ Z.of_nat (n + length s) = Z.max width (Z.of_nat (length s)).
Proof. apply print_number_spec. Qed.

(** C36: printf prints its format piece after piece, exactly as it is meant and
    with no other outcome: characters as they are, a doubled percent sign as
    one, and every conversion takes the next argument: the signed number of [%d]
    with its sign, the unsigned one of [%u] in decimal and of [%x] in
    hexadecimal, in 32 bits or in 64 with an l, padded to the width with blanks or zeros;
    the string of [%s], the character of [%c], the address of [%p]. *)
Theorem printf_pieces ps rest args out : Forall piece_ok ps -> Forall width_ok ps ->
  printf (length (ps ≫= piece_fmt)) ((ps ≫= piece_fmt) ++ 0 :: rest) args = Some out <-> prints ps args out.
Proof. intros Hps Hw. rewrite printf_with_convert, printf_spec by done. by apply print_pieces_iff. Qed.

Lemma print_number_numeral_witness : exists s n, print_number 32 3735928559 16 10 48 = Some (replicate n 48 ++ s) /\ numeral 16 s = 3735928559.
Proof.
  destruct (print_number_numeral 32 3735928559 16 10 48) as (s & n & E & _ & Hv & _); [by left | lia | lia | lia |]. exists s, n. by split.
Defined.

(** [-5] padded to four characters, and 42 in hexadecimal. *)
Definition demo_pieces : list piece := [Lit 97; Conv true [52] 0 120; Lit 44; Conv false [52] 0 100; Percent; Conv false [] 1 117; Conv false [] 0 115].

Lemma demo_prints : prints demo_pieces [Word 0x2a; Word (2 ^ 32 - 5); Word (2 ^ 32 + 1); Str None] (chars "a002a,-  5%4294967297(null)").
Proof.
  assert (Hnum : forall base n s, forallb (fun c => ((48 <=? c) && (c <=? 57) || (97 <=? c) && (c <=? 102)) && (digit_val c <? base)) s = true ->
    numeral base s = n -> n <> 0 -> head s <> Some 48 -> numeral_of base n s).
  { intros base n s Hf Hv Hn Hh. split_and!; try done. clear Hv Hh. induction s as [| c s IH]; [constructor |]. cbn [forallb] in Hf.
    apply andb_true_iff in Hf as [Hc Hf]. constructor; [| by apply IH]. unfold base_digit. lia. }
  apply prints_char. eapply (prints_conv true [52] 0 120 _ _ _ (chars "002a")).
  { eapply (conv_x _ _ _ _ (chars "2a")); [vm_compute; congruence | by apply Hnum | by exists 2%nat]. }
  apply prints_char. eapply (prints_conv false [52] 0 100 _ _ _ (chars "-  5")).
  { eapply (conv_d_negative _ _ _ _ (-5) _ (chars "5")); [lia | reflexivity | lia | reflexivity | vm_compute; congruence | by apply Hnum | by exists 2%nat]. }
  apply prints_percent. eapply (prints_conv false [] 1 117 _ _ _ (chars "4294967297")).
  { eapply (conv_u _ _ _ _ (chars "4294967297")); [vm_compute; congruence | by apply Hnum | by exists 0%nat]. }
  eapply (prints_conv false [] 0 115 _ _ _ (chars "(null)") []); [apply conv_null | apply prints_end].
Qed.

Lemma printf_pieces_witness :
  printf 18 (chars "a%04x,%4d%%%lu%s" ++ [0]) [Word 0x2a; Word (2 ^ 32 - 5); Word (2 ^ 32 + 1); Str None] = Some (chars "a002a,-  5%4294967297(null)").
Proof.
  assert (Hok : Forall piece_ok demo_pieces /\ Forall width_ok demo_pieces).
  { split; repeat apply list.Forall_cons_2; try apply list.Forall_nil_2; try exact I; try reflexivity; try (split; discriminate);
      (split; [repeat constructor | split; [discriminate |]]); repeat split; discriminate. }
  apply (proj2 (printf_pieces demo_pieces [] _ _ (proj1 Hok) (proj2 Hok)) demo_prints).
Defined.
