(* ===== verification/Cpio.v ===== *)
(** * The initial ram disk: [src/lib/cpio.c]

    [initrd_list], [initrd_cat] and [initrd_get_file] walk a [newc] archive,
    header after header; [ptr] is an offset into its bytes [rd]. *)

From Stdlib Require Import Ascii String.
From S2P Require Import Prelude Config CString Align VfsData Stdio.
#[local] Open Scope Z_scope.
#[local] Open Scope list_scope.

(** ** Definitions *)

(** A character below '0' is not consumed; there are no lower-case digits. *)
Fixpoint hextoi (s : list Z) (n : nat) (r : Z) : option Z :=
  match n with
  | O => Some r
  | S n =>
      c ← head s;
      let r := i32 (Z.shiftl r 4) in
      if 65 <=? c then hextoi (tail s) n (i32 (r + (c - 65 + 10)))
      else if 48 <=? c then hextoi (tail s) n (i32 (r + (c - 48)))
      else hextoi s n r
  end.

(** [struct cpio_t] *)
Definition SIZEOF_CPIO : Z := 110.
Definition cpio_filesize : nat := 54.
Definition cpio_namesize : nat := 94.

(** The header at [ptr]: the size of the name, of the file, and the name, whose
    bytes are those that follow the header. *)
Definition cpio_header (rd : list Z) (ptr : nat) : option (option (Z * Z * list Z)) :=
  let h := drop ptr rd in
  c ← strncmp h (chars "070701") 6;
  if negb (c =? 0) then Some None else
  namesize ← hextoi (drop cpio_namesize h) 8 0;
  filesize ← hextoi (drop cpio_filesize h) 8 0;
  Some (Some (namesize, filesize, drop (Z.to_nat SIZEOF_CPIO) h)).

(** [align_up_int(sizeof(struct cpio_t) + namesize, 4)], an offset from the header. *)
Definition data_offset (namesize : Z) : Z := align_up_int (i32 (SIZEOF_CPIO + namesize)) 4.

Definition next_header (ptr : nat) (namesize filesize : Z) : option nat :=
  let p := Z.of_nat ptr + i32 (data_offset namesize + align_up_int filesize 4) in
  if p <? 0 then None else Some (Z.to_nat p).

Definition is_trailer (name : list Z) : option bool := c ← strcmp name (chars "TRAILER!!!" ++ [0]); Some (c =? 0).

(** The offset and the size of the file, None inside for -1.  [filename] ends with 0. *)
Fixpoint get_file_loop (fuel : nat) (rd filename : list Z) (ptr : nat) : option (option (Z * Z)) :=
  match fuel with
  | O => None
  | S fuel =>
      h ← cpio_header rd ptr;
      match h with
      | None => Some None
      | Some (namesize, filesize, name) =>
          tr ← is_trailer name;
          if (tr : bool) then Some None else
          c ← strcmp name filename;
          if c =? 0 then Some (Some (Z.of_nat ptr + data_offset namesize, filesize))
          else ptr ← next_header ptr namesize filesize; get_file_loop fuel rd filename ptr
      end
  end.

Definition initrd_get_file (fuel : nat) (rd filename : list Z) : option (option (Z * Z)) := get_file_loop fuel rd filename 0.

(** ** What is printed *)

(** [printf] of a literal format. *)
Definition say (f : list Z) (args : list arg) : option (list Z) := printf (length f) (f ++ [0]) args.

(** [printf("%d \t %s\r\n", filesize, name)] *)
Definition list_format : list Z := chars "%d " ++ [9] ++ chars " %s" ++ [13; 10].
Definition list_line (filesize : Z) (name : list Z) : option (list Z) := say list_format [Word filesize; Str (Some name)].

Fixpoint list_loop (fuel : nat) (rd : list Z) (ptr : nat) : option (list Z) :=
  match fuel with
  | O => None
  | S fuel =>
      h ← cpio_header rd ptr;
      match h with
      | None => say (line "Invalid magic") []
      | Some (namesize, filesize, name) =>
          tr ← is_trailer name;
          if (tr : bool) then Some [] else
          s ← list_line filesize name;
          ptr ← next_header ptr namesize filesize;
          o ← list_loop fuel rd ptr; Some (s ++ o)
      end
  end.

Definition initrd_list (fuel : nat) (rd : list Z) : option (list Z) := list_loop fuel rd 0.

(** The characters sent for the data: a carriage return before a line feed. *)
Definition cat_chars (data : list Z) : list Z := data ≫= fun c => if c =? 10 then [13; c] else [c].

(** [for (i = 0; i < filesize; ++i)] over the data at [off]. *)
Definition cat_data (rd : list Z) (off filesize : Z) : option (list Z) :=
  let n := Z.to_nat filesize in
  if decide (0 <= off /\ (Z.to_nat off + n <= length rd)%nat) then Some (cat_chars (take n (drop (Z.to_nat off) rd))) else None.

(** What the loop prints, and [found]. *)
Fixpoint cat_loop (fuel : nat) (rd filename : list Z) (ptr : nat) : option (list Z * bool) :=
  match fuel with
  | O => None
  | S fuel =>
      h ← cpio_header rd ptr;
      match h with
      | None => o ← say (line "Invalid magic") []; Some (o, false)
      | Some (namesize, filesize, name) =>
          tr ← is_trailer name;
          if (tr : bool) then Some ([], false) else
          c ← strcmp name filename;
          if c =? 0 then
            d ← cat_data rd (Z.of_nat ptr + data_offset namesize) filesize;
            e ← say [13; 10] [];
            Some (d ++ e, true)
          else ptr ← next_header ptr namesize filesize; cat_loop fuel rd filename ptr
      end
  end.

Definition initrd_cat (fuel : nat) (rd filename : list Z) : option (list Z) :=
  '(o, found) ← cat_loop fuel rd filename 0;
  if (found : bool) then Some o else
  e ← say (line "File %s not found") [Str (Some filename)];
  Some (o ++ e).
