(* ===== verification/CpioProps.v ===== *)
(** * Properties of the reader of the initial ram disk

    [archive] writes a [newc] archive; the reader finds every file in it. *)

From Stdlib Require Import Ascii String.
From S2P Require Import Prelude Config CString Align VfsData Stdio StdioProps Cpio.
#[local] Open Scope Z_scope.
#[local] Open Scope list_scope.

(** ** The writer *)

Definition hex_digit (d : Z) : Z := if d <? 10 then 48 + d else 55 + d.

(** [n] in [w] hexadecimal digits. *)
Fixpoint hexn (w : nat) (n : Z) : list Z :=
  match w with O => [] | S w => hex_digit (n / 16 ^ Z.of_nat w mod 16) :: hexn w n end.

(** A file: the fields of the header the reader skips, the name, the data. *)
Record entry := Entry { e_meta : list Z; e_dev : list Z; e_check : list Z; e_name : list Z; e_data : list Z }.

Definition padding (n : nat) : list Z := replicate (Z.to_nat ((- Z.of_nat n) mod 4)) 0.

Definition header (e : entry) : list Z :=
  chars "070701" ++ e_meta e ++ hexn 8 (Z.of_nat (length (e_data e))) ++ e_dev e ++
  hexn 8 (Z.of_nat (length (e_name e)) + 1) ++ e_check e.

Definition encode (e : entry) : list Z :=
  header e ++ e_name e ++ [0] ++ padding (110 + length (e_name e) + 1) ++ e_data e ++ padding (length (e_data e)).

Definition trailer : entry := Entry (replicate 48 48) (replicate 32 48) (replicate 8 48) (chars "TRAILER!!!") [].

Definition archive (es : list entry) : list Z := (es ≫= encode) ++ encode trailer.

(** Headers of the right shape, names that are strings other than the
    trailer's, sizes that fit an [int]. *)
Record entry_ok (e : entry) : Prop := {
  eo_meta : length (e_meta e) = 48%nat;
  eo_dev : length (e_dev e) = 32%nat;
  eo_check : length (e_check e) = 8%nat;
  eo_name : is_str (e_name e);
  eo_name_size : Z.of_nat (length (e_name e)) < 2 ^ 29;
  eo_data_size : Z.of_nat (length (e_data e)) < 2 ^ 30;
}.

(** The data of the first file of that name. *)
Fixpoint lookup_entry (name : list Z) (es : list entry) : option (list Z) :=
  match es with
  | [] => None
  | e :: es => if decide (e_name e = name) then Some (e_data e) else lookup_entry name es
  end.

(** ** The header is read back *)

Lemma hex_digit_range d : 0 <= d < 16 -> 48 <= hex_digit d /\
  (65 <= hex_digit d -> hex_digit d - 65 + 10 = d) /\ (hex_digit d < 65 -> hex_digit d - 48 = d).
Proof. intros. unfold hex_digit. zcase; lia. Qed.

Lemma hextoi_hexn w n r rest : 0 <= n -> 0 <= r -> r * 16 ^ Z.of_nat w + n mod 16 ^ Z.of_nat w < 2 ^ 31 ->
  hextoi (hexn w n ++ rest) w r = Some (r * 16 ^ Z.of_nat w + n mod 16 ^ Z.of_nat w).
Proof.
  revert r. induction w as [| w IH]; intros r Hn Hr Hb; cbn [hexn hextoi app].
  - change (16 ^ Z.of_nat 0) with 1. rewrite Z.mod_1_r. f_equal. lia.
  - set (p := 16 ^ Z.of_nat w) in *. set (d := n / p mod 16).
    assert (Ep : 16 ^ Z.of_nat (S w) = p * 16) by (rewrite Nat2Z.inj_succ, Z.pow_succ_r by lia; lia).
    assert (Hp : 0 < p) by (apply Z.pow_pos_nonneg; lia).
    assert (Hd : 0 <= d < 16) by (apply Z.mod_pos_bound; lia).
    assert (Em : n mod (p * 16) = p * d + n mod p) by (rewrite Z.rem_mul_r by lia; subst d; lia).
    rewrite Ep, Em in *. pose proof (Z.mod_pos_bound n p Hp).
    assert (Hlt : (r * 16 + d) * p + n mod p < 2 ^ 31) by nia.
    assert (Hs : r * 16 + d < 2 ^ 31) by nia.
    cbn [head tail mbind option_bind]. rewrite Z.shiftl_mul_pow2 by lia. change (2 ^ 4) with 16.
    rewrite (i32_small (r * 16)) by lia.
    destruct (hex_digit_range d Hd) as (H48 & H65 & Hlo).
    assert (Estep : (if 65 <=? hex_digit d then hextoi (hexn w n ++ rest) w (i32 (r * 16 + (hex_digit d - 65 + 10)))
              else if 48 <=? hex_digit d then hextoi (hexn w n ++ rest) w (i32 (r * 16 + (hex_digit d - 48)))
              else hextoi (hex_digit d :: hexn w n ++ rest) w (r * 16)) = hextoi (hexn w n ++ rest) w (r * 16 + d)).
    { destruct (Z.leb_spec 65 (hex_digit d)); [rewrite H65 by done; by rewrite i32_small by lia |].
      destruct (Z.leb_spec 48 (hex_digit d)); [| lia]. rewrite Hlo by done. by rewrite i32_small by lia. }
    rewrite Estep, IH by (done || lia). f_equal. lia.
Qed.

Lemma hexn_length w n : length (hexn w n) = w.
Proof. induction w; simpl; congruence. Qed.

Lemma hextoi_hex8 n rest : 0 <= n < 2 ^ 31 -> hextoi (hexn 8 n ++ rest) 8 0 = Some n.
Proof.
  intros. change (16 ^ Z.of_nat 8) with (2 ^ 32) in *.
  pose proof (hextoi_hexn 8 n 0 rest) as E. change (16 ^ Z.of_nat 8) with (2 ^ 32) in E.
  rewrite Z.mod_small in E by lia. rewrite E by lia. f_equal; lia.
Qed.

Lemma header_length e : entry_ok e -> length (header e) = 110%nat.
Proof. intros []. unfold header. rewrite !length_app, !hexn_length, eo_meta0, eo_dev0, eo_check0. reflexivity. Qed.

Lemma drop_in {A} (l1 l2 : list A) n : n = length l1 -> drop n (l1 ++ l2) = l2.
Proof. intros ->. apply drop_app_length. Qed.

Lemma strncmp_magic rest : strncmp (chars "070701" ++ rest) (chars "070701") 6 = Some 0.
Proof. reflexivity. Qed.

Lemma cpio_header_encode pre e rest : entry_ok e ->
  cpio_header (pre ++ encode e ++ rest) (length pre) =
  Some (Some (Z.of_nat (length (e_name e)) + 1, Z.of_nat (length (e_data e)),
    cstr (e_name e) (padding (110 + length (e_name e) + 1) ++ e_data e ++ padding (length (e_data e)) ++ rest))).
Proof.
  intros He. pose proof (header_length e He) as Hl. destruct He. unfold cpio_header. rewrite drop_app_length.
  set (body := e_name e ++ [0] ++ padding (110 + length (e_name e) + 1) ++ e_data e ++ padding (length (e_data e)) ++ rest).
  replace (encode e ++ rest) with (header e ++ body) by (unfold encode, body; by rewrite <- !app_assoc).
  rewrite (drop_in (header e) body (Z.to_nat SIZEOF_CPIO)) by (rewrite Hl; reflexivity).
  unfold header. rewrite <- !app_assoc. rewrite strncmp_magic. cbn [mbind option_bind Z.eqb negb].
  set (nm := hexn 8 (Z.of_nat (length (e_name e)) + 1) ++ e_check e ++ body).
  set (dt := hexn 8 (Z.of_nat (length (e_data e))) ++ e_dev e ++ nm).
  assert (E1 : drop cpio_namesize (chars "070701" ++ e_meta e ++ dt) = nm).
  { replace (chars "070701" ++ e_meta e ++ dt) with ((chars "070701" ++ e_meta e ++ hexn 8 (Z.of_nat (length (e_data e))) ++ e_dev e) ++ nm)
      by (unfold dt; by rewrite <- !app_assoc).
    apply drop_in. rewrite !length_app, hexn_length, eo_meta0, eo_dev0. reflexivity. }
  assert (E2 : drop cpio_filesize (chars "070701" ++ e_meta e ++ dt) = dt).
  { rewrite app_assoc. apply drop_in. rewrite !length_app, eo_meta0. reflexivity. }
  rewrite E1, E2.
  unfold nm, dt. rewrite !hextoi_hex8 by lia. reflexivity.
Qed.

(** ** The offsets *)

Lemma align4 v : 0 <= v < 2 ^ 31 - 4 -> align_up_int v 4 = v + (- v) mod 4.
Proof.
  intros. change (align_up_int v (2 ^ 2) = v + (- v) mod 4). rewrite align_up_int_arith by lia. unfold round_up. change (2 ^ 2) with 4.
  pose proof (Z.mod_pos_bound (- v) 4). apply i32_small. lia.
Qed.

Lemma padding_length n : Z.of_nat (length (padding n)) = (- Z.of_nat n) mod 4.
Proof. unfold padding. rewrite length_replicate. pose proof (Z.mod_pos_bound (- Z.of_nat n) 4). lia. Qed.

(** Where the data of an entry starts, and its length. *)
Definition entry_offset (e : entry) : nat := (110 + length (e_name e) + 1 + length (padding (110 + length (e_name e) + 1)))%nat.

Lemma encode_split e : entry_ok e -> exists hd, encode e = hd ++ e_data e ++ padding (length (e_data e)) /\ length hd = entry_offset e.
Proof.
  intros He. exists (header e ++ e_name e ++ [0] ++ padding (110 + length (e_name e) + 1)). unfold encode, entry_offset. split.
  - by rewrite <- !app_assoc.
  - rewrite !length_app, header_length by done. cbn [length]. lia.
Qed.

Lemma data_offset_encode e : entry_ok e -> data_offset (Z.of_nat (length (e_name e)) + 1) = Z.of_nat (entry_offset e).
Proof.
  intros []. unfold data_offset, entry_offset, SIZEOF_CPIO. rewrite Nat2Z.inj_add, padding_length.
  rewrite i32_small, align4 by lia. f_equal; [lia |]. f_equal. lia.
Qed.

Lemma padding_small n : (length (padding n) < 4)%nat.
Proof. pose proof (padding_length n). pose proof (Z.mod_pos_bound (- Z.of_nat n) 4). lia. Qed.

Lemma entry_offset_small e : entry_ok e -> Z.of_nat (entry_offset e) < 2 ^ 29 + 120.
Proof. intros []. unfold entry_offset. pose proof (padding_small (110 + length (e_name e) + 1)). lia. Qed.

Lemma next_header_encode e ptr : entry_ok e ->
  next_header ptr (Z.of_nat (length (e_name e)) + 1) (Z.of_nat (length (e_data e))) = Some (ptr + length (encode e))%nat.
Proof.
  intros He. unfold next_header. rewrite data_offset_encode by done. destruct (encode_split e He) as (hd & -> & Hhd).
  pose proof (entry_offset_small e He). destruct He. rewrite align4 by lia. pose proof (padding_small (length (e_data e))).
  rewrite <- padding_length, i32_small by lia. rewrite !length_app, Hhd. zcase; [lia |].
  f_equal. lia.
Qed.

Lemma trailer_ok : entry_ok trailer.
Proof. split; try reflexivity. unfold is_str. repeat constructor; discriminate. Qed.

Lemma is_trailer_spec name rest : is_str name -> is_trailer (cstr name rest) = Some (bool_decide (name = chars "TRAILER!!!")).
Proof.
  intros Hn. unfold is_trailer. change (chars "TRAILER!!!" ++ [0]) with (cstr (chars "TRAILER!!!") []).
  destruct (strcmp_spec name (chars "TRAILER!!!") rest [] Hn (eo_name _ trailer_ok)) as (z & -> & Hz). cbn [mbind option_bind].
  f_equal. destruct (Z.eqb_spec z 0) as [E | E]; symmetry; [apply bool_decide_true | apply bool_decide_false]; tauto.
Qed.

(** ** The walk *)

Lemma get_file_archive es pre fname r fuel : Forall entry_ok es ->
  Forall (fun e => e_name e <> chars "TRAILER!!!") es -> is_str fname -> (length es < fuel)%nat ->
  match lookup_entry fname es with
  | Some data => exists off, get_file_loop fuel (pre ++ archive es) (cstr fname r) (length pre) = Some (Some (Z.of_nat off, Z.of_nat (length data))) /\
      exists post, pre ++ archive es = take off (pre ++ archive es) ++ data ++ post
  | None => get_file_loop fuel (pre ++ archive es) (cstr fname r) (length pre) = Some None
  end.
Proof.
  intros Hes Htr Hf. revert pre fuel. induction Hes as [| e es He Hes IH]; intros pre fuel Hfuel; (destruct fuel as [| fuel]; [simpl in Hfuel; lia |]).
  - cbn [lookup_entry get_file_loop]. unfold archive. cbn [mbind list_bind app]. rewrite <- (app_nil_r (encode trailer)).
    rewrite cpio_header_encode by apply trailer_ok. cbn [mbind option_bind]. rewrite is_trailer_spec by apply trailer_ok. reflexivity.
  - apply list.Forall_cons in Htr as [Hne Htr]. specialize (IH Htr (pre ++ encode e) fuel). cbn [length] in Hfuel.
    assert (Ea : pre ++ archive (e :: es) = pre ++ encode e ++ archive es) by (unfold archive; cbn; by rewrite <- app_assoc).
    rewrite Ea. cbn [get_file_loop lookup_entry]. rewrite cpio_header_encode by done. cbn [mbind option_bind].
    rewrite is_trailer_spec by apply He. rewrite bool_decide_false by done. cbn [mbind option_bind].
    destruct (strcmp_spec (e_name e) fname (padding (110 + length (e_name e) + 1) ++ e_data e ++ padding (length (e_data e)) ++ archive es) r (eo_name _ He) Hf)
      as (z & -> & Hz). cbn [mbind option_bind].
    destruct (decide (e_name e = fname)) as [En | En].
    + destruct (Z.eqb_spec z 0) as [_ | Hn]; [| tauto]. rewrite data_offset_encode by done.
      exists (length pre + entry_offset e)%nat. split; [do 3 f_equal; lia |].
      destruct (encode_split e He) as (hd & -> & <-). exists (padding (length (e_data e)) ++ archive es).
      rewrite <- !app_assoc, (app_assoc pre hd). rewrite <- length_app, take_app_length. reflexivity.
    + destruct (Z.eqb_spec z 0) as [Hn | _]; [tauto |]. rewrite next_header_encode by done. cbn [mbind option_bind].
      rewrite <- length_app. rewrite <- app_assoc in IH. apply IH. lia.
Qed.

(** ** What is printed *)

Lemma put_string_spec s r : is_str s -> put_string (cstr s r) = Some s.
Proof.
  unfold cstr. induction 1 as [| c s Hc _ IH]; [done |]. cbn [app put_string]. destruct (Z.eqb_spec c 0); [done |]. by rewrite IH.
Qed.

(** [printf] of a format without conversions of numbers: the characters. *)
Definition lits (s : string) : list piece := Lit <$> chars s.

Lemma say_pieces f ps args : f = ps ≫= piece_fmt -> Forall piece_ok ps -> say f args = print_pieces convert ps args.
Proof. intros -> Hps. unfold say. rewrite printf_with_convert. by apply printf_spec. Qed.

Lemma print_lits cv s ps args : print_pieces cv ((Lit <$> s) ++ ps) args = o ← print_pieces cv ps args; Some (s ++ o).
Proof.
  induction s as [| c s IH]; cbn [fmap list_fmap app print_pieces]; [by destruct (print_pieces cv ps args) |].
  change (list_fmap _ _ Lit s) with (Lit <$> s). rewrite IH. by destruct (print_pieces cv ps args).
Qed.

Lemma print_str s r ps args : is_str s ->
  print_pieces convert (Conv false [] 0 115 :: ps) (Str (Some (cstr s r)) :: args) = o ← print_pieces convert ps args; Some (s ++ o).
Proof.
  intros Hs. cbn [print_pieces]. assert (E : forall pad w l, convert 115 pad w l (Str (Some (cstr s r)) :: args) = Some (s, args)).
  { intros. unfold convert. cbn [Z.eqb Pos.eqb orb next_str mbind option_bind]. by rewrite put_string_spec. }
  by rewrite E.
Qed.

Ltac pieces := repeat (apply list.Forall_cons_2 || apply list.Forall_nil_2); repeat split; try discriminate; try (by constructor).

Definition not_found (filename : list Z) : list Z := chars "File " ++ filename ++ line " not found".

Lemma say_not_found fname r : is_str fname -> say (line "File %s not found") [Str (Some (cstr fname r))] = Some (not_found fname).
Proof.
  intros Hf. rewrite (say_pieces _ (lits "File " ++ Conv false [] 0 115 :: (lits " not found" ++ [Lit 13; Lit 10]))).
  - unfold lits. rewrite print_lits, print_str, print_lits by done. reflexivity.
  - vm_compute. reflexivity.
  - vm_compute lits. cbn [app]. pieces.
Qed.

Lemma cat_data_at pre data post : cat_data (pre ++ data ++ post) (Z.of_nat (length pre)) (Z.of_nat (length data)) = Some (cat_chars data).
Proof.
  unfold cat_data. rewrite !Nat2Z.id, drop_app_length, take_app_length.
  rewrite decide_True by (rewrite !length_app; split; lia). reflexivity.
Qed.

(** The line of a file: its size and its name. *)
Definition entry_line (e : entry) : list Z :=
  default [] (print_int (Z.of_nat (length (e_data e))) 0 32) ++ [32; 9; 32] ++ e_name e ++ [13; 10].

Lemma list_line_spec e r : entry_ok e -> list_line (Z.of_nat (length (e_data e))) (cstr (e_name e) r) = Some (entry_line e).
Proof.
  intros He. unfold list_line. rewrite (say_pieces _ [Conv false [] 0 100; Lit 32; Lit 9; Lit 32; Conv false [] 0 115; Lit 13; Lit 10]) by (reflexivity || pieces).
  assert (E : convert 100 32 0 false [Word (Z.of_nat (length (e_data e))); Str (Some (cstr (e_name e) r))] =
    Some (default [] (print_int (Z.of_nat (length (e_data e))) 0 32), [Str (Some (cstr (e_name e) r))])).
  { unfold convert. cbn [Z.eqb Pos.eqb orb next_word mbind option_bind]. pose proof (eo_data_size e He). rewrite i32_small by lia.
    unfold print_int. destruct (Z.ltb_spec (Z.of_nat (length (e_data e))) 0); [lia |]. rewrite u32_small by lia.
    destruct (print_number_spec 32 (Z.of_nat (length (e_data e))) 10 0 32) as (s & n & E & _); [by left | lia | lia | lia |].
    unfold print_uint. by rewrite E. }
  set (ps := [Lit 32; Lit 9; Lit 32; Conv false [] 0 115; Lit 13; Lit 10]). cbn [print_pieces]. change (width_of []) with 0. cbn [Nat.eqb negb]. rewrite E. cbn [mbind option_bind]. subst ps.
  change [Lit 32; Lit 9; Lit 32; Conv false [] 0 115; Lit 13; Lit 10] with ((Lit <$> [32; 9; 32]) ++ [Conv false [] 0 115; Lit 13; Lit 10]).
  rewrite print_lits, print_str by apply He. reflexivity.
Qed.

(** The walk of [initrd_list] over an archive prints a line for each file. *)
Lemma list_archive es pre fuel : Forall entry_ok es -> Forall (fun e => e_name e <> chars "TRAILER!!!") es -> (length es < fuel)%nat ->
  list_loop fuel (pre ++ archive es) (length pre) = Some (es ≫= entry_line).
Proof.
  intros Hes Htr. revert pre fuel. induction Hes as [| e es He Hes IH]; intros pre fuel Hfuel; (destruct fuel as [| fuel]; [simpl in Hfuel; lia |]).
  - cbn [list_loop]. unfold archive. cbn [mbind list_bind app]. rewrite <- (app_nil_r (encode trailer)).
    rewrite cpio_header_encode by apply trailer_ok. cbn [mbind option_bind]. rewrite is_trailer_spec by apply trailer_ok. reflexivity.
  - apply list.Forall_cons in Htr as [Hne Htr]. specialize (IH Htr (pre ++ encode e) fuel). cbn [length] in Hfuel.
    assert (Ea : pre ++ archive (e :: es) = pre ++ encode e ++ archive es) by (unfold archive; cbn; by rewrite <- app_assoc).
    rewrite Ea. cbn [list_loop]. rewrite cpio_header_encode by done. cbn [mbind option_bind].
    rewrite is_trailer_spec by apply He. rewrite bool_decide_false by done. cbn [mbind option_bind].
    rewrite list_line_spec by done. cbn [mbind option_bind]. rewrite next_header_encode by done. cbn [mbind option_bind].
    rewrite length_app, <- app_assoc in IH. rewrite IH by lia. cbn [option_bind]. by cbn [mbind list_bind].
Qed.

(** The walk of [initrd_cat]: the data, or the whole archive without a word. *)
Lemma cat_archive es pre fname r fuel : Forall entry_ok es ->
  Forall (fun e => e_name e <> chars "TRAILER!!!") es -> is_str fname -> (length es < fuel)%nat ->
  cat_loop fuel (pre ++ archive es) (cstr fname r) (length pre) =
  match lookup_entry fname es with Some data => Some (cat_chars data ++ [13; 10], true) | None => Some ([], false) end.
Proof.
  intros Hes Htr Hf. revert pre fuel. induction Hes as [| e es He Hes IH]; intros pre fuel Hfuel; (destruct fuel as [| fuel]; [simpl in Hfuel; lia |]).
  - cbn [lookup_entry cat_loop]. unfold archive. cbn [mbind list_bind app]. rewrite <- (app_nil_r (encode trailer)).
    rewrite cpio_header_encode by apply trailer_ok. cbn [mbind option_bind]. rewrite is_trailer_spec by apply trailer_ok. reflexivity.
  - apply list.Forall_cons in Htr as [Hne Htr]. specialize (IH Htr (pre ++ encode e) fuel). cbn [length] in Hfuel.
    assert (Ea : pre ++ archive (e :: es) = pre ++ encode e ++ archive es) by (unfold archive; cbn; by rewrite <- app_assoc).
    rewrite Ea. cbn [cat_loop lookup_entry]. rewrite cpio_header_encode by done. cbn [mbind option_bind].
    rewrite is_trailer_spec by apply He. rewrite bool_decide_false by done. cbn [mbind option_bind].
    destruct (strcmp_spec (e_name e) fname (padding (110 + length (e_name e) + 1) ++ e_data e ++ padding (length (e_data e)) ++ archive es) r (eo_name _ He) Hf)
      as (z & -> & Hz). cbn [mbind option_bind].
    destruct (decide (e_name e = fname)) as [En | En].
    + destruct (Z.eqb_spec z 0) as [_ | Hn]; [| tauto]. rewrite data_offset_encode by done.
      destruct (encode_split e He) as (hd & -> & <-). rewrite <- !app_assoc, (app_assoc pre hd). rewrite <- Nat2Z.inj_add, <- length_app.
      rewrite cat_data_at. reflexivity.
    + destruct (Z.eqb_spec z 0) as [Hn | _]; [tauto |]. rewrite next_header_encode by done. cbn [mbind option_bind].
      rewrite <- length_app. rewrite <- app_assoc in IH. apply IH. lia.
Qed.

(** [initrd_list] prints every file of an archive with its size, and [initrd_cat]
    the data of the first file of that name, or that there is none. *)
Lemma initrd_list_archive es fuel : Forall entry_ok es -> Forall (fun e => e_name e <> chars "TRAILER!!!") es -> (length es < fuel)%nat ->
  initrd_list fuel (archive es) = Some (es ≫= entry_line).
Proof. apply (list_archive es []). Qed.

Lemma initrd_cat_archive es fname r fuel : Forall entry_ok es ->
  Forall (fun e => e_name e <> chars "TRAILER!!!") es -> is_str fname -> (length es < fuel)%nat ->
  initrd_cat fuel (archive es) (cstr fname r) =
  Some (match lookup_entry fname es with Some data => cat_chars data ++ [13; 10] | None => not_found fname end).
Proof.
  intros Hes Htr Hf Hl. unfold initrd_cat. pose proof (cat_archive es [] fname r fuel Hes Htr Hf Hl) as E. cbn [app length] in E. rewrite E.
  destruct (lookup_entry fname es); rewrite bind_some; [reflexivity |]. cbv beta iota. by rewrite say_not_found, bind_some, app_nil_l.
Qed.

(** ** The properties *)

(** C32: initrd_get_file finds in a newc archive exactly the files written to it:
    it answers the offset and the size of the data of the first file of that
    name, and -1 when there is none. *)
Theorem initrd_get_file_archive es fname r fuel : Forall entry_ok es ->
  Forall (fun e => e_name e <> chars "TRAILER!!!") es -> is_str fname -> (length es < fuel)%nat ->
  match lookup_entry fname es with
  | Some data => exists off, initrd_get_file fuel (archive es) (cstr fname r) = Some (Some (Z.of_nat off, Z.of_nat (length data))) /\
      take (length data) (drop off (archive es)) = data
  | None => initrd_get_file fuel (archive es) (cstr fname r) = Some None
  end.
Proof.
  intros Hes Htr Hf Hl. pose proof (get_file_archive es [] fname r fuel Hes Htr Hf Hl) as Hg. cbn [app length] in Hg.
  destruct (lookup_entry fname es) as [data |]; [| exact Hg]. destruct Hg as (off & E & post & Ea). exists off. split; [exact E |].
  rewrite <- (take_drop off (archive es)) in Ea at 1. apply app_inv_head in Ea. by rewrite Ea, take_app_length.
Qed.

Definition demo_entry : entry := Entry (replicate 48 48) (replicate 32 48) (replicate 8 48) (chars "hi") [1; 2; 3].

Lemma initrd_get_file_archive_witness : Forall entry_ok [demo_entry] /\
  initrd_get_file 2 (archive [demo_entry]) (cstr (chars "hi") []) = Some (Some (116, 3)) /\
  exists off, initrd_get_file 2 (archive [demo_entry]) (cstr (chars "hi") []) = Some (Some (Z.of_nat off, 3)) /\
    take 3 (drop off (archive [demo_entry])) = [1; 2; 3].
Proof.
  assert (Hok : Forall entry_ok [demo_entry]).
  { repeat constructor; try reflexivity; discriminate. }
  split; [exact Hok |]. split; [reflexivity |].
  apply (initrd_get_file_archive [demo_entry] (chars "hi") [] 2 Hok); [repeat constructor; discriminate | repeat constructor; discriminate | simpl; lia].
Defined.
