(* ===== verification/BootLib.v ===== *)
(** * The boot loader's library: [bootloader/lib/string.c], [stdio.c], [cpio.c]

    The boot loader carries its own copies of the kernel's library.  Where the
    text is that of the kernel the definition is the kernel's; where it differs
    it is written out, and the lemmas say what the difference comes to.  The
    output is the characters handed to [uart_putc]. *)

From Stdlib Require Import Ascii String.
From S2P Require Import Prelude CString Align VfsData Stdio StdioProps Cpio CpioProps.
#[local] Open Scope Z_scope.
#[local] Open Scope list_scope.

(** ** Strings: the text of [lib/string.c] *)

Definition strcmp : list Z -> list Z -> option Z := CString.strcmp.
Definition strlen : list Z -> option Z := CString.strlen.
Definition strncmp : list Z -> list Z -> nat -> option Z := CString.strncmp.
Definition strcpy : list Z -> list Z -> option (list Z) := CString.strcpy.
Definition memset : list Z -> Z -> nat -> option (list Z) := CString.memset.

(** ** Output: [lib/stdio.c] without [%p] *)

Definition print_uint : Z -> Z -> Z -> Z -> option (list Z) := Stdio.print_uint.
Definition print_int : Z -> Z -> Z -> option (list Z) := Stdio.print_int.
Definition print_long : Z -> Z -> Z -> Z -> option (list Z) := Stdio.print_long.

Definition convert (c pad width : Z) (long : bool) (args : list arg) : option (list Z * list arg) :=
  if c =? 100 then '(v, args) ← next_word args; o ← print_int (i32 v) width pad; Some (o, args)
  else if (c =? 117) || (c =? 120) then
    '(v, args) ← next_word args;
    let base := if c =? 117 then 10 else 16 in
    o ← (if long then print_long (u64 v) base width pad else print_uint (u32 v) base width pad);
    Some (o, args)
  else if c =? 115 then
    '(s, args) ← next_str args;
    o ← put_string (match s with Some s => s | None => chars "(null)" ++ [0] end);
    Some (o, args)
  else if c =? 99 then '(v, args) ← next_word args; Some ([Z.land v 255], args)
  else Some (if c =? 0 then [37] else [37; c], args).

Fixpoint printf (fuel : nat) (p : list Z) (args : list arg) : option (list Z) :=
  c ← head p;
  if c =? 0 then Some [] else
  match fuel with
  | O => None
  | S fuel =>
      if negb (c =? 37) then o ← printf fuel (tail p) args; Some (c :: o) else
      let p := tail p in
      c ← head p;
      if c =? 37 then o ← printf fuel (tail p) args; Some (37 :: o) else
      let pad := if c =? 48 then 48 else 32 in
      let p := if c =? 48 then tail p else p in
      let '(width, p) := scan_width p 0 in
      let '(long, p) := scan_longs p in
      c ← head p;
      '(s, args) ← convert c pad width long args;
      o ← printf fuel (if c =? 0 then p else tail p) args;
      Some (s ++ o)
  end.

(** [printf] of a literal format. *)
Definition say (f : list Z) (args : list arg) : option (list Z) := printf (length f) (f ++ [0]) args.

(** ** The ram disk: [lib/cpio.c] with an [align] of its own *)

Definition hextoi : list Z -> nat -> Z -> option Z := Cpio.hextoi.

Definition align (n byte : Z) : Z := i32 (Z.land (i32 (i32 (n + byte) - 1)) (Z.lnot (i32 (byte - 1)))).

(** [sizeof] makes the sum an [unsigned long], which becomes the [int] passed. *)
Definition data_offset (namesize : Z) : Z := align (i32 (SIZEOF_CPIO ⊞ u64 namesize)) 4.

Definition next_header (ptr : nat) (namesize filesize : Z) : option nat :=
  let p := Z.of_nat ptr + i32 (data_offset namesize + align filesize 4) in
  if p <? 0 then None else Some (Z.to_nat p).

Definition list_line (filesize : Z) (name : list Z) : option (list Z) := say list_format [Word filesize; Str (Some name)].

Fixpoint list_loop (fuel : nat) (rd : list Z) (ptr : nat) : option (list Z) :=
  match fuel with
  | O => None
  | S fuel =>
      h ← cpio_header rd ptr;
      match h with
      | None => say (line "Invalid magic") []
      | Some (namesize, filesize, name) =>
          tr ← is_trailer name;
          if (tr : bool) then Some [] else
          s ← list_line filesize name;
          ptr ← next_header ptr namesize filesize;
          o ← list_loop fuel rd ptr; Some (s ++ o)
      end
  end.

Definition initrd_list (fuel : nat) (rd : list Z) : option (list Z) := list_loop fuel rd 0.

(** What the loop prints, and [found]. *)
Fixpoint cat_loop (fuel : nat) (rd filename : list Z) (ptr : nat) : option (list Z * bool) :=
  match fuel with
  | O => None
  | S fuel =>
      h ← cpio_header rd ptr;
      match h with
      | None => o ← say (line "Invalid magic") []; Some (o, false)
      | Some (namesize, filesize, name) =>
          tr ← is_trailer name;
          if (tr : bool) then Some ([], false) else
          c ← strcmp name filename;
          if c =? 0 then
            d ← cat_data rd (Z.of_nat ptr + data_offset namesize) filesize;
            e ← say [13; 10] [];
            Some (d ++ e, true)
          else ptr ← next_header ptr namesize filesize; cat_loop fuel rd filename ptr
      end
  end.

Definition initrd_cat (fuel : nat) (rd filename : list Z) : option (list Z) :=
  '(o, found) ← cat_loop fuel rd filename 0;
  if (found : bool) then Some o else
  e ← say (line "File %s not found") [Str (Some filename)];
  Some (o ++ e).

(** ** The same as the kernel's *)

Lemma align_same n byte : align n byte = align_up_int n byte.
Proof. reflexivity. Qed.

Lemma data_offset_same namesize : data_offset namesize = Cpio.data_offset namesize.
Proof. unfold data_offset, Cpio.data_offset. rewrite align_same. f_equal. unfold i32, u64. dlia. Qed.

Lemma next_header_same ptr namesize filesize : next_header ptr namesize filesize = Cpio.next_header ptr namesize filesize.
Proof. unfold next_header, Cpio.next_header. by rewrite data_offset_same, align_same. Qed.

(** The conversions other than [%p]. *)
Lemma convert_same c pad width long args : c <> 112 -> convert c pad width long args = Stdio.convert c pad width long args.
Proof. intros Hc. unfold convert, Stdio.convert. destruct (Z.eqb_spec c 112); [done | reflexivity]. Qed.

Lemma printf_with_boot : printf = printf_with convert.
Proof. reflexivity. Qed.

(** A conversion other than [%p]. *)
Definition no_pointer (p : piece) : Prop := match p with Conv _ _ _ c => c <> 112 | _ => True end.

Lemma print_pieces_same ps : Forall no_pointer ps -> forall args, print_pieces convert ps args = print_pieces Stdio.convert ps args.
Proof.
  induction 1 as [| p ps Hp _ IH]; intros args; [done |]. destruct p; cbn [print_pieces]; [by rewrite IH | by rewrite IH |].
  rewrite convert_same by done. destruct (Stdio.convert _ _ _ _ args) as [[s args'] |]; [| done]. cbn [mbind option_bind]. by rewrite IH.
Qed.

(** A format without [%p] prints what it prints in the kernel. *)
Lemma printf_same ps rest args : Forall piece_ok ps -> Forall no_pointer ps ->
  printf (length (ps ≫= piece_fmt)) ((ps ≫= piece_fmt) ++ 0 :: rest) args =
  Stdio.printf (length (ps ≫= piece_fmt)) ((ps ≫= piece_fmt) ++ 0 :: rest) args.
Proof. intros Hps Hn. rewrite printf_with_boot, printf_with_convert, !printf_spec by done. by apply print_pieces_same. Qed.

(** [%p] is printed as it stands, and its argument is left for the next conversion. *)
Lemma printf_pointer : say (chars "%p %x") [Word 16; Word 32] = Some (chars "%p 10") /\ Cpio.say (chars "%p %x") [Word 16; Word 32] = Some (chars "0x10 20").
Proof. split; vm_compute; reflexivity. Qed.

Lemma say_same ps args : Forall piece_ok ps -> Forall no_pointer ps -> say (ps ≫= piece_fmt) args = Cpio.say (ps ≫= piece_fmt) args.
Proof. apply printf_same. Qed.

Ltac pieces := cbn [fmap list_fmap app]; repeat (apply list.Forall_cons_2 || apply list.Forall_nil_2); repeat split; try discriminate; try (by constructor).

Lemma list_line_same filesize name : list_line filesize name = Cpio.list_line filesize name.
Proof. apply (say_same [Conv false [] 0 100; Lit 32; Lit 9; Lit 32; Conv false [] 0 115; Lit 13; Lit 10]); pieces. Qed.

Lemma say_magic_same : say (line "Invalid magic") [] = Cpio.say (line "Invalid magic") [].
Proof. reflexivity. Qed.

Lemma say_not_found_same filename : say (line "File %s not found") [Str (Some filename)] = Cpio.say (line "File %s not found") [Str (Some filename)].
Proof.
  set (ps := (Lit <$> chars "File ") ++ Conv false [] 0 115 :: (Lit <$> chars " not found") ++ [Lit 13; Lit 10]).
  replace (line "File %s not found") with (ps ≫= piece_fmt) by (vm_compute; reflexivity). apply say_same; subst ps; vm_compute chars; pieces.
Qed.

Lemma list_loop_same fuel : forall rd ptr, list_loop fuel rd ptr = Cpio.list_loop fuel rd ptr.
Proof.
  induction fuel as [| fuel IH]; intros rd ptr; [done |]. cbn [list_loop Cpio.list_loop]. apply bind_ext.
  intros [[[n f] name] |]; [| exact say_magic_same]. apply bind_ext. intros []; [reflexivity |].
  rewrite list_line_same. apply bind_ext. intros s. rewrite next_header_same. apply bind_ext. intros p. by rewrite IH.
Qed.

Lemma cat_loop_same fuel : forall rd filename ptr, cat_loop fuel rd filename ptr = Cpio.cat_loop fuel rd filename ptr.
Proof.
  induction fuel as [| fuel IH]; intros rd filename ptr; [done |]. cbn [cat_loop Cpio.cat_loop]. apply bind_ext.
  intros [[[n f] name] |]; [| by rewrite say_magic_same]. apply bind_ext. intros []; [reflexivity |].
  apply bind_ext. intros c. destruct (c =? 0); [by rewrite data_offset_same |]. rewrite next_header_same. apply bind_ext. intros p. apply IH.
Qed.

(** The copies of the walks over the ram disk print what the kernel's print. *)
Lemma initrd_list_same fuel rd : initrd_list fuel rd = Cpio.initrd_list fuel rd.
Proof. apply list_loop_same. Qed.

Lemma initrd_cat_same fuel rd filename : initrd_cat fuel rd filename = Cpio.initrd_cat fuel rd filename.
Proof.
  unfold initrd_cat, Cpio.initrd_cat. rewrite cat_loop_same. apply bind_ext. intros [o []]; [reflexivity |]. by rewrite say_not_found_same.
Qed.
