(* ===== verification/Fdt.v ===== *)
(** * The flattened device tree: [lib/fdt.c]

    The walks over the structure block of the tree the firmware hands over.  A
    pointer into the tree is its offset from [fdt]; a read outside of the blob
    and a write past a buffer of the parser have no outcome.  The loops are
    bounded by fuel, one unit for each token: [S (length bytes)] is enough, since
    every turn reads four bytes further on. *)

From Stdlib Require Import Ascii String.
From S2P Require Import Prelude Config Align CString Buddy Allocator VfsData.
#[local] Open Scope Z_scope.
#[local] Open Scope list_scope.

Definition FDT_BEGIN_NODE : Z := 1.
Definition FDT_END_NODE : Z := 2.
Definition FDT_PROP : Z := 3.
Definition FDT_NOP : Z := 4.
Definition FDT_END : Z := 9.
Definition FDT_MAGIC : Z := 0xd00dfeed.

(** The fields of [struct fdt_header] that are read. *)
Definition h_magic : Z := 0.
Definition h_totalsize : Z := 4.
Definition h_off_dt_struct : Z := 8.
Definition h_off_dt_strings : Z := 12.

(** Where the blob is, and its bytes. *)
Record fdt_blob := FdtBlob { fdt_ptr : Z; fdt_bytes : list Z }.

(** The bytes from an offset on. *)
Definition at_ (fdt : fdt_blob) (off : Z) : option (list Z) :=
  if (off <? 0) || (Z.of_nat (length (fdt_bytes fdt)) <? off) then None else Some (drop (Z.to_nat off) (fdt_bytes fdt)).

(** [bswap32( *(const uint32_t* )ptr)] *)
Definition read32 (fdt : fdt_blob) (off : Z) : option Z := bs ← at_ fdt off; x ← load32 bs 0; Some (bswap32 x).

(** Two cells. *)
Definition read64 (fdt : fdt_blob) (off : Z) : option Z :=
  hi ← read32 fdt off; lo ← read32 fdt (off + 4); Some (Z.lor (hi ⋘ 32) lo).

(** [align_up_ptr(ptr, 4)] *)
Definition align4 (fdt : fdt_blob) (off : Z) : Z := align_up_ptr (fdt_ptr fdt ⊞ off) 4 ⊟ fdt_ptr fdt.

Definition str_at (fdt : fdt_blob) (off : Z) : option Z := s ← at_ fdt off; strlen s.

(** The offset behind the name at [off], aligned. *)
Definition skip_name (fdt : fdt_blob) (off : Z) : option Z := n ← str_at fdt off; Some (align4 fdt (off + n + 1)).

(** ** Paths *)

(** [while ( *current && *current != '/') current++;] *)
Fixpoint skip_unit (current : list Z) : option (list Z) :=
  match current with
  | [] => None
  | c :: rest => if negb (c =? 0) && negb (c =? 47) then skip_unit rest else Some current
  end.

Fixpoint match_path (fuel : nat) (current path : list Z) : option bool :=
  p ← head path;
  c ← head current;
  if p =? 0 then Some ((c =? 0) || (c =? 64)) else
  match fuel with
  | O => None
  | S fuel =>
      if c =? p then match_path fuel (tail current) (tail path)
      else if (c =? 64) && (p =? 47) then current ← skip_unit current; match_path fuel current path
      else Some false
  end.

(** [char current_path[1024]] holds the path without its NUL. *)
Definition PATH_BUF : Z := 1024.

Definition push_name (cur name : list Z) : option (list Z) :=
  match cur with
  | [] => Some [47]
  | _ =>
      let cur := if 1 <? Z.of_nat (length cur) then cur ++ [47] else cur in
      if PATH_BUF <? Z.of_nat (length cur) + Z.of_nat (length name) + 1 then None else Some (cur ++ name)
  end.

(** The last characters up to a '/', from the end. *)
Fixpoint drop_name (rcur : list Z) : list Z :=
  match rcur with c :: rest => if c =? 47 then rcur else drop_name rest | [] => [] end.

Definition pop_name (cur : list Z) : list Z :=
  if Z.of_nat (length cur) <=? 1 then []
  else let r := drop_name (reverse cur) in reverse (if 1 <? Z.of_nat (length r) then tail r else r).

Fixpoint path_loop (fuel : nat) (fdt : fdt_blob) (ptr : Z) (cur path : list Z) : option Z :=
  match fuel with
  | O => None
  | S fuel =>
      token ← read32 fdt ptr;
      let token_offset := i32 ptr in
      let ptr := ptr + 4 in
      if token =? FDT_BEGIN_NODE then
        s ← at_ fdt ptr;
        n ← strlen s;
        let ptr := align4 fdt (ptr + n + 1) in
        cur ← push_name cur (take (Z.to_nat n) s);
        found ← match_path (length cur + length path) (cur ++ [0]) path;
        if (found : bool) then Some token_offset else path_loop fuel fdt ptr cur path
      else if token =? FDT_END_NODE then path_loop fuel fdt ptr (pop_name cur) path
      else if token =? FDT_PROP then
        len ← read32 fdt ptr;
        path_loop fuel fdt (align4 fdt (ptr + 8 + len)) cur path
      else if token =? FDT_NOP then path_loop fuel fdt ptr cur path
      else if token =? FDT_END then Some (-1)
      else path_loop fuel fdt ptr cur path
  end.

Definition fdt_fuel (fdt : fdt_blob) : nat := S (length (fdt_bytes fdt)).

Definition fdt_path_offset (fdt : fdt_blob) (path : list Z) : option Z :=
  magic ← read32 fdt h_magic;
  if negb (magic =? FDT_MAGIC) then Some (-1) else
  off_dt_struct ← read32 fdt h_off_dt_struct;
  path_loop (fdt_fuel fdt) fdt off_dt_struct [] path.

(** ** Properties of a node *)

(** NULL, or where the value is and [*lenp]. *)
Fixpoint prop_loop (fuel : nat) (fdt : fdt_blob) (strings ptr : Z) (name : list Z) : option (option (Z * Z)) :=
  match fuel with
  | O => None
  | S fuel =>
      token ← read32 fdt ptr;
      let ptr := ptr + 4 in
      if token =? FDT_PROP then
        len ← read32 fdt ptr;
        nameoff ← read32 fdt (ptr + 4);
        let ptr := ptr + 8 in
        prop_name ← at_ fdt (strings + nameoff);
        c ← strcmp prop_name name;
        if c =? 0 then Some (Some (ptr, i32 len)) else prop_loop fuel fdt strings (align4 fdt (ptr + len)) name
      else if token =? FDT_NOP then prop_loop fuel fdt strings ptr name
      else Some None
  end.

Definition fdt_getprop (fdt : fdt_blob) (nodeoffset : Z) (name : list Z) : option (option (Z * Z)) :=
  strings ← read32 fdt h_off_dt_strings;
  token ← read32 fdt nodeoffset;
  if negb (token =? FDT_BEGIN_NODE) then Some None else
  ptr ← skip_name fdt (nodeoffset + 4);
  prop_loop (fdt_fuel fdt) fdt strings ptr name.

(** A string literal, with its NUL. *)
Definition lit (s : string) : list Z := chars s ++ [0].

(** ** The console *)

(** The string of [path] up to its first ':'. *)
Fixpoint cut_colon (path : list Z) : list Z :=
  match path with c :: path => if c =? 58 then [] else c :: cut_colon path | [] => [] end.

(** [#address-cells] of the root, 2 when it has none. *)
Definition address_cells (fdt : fdt_blob) : option Z :=
  root_offset ← fdt_path_offset fdt (lit "/");
  ac_prop ← fdt_getprop fdt root_offset (lit "#address-cells");
  match ac_prop with Some (p, _) => c ← read32 fdt p; Some (i32 c) | None => Some 2 end.

Definition UART_DEFAULT : Z := 0x10000000.

(** The path [stdout-path] names, an alias resolved: None for the returns before
    there is one.  [char path[256]] holds the copy of the property. *)
Definition stdout_path (fdt : fdt_blob) (chosen_offset : Z) : option (option (list Z)) :=
  prop ← fdt_getprop fdt chosen_offset (lit "stdout-path");
  match prop with
  | None => Some None
  | Some (p, _) =>
      s ← at_ fdt p;
      n ← strlen s;
      if 256 <? n + 1 then None else
      let path := cut_colon (take (Z.to_nat n) s) ++ [0] in
      c ← head path;
      if c =? 47 then Some (Some path) else
      aliases_offset ← fdt_path_offset fdt (lit "/aliases");
      if aliases_offset <? 0 then Some None else
      alias_prop ← fdt_getprop fdt aliases_offset path;
      match alias_prop with None => Some None | Some (a, _) => real ← at_ fdt a; Some (Some real) end
  end.

(** The new [uart_base_addr]. *)
Definition init_uart_from_fdt (fdt : fdt_blob) : option Z :=
  chosen_offset ← fdt_path_offset fdt (lit "/chosen");
  if chosen_offset <? 0 then Some UART_DEFAULT else
  path ← stdout_path fdt chosen_offset;
  match path with
  | None => Some UART_DEFAULT
  | Some real_path =>
      uart_offset ← fdt_path_offset fdt real_path;
      if uart_offset <? 0 then Some UART_DEFAULT else
      reg_prop ← fdt_getprop fdt uart_offset (lit "reg");
      match reg_prop with
      | None => Some UART_DEFAULT
      | Some (reg, len) =>
          if len <? 4 then Some UART_DEFAULT else
          addr_cells ← address_cells fdt;
          if (addr_cells =? 2) && (8 <=? len) then read64 fdt reg else read32 fdt reg
      end
  end.

(** ** What the allocator reads *)

Definition fdt_totalsize (fdt : option fdt_blob) : option Z :=
  match fdt with
  | None => Some 0
  | Some fdt =>
      magic ← read32 fdt h_magic;
      if negb (magic =? FDT_MAGIC) then Some 0 else read32 fdt h_totalsize
  end.

Definition parse_addr_prop (fdt : fdt_blob) (prop : option (Z * Z)) : option Z :=
  match prop with
  | None => Some 0
  | Some (p, len) => if len =? 4 then read32 fdt p else if len =? 8 then read64 fdt p else Some 0
  end.

Definition get_chosen_addr_prop (fdt : option fdt_blob) (name fallback_name : list Z) : option Z :=
  match fdt with
  | None => Some 0
  | Some fdt =>
      chosen ← fdt_path_offset fdt (lit "/chosen");
      if chosen <? 0 then Some 0 else
      prop ← fdt_getprop fdt chosen name;
      prop ← (match prop with Some _ => Some prop | None => fdt_getprop fdt chosen fallback_name end);
      parse_addr_prop fdt prop
  end.

Definition get_initrd_start (fdt : option fdt_blob) : option Z :=
  get_chosen_addr_prop fdt (lit "linux,initrd-start") (lit "initrd-start").

Definition get_initrd_end (fdt : option fdt_blob) : option Z :=
  get_chosen_addr_prop fdt (lit "linux,initrd-end") (lit "initrd-end").

(** [*start] and [*size], None for -1. *)
Definition parse_start_and_size (fdt : fdt_blob) (reg_prop : option (Z * Z)) : option (option (Z * Z)) :=
  match reg_prop with
  | None => Some None
  | Some (reg, len) =>
      if len <=? 0 then Some None
      else if 16 <=? len then start ← read64 fdt reg; size ← read64 fdt (reg + 8); Some (Some (start, size))
      else if 8 <=? len then start ← read32 fdt reg; size ← read32 fdt (reg + 4); Some (Some (start, size))
      else Some None
  end.

Definition parse_alloc_ranges_with_size (fdt : fdt_blob) (alloc_ranges_prop size_prop : option (Z * Z)) : option (option (Z * Z)) :=
  range ← parse_start_and_size fdt alloc_ranges_prop;
  match range, size_prop with
  | Some (start, range_size), Some (p, size_len) =>
      if size_len <=? 0 then Some None else
      requested ← (if 8 <=? size_len then r ← read64 fdt p; Some (Some r)
                   else if 4 <=? size_len then r ← read32 fdt p; Some (Some r) else Some None);
      match requested with
      | None => Some None
      | Some requested =>
          if requested =? 0 then Some None
          else Some (Some (start, if negb (range_size =? 0) && (range_size <? requested) then range_size else requested))
      end
  | _, _ => Some None
  end.

(** The region a child of [/reserved-memory] describes. *)
Definition child_region (fdt : fdt_blob) (child_offset : Z) : option (option (Z * Z)) :=
  reg_prop ← fdt_getprop fdt child_offset (lit "reg");
  r ← parse_start_and_size fdt reg_prop;
  match r with
  | Some _ => Some r
  | None =>
      alloc_ranges_prop ← fdt_getprop fdt child_offset (lit "alloc-ranges");
      size_prop ← fdt_getprop fdt child_offset (lit "size");
      parse_alloc_ranges_with_size fdt alloc_ranges_prop size_prop
  end.

Fixpoint reserved_loop (fuel : nat) (fdt : fdt_blob) (ptr depth current index : Z) : option (option (Z * Z)) :=
  if depth <=? 0 then Some None else
  match fuel with
  | O => None
  | S fuel =>
      token ← read32 fdt ptr;
      let child_offset := i32 ptr in
      let ptr := ptr + 4 in
      if token =? FDT_BEGIN_NODE then
        ptr ← skip_name fdt ptr;
        let depth := depth + 1 in
        if depth =? 2 then
          r ← child_region fdt child_offset;
          match r with
          | Some _ => if current =? index then Some r else reserved_loop fuel fdt ptr depth (current + 1) index
          | None => reserved_loop fuel fdt ptr depth current index
          end
        else reserved_loop fuel fdt ptr depth current index
      else if token =? FDT_END_NODE then reserved_loop fuel fdt ptr (depth - 1) current index
      else if token =? FDT_PROP then
        prop_len ← read32 fdt ptr;
        reserved_loop fuel fdt (align4 fdt (ptr + 8 + prop_len)) depth current index
      else if token =? FDT_NOP then reserved_loop fuel fdt ptr depth current index
      else if token =? FDT_END then Some None
      else reserved_loop fuel fdt ptr depth current index
  end.

(** The answers through [start] and [size], None for -1. *)
Definition fdt_get_reserved_memory_region (fdt : option fdt_blob) (index : Z) : option (option (Z * Z)) :=
  match fdt with
  | None => Some None
  | Some fdt =>
      if index <? 0 then Some None else
      reserved_offset ← fdt_path_offset fdt (lit "/reserved-memory");
      if reserved_offset <? 0 then Some None else
      reg_prop ← fdt_getprop fdt reserved_offset (lit "reg");
      r ← parse_start_and_size fdt reg_prop;
      if (match r with Some _ => 0 =? index | None => false end) then Some r else
      let current := match r with Some _ => 1 | None => 0 end in
      token ← read32 fdt reserved_offset;
      if negb (token =? FDT_BEGIN_NODE) then Some None else
      ptr ← skip_name fdt (reserved_offset + 4);
      reserved_loop (fdt_fuel fdt) fdt ptr 1 current index
  end.

(** The property [startup_alloc] reads: its bytes, of which it uses 16 at most. *)
Definition fdt_memory_reg (fdt : fdt_blob) : option (option (list Z)) :=
  memory_offset ← fdt_path_offset fdt (lit "/memory");
  if memory_offset <? 0 then Some None else
  prop ← fdt_getprop fdt memory_offset (lit "reg");
  match prop with
  | None => Some None
  | Some (p, len) => bs ← at_ fdt p; if Z.of_nat (length bs) <? Z.min len 16 then None else Some (Some (take (Z.to_nat len) bs))
  end.

(** ** What the drivers read *)

Definition fdt_get_timebase_frequency (fdt : option fdt_blob) (default_freq : Z) : option Z :=
  match fdt with
  | None => Some default_freq
  | Some fdt =>
      cpus_offset ← fdt_path_offset fdt (lit "/cpus");
      if cpus_offset <? 0 then Some default_freq else
      prop ← fdt_getprop fdt cpus_offset (lit "timebase-frequency");
      match prop with
      | None => Some default_freq
      | Some (p, len) => if len <? 4 then Some default_freq else read32 fdt p
      end
  end.

Fixpoint phandle_loop (fuel : nat) (fdt : fdt_blob) (strings ptr current_node_offset phandle : Z) : option Z :=
  match fuel with
  | O => None
  | S fuel =>
      token ← read32 fdt ptr;
      let token_offset := i32 ptr in
      let ptr := ptr + 4 in
      if token =? FDT_BEGIN_NODE then
        ptr ← skip_name fdt ptr;
        phandle_loop fuel fdt strings ptr token_offset phandle
      else if token =? FDT_PROP then
        len ← read32 fdt ptr;
        nameoff ← read32 fdt (ptr + 4);
        let ptr := ptr + 8 in
        prop_name ← at_ fdt (strings + nameoff);
        c ← strcmp prop_name (lit "phandle");
        c' ← (if c =? 0 then Some 0 else strcmp prop_name (lit "linux,phandle"));
        val ← (if (c' =? 0) && (4 <=? len) then v ← read32 fdt ptr; Some (v =? phandle) else Some false);
        if (val : bool) then Some current_node_offset
        else phandle_loop fuel fdt strings (align4 fdt (ptr + len)) current_node_offset phandle
      else if token =? FDT_END then Some (-1)
      else phandle_loop fuel fdt strings ptr current_node_offset phandle
  end.

Definition fdt_get_node_by_phandle (fdt : fdt_blob) (phandle : Z) : option Z :=
  magic ← read32 fdt h_magic;
  if negb (magic =? FDT_MAGIC) then Some (-1) else
  off_dt_struct ← read32 fdt h_off_dt_struct;
  strings ← read32 fdt h_off_dt_strings;
  phandle_loop (fdt_fuel fdt) fdt strings off_dt_struct (i32 off_dt_struct) phandle.

(** [while (i < len && prop[i] && prop[i] != ':')] of the copy into [path]. *)
Fixpoint copy_path (len : nat) (s : list Z) : option (list Z) :=
  match len with
  | O => Some []
  | S len =>
      match s with
      | [] => None
      | c :: s => if (c =? 0) || (c =? 58) then Some [] else p ← copy_path len s; Some (c :: p)
      end
  end.

(** The node of the console: that of [stdout-path], or of the alias of that
    name; [/chosen] itself when it names none. *)
Definition stdout_node (fdt : fdt_blob) : option Z :=
  chosen ← fdt_path_offset fdt (lit "/chosen");
  if chosen <? 0 then Some chosen else
  prop ← fdt_getprop fdt chosen (lit "stdout-path");
  match prop with
  | None => Some chosen
  | Some (p, len) =>
      s ← at_ fdt p;
      path ← copy_path (Z.to_nat len) s;
      if 256 <? Z.of_nat (length path) + 1 then None else
      uart_offset ← fdt_path_offset fdt (path ++ [0]);
      if negb (uart_offset <? 0) then Some uart_offset else
      aliases_offset ← fdt_path_offset fdt (lit "/aliases");
      if aliases_offset <? 0 then Some uart_offset else
      alias_prop ← fdt_getprop fdt aliases_offset (path ++ [0]);
      match alias_prop with None => Some uart_offset | Some (a, _) => real ← at_ fdt a; fdt_path_offset fdt real end
  end.

Definition fdt_get_plic_base (fdt : fdt_blob) : option Z :=
  uart_offset ← stdout_node fdt;
  if uart_offset <? 0 then Some 0 else
  iparent ← fdt_getprop fdt uart_offset (lit "interrupt-parent");
  match iparent with
  | None => Some 0
  | Some (p, _) =>
      plic_phandle ← read32 fdt p;
      plic_offset ← fdt_get_node_by_phandle fdt plic_phandle;
      if plic_offset <? 0 then Some 0 else
      reg ← fdt_getprop fdt plic_offset (lit "reg");
      match reg with
      | None => Some 0
      | Some (reg, _) => addr_cells ← address_cells fdt; if addr_cells =? 2 then read64 fdt reg else read32 fdt reg
      end
  end.

(** The answer, which [g_uart_irq] is set to as well. *)
Definition uart_get_irq (fdt : option fdt_blob) : option Z :=
  match fdt with
  | None => Some 10
  | Some fdt =>
      uart_offset ← stdout_node fdt;
      if uart_offset <? 0 then Some 10 else
      irq_prop ← fdt_getprop fdt uart_offset (lit "interrupts");
      match irq_prop with
      | None => Some 10
      | Some (p, len) => if len <? 4 then Some 10 else irq ← read32 fdt p; Some (i32 irq)
      end
  end.
