(* ===== verification/FdtProps.v ===== *)
(** * Properties of the device tree parser

    [image] lays out a tree of nodes the way the format prescribes; the parser
    finds every node and every property of it.  On any other bytes its walks
    end: [ends] is the relation of turn after turn, [path_turn] and the like one
    turn of each walk. *)

From Stdlib Require Import Ascii String.
From S2P Require Import Prelude Config Align CString Buddy Allocator VfsData Fdt.
#[local] Open Scope Z_scope.
#[local] Open Scope list_scope.

(** ** The format *)

Definition be32 (x : Z) : list Z := [x / 2 ^ 24 mod 256; x / 2 ^ 16 mod 256; x / 2 ^ 8 mod 256; x mod 256].

Definition pad4 (bs : list Z) : list Z := bs ++ replicate (Z.to_nat ((- Z.of_nat (length bs)) mod 4)) 0.

(** A node: its name, its properties by name, its children. *)
Inductive dnode := DNode (d_name : list Z) (d_props : list (list Z * list Z)) (d_kids : list dnode).

Definition d_name (t : dnode) : list Z := match t with DNode n _ _ => n end.
Definition d_props (t : dnode) : list (list Z * list Z) := match t with DNode _ ps _ => ps end.
Definition d_kids (t : dnode) : list dnode := match t with DNode _ _ ks => ks end.

Section Layout.
Context (names : list (list Z)).

(** The offset of a name in the strings block. *)
Fixpoint name_off (ns : list (list Z)) (n : list Z) : Z :=
  match ns with [] => 0 | m :: ns => if decide (m = n) then 0 else Z.of_nat (length m) + 1 + name_off ns n end.

Definition strings_block : list Z := names ≫= fun n => n ++ [0].

Definition enc_begin (n : list Z) : list Z := be32 FDT_BEGIN_NODE ++ pad4 (n ++ [0]).
Definition enc_prop (p : list Z * list Z) : list Z :=
  be32 FDT_PROP ++ be32 (Z.of_nat (length p.2)) ++ be32 (name_off names p.1) ++ pad4 p.2.
Definition enc_props (ps : list (list Z * list Z)) : list Z := ps ≫= enc_prop.

Fixpoint enc_node (t : dnode) : list Z :=
  match t with DNode n ps ks => enc_begin n ++ enc_props ps ++ concat (map enc_node ks) ++ be32 FDT_END_NODE end.

Definition struct_block (t : dnode) : list Z := enc_node t ++ be32 FDT_END.

(** The blob at address [base]; the fields the parser does not read are zero. *)
Definition image (base : Z) (t : dnode) : fdt_blob :=
  let s := struct_block t in
  let total := 40 + Z.of_nat (length s) + Z.of_nat (length strings_block) in
  FdtBlob base (be32 FDT_MAGIC ++ be32 total ++ be32 40 ++ be32 (40 + Z.of_nat (length s)) ++ replicate 24 0 ++ s ++ strings_block).

End Layout.

(** ** Reading words *)

Lemma be32_bytes x : 0 <= x < 2 ^ 32 -> le32 (x mod 256) (x / 2 ^ 8 mod 256) (x / 2 ^ 16 mod 256) (x / 2 ^ 24 mod 256) = x.
Proof. intros. unfold le32. dlia. Qed.

Lemma load_be32 x r : 0 <= x < 2 ^ 32 -> (b ← load32 (be32 x ++ r) 0; Some (bswap32 b)) = Some x.
Proof.
  intros Hx. unfold load32. cbn [be32 app lookup list_lookup mbind option_bind Nat.add]. rewrite bswap32_le32 by (unfold byte; dlia).
  by rewrite be32_bytes.
Qed.

Lemma be32_length x : length (be32 x) = 4%nat.
Proof. done. Qed.

Lemma at_app fdt off a b : at_ fdt off = Some (a ++ b) -> at_ fdt (off + Z.of_nat (length a)) = Some b.
Proof.
  unfold at_. destruct (Z.ltb_spec off 0), (Z.ltb_spec (Z.of_nat (length (fdt_bytes fdt))) off); try done. intros [= E].
  apply (f_equal length) in E as El. rewrite length_drop, length_app in El.
  destruct (Z.ltb_spec (off + Z.of_nat (length a)) 0), (Z.ltb_spec (Z.of_nat (length (fdt_bytes fdt))) (off + Z.of_nat (length a))); try lia.
  cbn [orb]. f_equal. rewrite Z2Nat.inj_add, Nat2Z.id, <- drop_drop, E by lia. apply drop_app_length.
Qed.

Lemma at_bound fdt off bs : at_ fdt off = Some bs -> 0 <= off /\ off + Z.of_nat (length bs) = Z.of_nat (length (fdt_bytes fdt)).
Proof.
  unfold at_. destruct (Z.ltb_spec off 0), (Z.ltb_spec (Z.of_nat (length (fdt_bytes fdt))) off); try done. intros [= <-].
  rewrite length_drop. lia.
Qed.

Lemma read32_be fdt off x r : at_ fdt off = Some (be32 x ++ r) -> 0 <= x < 2 ^ 32 -> read32 fdt off = Some x.
Proof. intros E Hx. unfold read32. rewrite E. cbn [mbind option_bind]. by apply load_be32. Qed.

Lemma pad4_length bs : (4 | Z.of_nat (length (pad4 bs))) /\ Z.of_nat (length (pad4 bs)) = round_up (Z.of_nat (length bs)) 2.
Proof.
  assert (E : Z.of_nat (length (pad4 bs)) = round_up (Z.of_nat (length bs)) 2).
  { unfold pad4, round_up. rewrite length_app, length_replicate. change (2 ^ 2) with 4. dlia. }
  split; [rewrite E; apply (round_up_spec _ 2); lia | done].
Qed.

(** ** Tokens *)

Lemma name_off_spec ns n : n ∈ ns -> exists r, drop (Z.to_nat (name_off ns n)) (strings_block ns) = n ++ 0 :: r /\ 0 <= name_off ns n.
Proof.
  unfold strings_block. induction ns as [| m ns IH]; [by intros []%elem_of_nil |]. intros Hin. cbn [name_off mbind list_bind].
  case_decide as Hm; [subst m; exists (ns ≫= fun n => n ++ [0]); split; [by rewrite <- app_assoc | done] |].
  apply elem_of_cons in Hin as [-> | Hin]; [done |]. destruct (IH Hin) as (r & E & H0). exists r. split; [| lia].
  replace (Z.to_nat (Z.of_nat (length m) + 1 + name_off ns n)) with (length (m ++ [0%Z]) + Z.to_nat (name_off ns n))%nat by (rewrite length_app; cbn [length]; lia).
  rewrite <- drop_drop, drop_app_length. exact E.
Qed.

Section Tokens.
Context (names : list (list Z)) (fdt : fdt_blob).

(** Where the blob may be. *)
Record placed : Prop := {
  pl_align : (4 | fdt_ptr fdt);
  pl_base : 0 <= fdt_ptr fdt;
  pl_end : fdt_ptr fdt + Z.of_nat (length (fdt_bytes fdt)) + 4 <= 2 ^ 64;
  pl_size : Z.of_nat (length (fdt_bytes fdt)) < 2 ^ 31;
  pl_names : Z.of_nat (length (strings_block names)) < 2 ^ 31;
}.
Hypothesis Hpl : placed.

Lemma align4_spec off : 0 <= off <= Z.of_nat (length (fdt_bytes fdt)) -> align4 fdt off = round_up off 2.
Proof.
  destruct Hpl as [Ha Hb He _ _]. intros Ho. unfold align4. rewrite (u64_small (_ + off)) by lia.
  assert (E : align_up_ptr (fdt_ptr fdt + off) 4 = round_up (fdt_ptr fdt + off) 2).
  { apply (align_up_arith _ 2); change (2 ^ 2) with 4; lia. }
  rewrite E. assert (E' : round_up (fdt_ptr fdt + off) 2 = fdt_ptr fdt + round_up off 2).
  { destruct (round_up_spec off 2) as [Hd Hr]; [lia |]. apply round_up_unique; [lia | | lia]. by apply Z.divide_add_r. }
  rewrite E'. destruct (round_up_spec off 2) as [_ Hr]; [lia |]. change (2 ^ 2) with 4 in Hr. rewrite u64_small; lia.
Qed.

(** A property whose name is a string of the strings block. *)
Definition prop_ok (p : list Z * list Z) : Prop := p.1 ∈ names /\ is_str p.1.

(** The token at [off] ends at [off'], where [r] follows. *)
Definition next_at (off' : Z) (r : list Z) : Prop := at_ fdt off' = Some r /\ (4 | off').

Lemma begin_at off n r : next_at off (enc_begin n ++ r) -> is_str n ->
  let off' := off + Z.of_nat (length (enc_begin n)) in
  read32 fdt off = Some FDT_BEGIN_NODE /\
  (exists s, at_ fdt (off + 4) = Some s /\ strlen s = Some (Z.of_nat (length n)) /\ take (Z.to_nat (Z.of_nat (length n))) s = n) /\
  align4 fdt (off + 4 + Z.of_nat (length n) + 1) = off' /\ next_at off' r.
Proof.
  intros [E Hd] Hn off'. unfold enc_begin in E. rewrite <- app_assoc in E.
  pose proof (read32_be _ _ _ _ E ltac:(done)) as Hr. apply at_app in E as E1. change (off + Z.of_nat (length (be32 FDT_BEGIN_NODE))) with (off + 4) in E1.
  pose proof (at_app _ _ _ _ E1) as E2. destruct (pad4_length (n ++ [0])) as [Hd4 Hl].
  assert (Eo : off + 4 + Z.of_nat (length (pad4 (n ++ [0]))) = off') by (subst off'; unfold enc_begin; rewrite length_app, be32_length; lia).
  rewrite Eo in E2. split; [done |]. split; [| split].
  - eexists. split; [exact E1 |]. unfold pad4. rewrite <- !app_assoc. cbn [app]. split; [by apply strlen_spec |].
    rewrite Nat2Z.id. apply take_app_length.
  - pose proof (at_bound _ _ _ E1) as [Hb1 Hb2]. rewrite length_app in Hb2. unfold pad4 in Hb2 at 1. rewrite !length_app in Hb2. cbn [length] in Hb2.
    rewrite align4_spec by lia. rewrite length_app in Hl. cbn [length] in Hl. apply round_up_unique; [lia | |].
    + rewrite <- Eo. apply Z.divide_add_r; [| exact Hd4]. apply Z.divide_add_r; [exact Hd | by exists 1].
    + rewrite <- Eo, Hl. destruct (round_up_spec (Z.of_nat (length n + 1)) 2) as [_ ?]; lia.
  - split; [done |]. rewrite <- Eo. apply Z.divide_add_r; [| exact Hd4]. apply Z.divide_add_r; [exact Hd | by exists 1].
Qed.

Lemma prop_at off p r : next_at off (enc_prop names p ++ r) -> prop_ok p ->
  let off' := off + Z.of_nat (length (enc_prop names p)) in
  read32 fdt off = Some FDT_PROP /\ read32 fdt (off + 4) = Some (Z.of_nat (length p.2)) /\
  read32 fdt (off + 4 + 4) = Some (name_off names p.1) /\ (exists s, at_ fdt (off + 4 + 8) = Some (p.2 ++ s)) /\
  align4 fdt (off + 4 + 8 + Z.of_nat (length p.2)) = off' /\ next_at off' r.
Proof.
  intros [E Hd] [Hin Hstr] off'. unfold enc_prop in E. rewrite <- !app_assoc in E.
  assert (Hlen : Z.of_nat (length p.2) < 2 ^ 31).
  { pose proof (at_bound _ _ _ E) as [? Hb]. unfold pad4 in Hb. rewrite !length_app in Hb. pose proof (pl_size Hpl). lia. }
  assert (Hnm : 0 <= name_off names p.1 < 2 ^ 32).
  { destruct (name_off_spec names p.1 Hin) as (r' & E' & H0). pose proof (f_equal length E') as El. rewrite length_drop, length_app in El. cbn [length] in El.
    pose proof (pl_names Hpl). lia. }
  pose proof (read32_be _ _ _ _ E ltac:(done)) as Hr. apply at_app in E as E1. change (off + Z.of_nat (length (be32 FDT_PROP))) with (off + 4) in E1.
  pose proof (read32_be _ _ _ _ E1 ltac:(lia)) as Hr1. apply at_app in E1 as E2. rewrite be32_length in E2. change (Z.of_nat 4) with 4 in E2.
  pose proof (read32_be _ _ _ _ E2 Hnm) as Hr2. apply at_app in E2 as E3. rewrite be32_length in E3. change (Z.of_nat 4) with 4 in E3.
  replace (off + 4 + 4 + 4) with (off + 4 + 8) in E3 by lia. apply at_app in E3 as E4. destruct (pad4_length p.2) as [Hd4 Hl].
  assert (Eo : off + 4 + 8 + Z.of_nat (length (pad4 p.2)) = off') by (subst off'; unfold enc_prop; rewrite !length_app, !be32_length; lia).
  rewrite Eo in E4. assert (Hd8 : (4 | off + 4 + 8)) by (apply Z.divide_add_r; [apply Z.divide_add_r; [exact Hd | by exists 1] | by exists 2]).
  split_and!; try done.
  - unfold pad4 in E3. rewrite <- app_assoc in E3. by eexists.
  - pose proof (at_bound _ _ _ E3) as [Hb1 Hb2]. rewrite length_app in Hb2. unfold pad4 in Hb2 at 1. rewrite !length_app in Hb2.
    rewrite align4_spec by lia. apply round_up_unique; [lia | |].
    + rewrite <- Eo. by apply Z.divide_add_r.
    + rewrite <- Eo, Hl. destruct (round_up_spec (Z.of_nat (length p.2)) 2) as [_ ?]; lia.
  - split; [done |]. rewrite <- Eo. by apply Z.divide_add_r.
Qed.

Lemma next_skip off a r : next_at off (a ++ r) -> (4 | Z.of_nat (length a)) -> next_at (off + Z.of_nat (length a)) r.
Proof. intros [E Hd] Ha. split; [by apply at_app in E | by apply Z.divide_add_r]. Qed.

(** A token of one word. *)
Lemma word_at off x r : next_at off (be32 x ++ r) -> 0 <= x < 2 ^ 32 -> read32 fdt off = Some x /\ next_at (off + 4) r.
Proof.
  intros [E Hd] Hx. split; [by eapply read32_be |]. split; [exact (at_app _ _ _ _ E) |]. apply Z.divide_add_r; [exact Hd | by exists 1].
Qed.

End Tokens.

(** ** Paths *)

(** The components of a path, written with a '/' before each. *)
Definition flat (cs : list (list Z)) : list Z := cs ≫= fun c => 47 :: c.
Definition path_str (cs : list (list Z)) : list Z := match cs with [] => [47] | _ => flat cs end.

(** A component of a path names a node exactly or up to its unit address. *)
Fixpoint name_match (n p : list Z) : bool :=
  match n, p with
  | [], [] => true
  | c :: n, [] => c =? 64
  | c :: n, x :: p => (c =? x) && name_match n p
  | [], _ => false
  end.

Fixpoint comps_match (cs ps : list (list Z)) : bool :=
  match cs, ps with
  | [], [] => true
  | c :: cs, p :: ps => name_match c p && comps_match cs ps
  | _, _ => false
  end.

(** No NUL and no '/'. *)
Definition comp_ok (c : list Z) : Prop := Forall (fun x => x <> 0 /\ x <> 47) c.

(** [match_path] may also accept the path of an ancestor with a unit address. *)
Definition loose_match (cs ps : list (list Z)) (b : bool) : Prop :=
  (comps_match cs ps = true -> b = true) /\ (b = true -> exists q s, cs = q ++ s /\ comps_match q ps = true).

Lemma skip_unit_spec n r : comp_ok n -> head r = Some 0 \/ head r = Some 47 -> skip_unit (n ++ r) = Some r.
Proof.
  intros Hn Hr. induction n as [| c n IH]; cbn [app skip_unit].
  - destruct r as [| c r]; [by destruct Hr |]. cbn. by destruct Hr as [[= ->] | [= ->]].
  - apply Forall_cons in Hn as [[Hc0 Hc47] Hn]. destruct (Z.eqb_spec c 0), (Z.eqb_spec c 47); try done. by apply IH.
Qed.

Lemma match_path_0 fuel current r : match_path fuel current (0 :: r) = c ← head current; Some ((c =? 0) || (c =? 64)).
Proof. by destruct fuel. Qed.

Lemma flat_head cs : head (flat cs ++ [0]) = Some 0 \/ head (flat cs ++ [0]) = Some 47.
Proof. destruct cs; [by left | by right]. Qed.

(** One component, given how the rest is matched. *)
Lemma match_name cs ps r n p fuel : comp_ok n -> comp_ok p ->
  (forall fuel, (length (flat cs) + length (flat ps) <= fuel)%nat ->
     exists b, match_path fuel (flat cs ++ [0]) (flat ps ++ 0 :: r) = Some b /\ loose_match cs ps b) ->
  (length n + length p + length (flat cs) + length (flat ps) <= fuel)%nat ->
  exists b, match_path fuel (n ++ flat cs ++ [0]) (p ++ flat ps ++ 0 :: r) = Some b /\ loose_match (n :: cs) (p :: ps) b.
Proof.
  intros Hn Hp IH. revert n fuel Hn. induction p as [| x p IHp]; intros n fuel Hn Hf.
  - destruct n as [| c n].
    + destruct (IH fuel) as (b & E & H1 & H2); [simpl in Hf; lia |]. exists b. split; [exact E |]. split; [exact H1 |].
      intros (q & s & -> & Hq)%H2. by exists ([] :: q), s.
    + apply Forall_cons in Hn as [[Hc0 Hc47] Hn]. destruct ps as [| p' ps].
      * cbn [flat mbind list_bind app]. rewrite match_path_0. cbn [head mbind option_bind]. destruct (Z.eqb_spec c 0); [done |]. cbn [orb]. eexists. split; [reflexivity |].
        split; [cbn; by intros [? _]%andb_true_iff |]. intros Hc. exists [c :: n], cs. split; [done |]. cbn. by rewrite Hc.
      * destruct fuel as [| fuel]; [simpl in Hf; lia |]. cbn [flat mbind list_bind app match_path head option_bind].
        destruct (Z.eqb_spec c 47); [done |]. cbn [Z.eqb andb]. rewrite andb_true_r. destruct (Z.eqb_spec c 64) as [-> | Hc64].
        -- change (64 :: n ++ ?X) with ((64 :: n) ++ X). rewrite skip_unit_spec; [| by apply Forall_cons | apply flat_head]. cbn [mbind option_bind].
           destruct (IH fuel) as (b & E & H1 & H2); [cbn [length] in Hf; lia |]. exists b. split; [exact E |]. split; [exact H1 |].
           intros (q & s & -> & Hq)%H2. by exists ((64 :: n) :: q), s.
        -- exists false. split; [done |]. split; [| done]. cbn. by destruct (Z.eqb_spec c 64).
  - apply Forall_cons in Hp as [[Hx0 Hx47] Hp]. destruct fuel as [| fuel]; [simpl in Hf; lia |].
    destruct n as [| c n]; cbn [app match_path head mbind option_bind].
    + destruct (Z.eqb_spec x 0), (Z.eqb_spec x 47); try done.
      destruct (flat_head cs) as [E | E]; rewrite E; cbn [mbind option_bind]; [destruct (Z.eqb_spec 0 x) | destruct (Z.eqb_spec 47 x)];
        try congruence; exists false; (split; [done | by split]).
    + apply Forall_cons in Hn as [_ Hn]. destruct (Z.eqb_spec x 0), (Z.eqb_spec x 47); try done. rewrite andb_false_r.
      destruct (Z.eqb_spec c x) as [-> | Hne]; cbn [tail].
      * destruct (IHp Hp n fuel Hn) as (b & E & H1 & H2); [simpl in Hf; lia |]. exists b. split; [exact E |].
        unfold loose_match in *. cbn [comps_match name_match] in *. rewrite Z.eqb_refl. split; [exact H1 |].
        intros (q & s & Eq & Hq)%H2. destruct q as [| n' q]; [done |]. injection Eq as <- ->. exists ((x :: n) :: q), s. split; [done |]. cbn. by rewrite Z.eqb_refl.
      * exists false. split; [done |]. split; [| done]. cbn. by destruct (Z.eqb_spec c x).
Qed.

Lemma match_flat cs ps r : Forall comp_ok cs -> Forall comp_ok ps -> forall fuel, (length (flat cs) + length (flat ps) <= fuel)%nat ->
  exists b, match_path fuel (flat cs ++ [0]) (flat ps ++ 0 :: r) = Some b /\ loose_match cs ps b.
Proof.
  intros Hcs Hps. revert cs Hcs. induction Hps as [| p ps Hp Hps IH]; intros cs Hcs fuel Hf.
  - cbn [flat mbind list_bind app]. rewrite match_path_0. destruct cs as [| c cs]; cbn [flat mbind list_bind app head option_bind].
    + exists true. split; [done |]. split; [done |]. by exists [], [].
    + exists false. by split.
  - destruct cs as [| c cs].
    + destruct fuel as [| fuel]; [cbn in Hf; lia |]. exists false. by split.
    + apply Forall_cons in Hcs as [Hc Hcs]. cbn [flat mbind list_bind length] in Hf. rewrite !length_app in Hf.
      destruct fuel as [| fuel]; [cbn in Hf; lia |]. cbn [flat mbind list_bind app match_path head option_bind Z.eqb Pos.eqb tail]. rewrite <- !app_assoc.
      apply match_name; [done | done | by apply IH |]. cbn [length] in Hf. unfold flat. cbn in *. lia.
Qed.

Lemma dnode_ind' (P : dnode -> Prop) : (forall n ps ks, Forall P ks -> P (DNode n ps ks)) -> forall t, P t.
Proof.
  intros Hp. fix IH 1. intros [n ps ks]. apply Hp. induction ks as [| k ks IHk]; constructor; [apply IH | exact IHk].
Qed.

Lemma push_root name : push_name [] name = Some (path_str []).
Proof. done. Qed.

Lemma push_path own name : Forall (fun c => c <> []) own -> Z.of_nat (length (path_str (own ++ [name]))) < PATH_BUF ->
  push_name (path_str own) name = Some (path_str (own ++ [name])).
Proof.
  intros Hne Hl. assert (E : path_str (own ++ [name]) = flat (own ++ [name])) by (by destruct own). rewrite E in *. clear E.
  unfold flat in *. rewrite bind_app in *. cbn [mbind list_bind] in *. rewrite app_nil_r in *. destruct own as [| c own].
  - change (push_name (path_str []) name) with (if PATH_BUF <? 1 + Z.of_nat (length name) + 1 then None else Some (47 :: name)).
    cbn [mbind list_bind app length] in *. destruct (Z.ltb_spec PATH_BUF (1 + Z.of_nat (length name) + 1)); [lia | done].
  - cbn [path_str]. apply Forall_cons in Hne as [Hc _]. unfold push_name, flat. set (cur := (c :: own) ≫= _) in *.
    assert (Hlen : 1 < Z.of_nat (length cur)) by (subst cur; cbn [mbind list_bind app length]; destruct c; [done | rewrite length_app; cbn [length]; lia]).
    destruct cur as [| x cur'] eqn:Ec; [cbn in Hlen; lia |]. rewrite <- Ec in *. clearbody cur.
    destruct (Z.ltb_spec 1 (Z.of_nat (length cur))); [| lia]. rewrite !length_app in *. cbn [length] in *.
    destruct (Z.ltb_spec PATH_BUF (Z.of_nat (length cur + 1) + Z.of_nat (length name) + 1)); [lia |]. by rewrite <- app_assoc.
Qed.

Lemma drop_name_app n r : Forall (fun x => x <> 47) n -> drop_name (n ++ 47 :: r) = 47 :: r.
Proof. induction 1 as [| c n Hc _ IH]; cbn [app drop_name]; [done |]. by destruct (Z.eqb_spec c 47). Qed.

Lemma pop_path own name : comp_ok name -> name <> [] -> Forall (fun c => c <> []) own -> pop_name (path_str (own ++ [name])) = path_str own.
Proof.
  intros Hn Hne Hown. assert (E : path_str (own ++ [name]) = flat own ++ 47 :: name).
  { transitivity (flat (own ++ [name])); [by destruct own |]. unfold flat. rewrite bind_app. cbn [mbind list_bind]. by rewrite app_nil_r. }
  rewrite E. unfold pop_name. rewrite length_app. cbn [length]. destruct name as [| x name]; [done |].
  destruct (Z.leb_spec (Z.of_nat (length (flat own) + S (length (x :: name)))) 1); [cbn [length] in *; lia |].
  rewrite reverse_app, reverse_cons, <- app_assoc. cbn [app]. rewrite drop_name_app.
  2: { apply Forall_reverse. eapply Forall_impl; [exact Hn |]. by intros y [_ ?]. }
  cbn [length tail]. rewrite length_reverse. destruct own as [| c own].
  - done.
  - cbn [path_str]. destruct (Z.ltb_spec 1 (Z.of_nat (S (length (flat (c :: own)))))); [by rewrite reverse_involutive | cbn [flat mbind list_bind app length] in *; lia].
Qed.

(** ** Walking the tree *)

Lemma find_app {A} (f : A -> bool) l1 l2 : List.find f (l1 ++ l2) = match List.find f l1 with Some x => Some x | None => List.find f l2 end.
Proof. induction l1 as [| x l1 IH]; cbn; [done |]. by destruct (f x). Qed.

Section Walk.
Context (names : list (list Z)) (fdt : fdt_blob).
Hypothesis Hpl : placed names fdt.

Inductive node_ok : list (list Z) -> dnode -> Prop :=
  node_ok_intro own n ps ks : Z.of_nat (length (path_str own)) < PATH_BUF -> is_str n -> Forall (prop_ok names) ps ->
    Forall (fun k => comp_ok (d_name k) /\ d_name k <> [] /\ node_ok (own ++ [d_name k]) k) ks -> node_ok own (DNode n ps ks).

Definition node_size (t : dnode) : Z := Z.of_nat (length (enc_node names t)).
Definition head_size (t : dnode) : Z := Z.of_nat (length (enc_begin (d_name t) ++ enc_props names (d_props t))).

(** The nodes in the order of the blob: path, offset and node. *)
Fixpoint nodes (own : list (list Z)) (off : Z) (t : dnode) {struct t} : list (list (list Z) * Z * dnode) :=
  match t with
  | DNode n ps ks =>
      (own, off, t) ::
      (fix kids off ks := match ks with [] => [] | k :: ks => nodes (own ++ [d_name k]) off k ++ kids (off + node_size k) ks end)
        (off + head_size t) ks
  end.

Fixpoint kids_nodes (own : list (list Z)) (off : Z) (ks : list dnode) : list (list (list Z) * Z * dnode) :=
  match ks with [] => [] | k :: ks => nodes (own ++ [d_name k]) off k ++ kids_nodes own (off + node_size k) ks end.

Lemma nodes_eq own off t : nodes own off t = (own, off, t) :: kids_nodes own (off + head_size t) (d_kids t).
Proof.
  destruct t as [n ps ks]. cbn [nodes d_kids]. f_equal. generalize (off + head_size (DNode n ps ks)). induction ks as [| k ks IH]; intros o; cbn [kids_nodes]; [done |].
  by rewrite IH.
Qed.

(** The number of tokens. *)
Fixpoint ntok (t : dnode) : nat := match t with DNode n ps ks => (2 + length ps + list_sum (map ntok ks))%nat end.

Lemma props_length ps : (length ps <= length (enc_props names ps))%nat.
Proof.
  induction ps as [| p ps IH]; [done |]. unfold enc_props in *. cbn [mbind list_bind length]. rewrite length_app.
  assert (1 <= length (enc_prop names p))%nat by (unfold enc_prop; rewrite length_app, be32_length; lia). lia.
Qed.

Lemma enc_props_align pl : (4 | Z.of_nat (length (enc_props names pl))).
Proof.
  induction pl as [| p pl IH]; [by exists 0 |]. unfold enc_props in *. cbn [mbind list_bind]. rewrite length_app, Nat2Z.inj_add. apply Z.divide_add_r; [| done].
  unfold enc_prop. rewrite !length_app, !be32_length, !Nat2Z.inj_add. destruct (pad4_length p.2) as [? _].
  repeat (apply Z.divide_add_r; [by exists 1 |]). done.
Qed.

Lemma enc_node_align t : (4 | Z.of_nat (length (enc_node names t))).
Proof.
  induction t as [n pl ks IH] using dnode_ind'. cbn [enc_node]. rewrite !length_app, be32_length, !Nat2Z.inj_add.
  repeat apply Z.divide_add_r; [| apply enc_props_align | | by exists 1].
  - unfold enc_begin. rewrite length_app, be32_length, Nat2Z.inj_add. apply Z.divide_add_r; [by exists 1 | apply pad4_length].
  - induction IH as [| k ks Hk _ IHk]; cbn [map concat]; [by exists 0 |]. rewrite length_app, Nat2Z.inj_add. by apply Z.divide_add_r.
Qed.

Lemma ntok_length t : (ntok t <= length (enc_node names t))%nat.
Proof.
  induction t as [n ps ks IH] using dnode_ind'. cbn [ntok enc_node]. rewrite !length_app. unfold enc_begin. rewrite length_app, !be32_length.
  pose proof (props_length ps). assert (list_sum (map ntok ks) <= length (concat (map (enc_node names) ks)))%nat; [| lia].
  induction IH as [| k ks Hk _ IHk]; cbn [map concat length]; [done |]. rewrite length_app.
  change (list_sum (ntok k :: map ntok ks)) with (ntok k + list_sum (map ntok ks))%nat. lia.
Qed.

(** The walk looks for the nodes [hit] accepts. *)
Context (ps : list (list Z)) (rest : list Z).
Hypothesis Hps : Forall (fun p => comp_ok p /\ p <> []) ps.

Definition hit (own : list (list Z)) : bool :=
  default false (match_path (length (path_str own) + length (path_str ps ++ 0 :: rest)) (path_str own ++ [0]) (path_str ps ++ 0 :: rest)).

Lemma match_spec own : Forall comp_ok own -> exists b,
  match_path (length (path_str own) + length (path_str ps ++ 0 :: rest)) (path_str own ++ [0]) (path_str ps ++ 0 :: rest) = Some b /\ loose_match own ps b.
Proof.
  intros Ho. destruct own as [| c own], ps as [| p ps'].
  - exists true. split; [done |]. split; [done |]. intros _. by exists [], [].
  - apply Forall_cons in Hps as [[Hp Hne] _]. destruct p as [| x p]; [done |]. apply Forall_cons in Hp as [[Hx0 Hx47] _].
    exists false. split; [| by split]. cbn. destruct x as [| x | x]; [done | | done]. done.
  - assert (Hh : exists x, head (flat (c :: own) ++ [0]) = Some 47 /\ head (tail (flat (c :: own) ++ [0])) = Some x).
    { destruct c as [| x c]; [| by exists x]. destruct own; by eexists. }
    destruct Hh as (x & H1 & H2). exists ((x =? 0) || (x =? 64)). split.
    + cbn [path_str app length Nat.add]. rewrite Nat.add_comm. cbn [Nat.add match_path head mbind option_bind Z.eqb Pos.eqb tail].
      rewrite H1. cbn [mbind option_bind Z.eqb Pos.eqb]. rewrite H2. done.
    + split; [done |]. intros _. by exists [], (c :: own).
  - cbn [path_str]. apply match_flat; [done | | rewrite length_app; lia]. eapply Forall_impl; [exact Hps |]. by intros y [? _].
Qed.

Lemma hit_spec own : Forall comp_ok own ->
  match_path (length (path_str own) + length (path_str ps ++ 0 :: rest)) (path_str own ++ [0]) (path_str ps ++ 0 :: rest) = Some (hit own) /\
  loose_match own ps (hit own).
Proof. intros Ho. unfold hit. by destruct (match_spec own Ho) as (b & -> & Hb). Qed.

Notation target := (path_str ps ++ 0 :: rest).

Lemma path_loop_begin fuel off n r cur own : next_at fdt off (enc_begin n ++ r) -> is_str n -> push_name cur n = Some (path_str own) ->
  Forall comp_ok own ->
  path_loop (S fuel) fdt off cur target =
    (if hit own then Some (i32 off) else path_loop fuel fdt (off + Z.of_nat (length (enc_begin n))) (path_str own) target) /\
  next_at fdt (off + Z.of_nat (length (enc_begin n))) r.
Proof.
  intros Ha Hn Hpush Hown. destruct (begin_at names fdt Hpl off n r Ha Hn) as (Hr & (s & Es & El & Et) & Hal & Hnx). split; [| done].
  cbn [path_loop]. rewrite Hr. cbn [mbind option_bind]. change (FDT_BEGIN_NODE =? FDT_BEGIN_NODE) with true. cbv iota.
  rewrite Es. cbn [mbind option_bind]. rewrite El. cbn [mbind option_bind]. rewrite Et, Hpush. cbn [mbind option_bind].
  rewrite (proj1 (hit_spec own Hown)). cbn [mbind option_bind]. by rewrite Hal.
Qed.

Lemma path_loop_props pl : forall fuel off r cur, next_at fdt off (enc_props names pl ++ r) -> Forall (prop_ok names) pl ->
  path_loop (length pl + fuel) fdt off cur target = path_loop fuel fdt (off + Z.of_nat (length (enc_props names pl))) cur target /\
  next_at fdt (off + Z.of_nat (length (enc_props names pl))) r.
Proof.
  induction pl as [| p pl IH]; intros fuel off r cur Ha Hok.
  - cbn [enc_props mbind list_bind length Nat.add] in *. by rewrite Z.add_0_r.
  - apply Forall_cons in Hok as [Hp Hok]. unfold enc_props in *. cbn [mbind list_bind] in *. rewrite <- app_assoc in Ha.
    destruct (prop_at names fdt Hpl off p _ Ha Hp) as (Hr & Hl & _ & _ & Hal & Hnx). rewrite length_app.
    replace (off + Z.of_nat (length (enc_prop names p) + length (pl ≫= enc_prop names)))
      with (off + Z.of_nat (length (enc_prop names p)) + Z.of_nat (length (pl ≫= enc_prop names))) by lia.
    destruct (IH fuel _ r cur Hnx Hok) as [<- ?]. split; [| done]. cbn [length Nat.add path_loop]. rewrite Hr. cbn [mbind option_bind].
    change (FDT_PROP =? FDT_BEGIN_NODE) with false. change (FDT_PROP =? FDT_END_NODE) with false. change (FDT_PROP =? FDT_PROP) with true. cbv iota.
    rewrite Hl. cbn [mbind option_bind]. by rewrite Hal.
Qed.

Lemma path_loop_end fuel off r cur : next_at fdt off (be32 FDT_END_NODE ++ r) ->
  path_loop (S fuel) fdt off cur target = path_loop fuel fdt (off + 4) (pop_name cur) target /\ next_at fdt (off + 4) r.
Proof. intros Ha. destruct (word_at fdt off FDT_END_NODE r Ha ltac:(done)) as [Hr Hnx]. split; [| done]. cbn [path_loop]. by rewrite Hr. Qed.

Notation found l := (List.find (fun e => hit e.1.1) l).

Definition walks (t : dnode) : Prop := forall own off r fuel cur, node_ok own t -> Forall (fun c => comp_ok c /\ c <> []) own ->
  push_name cur (d_name t) = Some (path_str own) -> next_at fdt off (enc_node names t ++ r) ->
  path_loop (ntok t + fuel) fdt off cur target =
    match found (nodes own off t) with
    | Some e => Some (i32 e.1.2)
    | None => path_loop fuel fdt (off + node_size t) (pop_name (path_str own)) target
    end /\ next_at fdt (off + node_size t) r.

Lemma kids_walk ks : Forall walks ks -> forall own off r fuel,
  Forall (fun k => comp_ok (d_name k) /\ d_name k <> [] /\ node_ok (own ++ [d_name k]) k) ks -> Forall (fun c => comp_ok c /\ c <> []) own ->
  next_at fdt off (concat (map (enc_node names) ks) ++ r) ->
  path_loop (list_sum (map ntok ks) + fuel) fdt off (path_str own) target =
    match found (kids_nodes own off ks) with
    | Some e => Some (i32 e.1.2)
    | None => path_loop fuel fdt (off + Z.of_nat (length (concat (map (enc_node names) ks)))) (path_str own) target
    end /\ next_at fdt (off + Z.of_nat (length (concat (map (enc_node names) ks)))) r.
Proof.
  induction 1 as [| k ks Hk _ IH]; intros own off r fuel Hok Hown Ha.
  - cbn. rewrite Z.add_0_r. by split.
  - apply Forall_cons in Hok as [(Hc & Hne & Hnk) Hok]. cbn [map concat] in *. rewrite <- app_assoc in Ha.
    assert (Hown' : Forall (fun c => comp_ok c /\ c <> []) (own ++ [d_name k])) by (apply Forall_app; split; [done |]; by apply Forall_singleton).
    assert (Hne' : Forall (fun c : list Z => c <> []) own) by (eapply Forall_impl; [exact Hown |]; by intros y [_ ?]).
    change (list_sum (ntok k :: map ntok ks)) with (ntok k + list_sum (map ntok ks))%nat. rewrite <- Nat.add_assoc.
    destruct (Hk (own ++ [d_name k]) off (concat (map (enc_node names) ks) ++ r) (list_sum (map ntok ks) + fuel)%nat (path_str own) Hnk Hown') as [E Hnx]; [| exact Ha |].
    { apply push_path; [done |]. by inversion Hnk. }
    destruct (IH own (off + node_size k) r fuel Hok Hown Hnx) as [E' Hnx'].
    rewrite length_app. replace (off + Z.of_nat (length (enc_node names k) + length (concat (map (enc_node names) ks))))
      with (off + node_size k + Z.of_nat (length (concat (map (enc_node names) ks)))) by (unfold node_size; lia).
    split; [| done]. rewrite E. cbn [kids_nodes]. rewrite find_app. destruct (found (nodes _ _ k)); [done |]. by rewrite pop_path, E'.
Qed.

Lemma node_walks t : walks t.
Proof.
  induction t as [n pl ks IH] using dnode_ind'. intros own off r fuel cur Hok Hown Hpush Ha. inversion Hok as [? ? ? ? Hlen Hn Hpl' Hks]; subst.
  cbn [enc_node] in Ha. rewrite <- !app_assoc in Ha. cbn [d_name] in Hpush.
  assert (Hc : Forall comp_ok own) by (eapply Forall_impl; [exact Hown |]; by intros y [? _]).
  destruct (path_loop_begin (length pl + (list_sum (map ntok ks) + S fuel)) off n _ cur own Ha Hn Hpush Hc) as [E1 Hn1].
  destruct (path_loop_props pl (list_sum (map ntok ks) + S fuel) _ _ (path_str own) Hn1 Hpl') as [E2 Hn2].
  destruct (kids_walk ks IH own _ _ (S fuel) Hks Hown Hn2) as [E3 Hn3].
  destruct (path_loop_end fuel _ r (path_str own) Hn3) as [E4 Hn4].
  assert (Es : off + node_size (DNode n pl ks) = off + Z.of_nat (length (enc_begin n)) + Z.of_nat (length (enc_props names pl)) +
    Z.of_nat (length (concat (map (enc_node names) ks))) + 4).
  { unfold node_size. cbn [enc_node]. rewrite !length_app, be32_length. lia. }
  rewrite Es. split; [| done]. rewrite nodes_eq. cbn [List.find fst snd d_kids].
  replace (ntok (DNode n pl ks) + fuel)%nat with (S (length pl + (list_sum (map ntok ks) + S fuel))) by (cbn [ntok]; lia).
  rewrite E1. destruct (hit own); [done |]. rewrite E2, E3, E4. unfold head_size. cbn [d_name d_props]. rewrite length_app, Nat2Z.inj_add, Z.add_assoc. done.
Qed.

(** The first node the components of the path name. *)
Definition lookup_node (t : dnode) (off : Z) (ps : list (list Z)) : option (list (list Z) * Z * dnode) :=
  List.find (fun e => comps_match e.1.1 ps) (nodes [] off t).

Lemma hit_strict t : forall own off, node_ok own t -> Forall comp_ok own ->
  (forall q s, own = q ++ s -> s <> [] -> comps_match q ps = false) ->
  found (nodes own off t) = List.find (fun e => comps_match e.1.1 ps) (nodes own off t).
Proof.
  induction t as [n pl ks IH] using dnode_ind'. intros own off Hok Hown Hpre. inversion Hok as [? ? ? ? _ _ _ Hks]; subst.
  rewrite nodes_eq. cbn [List.find fst snd d_kids]. destruct (hit_spec own Hown) as [_ [H1 H2]].
  destruct (comps_match own ps) eqn:E; [by rewrite H1 |].
  destruct (hit own); [destruct (H2 eq_refl) as (q & s & Eq & Hq); destruct s as [| x s]; [rewrite app_nil_r in Eq; congruence | by rewrite (Hpre q (x :: s)) in Hq] |].
  clear H1 H2. generalize (off + head_size (DNode n pl ks)). induction IH as [| k ks Hk _ IHk]; intros o; [done |].
  apply Forall_cons in Hks as [(Hc & _ & Hnk) Hks]. cbn [kids_nodes]. rewrite !find_app, Hk.
  - destruct (List.find _ (nodes (own ++ [d_name k]) o k)); [done |]. apply IHk; [| done]. by inversion Hok; constructor.
  - done.
  - apply Forall_app. split; [done |]. by apply Forall_singleton.
  - intros q s Eq Hs. destruct (exists_last Hs) as (s' & x & ->). rewrite app_assoc in Eq. apply app_inj_tail in Eq as [-> _].
    destruct s' as [| y s']; [by rewrite app_nil_r in E |]. by apply (Hpre q (y :: s')).
Qed.

Lemma path_loop_tree t off r fuel : node_ok [] t -> next_at fdt off (enc_node names t ++ be32 FDT_END ++ r) -> (ntok t < fuel)%nat ->
  path_loop fuel fdt off [] target = Some (match lookup_node t off ps with Some e => i32 e.1.2 | None => -1 end).
Proof.
  intros Hok Ha Hf. replace fuel with (ntok t + S (fuel - ntok t - 1))%nat by lia.
  destruct (node_walks t [] off _ (S (fuel - ntok t - 1)) [] Hok ltac:(constructor) eq_refl Ha) as [-> Hnx].
  rewrite (hit_strict t) by (try done; by intros [] [] ?). unfold lookup_node. destruct (List.find _ _); [done |].
  destruct (word_at fdt _ FDT_END r Hnx ltac:(done)) as [Hr _]. cbn [path_loop]. by rewrite Hr.
Qed.

(** ** Properties of a node *)

(** The first property of that name: where its value is, and the value. *)
Fixpoint lookup_prop (pl : list (list Z * list Z)) (off : Z) (name : list Z) : option (Z * list Z) :=
  match pl with
  | [] => None
  | p :: pl => if decide (p.1 = name) then Some (off + 12, p.2) else lookup_prop pl (off + Z.of_nat (length (enc_prop names p))) name
  end.

Context (strings : Z) (tl : list Z).
Hypothesis Hstrings : at_ fdt strings = Some (strings_block names ++ tl).

Lemma prop_name_at n : n ∈ names -> exists r, at_ fdt (strings + name_off names n) = Some (n ++ 0 :: r).
Proof.
  intros Hn. destruct (name_off_spec names n Hn) as (r & E & H0). rewrite <- (take_drop (Z.to_nat (name_off names n)) (strings_block names)), E, <- app_assoc in Hstrings.
  apply at_app in Hstrings. pose proof (f_equal length E) as El. rewrite length_drop, length_app in El. cbn [length] in El.
  rewrite length_take_le in Hstrings by lia. rewrite Z2Nat.id in Hstrings by lia. exists (r ++ tl). by rewrite Hstrings, <- app_assoc.
Qed.

(** The token that follows the properties. *)
Definition stops (r : list Z) : Prop := exists x r', r = be32 x ++ r' /\ (x = FDT_BEGIN_NODE \/ x = FDT_END_NODE).

Lemma prop_loop_spec pl name nrest : is_str name -> forall fuel off r, next_at fdt off (enc_props names pl ++ r) -> Forall (prop_ok names) pl ->
  stops r -> (length pl < fuel)%nat ->
  prop_loop fuel fdt strings off (name ++ 0 :: nrest) = Some ((fun v => (v.1, i32 (Z.of_nat (length v.2)))) <$> lookup_prop pl off name) /\
  forall p v, lookup_prop pl off name = Some (p, v) -> exists s, at_ fdt p = Some (v ++ s).
Proof.
  intros Hname. induction pl as [| p pl IH]; intros fuel off r Ha Hok Hst Hf; (destruct fuel as [| fuel]; [lia |]); cbn [prop_loop].
  - destruct Hst as (x & r' & -> & Hx). cbn [enc_props mbind list_bind app] in Ha.
    destruct (word_at fdt off x r' Ha) as [-> _]; [by destruct Hx as [-> | ->] |]. cbn [mbind option_bind]. split; [by destruct Hx as [-> | ->] | done].
  - apply Forall_cons in Hok as [Hp Hok]. unfold enc_props in *. cbn [mbind list_bind] in Ha. rewrite <- app_assoc in Ha.
    destruct (prop_at names fdt Hpl off p _ Ha Hp) as (Hr & Hl & Hnm & (s & Es) & Hal & Hnx). rewrite Hr. cbn [mbind option_bind].
    change (FDT_PROP =? FDT_PROP) with true. cbv iota. rewrite Hl, Hnm. cbn [mbind option_bind].
    destruct Hp as [Hin Hstr]. destruct (prop_name_at p.1 Hin) as (r1 & ->). cbn [mbind option_bind].
    destruct (strcmp_spec p.1 name r1 nrest Hstr Hname) as (z & Ez & Hz). unfold cstr in Ez. rewrite Ez. cbn [mbind option_bind lookup_prop].
    replace (off + 4 + 8) with (off + 12) in * by lia. destruct (decide (p.1 = name)) as [En | En].
    + apply Hz in En. rewrite En. change (0 =? 0) with true. cbv iota. split; [done |]. intros q v [= <- <-]. by eexists.
    + destruct (Z.eqb_spec z 0) as [Ez0 | _]; [by apply Hz in Ez0 |]. rewrite Hal. apply (IH fuel _ r Hnx Hok Hst). cbn [length] in Hf. lia.
Qed.

(** Every node lies where [nodes] says. *)
Lemma nodes_at t : forall own off r, node_ok own t -> next_at fdt off (enc_node names t ++ r) ->
  forall e, e ∈ nodes own off t -> node_ok e.1.1 e.2 /\ exists r', next_at fdt e.1.2 (enc_node names e.2 ++ r').
Proof.
  induction t as [n pl ks IH] using dnode_ind'. intros own off r Hok Ha e He. rewrite nodes_eq in He. apply elem_of_cons in He as [-> | He]; [by split; [| exists r] |].
  inversion Hok as [? ? ? ? _ Hn Hpl' Hks]; subst. cbn [enc_node d_kids] in *. rewrite <- !app_assoc in Ha.
  destruct (begin_at names fdt Hpl off n _ Ha Hn) as (_ & _ & _ & Hn1). pose proof (next_skip fdt _ _ _ Hn1 (enc_props_align pl)) as Hn2.
  replace (off + head_size (DNode n pl ks)) with (off + Z.of_nat (length (enc_begin n)) + Z.of_nat (length (enc_props names pl))) in He
    by (unfold head_size; cbn [d_name d_props]; rewrite length_app; lia).
  revert Hn2 He. generalize (off + Z.of_nat (length (enc_begin n)) + Z.of_nat (length (enc_props names pl))). clear Ha Hn1 Hok.
  induction IH as [| k ks Hk _ IHk]; intros o Hn2 He; [by apply elem_of_nil in He |].
  apply Forall_cons in Hks as [(_ & _ & Hnk) Hks]. cbn [map concat kids_nodes] in *. rewrite <- app_assoc in Hn2.
  apply elem_of_app in He as [He | He]; [by apply (Hk _ _ _ Hnk Hn2) |].
  apply (IHk Hks (o + node_size k)); [| done]. apply (next_skip fdt); [done | apply enc_node_align].
Qed.

Lemma fdt_getprop_node own off t r name nrest : node_ok own t -> next_at fdt off (enc_node names t ++ r) -> is_str name ->
  read32 fdt h_off_dt_strings = Some strings ->
  fdt_getprop fdt off (name ++ 0 :: nrest) =
    Some ((fun v => (v.1, i32 (Z.of_nat (length v.2)))) <$> lookup_prop (d_props t) (off + Z.of_nat (length (enc_begin (d_name t)))) name) /\
  forall p v, lookup_prop (d_props t) (off + Z.of_nat (length (enc_begin (d_name t)))) name = Some (p, v) -> exists s, at_ fdt p = Some (v ++ s).
Proof.
  intros Hok Ha Hname Hs. inversion Hok as [? n pl ks _ Hn Hpl' Hks]; subst. cbn [enc_node d_props d_name] in *. rewrite <- !app_assoc in Ha.
  destruct (begin_at names fdt Hpl off n _ Ha Hn) as (Hr & (s & Es & El & _) & Hal & Hn1). unfold fdt_getprop, skip_name, str_at.
  rewrite Hs. cbn [mbind option_bind]. rewrite Hr. cbn [mbind option_bind]. change (FDT_BEGIN_NODE =? FDT_BEGIN_NODE) with true. cbn [negb].
  rewrite Es. cbn [mbind option_bind]. rewrite El. cbn [mbind option_bind]. rewrite Hal. eapply prop_loop_spec; [done | exact Hn1 | done | |].
  - destruct ks as [| [m ? ?] ks].
    + exists FDT_END_NODE, r. split; [done | by right].
    + eexists FDT_BEGIN_NODE, _. split; [| by left]. cbn [map concat enc_node]. unfold enc_begin. rewrite <- !app_assoc. reflexivity.
  - destruct Hn1 as [E _]. apply at_bound in E as [? Hb]. rewrite length_app in Hb. pose proof (props_length pl). unfold fdt_fuel. lia.
Qed.

End Walk.

(** ** The blob *)

(** A tree whose blob fits where it is put. *)
Record image_ok (names : list (list Z)) (base : Z) (t : dnode) : Prop := {
  im_tree : node_ok names [] t;
  im_align : (4 | base);
  im_base : 0 <= base;
  im_end : base + Z.of_nat (length (fdt_bytes (image names base t))) + 4 <= 2 ^ 64;
  im_size : Z.of_nat (length (fdt_bytes (image names base t))) < 2 ^ 31;
}.

Section Image.
Context (names : list (list Z)) (base : Z) (t : dnode).
Hypothesis Him : image_ok names base t.
Notation fdt := (image names base t).
Notation slen := (Z.of_nat (length (struct_block names t))).

Lemma image_length : Z.of_nat (length (fdt_bytes fdt)) = 40 + slen + Z.of_nat (length (strings_block names)).
Proof. cbn [image fdt_bytes]. rewrite !length_app, !be32_length, length_replicate. lia. Qed.

Lemma image_placed : placed names fdt.
Proof. pose proof image_length. destruct Him. split; [done | done | done | done | lia]. Qed.

Lemma image_header : read32 fdt h_magic = Some FDT_MAGIC /\ read32 fdt h_totalsize = Some (Z.of_nat (length (fdt_bytes fdt))) /\
  read32 fdt h_off_dt_struct = Some 40 /\ read32 fdt h_off_dt_strings = Some (40 + slen) /\
  next_at fdt 40 (enc_node names t ++ be32 FDT_END ++ strings_block names) /\ at_ fdt (40 + slen) = Some (strings_block names ++ []).
Proof.
  pose proof image_length as Hl. pose proof (im_size _ _ _ Him) as Hs.
  assert (E0 : at_ fdt 0 = Some (fdt_bytes fdt)) by (unfold at_; destruct (Z.ltb_spec (Z.of_nat (length (fdt_bytes fdt))) 0); [lia | done]).
  cbn [image fdt_bytes] in E0. pose proof (read32_be _ _ _ _ E0 ltac:(done)) as H0. apply at_app in E0.
  change (0 + Z.of_nat (length (be32 FDT_MAGIC))) with 4 in E0. rewrite <- Hl in E0. pose proof (read32_be _ _ _ _ E0 ltac:(lia)) as H4.
  apply at_app in E0. rewrite be32_length in E0. change (4 + Z.of_nat 4) with 8 in E0. pose proof (read32_be _ _ _ _ E0 ltac:(done)) as H8.
  apply at_app in E0. rewrite be32_length in E0. change (8 + Z.of_nat 4) with 12 in E0. pose proof (read32_be _ _ _ _ E0 ltac:(lia)) as H12.
  apply at_app in E0. rewrite be32_length in E0. apply at_app in E0. rewrite length_replicate in E0. change (12 + Z.of_nat 4 + Z.of_nat 24) with 40 in E0.
  pose proof (at_app _ _ _ _ E0) as Es. split_and!; try done.
  - split; [| by exists 10]. unfold struct_block in E0. by rewrite <- app_assoc in E0.
  - by rewrite app_nil_r.
Qed.

Lemma image_path ps rest : Forall (fun p => comp_ok p /\ p <> []) ps ->
  fdt_path_offset fdt (path_str ps ++ 0 :: rest) = Some (match lookup_node names t 40 ps with Some e => e.1.2 | None => -1 end) /\
  forall e, lookup_node names t 40 ps = Some e -> 0 <= e.1.2 < 2 ^ 31 /\ comps_match e.1.1 ps = true /\ node_ok names e.1.1 e.2 /\
    exists r, next_at fdt e.1.2 (enc_node names e.2 ++ r).
Proof.
  intros Hps. destruct image_header as (Hm & _ & Ho & _ & Hn & _).
  assert (Hall : forall e, lookup_node names t 40 ps = Some e -> 0 <= e.1.2 < 2 ^ 31 /\ comps_match e.1.1 ps = true /\ node_ok names e.1.1 e.2 /\
    exists r, next_at fdt e.1.2 (enc_node names e.2 ++ r)).
  { intros e He. unfold lookup_node in He. apply List.find_some in He as [Hin Hm']. apply list_elem_of_In in Hin.
    destruct (nodes_at names fdt image_placed t [] 40 _ (im_tree _ _ _ Him) Hn e Hin) as [Hok (r & Hr)].
    destruct Hr as [Ea Hd]. pose proof (at_bound _ _ _ Ea). pose proof (im_size _ _ _ Him). split_and!; [lia | lia | done | done |]. by exists r. }
  split; [| exact Hall]. unfold fdt_path_offset. rewrite Hm, Ho. cbn [mbind option_bind]. change (FDT_MAGIC =? FDT_MAGIC) with true. cbn [negb].
  rewrite (path_loop_tree names fdt image_placed ps rest Hps t 40 _ _ (im_tree _ _ _ Him) Hn).
  - destruct (lookup_node names t 40 ps) as [e |]; [| done]. destruct (Hall e eq_refl) as (? & _). by rewrite i32_small by lia.
  - unfold fdt_fuel. pose proof (ntok_length names t). pose proof image_length as Hl. unfold struct_block in Hl. rewrite length_app in Hl. lia.
Qed.

(** The value of the first property of that name. *)
Fixpoint assoc (name : list Z) (pl : list (list Z * list Z)) : option (list Z) :=
  match pl with [] => None | p :: pl => if decide (p.1 = name) then Some p.2 else assoc name pl end.

Lemma lookup_assoc pl off name : snd <$> lookup_prop names pl off name = assoc name pl.
Proof. revert off. induction pl as [| p pl IH]; intros off; cbn [lookup_prop assoc]; [done |]. by case_decide. Qed.

Lemma image_prop ps e name nrest : Forall (fun p => comp_ok p /\ p <> []) ps -> lookup_node names t 40 ps = Some e -> is_str name ->
  match assoc name (d_props e.2) with
  | None => fdt_getprop fdt e.1.2 (name ++ 0 :: nrest) = Some None
  | Some v => exists p s, fdt_getprop fdt e.1.2 (name ++ 0 :: nrest) = Some (Some (p, Z.of_nat (length v))) /\ at_ fdt p = Some (v ++ s)
  end.
Proof.
  intros Hps He Hname. destruct (proj2 (image_path ps [] Hps) e He) as (_ & _ & Hok & r & Hr).
  destruct image_header as (_ & _ & _ & Hs & _ & Ht).
  destruct (fdt_getprop_node names fdt image_placed _ _ Ht e.1.1 e.1.2 e.2 r name nrest Hok Hr Hname Hs) as [-> Hv].
  rewrite <- (lookup_assoc _ (e.1.2 + Z.of_nat (length (enc_begin (d_name e.2))))).
  destruct (lookup_prop _ _ _ _) as [[p v] |]; cbn [fmap option_fmap option_map snd fst]; [| done].
  destruct (Hv p v eq_refl) as (s & Es). exists p, s. split; [| done]. apply at_bound in Es as Hb. rewrite length_app in Hb. pose proof (im_size _ _ _ Him).
  by rewrite i32_small by lia.
Qed.

End Image.

(** ** Cells *)

(** The big-endian word at an offset of a value. *)
Definition cell (v : list Z) (off : nat) : option Z := x ← load32 v off; Some (bswap32 x).
Definition cell64 (v : list Z) (off : nat) : option Z := hi ← cell v off; lo ← cell v (off + 4)%nat; Some (Z.lor (hi ⋘ 32) lo).

Lemma load32_some v off : (off + 4 <= length v)%nat -> is_Some (load32 v off).
Proof.
  intros Hl. unfold load32. repeat (match goal with |- context [v !! ?i] => destruct (lookup_lt_is_Some_2 v i) as [? ->]; [lia |] end; cbn [mbind option_bind]).
  by eexists.
Qed.

Lemma cell_some v off : (off + 4 <= length v)%nat -> exists x, cell v off = Some x.
Proof. intros Hl. unfold cell. destruct (load32_some v off Hl) as [x ->]. by eexists. Qed.

Lemma cell64_some v off : (off + 8 <= length v)%nat -> exists x, cell64 v off = Some x.
Proof.
  intros Hl. unfold cell64. destruct (cell_some v off) as [x ->]; [lia |]. destruct (cell_some v (off + 4)) as [y ->]; [lia |]. by eexists.
Qed.

Lemma load32_drop v s off : (off + 4 <= length v)%nat -> load32 (drop off (v ++ s)) 0 = load32 v off.
Proof.
  intros Hl. unfold load32. rewrite !lookup_drop, !Nat.add_0_r. by rewrite !lookup_app_l by lia.
Qed.

Lemma read32_cell fdt p v s off : at_ fdt p = Some (v ++ s) -> (off + 4 <= length v)%nat -> read32 fdt (p + Z.of_nat off) = cell v off.
Proof.
  intros E Hl. unfold read32, cell. rewrite <- (take_drop off (v ++ s)) in E. apply at_app in E.
  rewrite length_take_le in E by (rewrite length_app; lia). rewrite E. cbn [mbind option_bind]. by rewrite load32_drop.
Qed.

Lemma read64_cell fdt p v s off : at_ fdt p = Some (v ++ s) -> (off + 8 <= length v)%nat -> read64 fdt (p + Z.of_nat off) = cell64 v off.
Proof.
  intros E Hl. unfold read64, cell64. rewrite (read32_cell fdt p v s off) by (done || lia).
  replace (p + Z.of_nat off + 4) with (p + Z.of_nat (off + 4)) by lia. by rewrite (read32_cell fdt p v s (off + 4)) by (done || lia).
Qed.

Lemma read32_cell0 fdt p v s : at_ fdt p = Some (v ++ s) -> (4 <= length v)%nat -> read32 fdt p = cell v 0.
Proof. intros E Hl. rewrite <- (read32_cell fdt p v s 0 E Hl). f_equal. lia. Qed.

Lemma read64_cell0 fdt p v s : at_ fdt p = Some (v ++ s) -> (8 <= length v)%nat -> read64 fdt p = cell64 v 0.
Proof. intros E Hl. rewrite <- (read64_cell fdt p v s 0 E Hl). f_equal. lia. Qed.

(** ** What the allocator reads, as functions of the tree *)

Definition addr_of (v : option (list Z)) : Z :=
  match v with
  | None => 0
  | Some v => if (length v =? 4)%nat then default 0 (cell v 0) else if (length v =? 8)%nat then default 0 (cell64 v 0) else 0
  end.

Definition region_of (v : option (list Z)) : option (Z * Z) :=
  v ← v;
  if (16 <=? length v)%nat then s ← cell64 v 0; z ← cell64 v 8; Some (s, z)
  else if (8 <=? length v)%nat then s ← cell v 0; z ← cell v 4; Some (s, z)
  else None.

Definition size_of (v : option (list Z)) : option Z :=
  v ← v; if (8 <=? length v)%nat then cell64 v 0 else if (4 <=? length v)%nat then cell v 0 else None.

(** A child of [/reserved-memory]: [reg], or [size] bytes of [alloc-ranges]. *)
Definition child_of (pl : list (list Z * list Z)) : option (Z * Z) :=
  match region_of (assoc (chars "reg") pl) with
  | Some r => Some r
  | None =>
      '(start, range) ← region_of (assoc (chars "alloc-ranges") pl);
      requested ← size_of (assoc (chars "size") pl);
      if requested =? 0 then None
      else Some (start, if negb (range =? 0) && (range <? requested) then range else requested)
  end.

(** The value [fdt_getprop] points to. *)
Definition value_at (fdt : fdt_blob) (prop : option (Z * Z)) (v : option (list Z)) : Prop :=
  match v with
  | None => prop = None
  | Some v => exists p s, prop = Some (p, Z.of_nat (length v)) /\ at_ fdt p = Some (v ++ s)
  end.

Lemma parse_region fdt prop v : value_at fdt prop v -> parse_start_and_size fdt prop = Some (region_of v).
Proof.
  destruct v as [v |]; [intros (p & s & -> & E) | by intros ->]. unfold parse_start_and_size, region_of. cbn [mbind option_bind].
  destruct (Z.leb_spec (Z.of_nat (length v)) 0); [by destruct v |].
  destruct (Z.leb_spec 16 (Z.of_nat (length v))), (Nat.leb_spec 16 (length v)); try lia.
  - pose proof (read64_cell fdt p v s 8 E ltac:(lia)) as E8. change (Z.of_nat 8) with 8 in E8. rewrite (read64_cell0 fdt p v s), E8 by (done || lia).
    destruct (cell64_some v 0) as [x ->]; [lia |]. destruct (cell64_some v 8) as [y ->]; [lia |]. done.
  - destruct (Z.leb_spec 8 (Z.of_nat (length v))), (Nat.leb_spec 8 (length v)); try lia; [| done].
    pose proof (read32_cell fdt p v s 4 E ltac:(lia)) as E4. change (Z.of_nat 4) with 4 in E4. rewrite (read32_cell0 fdt p v s), E4 by (done || lia).
    destruct (cell_some v 0) as [x ->]; [lia |]. destruct (cell_some v 4) as [y ->]; [lia |]. done.
Qed.

Lemma parse_addr fdt prop v : value_at fdt prop v -> parse_addr_prop fdt prop = Some (addr_of v).
Proof.
  destruct v as [v |]; [intros (p & s & -> & E) | by intros ->]. unfold parse_addr_prop, addr_of.
  destruct (Z.eqb_spec (Z.of_nat (length v)) 4), (Nat.eqb_spec (length v) 4); try lia.
  - rewrite (read32_cell0 fdt p v s) by (done || lia). destruct (cell_some v 0) as [x ->]; [lia | done].
  - destruct (Z.eqb_spec (Z.of_nat (length v)) 8), (Nat.eqb_spec (length v) 8); try lia; [| done].
    rewrite (read64_cell0 fdt p v s) by (done || lia). destruct (cell64_some v 0) as [x ->]; [lia | done].
Qed.

Lemma parse_ranges fdt ranges size v w : value_at fdt ranges v -> value_at fdt size w ->
  parse_alloc_ranges_with_size fdt ranges size = Some (
    '(start, range) ← region_of v; requested ← size_of w;
    if requested =? 0 then None else Some (start, if negb (range =? 0) && (range <? requested) then range else requested)).
Proof.
  intros Hv Hw. unfold parse_alloc_ranges_with_size. rewrite (parse_region _ _ _ Hv). cbn [mbind option_bind].
  destruct (region_of v) as [[start range] |]; [| done]. cbn [option_bind].
  destruct w as [w |]; [destruct Hw as (p & s & -> & E) | by rewrite Hw]. unfold size_of. cbn [mbind option_bind].
  destruct (Z.leb_spec (Z.of_nat (length w)) 0); [by destruct w |].
  destruct (Z.leb_spec 8 (Z.of_nat (length w))), (Nat.leb_spec 8 (length w)); try lia.
  - rewrite (read64_cell0 fdt p w s) by (done || lia). destruct (cell64_some w 0) as [x ->]; [lia |]. cbn [mbind option_bind]. by case_match.
  - destruct (Z.leb_spec 4 (Z.of_nat (length w))), (Nat.leb_spec 4 (length w)); try lia; [| done].
    rewrite (read32_cell0 fdt p w s) by (done || lia). destruct (cell_some w 0) as [x ->]; [lia |]. cbn [mbind option_bind]. by case_match.
Qed.

Section Boot.
Context (names : list (list Z)) (base : Z) (t : dnode).
Hypothesis Him : image_ok names base t.
Notation fdt := (image names base t).

Lemma node_value own off k r name nrest : node_ok names own k -> next_at fdt off (enc_node names k ++ r) -> is_str name ->
  exists prop, fdt_getprop fdt off (name ++ 0 :: nrest) = Some prop /\ value_at fdt prop (assoc name (d_props k)).
Proof.
  intros Hok Hr Hname. destruct (image_header names base t Him) as (_ & _ & _ & Hs & _ & Ht).
  destruct (fdt_getprop_node names fdt (image_placed names base t Him) _ _ Ht own off k r name nrest Hok Hr Hname Hs) as [-> Hv].
  eexists. split; [reflexivity |]. rewrite <- (lookup_assoc names _ (off + Z.of_nat (length (enc_begin (d_name k))))).
  destruct (lookup_prop _ _ _ _) as [[p v] |]; cbn [fmap option_fmap option_map snd fst value_at]; [| done].
  destruct (Hv p v eq_refl) as (s & Es). exists p, s. split; [| done]. apply at_bound in Es as Hb. rewrite length_app in Hb. pose proof (im_size _ _ _ Him).
  by rewrite i32_small by lia.
Qed.

Lemma child_region_spec own off k r : node_ok names own k -> next_at fdt off (enc_node names k ++ r) ->
  child_region fdt off = Some (child_of (d_props k)).
Proof.
  intros Hok Hr. unfold child_region, child_of, lit.
  destruct (node_value own off k r (chars "reg") [] Hok Hr) as (p1 & -> & H1); [by repeat constructor |]. cbn [mbind option_bind].
  rewrite (parse_region _ _ _ H1). cbn [mbind option_bind]. destruct (region_of (assoc (chars "reg") (d_props k))); [done |].
  destruct (node_value own off k r (chars "alloc-ranges") [] Hok Hr) as (p2 & -> & H2); [by repeat constructor |]. cbn [mbind option_bind].
  destruct (node_value own off k r (chars "size") [] Hok Hr) as (p3 & -> & H3); [by repeat constructor |]. cbn [mbind option_bind].
  by rewrite (parse_ranges _ _ _ _ _ H2 H3).
Qed.

(** *** The loop over the children of [/reserved-memory] *)

Lemma skip_name_spec off n r : next_at fdt off (enc_begin n ++ r) -> is_str n ->
  read32 fdt off = Some FDT_BEGIN_NODE /\ skip_name fdt (off + 4) = Some (off + Z.of_nat (length (enc_begin n))) /\
  next_at fdt (off + Z.of_nat (length (enc_begin n))) r.
Proof.
  intros Ha Hn. destruct (begin_at names fdt (image_placed names base t Him) off n r Ha Hn) as (Hr & (s & Es & El & _) & Hal & Hnx).
  split_and!; [done | | done]. unfold skip_name, str_at. rewrite Es. cbn [mbind option_bind]. rewrite El. cbn [mbind option_bind]. by rewrite Hal.
Qed.

Lemma reserved_props pl : forall fuel off r depth current index, next_at fdt off (enc_props names pl ++ r) -> Forall (prop_ok names) pl -> 0 < depth ->
  reserved_loop (length pl + fuel) fdt off depth current index =
    reserved_loop fuel fdt (off + Z.of_nat (length (enc_props names pl))) depth current index /\
  next_at fdt (off + Z.of_nat (length (enc_props names pl))) r.
Proof.
  induction pl as [| p pl IH]; intros fuel off r depth current index Ha Hok Hd.
  - cbn [enc_props mbind list_bind length Nat.add] in *. by rewrite Z.add_0_r.
  - apply Forall_cons in Hok as [Hp Hok]. unfold enc_props in *. cbn [mbind list_bind] in *. rewrite <- app_assoc in Ha.
    destruct (prop_at names fdt (image_placed names base t Him) off p _ Ha Hp) as (Hr & Hl & _ & _ & Hal & Hnx). rewrite length_app.
    replace (off + Z.of_nat (length (enc_prop names p) + length (pl ≫= enc_prop names)))
      with (off + Z.of_nat (length (enc_prop names p)) + Z.of_nat (length (pl ≫= enc_prop names))) by lia.
    destruct (IH fuel _ r depth current index Hnx Hok Hd) as [<- ?]. split; [| done]. cbn [length Nat.add reserved_loop].
    destruct (Z.leb_spec depth 0); [lia |]. rewrite Hr. cbn [mbind option_bind].
    change (FDT_PROP =? FDT_BEGIN_NODE) with false. change (FDT_PROP =? FDT_END_NODE) with false. change (FDT_PROP =? FDT_PROP) with true. cbv iota.
    rewrite Hl. cbn [mbind option_bind]. by rewrite Hal.
Qed.

Lemma reserved_end fuel off r depth current index : next_at fdt off (be32 FDT_END_NODE ++ r) -> 0 < depth ->
  reserved_loop (S fuel) fdt off depth current index = reserved_loop fuel fdt (off + 4) (depth - 1) current index /\ next_at fdt (off + 4) r.
Proof.
  intros Ha Hd. destruct (word_at fdt off FDT_END_NODE r Ha ltac:(done)) as [Hr Hnx]. split; [| done]. cbn [reserved_loop].
  destruct (Z.leb_spec depth 0); [lia |]. by rewrite Hr.
Qed.

(** What is below a node, and the node's end. *)
Definition inside (k : dnode) : list Z := enc_props names (d_props k) ++ concat (map (enc_node names) (d_kids k)) ++ be32 FDT_END_NODE.

Lemma enc_inside k : enc_node names k = enc_begin (d_name k) ++ inside k.
Proof. by destruct k. Qed.

Lemma ntok_S k : ntok k = S (S (length (d_props k) + list_sum (map ntok (d_kids k)))).
Proof. by destruct k. Qed.

Lemma reserved_begin fuel off k r own depth current index : node_ok names own k -> next_at fdt off (enc_node names k ++ r) -> 0 < depth ->
  reserved_loop (S fuel) fdt off depth current index =
    (if depth + 1 =? 2 then
       match child_of (d_props k) with
       | Some v => if current =? index then Some (Some v)
                   else reserved_loop fuel fdt (off + Z.of_nat (length (enc_begin (d_name k)))) (depth + 1) (current + 1) index
       | None => reserved_loop fuel fdt (off + Z.of_nat (length (enc_begin (d_name k)))) (depth + 1) current index
       end
     else reserved_loop fuel fdt (off + Z.of_nat (length (enc_begin (d_name k)))) (depth + 1) current index) /\
  next_at fdt (off + Z.of_nat (length (enc_begin (d_name k)))) (inside k ++ r).
Proof.
  intros Hok Ha Hd. pose proof Ha as Ha'. rewrite enc_inside, <- app_assoc in Ha'.
  destruct (skip_name_spec off (d_name k) _ Ha') as (Hr & Hsk & Hnx); [by inversion Hok |]. split; [| done]. cbn [reserved_loop].
  destruct (Z.leb_spec depth 0); [lia |]. rewrite Hr. cbn [mbind option_bind]. change (FDT_BEGIN_NODE =? FDT_BEGIN_NODE) with true. cbv iota.
  rewrite Hsk. cbn [mbind option_bind]. destruct (depth + 1 =? 2); [| done].
  destruct Ha as [Ea Hda]. pose proof (at_bound _ _ _ Ea). pose proof (im_size _ _ _ Him). rewrite i32_small by lia.
  rewrite (child_region_spec own off k r Hok) by done. cbn [mbind option_bind]. by destruct (child_of (d_props k)).
Qed.

(** The nodes below the children are passed over. *)
Lemma reserved_skip k : forall own off r depth current index fuel, node_ok names own k -> next_at fdt off (inside k ++ r) -> 2 <= depth ->
  reserved_loop (S (length (d_props k) + list_sum (map ntok (d_kids k))) + fuel) fdt off depth current index =
    reserved_loop fuel fdt (off + Z.of_nat (length (inside k))) (depth - 1) current index /\
  next_at fdt (off + Z.of_nat (length (inside k))) r.
Proof.
  induction k as [n pl ks IH] using dnode_ind'. intros own off r depth current index fuel Hok Ha Hd. inversion Hok as [? ? ? ? _ Hn Hpl' Hks]; subst.
  change (inside (DNode n pl ks)) with (enc_props names pl ++ concat (map (enc_node names) ks) ++ be32 FDT_END_NODE) in *.
  cbn [d_props d_kids] in *. rewrite <- !app_assoc in Ha.
  replace (S (length pl + list_sum (map ntok ks)) + fuel)%nat with (length pl + (list_sum (map ntok ks) + S fuel))%nat by lia.
  destruct (reserved_props pl (list_sum (map ntok ks) + S fuel) off _ depth current index Ha Hpl' ltac:(lia)) as [-> Hn2].
  assert (Hkids : forall o f, next_at fdt o (concat (map (enc_node names) ks) ++ be32 FDT_END_NODE ++ r) ->
    reserved_loop (list_sum (map ntok ks) + f) fdt o depth current index =
    reserved_loop f fdt (o + Z.of_nat (length (concat (map (enc_node names) ks)))) depth current index /\
    next_at fdt (o + Z.of_nat (length (concat (map (enc_node names) ks)))) (be32 FDT_END_NODE ++ r)).
  { clear Ha Hok Hn2. induction IH as [| k ks Hk _ IHk]; intros o f Hn2; [cbn; by rewrite Z.add_0_r |].
    apply Forall_cons in Hks as [(_ & _ & Hnk) Hks]. cbn [map concat] in *. rewrite <- !app_assoc in Hn2.
    change (list_sum (ntok k :: map ntok ks)) with (ntok k + list_sum (map ntok ks))%nat. rewrite (ntok_S k).
    destruct (reserved_begin (S (length (d_props k) + list_sum (map ntok (d_kids k))) + (list_sum (map ntok ks) + f)) o k _ _ depth current index Hnk Hn2 ltac:(lia)) as [E1 Hn3].
    destruct (Z.eqb_spec (depth + 1) 2); [lia |].
    destruct (Hk _ _ _ (depth + 1) current index (list_sum (map ntok ks) + f)%nat Hnk Hn3 ltac:(lia)) as [E2 Hn4].
    replace (depth + 1 - 1) with depth in E2 by lia. destruct (IHk Hks _ f Hn4) as [E3 Hn5].
    rewrite enc_inside, !length_app, !Nat2Z.inj_add, !Z.add_assoc. split; [| done]. rewrite <- E3, <- E2, <- E1. f_equal. lia. }
  destruct (Hkids _ (S fuel) Hn2) as [-> Hn3]. destruct (reserved_end fuel _ r depth current index Hn3 ltac:(lia)) as [-> Hn4].
  rewrite !length_app, be32_length. replace (off + Z.of_nat (length (enc_props names pl) + (length (concat (map (enc_node names) ks)) + 4)))
    with (off + Z.of_nat (length (enc_props names pl)) + Z.of_nat (length (concat (map (enc_node names) ks))) + 4) by lia. by split.
Qed.

(** The [index]-th region of the children, counted from [current]. *)
Lemma reserved_kids ks : forall own off r current index fuel, Forall (fun k => comp_ok (d_name k) /\ d_name k <> [] /\ node_ok names (own ++ [d_name k]) k) ks ->
  next_at fdt off (concat (map (enc_node names) ks) ++ be32 FDT_END_NODE ++ r) -> current <= index ->
  reserved_loop (S (S (list_sum (map ntok ks)) + fuel)) fdt off 1 current index =
    Some (omap (fun k => child_of (d_props k)) ks !! Z.to_nat (index - current)).
Proof.
  induction ks as [| k ks IH]; intros own off r current index fuel Hok Ha Hci.
  - cbn [map concat app] in Ha. destruct (reserved_end (S fuel) off r 1 current index Ha ltac:(lia)) as [E _]. exact E.
  - apply Forall_cons in Hok as [(_ & _ & Hnk) Hok]. cbn [map concat] in Ha. rewrite <- app_assoc in Ha.
    change (list_sum (map ntok (k :: ks))) with (ntok k + list_sum (map ntok ks))%nat. rewrite (ntok_S k).
    replace (S (S (S (S (length (d_props k) + list_sum (map ntok (d_kids k)))) + list_sum (map ntok ks)) + fuel)) with
      (S (S (length (d_props k) + list_sum (map ntok (d_kids k))) + (S (S (list_sum (map ntok ks)) + fuel))))%nat by lia.
    destruct (reserved_begin (S (length (d_props k) + list_sum (map ntok (d_kids k))) + (S (S (list_sum (map ntok ks)) + fuel))) off k _ _ 1 current index Hnk Ha ltac:(lia)) as [-> Hn].
    change (1 + 1 =? 2) with true. cbv iota. cbn [omap list_omap].
    assert (Hskip : forall cur, reserved_loop (S (length (d_props k) + list_sum (map ntok (d_kids k))) + S (S (list_sum (map ntok ks)) + fuel)) fdt
      (off + Z.of_nat (length (enc_begin (d_name k)))) (1 + 1) cur index =
      reserved_loop (S (S (list_sum (map ntok ks)) + fuel)) fdt (off + Z.of_nat (length (enc_begin (d_name k))) + Z.of_nat (length (inside k))) 1 cur index /\
      next_at fdt (off + Z.of_nat (length (enc_begin (d_name k))) + Z.of_nat (length (inside k))) (concat (map (enc_node names) ks) ++ be32 FDT_END_NODE ++ r)).
    { intros cur. exact (reserved_skip k _ _ _ 2 cur index _ Hnk Hn ltac:(lia)). }
    destruct (child_of (d_props k)) as [v |].
    + destruct (Z.eqb_spec current index) as [-> | Hne]; [by rewrite Z.sub_diag |].
      destruct (Hskip (current + 1)) as [-> Hn2]. rewrite (IH own _ r (current + 1) index fuel Hok Hn2) by lia.
      replace (Z.to_nat (index - current)) with (S (Z.to_nat (index - (current + 1)))) by lia. done.
    + destruct (Hskip current) as [-> Hn2]. by apply (IH own _ r).
Qed.

(** *** Single properties *)

Lemma named_node p rest : comp_ok p -> p <> [] ->
  fdt_path_offset fdt (path_str [p] ++ 0 :: rest) = Some (match lookup_node names t 40 [p] with Some e => e.1.2 | None => -1 end) /\
  forall e, lookup_node names t 40 [p] = Some e -> (e.1.2 <? 0) = false /\ node_ok names e.1.1 e.2 /\ exists r, next_at fdt e.1.2 (enc_node names e.2 ++ r).
Proof.
  intros Hp Hne. destruct (image_path names base t Him [p] rest) as [E He]; [by apply Forall_singleton |]. split; [exact E |].
  intros e Hl. destruct (He e Hl) as (? & _ & ? & ?). split; [destruct (Z.ltb_spec e.1.2 0); [lia | done] | by split].
Qed.

Ltac lit_ok := repeat (constructor; [split; discriminate |]); constructor.

Lemma chosen_addr name fb : is_str (chars name) -> is_str (chars fb) ->
  get_chosen_addr_prop (Some fdt) (lit name) (lit fb) =
    Some (match lookup_node names t 40 [chars "chosen"] with
          | None => 0
          | Some e => addr_of (match assoc (chars name) (d_props e.2) with Some v => Some v | None => assoc (chars fb) (d_props e.2) end)
          end).
Proof.
  intros Hn Hf. unfold get_chosen_addr_prop. change (lit "/chosen") with (path_str [chars "chosen"] ++ 0 :: []).
  destruct (named_node (chars "chosen") []) as [-> He]; [lit_ok | done |]. cbn [mbind option_bind].
  destruct (lookup_node names t 40 [chars "chosen"]) as [e |]; [| done]. destruct (He e eq_refl) as (Hneg & Hok & r & Hr). rewrite Hneg. unfold lit.
  destruct (node_value e.1.1 e.1.2 e.2 r (chars name) [] Hok Hr Hn) as (p1 & -> & H1). cbn [mbind option_bind].
  destruct (assoc (chars name) (d_props e.2)) as [v |].
  - destruct H1 as (p & s & -> & E). cbn [option_bind]. apply parse_addr. by exists p, s.
  - rewrite H1. destruct (node_value e.1.1 e.1.2 e.2 r (chars fb) [] Hok Hr Hf) as (p2 & -> & H2). cbn [option_bind]. by apply parse_addr.
Qed.

Lemma memory_reg : Fdt.fdt_memory_reg fdt = Some (e ← lookup_node names t 40 [chars "memory"]; assoc (chars "reg") (d_props e.2)).
Proof.
  unfold Fdt.fdt_memory_reg. change (lit "/memory") with (path_str [chars "memory"] ++ 0 :: []).
  destruct (named_node (chars "memory") []) as [-> He]; [lit_ok | done |]. cbn [mbind option_bind].
  destruct (lookup_node names t 40 [chars "memory"]) as [e |]; [| done]. destruct (He e eq_refl) as (Hneg & Hok & r & Hr). rewrite Hneg. unfold lit. cbn [mbind option_bind].
  destruct (node_value e.1.1 e.1.2 e.2 r (chars "reg") [] Hok Hr) as (p1 & -> & H1); [by repeat constructor |]. cbn [option_bind].
  destruct (assoc (chars "reg") (d_props e.2)) as [v |]; [| by rewrite H1]. destruct H1 as (p & s & -> & E). cbn [mbind option_bind]. rewrite E. cbn [mbind option_bind].
  rewrite length_app, Nat2Z.id. destruct (Z.ltb_spec (Z.of_nat (length v + length s)) (Z.min (Z.of_nat (length v)) 16)); [lia |]. by rewrite take_app_length.
Qed.

Definition tree_regions : list (Z * Z) :=
  match lookup_node names t 40 [chars "reserved-memory"] with
  | None => []
  | Some e => (match region_of (assoc (chars "reg") (d_props e.2)) with Some r => [r] | None => [] end) ++ omap (fun k => child_of (d_props k)) (d_kids e.2)
  end.

Lemma reserved_regions index : 0 <= index -> Fdt.fdt_get_reserved_memory_region (Some fdt) index = Some (tree_regions !! Z.to_nat index).
Proof.
  intros Hi. unfold Fdt.fdt_get_reserved_memory_region, tree_regions. destruct (Z.ltb_spec index 0); [lia |].
  change (lit "/reserved-memory") with (path_str [chars "reserved-memory"] ++ 0 :: []).
  destruct (named_node (chars "reserved-memory") []) as [-> He]; [lit_ok | done |]. cbn [mbind option_bind].
  destruct (lookup_node names t 40 [chars "reserved-memory"]) as [[[own off] k] |]; [| done].
  destruct (He _ eq_refl) as (Hneg & Hok & r & Hr). cbn [fst snd] in *. rewrite Hneg. unfold lit.
  destruct (node_value own off k r (chars "reg") [] Hok Hr) as (p1 & -> & H1); [by repeat constructor |]. cbn [mbind option_bind].
  rewrite (parse_region _ _ _ H1). cbn [mbind option_bind]. pose proof Hr as Hr'. rewrite enc_inside, <- app_assoc in Hr'.
  destruct (skip_name_spec off (d_name k) _ Hr') as (Hread & Hsk & Hn); [by inversion Hok |]. unfold inside in Hn. rewrite <- !app_assoc in Hn.
  inversion Hok as [? n pl ks _ _ Hpl' Hks]; subst. cbn [d_name d_props d_kids] in *.
  assert (Hloop : forall current, current <= index ->
    reserved_loop (fdt_fuel fdt) fdt (off + Z.of_nat (length (enc_begin n))) 1 current index =
      Some (omap (fun k => child_of (d_props k)) ks !! Z.to_nat (index - current))).
  { intros current Hc. assert (Hf : exists f, fdt_fuel fdt = (length pl + (S (S (list_sum (map ntok ks)) + f)))%nat).
    { destruct Hr as [Ea _]. apply at_bound in Ea as [? Hb]. rewrite length_app in Hb. pose proof (ntok_length names (DNode n pl ks)) as Hk. cbn [ntok] in Hk.
      exists (fdt_fuel fdt - (length pl + S (S (list_sum (map ntok ks)))))%nat. unfold fdt_fuel. lia. }
    destruct Hf as [f ->]. destruct (reserved_props pl (S (S (list_sum (map ntok ks)) + f)) _ _ 1 current index Hn Hpl' ltac:(lia)) as [-> Hn2].
    by apply (reserved_kids ks own _ r). }
  destruct (region_of (assoc (chars "reg") pl)) as [v |].
  - destruct (Z.eqb_spec 0 index) as [<- | Hne]; [done |]. rewrite Hread. cbn [mbind option_bind]. change (FDT_BEGIN_NODE =? FDT_BEGIN_NODE) with true. cbn [negb].
    rewrite Hsk. cbn [mbind option_bind]. rewrite Hloop by lia. replace (Z.to_nat index) with (S (Z.to_nat (index - 1))) by lia. done.
  - rewrite Hread. cbn [mbind option_bind]. change (FDT_BEGIN_NODE =? FDT_BEGIN_NODE) with true. cbn [negb].
    rewrite Hsk. cbn [mbind option_bind]. rewrite Hloop by lia. by rewrite Z.sub_0_r.
Qed.

End Boot.

(** ** The walks end *)

(** One turn of each walk, and where it ends: the next token, an answer, or none
    where it reads outside of the blob or a buffer is full. *)

(** The token behind the one at [ptr]: a node has its name, a property its length and value. *)
Definition after_token (fdt : fdt_blob) (ptr token : Z) : option Z :=
  if token =? FDT_BEGIN_NODE then skip_name fdt (ptr + 4)
  else if token =? FDT_PROP then len ← read32 fdt (ptr + 4); Some (align4 fdt (ptr + 12 + len))
  else Some (ptr + 4).

(** A node is pushed on the path and compared, its end pops it. *)
Definition path_turn (fdt : fdt_blob) (path : list Z) (s : Z * list Z) : option ((Z * list Z) + Z) :=
  let '(ptr, cur) := s in
  token ← read32 fdt ptr;
  if token =? FDT_END then Some (inr (-1)) else
  ptr' ← after_token fdt ptr token;
  if token =? FDT_BEGIN_NODE then
    bs ← at_ fdt (ptr + 4);
    n ← strlen bs;
    cur' ← push_name cur (take (Z.to_nat n) bs);
    found ← match_path (length cur' + length path) (cur' ++ [0]) path;
    Some (if (found : bool) then inr (i32 ptr) else inl (ptr', cur'))
  else Some (inl (ptr', if token =? FDT_END_NODE then pop_name cur else cur)).

(** A property with the name is the answer, anything but a property or a gap ends the walk. *)
Definition prop_turn (fdt : fdt_blob) (strings : Z) (name : list Z) (ptr : Z) : option (Z + option (Z * Z)) :=
  token ← read32 fdt ptr;
  if token =? FDT_PROP then
    len ← read32 fdt (ptr + 4);
    nameoff ← read32 fdt (ptr + 8);
    prop_name ← at_ fdt (strings + nameoff);
    c ← strcmp prop_name name;
    if c =? 0 then Some (inr (Some (ptr + 12, i32 len))) else ptr' ← after_token fdt ptr token; Some (inl ptr')
  else if token =? FDT_NOP then Some (inl (ptr + 4))
  else Some (inr None).

(** The children at depth 2 that describe a region are counted. *)
Definition reserved_turn (fdt : fdt_blob) (index : Z) (s : Z * Z * Z) : option ((Z * Z * Z) + option (Z * Z)) :=
  let '(ptr, depth, current) := s in
  if depth <=? 0 then Some (inr None) else
  token ← read32 fdt ptr;
  if token =? FDT_END then Some (inr None) else
  ptr' ← after_token fdt ptr token;
  if token =? FDT_BEGIN_NODE then
    r ← (if depth =? 1 then child_region fdt (i32 ptr) else Some None);
    match r with
    | Some v => Some (if current =? index then inr (Some v) else inl (ptr', depth + 1, current + 1))
    | None => Some (inl (ptr', depth + 1, current))
    end
  else Some (inl (ptr', if token =? FDT_END_NODE then depth - 1 else depth, current)).

(** The node that was entered last is the answer when its phandle is met. *)
Definition phandle_turn (fdt : fdt_blob) (strings phandle : Z) (s : Z * Z) : option ((Z * Z) + Z) :=
  let '(ptr, node) := s in
  token ← read32 fdt ptr;
  if token =? FDT_END then Some (inr (-1)) else
  if token =? FDT_PROP then
    len ← read32 fdt (ptr + 4);
    nameoff ← read32 fdt (ptr + 8);
    prop_name ← at_ fdt (strings + nameoff);
    c ← strcmp prop_name (lit "phandle");
    c' ← (if c =? 0 then Some 0 else strcmp prop_name (lit "linux,phandle"));
    val ← (if (c' =? 0) && (4 <=? len) then v ← read32 fdt (ptr + 12); Some (v =? phandle) else Some false);
    if (val : bool) then Some (inr node) else ptr' ← after_token fdt ptr token; Some (inl (ptr', node))
  else ptr' ← after_token fdt ptr token; Some (inl (ptr', if token =? FDT_BEGIN_NODE then i32 ptr else node)).

(** The comparison of two paths, character after character. *)
Definition match_turn (s : list Z * list Z) : option ((list Z * list Z) + bool) :=
  match s with
  | (c :: current, p :: path) =>
      if p =? 0 then Some (inr ((c =? 0) || (c =? 64)))
      else if c =? p then Some (inl (current, path))
      else if (c =? 64) && (p =? 47) then rest ← skip_unit current; Some (inl (rest, p :: path))
      else Some (inr false)
  | _ => None
  end.

(** Turn after turn, a walk comes to an answer, or to a turn that has no outcome. *)
Inductive ends {S R} (turn : S -> option (S + R)) : S -> option R -> Prop :=
  | ends_stuck s : turn s = None -> ends turn s None
  | ends_answer s r : turn s = Some (inr r) -> ends turn s (Some r)
  | ends_turn s s' o : turn s = Some (inl s') -> ends turn s' o -> ends turn s o.

Lemma ends_fun {S R} (turn : S -> option (S + R)) s o : ends turn s o -> forall o', ends turn s o' -> o' = o.
Proof.
  induction 1 as [s E | s r E | s s' o E _ IH]; intros o' He; destruct He as [s2 E' | s2 r' E' | s2 s2' o' E' He']; try congruence.
  apply IH. assert (s2' = s') as -> by congruence. exact He'.
Qed.

Section Fuel.
Context (fdt : fdt_blob).
Hypothesis Hbytes : Forall byte (fdt_bytes fdt).
Hypothesis Hbase : 0 <= fdt_ptr fdt.
Hypothesis Hroom : fdt_ptr fdt + Z.of_nat (length (fdt_bytes fdt)) + 2 ^ 33 <= 2 ^ 64.

Notation size := (Z.of_nat (length (fdt_bytes fdt))).

Lemma read32_in off x : read32 fdt off = Some x -> 0 <= off /\ off + 4 <= size /\ 0 <= x < 2 ^ 32.
Proof.
  unfold read32, at_. destruct (Z.ltb_spec off 0), (Z.ltb_spec size off); try done. cbn [orb mbind option_bind]. unfold load32.
  rewrite !lookup_drop. intros E.
  destruct (fdt_bytes fdt !! (Z.to_nat off + 0)%nat) as [b0 |] eqn:E0; [| done]. destruct (fdt_bytes fdt !! (Z.to_nat off + (0 + 1))%nat) as [b1 |] eqn:E1; [| done].
  destruct (fdt_bytes fdt !! (Z.to_nat off + (0 + 2))%nat) as [b2 |] eqn:E2; [| done]. destruct (fdt_bytes fdt !! (Z.to_nat off + (0 + 3))%nat) as [b3 |] eqn:E3; [| done].
  cbn [mbind option_bind] in E. injection E as <-. apply lookup_lt_Some in E3 as Hlt. split_and!; [lia | lia | |]; apply bswap32_range, le32_range;
    by eapply (Forall_lookup_1 _ _ _ _ Hbytes).
Qed.

Lemma align4_ge off : 0 <= off <= size + 2 ^ 32 + 16 -> off <= align4 fdt off.
Proof.
  intros Ho. unfold align4. rewrite (u64_small (_ + off)) by lia.
  assert (E : align_up_ptr (fdt_ptr fdt + off) 4 = round_up (fdt_ptr fdt + off) 2) by (apply (align_up_arith _ 2); change (2 ^ 2) with 4; lia).
  rewrite E. destruct (round_up_spec (fdt_ptr fdt + off) 2) as [_ Hr]; [lia |]. change (2 ^ 2) with 4 in Hr. rewrite u64_small; lia.
Qed.

Lemma strlen_nonneg s n : strlen s = Some n -> 0 <= n < Z.of_nat (length s).
Proof.
  revert n. induction s as [| c s IH]; intros n; cbn [strlen length]; [done |]. destruct (c =? 0); [intros [= <-]; lia |].
  destruct (strlen s) as [m |]; [| done]. intros [= <-]. specialize (IH m eq_refl). lia.
Qed.

Lemma skip_name_ge off x : 0 <= off -> skip_name fdt off = Some x -> off < x.
Proof.
  unfold skip_name, str_at. intros Ho E. destruct (at_ fdt off) as [s |] eqn:Ea; [| done]. cbn [mbind option_bind] in E.
  destruct (strlen s) as [n |] eqn:En; [| done]. injection E as <-. apply strlen_nonneg in En. pose proof (at_bound _ _ _ Ea).
  pose proof (align4_ge (off + n + 1)). lia.
Qed.

(** Each walk goes from a token to the next one. *)
Lemma after_token_ge ptr token ptr' : read32 fdt ptr = Some token -> after_token fdt ptr token = Some ptr' ->
  0 <= ptr /\ ptr + 4 <= size /\ ptr + 4 <= ptr'.
Proof.
  intros E Ea. apply read32_in in E as (H0 & H1 & _). unfold after_token in Ea. destruct (token =? FDT_BEGIN_NODE).
  { apply skip_name_ge in Ea; lia. }
  destruct (token =? FDT_PROP); [| injection Ea as <-; lia].
  destruct (read32 fdt (ptr + 4)) as [len |] eqn:El; [| done]. apply read32_in in El as (? & ? & ?). cbn [mbind option_bind] in Ea. injection Ea as <-.
  pose proof (align4_ge (ptr + 12 + len)). lia.
Qed.

(** Enough fuel for the bytes from [ptr] on. *)
Definition enough (fuel : nat) (ptr : Z) : Prop := (0 < fuel)%nat /\ size - ptr < Z.of_nat fuel.

(** A loop that makes the turns one after the other, each at a token further on. *)
Lemma walk_ends {S R} (turn : S -> option (S + R)) (loop : nat -> S -> option R) (pos : S -> Z) :
  (forall f s, loop (Datatypes.S f) s = match turn s with None => None | Some (inr r) => Some r | Some (inl s') => loop f s' end) ->
  (forall s s', turn s = Some (inl s') -> 0 <= pos s /\ pos s + 4 <= size /\ pos s + 4 <= pos s') ->
  forall fuel s, enough fuel (pos s) -> ends turn s (loop fuel s).
Proof.
  intros Hloop Hturn. induction fuel as [| fuel IH]; intros s [Hf He]; [lia |]. rewrite Hloop.
  destruct (turn s) as [[s' | r] |] eqn:E; [| by apply ends_answer | by apply ends_stuck].
  destruct (Hturn _ _ E) as (? & ? & ?). eapply ends_turn; [exact E |]. apply IH. unfold enough. lia.
Qed.

(** The tokens that are only stepped over. *)
Lemma after_other ptr token : (token =? FDT_BEGIN_NODE) = false -> (token =? FDT_PROP) = false -> after_token fdt ptr token = Some (ptr + 4).
Proof. intros E1 E2. unfold after_token. by rewrite E1, E2. Qed.

Lemma after_prop ptr : after_token fdt ptr FDT_PROP = (len ← read32 fdt (ptr + 4); Some (align4 fdt (ptr + 4 + 8 + len))).
Proof. unfold after_token. cbn. destruct (read32 fdt (ptr + 4)) as [len |]; [| done]. cbn. do 2 f_equal. lia. Qed.

Lemma after_begin ptr : after_token fdt ptr FDT_BEGIN_NODE = skip_name fdt (ptr + 4).
Proof. done. Qed.

(** The cases of a token, in the order of the loops. *)
Ltac tokens token :=
  destruct (Z.eqb_spec token FDT_BEGIN_NODE) as [-> | ?];
  [| destruct (Z.eqb_spec token FDT_END_NODE) as [-> | ?];
  [| destruct (Z.eqb_spec token FDT_PROP) as [-> | ?];
  [| destruct (Z.eqb_spec token FDT_NOP) as [-> | ?];
  [| destruct (Z.eqb_spec token FDT_END) as [-> | ?]]]]];
  change (FDT_BEGIN_NODE =? FDT_END) with false in *; change (FDT_END_NODE =? FDT_END) with false in *; change (FDT_PROP =? FDT_END) with false in *;
  change (FDT_NOP =? FDT_END) with false in *; change (FDT_END_NODE =? FDT_BEGIN_NODE) with false in *; change (FDT_PROP =? FDT_BEGIN_NODE) with false in *;
  change (FDT_NOP =? FDT_BEGIN_NODE) with false in *; change (FDT_PROP =? FDT_END_NODE) with false in *; change (FDT_NOP =? FDT_END_NODE) with false in *;
  change (FDT_BEGIN_NODE =? FDT_BEGIN_NODE) with true in *; change (FDT_END_NODE =? FDT_END_NODE) with true in *; change (FDT_END =? FDT_END) with true in *;
  change (FDT_PROP =? FDT_PROP) with true in *; change (FDT_BEGIN_NODE =? FDT_PROP) with false in *; change (FDT_END_NODE =? FDT_PROP) with false in *;
  change (FDT_NOP =? FDT_PROP) with false in *; change (FDT_NOP =? FDT_NOP) with true in *; cbv iota in *;
  repeat match goal with H : ?x <> ?y |- context [?x =? ?y] => rewrite (proj2 (Z.eqb_neq x y) H) end.

Ltac binds := repeat match goal with |- context [?m ≫= _] => destruct m; cbn [mbind option_bind]; [| done] end.

Lemma path_ends path fuel ptr cur : enough fuel ptr -> ends (path_turn fdt path) (ptr, cur) (path_loop fuel fdt ptr cur path).
Proof.
  intros He. apply (walk_ends (path_turn fdt path) (fun f s => path_loop f fdt s.1 s.2 path) fst) with (s := (ptr, cur)); [| | exact He]; clear fuel ptr cur He.
  - intros f [ptr cur]. cbn [path_loop fst snd path_turn]. destruct (read32 fdt ptr) as [token |]; [| done]. cbn [mbind option_bind].
    tokens token; rewrite ?after_begin, ?after_prop, ?after_other by (by apply Z.eqb_neq); try done.
    + unfold skip_name, str_at. destruct (at_ fdt (ptr + 4)) as [bs |]; [| done]. cbn [mbind option_bind]. destruct (strlen bs) as [n |]; [| done]. cbn [mbind option_bind].
      destruct (push_name cur _) as [cur' |]; [| done]. cbn [mbind option_bind]. by destruct (match_path _ _ _) as [[] |].
    + by destruct (read32 fdt (ptr + 4)).
  - intros [ptr cur] [ptr' cur'] E. cbn [path_turn fst] in *. destruct (read32 fdt ptr) as [token |] eqn:Er; [| done]. cbn [mbind option_bind] in E.
    destruct (token =? FDT_END); [done |]. destruct (after_token fdt ptr token) as [p |] eqn:Ea; [| done]. cbn [mbind option_bind] in E.
    pose proof (after_token_ge _ _ _ Er Ea). destruct (token =? FDT_BEGIN_NODE); [| by injection E as <- _].
    destruct (at_ fdt (ptr + 4)) as [bs |]; [| done]. cbn [mbind option_bind] in E. destruct (strlen bs) as [n |]; [| done]. cbn [mbind option_bind] in E.
    destruct (push_name cur _) as [c |]; [| done]. cbn [mbind option_bind] in E. destruct (match_path _ _ _) as [[] |]; [done | by injection E as <- _ | done].
Qed.

Lemma prop_ends strings name fuel ptr : enough fuel ptr -> ends (prop_turn fdt strings name) ptr (prop_loop fuel fdt strings ptr name).
Proof.
  intros He. apply (walk_ends (prop_turn fdt strings name) (fun f s => prop_loop f fdt strings s name) id) with (s := ptr); [| | exact He]; clear fuel ptr He.
  - intros f ptr. cbn [prop_loop]. unfold prop_turn. destruct (read32 fdt ptr) as [token |]; [| done]. cbn [mbind option_bind].
    destruct (Z.eqb_spec token FDT_PROP) as [-> | _]; [| by destruct (token =? FDT_NOP)]. rewrite after_prop. replace (ptr + 4 + 4) with (ptr + 8) by lia.
    destruct (read32 fdt (ptr + 4)) as [len |]; [| done]. cbn [mbind option_bind]. destruct (read32 fdt (ptr + 8)) as [off |]; [| done]. cbn [mbind option_bind].
    destruct (at_ fdt (strings + off)) as [pn |]; [| done]. cbn [mbind option_bind]. destruct (strcmp pn name) as [c |]; [| done]. cbn [mbind option_bind].
    replace (ptr + 12) with (ptr + 4 + 8) by lia. by destruct (c =? 0).
  - intros ptr ptr' E. unfold prop_turn in E. unfold id. destruct (read32 fdt ptr) as [token |] eqn:Er; [| done]. cbn [mbind option_bind] in E.
    destruct (Z.eqb_spec token FDT_PROP) as [-> | _].
    2:{ destruct (token =? FDT_NOP); [injection E as <- | done]. apply read32_in in Er. lia. }
    destruct (read32 fdt (ptr + 4)) as [len |]; [| done]. cbn [mbind option_bind] in E. destruct (read32 fdt (ptr + 8)) as [off |]; [| done]. cbn [mbind option_bind] in E.
    destruct (at_ fdt (strings + off)) as [pn |]; [| done]. cbn [mbind option_bind] in E. destruct (strcmp pn name) as [c |]; [| done]. cbn [mbind option_bind] in E.
    destruct (c =? 0); [done |]. destruct (after_token fdt ptr FDT_PROP) as [p |] eqn:Ea; [| done]. injection E as <-. by apply (after_token_ge _ FDT_PROP).
Qed.

Lemma reserved_ends index fuel ptr depth current : enough fuel ptr ->
  ends (reserved_turn fdt index) (ptr, depth, current) (reserved_loop fuel fdt ptr depth current index).
Proof.
  intros He. apply (walk_ends (reserved_turn fdt index) (fun f s => reserved_loop f fdt s.1.1 s.1.2 s.2 index) (fun s => s.1.1)) with (s := (ptr, depth, current));
    [| | exact He]; clear fuel ptr depth current He.
  - intros f [[ptr depth] current]. cbn [reserved_loop fst snd reserved_turn]. destruct (depth <=? 0); [done |].
    destruct (read32 fdt ptr) as [token |]; [| done]. cbn [mbind option_bind].
    tokens token; rewrite ?after_begin, ?after_prop, ?after_other by (by apply Z.eqb_neq); try done.
    + destruct (skip_name fdt (ptr + 4)) as [p |]; [| done]. cbn [mbind option_bind].
      replace (depth + 1 =? 2) with (depth =? 1) by (destruct (Z.eqb_spec depth 1), (Z.eqb_spec (depth + 1) 2); lia).
      destruct (depth =? 1); [| done]. destruct (child_region fdt (i32 ptr)) as [[v |] |]; [| done | done]. cbn [mbind option_bind]. by destruct (current =? index).
    + by destruct (read32 fdt (ptr + 4)).
  - intros [[ptr depth] current] [[ptr' depth'] current'] E. cbn [reserved_turn fst] in *. destruct (depth <=? 0); [done |].
    destruct (read32 fdt ptr) as [token |] eqn:Er; [| done]. cbn [mbind option_bind] in E.
    destruct (token =? FDT_END); [done |]. destruct (after_token fdt ptr token) as [p |] eqn:Ea; [| done]. cbn [mbind option_bind] in E.
    pose proof (after_token_ge _ _ _ Er Ea). destruct (token =? FDT_BEGIN_NODE); [| by injection E as <- _ _].
    destruct (if depth =? 1 then _ else _) as [[v |] |]; [| by injection E as <- _ _ | done]. cbn [mbind option_bind] in E.
    destruct (current =? index); [done | by injection E as <- _ _].
Qed.

Lemma phandle_ends strings phandle fuel ptr node : enough fuel ptr ->
  ends (phandle_turn fdt strings phandle) (ptr, node) (phandle_loop fuel fdt strings ptr node phandle).
Proof.
  intros He. apply (walk_ends (phandle_turn fdt strings phandle) (fun f s => phandle_loop f fdt strings s.1 s.2 phandle) fst) with (s := (ptr, node));
    [| | exact He]; clear fuel ptr node He.
  - intros f [ptr node]. cbn [phandle_loop fst snd phandle_turn]. destruct (read32 fdt ptr) as [token |]; [| done]. cbn [mbind option_bind].
    tokens token; rewrite ?after_begin, ?after_prop, ?after_other by (by apply Z.eqb_neq); try done.
    + by destruct (skip_name fdt (ptr + 4)).
    + replace (ptr + 4 + 4) with (ptr + 8) by lia. replace (ptr + 12) with (ptr + 4 + 8) by lia.
      destruct (read32 fdt (ptr + 4)) as [len |]; [| done]. cbn [mbind option_bind]. destruct (read32 fdt (ptr + 8)) as [off |]; [| done]. cbn [mbind option_bind].
      destruct (at_ fdt (strings + off)) as [pn |]; [| done]. cbn [mbind option_bind]. destruct (strcmp pn (lit "phandle")) as [c |]; [| done]. cbn [mbind option_bind].
      destruct (if c =? 0 then _ else _) as [c' |]; [| done]. cbn [mbind option_bind]. by destruct (if (c' =? 0) && _ then _ else _) as [[] |].
  - intros [ptr node] [ptr' node'] E. cbn [phandle_turn fst] in *. destruct (read32 fdt ptr) as [token |] eqn:Er; [| done]. cbn [mbind option_bind] in E.
    destruct (token =? FDT_END); [done |]. destruct (token =? FDT_PROP).
    + destruct (read32 fdt (ptr + 4)) as [len |]; [| done]. cbn [mbind option_bind] in E. destruct (read32 fdt (ptr + 8)) as [off |]; [| done]. cbn [mbind option_bind] in E.
      destruct (at_ fdt (strings + off)) as [pn |]; [| done]. cbn [mbind option_bind] in E. destruct (strcmp pn (lit "phandle")) as [c |]; [| done]. cbn [mbind option_bind] in E.
      destruct (if c =? 0 then _ else _) as [c' |]; [| done]. cbn [mbind option_bind] in E. destruct (if (c' =? 0) && _ then _ else _) as [[] |]; [done | | done].
      cbn [mbind option_bind] in E. destruct (after_token fdt ptr token) as [p |] eqn:Ea; [| done]. injection E as <- _. by apply (after_token_ge _ token).
    + destruct (after_token fdt ptr token) as [p |] eqn:Ea; [| done]. injection E as <- _. by apply (after_token_ge _ token).
Qed.

Lemma fuel_enough n ptr : 0 <= ptr -> enough (fdt_fuel fdt + n) ptr.
Proof. unfold enough, fdt_fuel. lia. Qed.

End Fuel.

(** The comparison of paths: every turn consumes a character of the first one. *)
Lemma skip_unit_length cur rest : skip_unit cur = Some rest -> (length rest <= length cur)%nat.
Proof.
  induction cur as [| c cur IH]; [done |]. cbn [skip_unit]. destruct (_ && _); [intros E; specialize (IH E); simpl; lia | by intros [= <-]].
Qed.

Lemma match_ends fuel : forall cur path, (length cur <= fuel)%nat -> ends match_turn (cur, path) (match_path fuel cur path).
Proof.
  induction fuel as [| fuel IH]; intros [| c cur] [| p path] Hl; try (apply ends_stuck; reflexivity); [simpl in Hl; lia |].
  cbn [match_path head mbind option_bind tail]. cbn [length] in Hl.
  destruct (p =? 0) eqn:Ep; [apply ends_answer; cbn; by rewrite Ep |]. destruct (c =? p) eqn:Ec.
  { eapply ends_turn; [cbn; by rewrite Ep, Ec |]. apply IH. lia. }
  destruct ((c =? 64) && (p =? 47)) eqn:Ea; [| apply ends_answer; cbn; by rewrite Ep, Ec, Ea].
  assert (skip_unit (c :: cur) = skip_unit cur) as -> by (apply andb_true_iff in Ea as [->%Z.eqb_eq _]; done).
  destruct (skip_unit cur) as [rest |] eqn:Es; [| apply ends_stuck; cbn; by rewrite Ep, Ec, Ea, Es].
  eapply ends_turn; [cbn; by rewrite Ep, Ec, Ea, Es |]. apply IH. apply skip_unit_length in Es. lia.
Qed.

(** ** The properties *)

(** A tree, the names of its properties and where its blob is. *)
Record tree_blob := TreeBlob { tb_names : list (list Z); tb_base : Z; tb_tree : dnode }.

Definition tree_prop (b : tree_blob) (path : list Z) (name : list Z) : option (list Z) :=
  e ← lookup_node (tb_names b) (tb_tree b) 40 [path]; assoc name (d_props e.2).

(** [linux,initrd-start] and the like of [/chosen], with its older name. *)
Definition tree_initrd (b : tree_blob) (name fallback_name : list Z) : Z :=
  addr_of (match tree_prop b (chars "chosen") name with Some v => Some v | None => tree_prop b (chars "chosen") fallback_name end).

(** What the boot code is told, read off the tree. *)
#[export] Instance tree_boot (kstart ksize : Z) : BootInfo tree_blob | 10 := {
  kernel_start := kstart;
  kernel_size := ksize;
  fdt_addr b := tb_base b;
  Allocator.fdt_totalsize b := Z.of_nat (length (fdt_bytes (image (tb_names b) (tb_base b) (tb_tree b))));
  Allocator.fdt_memory_reg b := tree_prop b (chars "memory") (chars "reg");
  Allocator.get_initrd_start b := tree_initrd b (chars "linux,initrd-start") (chars "initrd-start");
  Allocator.get_initrd_end b := tree_initrd b (chars "linux,initrd-end") (chars "initrd-end");
  Allocator.fdt_get_reserved_memory_region b index := tree_regions (tb_names b) (tb_tree b) !! Z.to_nat index;
}.

Lemma tree_initrd_spec names base t name fb : image_ok names base t -> is_str (chars name) -> is_str (chars fb) ->
  get_chosen_addr_prop (Some (image names base t)) (lit name) (lit fb) = Some (tree_initrd (TreeBlob names base t) (chars name) (chars fb)).
Proof.
  intros Him Hn Hf. rewrite (chosen_addr names base t Him name fb Hn Hf). unfold tree_initrd, tree_prop. cbn [tb_names tb_tree].
  by destruct (lookup_node names t 40 [chars "chosen"]).
Qed.

(** C29: the walks over a tree laid out in the format find it again: the node of a
    path is the first one, in the order of the blob, whose name and ancestors'
    names are the components (unit addresses may be left out), and its
    properties are found by name, with their lengths and bytes. *)
Theorem fdt_finds_tree names base t ps rest : image_ok names base t -> Forall (fun p => comp_ok p /\ p <> []) ps ->
  fdt_path_offset (image names base t) (path_str ps ++ 0 :: rest) =
    Some (match lookup_node names t 40 ps with Some e => e.1.2 | None => -1 end) /\
  forall e name nrest, lookup_node names t 40 ps = Some e -> is_str name ->
    match assoc name (d_props e.2) with
    | None => fdt_getprop (image names base t) e.1.2 (name ++ 0 :: nrest) = Some None
    | Some v => exists p s, fdt_getprop (image names base t) e.1.2 (name ++ 0 :: nrest) = Some (Some (p, Z.of_nat (length v))) /\
                            at_ (image names base t) p = Some (v ++ s)
    end.
Proof.
  intros Him Hps. split; [by apply image_path |]. intros e name nrest He Hname. by apply (image_prop names base t Him ps).
Qed.

(** C30: the device tree parser implements the boot interface of the allocator:
    on the blob of a tree it answers the size of the blob, the bounds of the ram
    disk, the memory and the reserved regions that the tree describes. *)
Theorem fdt_implements_boot_info names base t kstart ksize : image_ok names base t ->
  let fdt := image names base t in let b := TreeBlob names base t in let BI := tree_boot kstart ksize in
  fdt_ptr fdt = fdt_addr b /\
  Fdt.fdt_totalsize (Some fdt) = Some (Allocator.fdt_totalsize b) /\
  Fdt.get_initrd_start (Some fdt) = Some (Allocator.get_initrd_start b) /\
  Fdt.get_initrd_end (Some fdt) = Some (Allocator.get_initrd_end b) /\
  Fdt.fdt_memory_reg fdt = Some (Allocator.fdt_memory_reg b) /\
  forall index, 0 <= index ->
    Fdt.fdt_get_reserved_memory_region (Some fdt) index = Some (Allocator.fdt_get_reserved_memory_region b index).
Proof.
  intros Him fdt b BI. destruct (image_header names base t Him) as (Hm & Hs & _). split; [reflexivity |]. split.
  { unfold Fdt.fdt_totalsize, fdt. rewrite Hm, Hs. reflexivity. }
  split; [by apply tree_initrd_spec; [| repeat constructor ..] |]. split; [by apply tree_initrd_spec; [| repeat constructor ..] |].
  split; [exact (memory_reg names base t Him) |]. intros index Hi. exact (reserved_regions names base t Him index Hi).
Qed.

(** C33: every walk over a blob of bytes ends, whatever the bytes: turn after turn
    it comes to an answer or to a read that leaves the blob (or to a name too long
    for the buffer), and that is what the loop of the model finds with its fuel
    and with any more; the comparison of two paths ends in the same way. *)
Theorem fdt_walks_end fdt n off cur path strings name index phandle depth current node :
  Forall byte (fdt_bytes fdt) -> 0 <= fdt_ptr fdt -> fdt_ptr fdt + Z.of_nat (length (fdt_bytes fdt)) + 2 ^ 33 <= 2 ^ 64 -> 0 <= off ->
  ends (path_turn fdt path) (off, cur) (path_loop (fdt_fuel fdt + n) fdt off cur path) /\
  ends (prop_turn fdt strings name) off (prop_loop (fdt_fuel fdt + n) fdt strings off name) /\
  ends (reserved_turn fdt index) (off, depth, current) (reserved_loop (fdt_fuel fdt + n) fdt off depth current index) /\
  ends (phandle_turn fdt strings phandle) (off, node) (phandle_loop (fdt_fuel fdt + n) fdt strings off node phandle) /\
  ends match_turn (cur, path) (match_path (length cur + n) cur path).
Proof.
  intros Hb Hbase Hroom Ho. pose proof (fuel_enough fdt n off Ho) as He.
  split_and!; [by apply path_ends | by apply prop_ends | by apply reserved_ends | by apply phandle_ends | apply match_ends; lia].
Qed.

(** ** Witnesses *)

Definition demo_names : list (list Z) := [chars "reg"; chars "linux,initrd-start"; chars "linux,initrd-end"; chars "alloc-ranges"; chars "size"].

(** Memory at 0x80000000, a ram disk and two reserved regions. *)
Definition demo_tree : dnode :=
  DNode [] [] [
    DNode (chars "memory@80000000") [(chars "reg", be32 0 ++ be32 0x80000000 ++ be32 0 ++ be32 0x10000000)] [];
    DNode (chars "chosen") [(chars "linux,initrd-start", be32 0x84000000); (chars "linux,initrd-end", be32 0x84001000)] [];
    DNode (chars "reserved-memory") [] [
      DNode (chars "mmode@80000000") [(chars "reg", be32 0 ++ be32 0x80000000 ++ be32 0 ++ be32 0x40000)] [];
      DNode (chars "cma") [(chars "alloc-ranges", be32 0 ++ be32 0x82000000 ++ be32 0 ++ be32 0x1000); (chars "size", be32 0x4000)] []]].

#[local] Instance comp_ok_dec c : Decision (comp_ok c).
Proof. unfold comp_ok. apply _. Defined.
#[local] Instance prop_ok_dec names p : Decision (prop_ok names p).
Proof. unfold prop_ok, is_str. apply _. Defined.

Ltac by_deciding := apply (bool_decide_unpack _); vm_compute; exact I.

Ltac all_of := repeat (apply list.Forall_cons_2); [.. | apply list.Forall_nil_2].

Lemma demo_image_ok : image_ok demo_names 0x88000000 demo_tree.
Proof.
  split; [| by exists 0x22000000 | done | by vm_compute | by vm_compute].
  assert (Hs : forall c, comp_ok c -> is_str c) by (intros c Hc; eapply Forall_impl; [exact Hc |]; by intros x [? _]).
  assert (Hleaf : forall own n pl, Z.of_nat (length (path_str own)) < PATH_BUF -> comp_ok n -> Forall (prop_ok demo_names) pl -> node_ok demo_names own (DNode n pl []))
    by (intros; constructor; auto).
  unfold demo_tree. constructor; [done | by constructor | constructor |]. all_of; (split; [by_deciding | split; [discriminate |]]).
  - apply Hleaf; [by vm_compute | by_deciding | by_deciding].
  - apply Hleaf; [by vm_compute | by_deciding | by_deciding].
  - constructor; [by vm_compute | apply Hs; by_deciding | constructor |]. all_of; (split; [by_deciding | split; [discriminate |]]);
      (apply Hleaf; [by vm_compute | by_deciding | by_deciding]).
Qed.

Lemma fdt_finds_tree_witness : exists off p s, fdt_path_offset (image demo_names 0x88000000 demo_tree) (lit "/reserved-memory/cma") = Some off /\ 0 < off /\
  fdt_getprop (image demo_names 0x88000000 demo_tree) off (lit "size") = Some (Some (p, 4)) /\
  at_ (image demo_names 0x88000000 demo_tree) p = Some (be32 0x4000 ++ s).
Proof.
  destruct (fdt_finds_tree demo_names 0x88000000 demo_tree [chars "reserved-memory"; chars "cma"] [] demo_image_ok) as [E Hp]; [by_deciding |].
  destruct (lookup_node demo_names demo_tree 40 [chars "reserved-memory"; chars "cma"]) as [e |] eqn:El; [| vm_compute in El; discriminate El].
  specialize (Hp e (chars "size") [] eq_refl ltac:(by_deciding)).
  assert (Ev : assoc (chars "size") (d_props e.2) = Some (be32 0x4000) /\ (0 <? e.1.2) = true).
  { vm_compute in El. injection El as <-. split; reflexivity. }
  destruct Ev as [Ev Hpos]. rewrite Ev in Hp. destruct Hp as (p & s & Ep & Es). exists e.1.2, p, s.
  split; [exact E |]. split; [by apply Z.ltb_lt |]. split; [exact Ep | exact Es].
Defined.

Lemma fdt_implements_boot_info_witness :
  Fdt.fdt_memory_reg (image demo_names 0x88000000 demo_tree) = Some (Some (be32 0 ++ be32 0x80000000 ++ be32 0 ++ be32 0x10000000)) /\
  Fdt.get_initrd_start (Some (image demo_names 0x88000000 demo_tree)) = Some 0x84000000 /\
  Fdt.fdt_get_reserved_memory_region (Some (image demo_names 0x88000000 demo_tree)) 1 = Some (Some (0x82000000, 0x1000)).
Proof.
  destruct (fdt_implements_boot_info demo_names 0x88000000 demo_tree 0 0 demo_image_ok) as (_ & _ & Hi & _ & Hm & Hr).
  split; [rewrite Hm; vm_compute; reflexivity |]. split; [rewrite Hi; vm_compute; reflexivity |]. rewrite (Hr 1) by lia. vm_compute. reflexivity.
Defined.

(** A blob of a gap and an end: the walk steps over the first and answers at the second. *)
Lemma fdt_walks_end_witness : path_loop (fdt_fuel (FdtBlob 0x88000000 [0; 0; 0; 4; 0; 0; 0; 9]) + 5) (FdtBlob 0x88000000 [0; 0; 0; 4; 0; 0; 0; 9]) 0 [] (lit "/") = Some (-1).
Proof.
  destruct (fdt_walks_end (FdtBlob 0x88000000 [0; 0; 0; 4; 0; 0; 0; 9]) 5 0 [] (lit "/") 0 [] 0 0 0 0 0) as [E _];
    [by repeat constructor | done | by vm_compute | done |].
  refine (ends_fun _ _ _ _ _ E). eapply ends_turn; [vm_compute; reflexivity |]. apply ends_answer. vm_compute. reflexivity.
Defined.
