(* ===== verification/BootFdt.v ===== *)
(** * The boot loader's device tree parser: [bootloader/lib/fdt.c]

    The boot loader walks the tree with a copy of the kernel's parser, but reads
    the two addresses it wants in its own way.  [boot_uart_base] says where that
    finds what the kernel finds, and what it finds otherwise. *)

From Stdlib Require Import Ascii String.
From S2P Require Import Prelude Config Align CString Buddy Allocator VfsData Fdt FdtProps.
#[local] Open Scope Z_scope.
#[local] Open Scope list_scope.

(** ** Byte order and alignment *)

Definition bswap32 (x : Z) : Z :=
  Z.lor (Z.lor (Z.lor (Z.land x 0xff000000 ⋙ 24) (Z.land x 0x00ff0000 ⋙ 8)) (u32 (Z.shiftl (Z.land x 0x0000ff00) 8)))
        (u32 (Z.shiftl (Z.land x 0x000000ff) 24)).

Definition bswap64 (x : Z) : Z := Z.lor (bswap32 (u32 (Z.land x 0xFFFFFFFF)) ⋘ 32) (bswap32 (u32 (x ⋙ 32))).

Definition align_up (ptr align : Z) : Z := Z.land (ptr ⊞ align ⊟ 1) (u64 (Z.lnot (align ⊟ 1))).

(** [align_up(ptr, 4)] as an offset. *)
Definition align4 (fdt : fdt_blob) (off : Z) : Z := align_up (fdt_ptr fdt ⊞ off) 4 ⊟ fdt_ptr fdt.

(** [bswap32( *(const uint32_t* )ptr)] and [bswap64( *(const uint64_t* )ptr)] *)
Definition read32 (fdt : fdt_blob) (off : Z) : option Z := bs ← at_ fdt off; x ← load32 bs 0; Some (bswap32 x).
Definition swap64 (fdt : fdt_blob) (off : Z) : option Z := bs ← at_ fdt off; x ← load64 bs 0; Some (bswap64 x).

(** ** The walks *)

(** [match_path] is the kernel's, character for character. *)
Definition match_path : nat -> list Z -> list Z -> option bool := Fdt.match_path.

Fixpoint path_loop (fuel : nat) (fdt : fdt_blob) (ptr : Z) (cur path : list Z) : option Z :=
  match fuel with
  | O => None
  | S fuel =>
      token ← read32 fdt ptr;
      let token_offset := i32 ptr in
      let ptr := ptr + 4 in
      if token =? FDT_BEGIN_NODE then
        s ← at_ fdt ptr;
        n ← strlen s;
        let ptr := align4 fdt (ptr + n + 1) in
        cur ← push_name cur (take (Z.to_nat n) s);
        found ← match_path (length cur + length path) (cur ++ [0]) path;
        if (found : bool) then Some token_offset else path_loop fuel fdt ptr cur path
      else if token =? FDT_END_NODE then path_loop fuel fdt ptr (pop_name cur) path
      else if token =? FDT_PROP then
        len ← read32 fdt ptr;
        path_loop fuel fdt (align4 fdt (ptr + 8 + len)) cur path
      else if token =? FDT_NOP then path_loop fuel fdt ptr cur path
      else if token =? FDT_END then Some (-1)
      else path_loop fuel fdt ptr cur path
  end.

Definition fdt_path_offset (fdt : fdt_blob) (path : list Z) : option Z :=
  magic ← read32 fdt h_magic;
  if negb (magic =? FDT_MAGIC) then Some (-1) else
  off_dt_struct ← read32 fdt h_off_dt_struct;
  path_loop (fdt_fuel fdt) fdt off_dt_struct [] path.

Fixpoint prop_loop (fuel : nat) (fdt : fdt_blob) (strings ptr : Z) (name : list Z) : option (option (Z * Z)) :=
  match fuel with
  | O => None
  | S fuel =>
      token ← read32 fdt ptr;
      let ptr := ptr + 4 in
      if token =? FDT_PROP then
        len ← read32 fdt ptr;
        nameoff ← read32 fdt (ptr + 4);
        let ptr := ptr + 8 in
        prop_name ← at_ fdt (strings + nameoff);
        c ← strcmp prop_name name;
        if c =? 0 then Some (Some (ptr, i32 len)) else prop_loop fuel fdt strings (align4 fdt (ptr + len)) name
      else if token =? FDT_NOP then prop_loop fuel fdt strings ptr name
      else Some None
  end.

Definition fdt_getprop (fdt : fdt_blob) (nodeoffset : Z) (name : list Z) : option (option (Z * Z)) :=
  strings ← read32 fdt h_off_dt_strings;
  token ← read32 fdt nodeoffset;
  if negb (token =? FDT_BEGIN_NODE) then Some None else
  n ← str_at fdt (nodeoffset + 4);
  prop_loop (fdt_fuel fdt) fdt strings (align4 fdt (nodeoffset + 4 + n + 1)) name.

(** ** What the boot loader reads *)

(** The path of the console's node, an alias resolved: None for the returns
    before there is one. *)
Definition stdout_path (fdt : fdt_blob) (chosen_offset : Z) : option (option (list Z)) :=
  prop ← fdt_getprop fdt chosen_offset (lit "stdout-path");
  match prop with
  | None => Some None
  | Some (p, _) =>
      s ← at_ fdt p;
      n ← strlen s;
      if 256 <? n + 1 then None else
      let path := cut_colon (take (Z.to_nat n) s) ++ [0] in
      c ← head path;
      if c =? 47 then Some (Some path) else
      aliases_offset ← fdt_path_offset fdt (lit "/aliases");
      if aliases_offset <? 0 then Some None else
      alias_prop ← fdt_getprop fdt aliases_offset path;
      match alias_prop with None => Some None | Some (a, _) => real ← at_ fdt a; Some (Some real) end
  end.

(** The new [uart_base_addr]: eight bytes of [reg], whatever its length. *)
Definition init_uart_from_fdt (fdt : fdt_blob) : option Z :=
  chosen_offset ← fdt_path_offset fdt (lit "/chosen");
  if chosen_offset <? 0 then Some UART_DEFAULT else
  path ← stdout_path fdt chosen_offset;
  match path with
  | None => Some UART_DEFAULT
  | Some real_path =>
      uart_offset ← fdt_path_offset fdt real_path;
      if uart_offset <? 0 then Some UART_DEFAULT else
      reg_prop ← fdt_getprop fdt uart_offset (lit "reg");
      match reg_prop with None => Some UART_DEFAULT | Some (reg, _) => swap64 fdt reg end
  end.

Definition get_initrd_start (fdt : option fdt_blob) : option Z :=
  match fdt with
  | None => Some 0
  | Some fdt =>
      chosen ← fdt_path_offset fdt (lit "/chosen");
      if negb (0 <=? chosen) then Some 0 else
      prop ← fdt_getprop fdt chosen (lit "linux,initrd-start");
      prop ← (match prop with None => fdt_getprop fdt chosen (lit "initrd-start") | Some _ => Some prop end);
      match prop with
      | None => Some 0
      | Some (p, len) => if len =? 4 then read32 fdt p else if len =? 8 then swap64 fdt p else Some 0
      end
  end.

(** ** The walks are the kernel's *)

Lemma path_offset_same fdt path : fdt_path_offset fdt path = Fdt.fdt_path_offset fdt path.
Proof. reflexivity. Qed.

Lemma prop_loop_same : prop_loop = Fdt.prop_loop.
Proof. reflexivity. Qed.

Lemma align4_same fdt off : align4 fdt off = Fdt.align4 fdt off.
Proof. reflexivity. Qed.

Lemma getprop_same fdt off name : fdt_getprop fdt off name = Fdt.fdt_getprop fdt off name.
Proof.
  unfold fdt_getprop, Fdt.fdt_getprop, skip_name. rewrite prop_loop_same. change read32 with Fdt.read32. apply bind_ext. intros strings. apply bind_ext. intros token.
  destruct (token =? FDT_BEGIN_NODE); [| reflexivity]. cbn [negb]. destruct (str_at fdt (off + 4)) as [n |]; [| reflexivity]. rewrite !bind_some, align4_same. reflexivity.
Qed.

Lemma stdout_path_same fdt off : stdout_path fdt off = Fdt.stdout_path fdt off.
Proof.
  unfold stdout_path, Fdt.stdout_path. rewrite getprop_same. apply bind_ext. intros [[p len] |]; [| reflexivity].
  apply bind_ext. intros s. apply bind_ext. intros n. destruct (256 <? n + 1); [reflexivity |]. apply bind_ext. intros c.
  destruct (c =? 47); [reflexivity |]. rewrite path_offset_same. apply bind_ext. intros al. destruct (al <? 0); [reflexivity |]. by rewrite getprop_same.
Qed.

(** The [reg] property of the console's node: None inside for the returns that
    leave the default. *)
Definition console_reg (fdt : fdt_blob) : option (option (Z * Z)) :=
  chosen_offset ← Fdt.fdt_path_offset fdt (lit "/chosen");
  if chosen_offset <? 0 then Some None else
  path ← Fdt.stdout_path fdt chosen_offset;
  match path with
  | None => Some None
  | Some real_path =>
      uart_offset ← Fdt.fdt_path_offset fdt real_path;
      if uart_offset <? 0 then Some None else Fdt.fdt_getprop fdt uart_offset (lit "reg")
  end.

(** Both parsers come to [reg] in the same way. *)
Lemma after_console_reg {A} fdt (d : A) (f : Z * Z -> option A) :
  (chosen_offset ← Fdt.fdt_path_offset fdt (lit "/chosen");
   if chosen_offset <? 0 then Some d else
   path ← Fdt.stdout_path fdt chosen_offset;
   match path with
   | None => Some d
   | Some real_path =>
       uart_offset ← Fdt.fdt_path_offset fdt real_path;
       if uart_offset <? 0 then Some d else
       reg_prop ← Fdt.fdt_getprop fdt uart_offset (lit "reg");
       match reg_prop with None => Some d | Some r => f r end
   end) = reg ← console_reg fdt; match reg with None => Some d | Some r => f r end.
Proof.
  unfold console_reg. generalize (lit "/chosen") as l1, (lit "reg") as l2. intros l1 l2.
  destruct (Fdt.fdt_path_offset fdt l1) as [off |]; [| reflexivity]. rewrite !bind_some. destruct (off <? 0); [reflexivity |].
  destruct (Fdt.stdout_path fdt off) as [[path |] |]; [| reflexivity | reflexivity]. rewrite !bind_some.
  destruct (Fdt.fdt_path_offset fdt path) as [uart |]; [| reflexivity]. rewrite !bind_some. by destruct (uart <? 0).
Qed.

Lemma kernel_uart fdt : Fdt.init_uart_from_fdt fdt =
  reg ← console_reg fdt;
  match reg with
  | None => Some UART_DEFAULT
  | Some (reg, len) =>
      if len <? 4 then Some UART_DEFAULT else
      addr_cells ← address_cells fdt;
      if (addr_cells =? 2) && (8 <=? len) then read64 fdt reg else Fdt.read32 fdt reg
  end.
Proof.
  exact (after_console_reg fdt UART_DEFAULT (fun '(reg, len) =>
    if len <? 4 then Some UART_DEFAULT else
    addr_cells ← address_cells fdt; if (addr_cells =? 2) && (8 <=? len) then read64 fdt reg else Fdt.read32 fdt reg)).
Qed.

Lemma boot_uart fdt : init_uart_from_fdt fdt =
  reg ← console_reg fdt; match reg with None => Some UART_DEFAULT | Some (reg, _) => swap64 fdt reg end.
Proof.
  rewrite <- (after_console_reg fdt UART_DEFAULT (fun '(reg, _) => swap64 fdt reg)). unfold init_uart_from_fdt. rewrite path_offset_same.
  apply bind_ext. intros off. destruct (off <? 0); [reflexivity |]. rewrite stdout_path_same. apply bind_ext. intros [real |]; [| reflexivity].
  rewrite path_offset_same. apply bind_ext. intros u. destruct (u <? 0); [reflexivity |]. by rewrite getprop_same.
Qed.

(** ** Eight bytes are two cells *)

Lemma load32_skip bs n : load32 (drop n bs) 0 = load32 bs n.
Proof. unfold load32. rewrite !lookup_drop. cbn [Nat.add]. by rewrite Nat.add_0_r. Qed.

Lemma load32_length bs n x : load32 bs n = Some x -> (n + 4 <= length bs)%nat.
Proof.
  unfold load32. destruct (bs !! n), (bs !! (n + 1)%nat), (bs !! (n + 2)%nat), (bs !! (n + 3)%nat) as [b |] eqn:E; try discriminate.
  apply lookup_lt_Some in E. lia.
Qed.

Lemma load32_range bs n x : Forall byte bs -> load32 bs n = Some x -> 0 <= x < 2 ^ 32.
Proof.
  intros Hb. unfold load32. destruct (bs !! n) eqn:E0, (bs !! (n + 1)%nat) eqn:E1, (bs !! (n + 2)%nat) eqn:E2, (bs !! (n + 3)%nat) eqn:E3; try discriminate.
  cbn [mbind option_bind]. intros [= <-].
  repeat match goal with E : bs !! _ = Some _ |- _ => apply (Forall_lookup_1 _ _ _ _ Hb) in E; unfold byte in E end. unfold le32. lia.
Qed.

Lemma read32_range fdt off x : Forall byte (fdt_bytes fdt) -> Fdt.read32 fdt off = Some x -> 0 <= x < 2 ^ 32.
Proof.
  intros Hb. unfold Fdt.read32, at_. destruct (_ || _); [discriminate |]. rewrite bind_some.
  destruct (load32 _ 0) as [y |] eqn:E; [| discriminate]. rewrite bind_some. intros [= <-]. apply bswap32_range. eapply load32_range; [| exact E].
  by apply Forall_drop.
Qed.

Lemma swap64_read64 fdt off : Forall byte (fdt_bytes fdt) -> swap64 fdt off = read64 fdt off.
Proof.
  intros Hb. unfold swap64, read64, Fdt.read32.
  destruct (at_ fdt off) as [bs |] eqn:E; [| reflexivity]. rewrite !bind_some. unfold load64.
  assert (Hbs : Forall byte bs).
  { unfold at_ in E. destruct (_ || _); [discriminate |]. injection E as <-. by apply Forall_drop. }
  destruct (load32 bs 0) as [lo |] eqn:El; [| reflexivity]. rewrite !bind_some.
  assert (E4 : at_ fdt (off + 4) = Some (drop 4 bs)).
  { replace bs with (take 4 bs ++ drop 4 bs) in E by apply take_drop. apply at_app in E. rewrite length_take_le in E; [exact E |].
    by apply load32_length in El. }
  rewrite E4, bind_some, load32_skip. cbn [Nat.add]. destruct (load32 bs 4) as [hi |] eqn:Eh; [| reflexivity]. rewrite !bind_some. f_equal.
  pose proof (load32_range _ _ _ Hbs El). pose proof (load32_range _ _ _ Hbs Eh).
  change (bswap64 (lo + hi * 2 ^ 32)) with (Align.bswap64 (lo + hi * 2 ^ 32)). rewrite bswap64_split by done.
  pose proof (bswap32_range _ H). pose proof (bswap32_range _ H0). rewrite Z.shiftl_mul_pow2, u64_small by lia. symmetry. by apply lor_add_disjoint.
Qed.

Lemma initrd_start_same fdt : Forall byte (fdt_bytes fdt) -> get_initrd_start (Some fdt) = Fdt.get_initrd_start (Some fdt).
Proof.
  intros Hb. unfold get_initrd_start, Fdt.get_initrd_start, get_chosen_addr_prop. rewrite path_offset_same. apply bind_ext. intros chosen.
  destruct (Z.leb_spec 0 chosen), (Z.ltb_spec chosen 0); try lia; [| reflexivity]. cbn [negb]. rewrite !getprop_same. apply bind_ext. intros prop.
  apply bind_ext. intros [[p len] |]; [| reflexivity]. cbn [parse_addr_prop]. destruct (len =? 4); [reflexivity |].
  destruct (len =? 8); [by apply swap64_read64 | reflexivity].
Qed.

(** The kernel reads a cell where the boot loader reads two: the upper half. *)
Lemma swap64_upper fdt off b : Forall byte (fdt_bytes fdt) -> swap64 fdt off = Some b -> Fdt.read32 fdt off = Some (b / 2 ^ 32).
Proof.
  intros Hb. rewrite swap64_read64 by done. unfold read64. destruct (Fdt.read32 fdt off) as [hi |] eqn:Eh; [| discriminate]. rewrite bind_some.
  destruct (Fdt.read32 fdt (off + 4)) as [lo |] eqn:El; [| discriminate]. rewrite bind_some. intros [= <-]. f_equal.
  pose proof (read32_range _ _ _ Hb Eh). pose proof (read32_range _ _ _ Hb El). rewrite Z.shiftl_mul_pow2, u64_small, lor_add_disjoint by lia. dlia.
Qed.

(** ** The property *)

(** C35: the boot loader finds the initial ram disk where the kernel finds it, and
    the serial port too when addresses are two cells: the property of a console
    that is described otherwise is read as eight bytes all the same, of which the
    kernel's address is the upper half. *)
Theorem boot_uart_base fdt : Forall byte (fdt_bytes fdt) ->
  get_initrd_start (Some fdt) = Fdt.get_initrd_start (Some fdt) /\
  match console_reg fdt with
  | None => init_uart_from_fdt fdt = None /\ Fdt.init_uart_from_fdt fdt = None
  | Some None => init_uart_from_fdt fdt = Some UART_DEFAULT /\ Fdt.init_uart_from_fdt fdt = Some UART_DEFAULT
  | Some (Some (reg, len)) =>
      init_uart_from_fdt fdt = read64 fdt reg /\
      forall cells, 4 <= len -> address_cells fdt = Some cells ->
        (cells = 2 -> 8 <= len -> Fdt.init_uart_from_fdt fdt = init_uart_from_fdt fdt) /\
        (cells <> 2 \/ len < 8 -> forall b, init_uart_from_fdt fdt = Some b -> Fdt.init_uart_from_fdt fdt = Some (b / 2 ^ 32))
  end.
Proof.
  intros Hb. split; [by apply initrd_start_same |]. rewrite (kernel_uart fdt), (boot_uart fdt).
  destruct (console_reg fdt) as [[[reg len] |] |]; [| done | done]. rewrite !bind_some. split; [by apply swap64_read64 |].
  intros cells Hl Hc. destruct (Z.ltb_spec len 4); [lia |]. rewrite Hc, bind_some. split.
  - intros -> H8. destruct (Z.leb_spec 8 len); [| lia]. cbn [Z.eqb Pos.eqb andb]. symmetry. by apply swap64_read64.
  - intros Hor b Hs. assert (E : (cells =? 2) && (8 <=? len) = false) by (destruct (Z.eqb_spec cells 2), (Z.leb_spec 8 len); (done || lia)).
    rewrite E. by apply swap64_upper.
Qed.

(** A machine with 32-bit addresses: one cell for the address, one for the size. *)
Definition small_names : list (list Z) := [chars "#address-cells"; chars "stdout-path"; chars "reg"].
Definition small_tree : dnode :=
  DNode [] [(chars "#address-cells", be32 1)] [
    DNode (chars "chosen") [(chars "stdout-path", chars "/serial" ++ [0])] [];
    DNode (chars "serial@10000000") [(chars "reg", be32 0x10000000 ++ be32 0x100)] []].
Definition small_blob : fdt_blob := image small_names 0x88000000 small_tree.

#[local] Instance byte_dec b : Decision (byte b).
Proof. unfold byte. apply _. Defined.

Lemma boot_uart_base_witness :
  Fdt.init_uart_from_fdt small_blob = Some 0x10000000 /\ init_uart_from_fdt small_blob = Some 0x1000000000000100.
Proof.
  assert (Hb : Forall byte (fdt_bytes small_blob)) by (apply (bool_decide_unpack _); vm_compute; exact I).
  destruct (boot_uart_base small_blob Hb) as [_ H].
  assert (Ec : console_reg small_blob = Some (Some (132, 8))) by (vm_compute; reflexivity).
  assert (Er : read64 small_blob 132 = Some 0x1000000000000100) by (vm_compute; reflexivity). rewrite Ec in H. destruct H as [Hi Hk]. rewrite Er in Hi. split; [| exact Hi].
  assert (Ea : address_cells small_blob = Some 1) by (vm_compute; reflexivity).
  assert (H4 : 4 <= 8) by discriminate. assert (H1 : 1 <> 2 \/ 8 < 8) by (left; discriminate).
  destruct (Hk 1 H4 Ea) as [_ Hs]. specialize (Hs H1 _ Hi).
  change (0x1000000000000100 / 2 ^ 32) with 0x10000000 in Hs. exact Hs.
Defined.
