(* ===== verification/Bootloader.v ===== *)
(** * The boot loader: [bootloader/main.c], [bootloader/src/uart.c]

    The shell that waits for the kernel on the serial line.  [input] is what the
    line will deliver; reading past its end waits for ever, which is no outcome.
    The output is the characters handed to [uart_putc], until [start_kernel] puts
    them on the wire. *)

From Stdlib Require Import Ascii String.
From S2P Require Import Prelude CString Align VfsData Stdio Cpio Fdt BootLib BootFdt.
#[local] Open Scope Z_scope.
#[local] Open Scope list_scope.

(** ** The line *)

(** [uart_getc] turns a carriage return into a newline; [uart_getc_raw] does not. *)
Definition uart_getc (input : list Z) : option (Z * list Z) :=
  match input with c :: input => Some (if c =? 13 then 10 else c, input) | [] => None end.

Definition uart_getc_raw (input : list Z) : option (Z * list Z) := match input with c :: input => Some (c, input) | [] => None end.

(** What reaches the wire. *)
Definition uart_putc (c : Z) : list Z := if c =? 10 then [13; c] else [c].

(** [for (c = 60; c >= 0; c -= 4)] *)
Fixpoint hex_loop (n : nat) (c h : Z) : list Z :=
  match n with
  | O => []
  | S n => let d := Z.land (h ⋙ c) 0xf in (if 9 <? d then d + 0x57 else d + 48) :: hex_loop n (c - 4) h
  end.

Definition uart_hex (h : Z) : list Z := chars "0x" ++ hex_loop 16 60 h.

(** ** Receiving the kernel *)

Definition BOOT_MAGIC : Z := 0x544F4F42.

(** Four bytes, the lowest first. *)
Definition get_word (input : list Z) : option (Z * list Z) :=
  '(b0, input) ← uart_getc_raw input; '(b1, input) ← uart_getc_raw input; '(b2, input) ← uart_getc_raw input; '(b3, input) ← uart_getc_raw input;
  Some (Z.lor (Z.lor (Z.lor b0 (b1 ⋘ 8)) (b2 ⋘ 16)) (b3 ⋘ 24), input).

Fixpoint wait_magic (fuel : nat) (input : list Z) : option (list Z) :=
  match fuel with
  | O => None
  | S fuel => '(magic, input) ← get_word input; if magic =? BOOT_MAGIC then Some input else wait_magic fuel input
  end.

(** [for (i = 0; i < size; i++) target[i] = uart_getc_raw();] *)
Fixpoint get_bytes (size : nat) (input : list Z) : option (list Z * list Z) :=
  match size with
  | O => Some ([], input)
  | S size => '(c, input) ← uart_getc_raw input; '(bs, input) ← get_bytes size input; Some (c :: bs, input)
  end.

(** [KERNEL_LOAD_ADDR] of [config.h]. *)
Definition KERNEL_LOAD_ADDR (orange_pi : bool) : Z := if orange_pi then 0x00200000 else 0x80200000.

(** The jump to the new kernel: where, the bytes from there on, and its arguments. *)
Record jump := Jump { j_addr : Z; j_code : list Z; j_hartid : Z; j_fdt : Z }.

(** The jump, what is left on the line, and the output. *)
Definition load_kernel (orange_pi : bool) (hartid : Z) (fdt : fdt_blob) (input : list Z) : option (jump * list Z * list Z) :=
  o1 ← say (line "Waiting for kernel...") [];
  input ← wait_magic (length input) input;
  '(size, input) ← get_word input;
  o2 ← say (chars "Kernel size: ") [];
  o3 ← say ([13; 10] ++ line "Loading...") [];
  if Z.of_nat (length input) <? size then None else
  '(target, input) ← get_bytes (Z.to_nat size) input;
  o4 ← say (line "Kernel loaded. Jumping to it...") [];
  Some (Jump (KERNEL_LOAD_ADDR orange_pi) target hartid (fdt_ptr fdt), input, o1 ++ o2 ++ uart_hex size ++ o3 ++ o4).

(** ** The shell *)

(** [char buffer[256]]: the characters typed that fit, which are echoed too. *)
Fixpoint read_line (fuel : nat) (input buffer : list Z) : option (list Z * list Z) :=
  match fuel with
  | O => None
  | S fuel =>
      '(c, input) ← uart_getc input;
      if (c =? 10) || (c =? 13) then Some (buffer, input)
      else if Z.of_nat (length buffer) <? 255 then read_line fuel input (buffer ++ [c])
      else read_line fuel input buffer
  end.

Inductive command := Help | Hello | Load | Unknown (buffer : list Z).

Definition is_command (buffer : list Z) (s : string) : option bool := z ← strcmp (buffer ++ [0]) (chars s ++ [0]); Some (z =? 0).

Definition command_of (buffer : list Z) : option command :=
  b ← is_command buffer "help"; if (b : bool) then Some Help else
  b ← is_command buffer "hello"; if (b : bool) then Some Hello else
  b ← is_command buffer "load"; if (b : bool) then Some Load else Some (Unknown buffer).

(** What a command prints; the unknown one is itself used as a format. *)
Definition reply (c : command) : option (list Z) :=
  match c with
  | Help =>
      a ← say (line "Avalible commands:") []; b ← say (line "  help - show all commands.") [];
      c ← say (line "  hello - print Hello world.") []; d ← say (line "  load - load kernel over UART.") [];
      Some (a ++ b ++ c ++ d)
  | Hello => say (line "Hello world.") []
  | Load => Some []
  | Unknown buffer =>
      a ← say (chars "Unknown command: ") []; b ← say buffer [];
      c ← say ([13; 10] ++ line "Use help to get commands.") [];
      Some (a ++ b ++ c)
  end.

(** [run_shell], until a kernel is loaded. *)
Fixpoint run_shell (fuel : nat) (orange_pi : bool) (hartid : Z) (fdt : fdt_blob) (input : list Z) : option (jump * list Z * list Z) :=
  match fuel with
  | O => None
  | S fuel =>
      prompt ← say ([13; 10] ++ chars "# ") [];
      '(buffer, input) ← read_line (S (length input)) input [];
      newline ← say [13; 10] [];
      let out := prompt ++ buffer ++ newline in
      '(j, input, out') ← (match buffer with
        | [] => run_shell fuel orange_pi hartid fdt input
        | _ =>
            c ← command_of buffer;
            match c with
            | Load => load_kernel orange_pi hartid fdt input
            | _ => r ← reply c; '(j, input, out') ← run_shell fuel orange_pi hartid fdt input; Some (j, input, r ++ out')
            end
        end);
      Some (j, input, out ++ out')
  end.

(** The base address the registers of the serial port are then found at, the
    jump, what is left on the line, and what was sent. *)
Definition start_kernel (fuel : nat) (orange_pi : bool) (hartid : Z) (fdt : fdt_blob) (input : list Z) : option (Z * jump * list Z * list Z) :=
  uart_base_addr ← init_uart_from_fdt fdt;
  banner ← say (line "Start Bootloader...:") [];
  '(j, input, out) ← run_shell fuel orange_pi hartid fdt input;
  Some (uart_base_addr, j, input, (banner ++ out) ≫= uart_putc).

(** ** The sender *)

Definition le_bytes (x : Z) : list Z := [x mod 256; x / 2 ^ 8 mod 256; x / 2 ^ 16 mod 256; x / 2 ^ 24 mod 256].

(** What the host sends for a kernel image: "BOOT", the size, the bytes. *)
Definition send_kernel (kernel : list Z) : list Z := le_bytes BOOT_MAGIC ++ le_bytes (Z.of_nat (length kernel)) ++ kernel.

Lemma lor_bytes b0 b1 b2 b3 : byte b0 -> byte b1 -> byte b2 -> byte b3 ->
  Z.lor (Z.lor (Z.lor b0 (b1 ⋘ 8)) (b2 ⋘ 16)) (b3 ⋘ 24) = le32 b0 b1 b2 b3.
Proof.
  unfold byte, le32. intros. rewrite !Z.shiftl_mul_pow2, !u64_small by lia.
  rewrite (Z.lor_comm b0), (lor_add_disjoint b1 b0 8), (Z.lor_comm (_ + b0)), (lor_add_disjoint b2 _ 16), (Z.lor_comm (_ + _)), (lor_add_disjoint b3 _ 24) by lia. lia.
Qed.

Lemma get_word_spec b0 b1 b2 b3 rest : byte b0 -> byte b1 -> byte b2 -> byte b3 ->
  get_word (b0 :: b1 :: b2 :: b3 :: rest) = Some (le32 b0 b1 b2 b3, rest).
Proof. intros. unfold get_word. cbn [uart_getc_raw mbind option_bind]. by rewrite lor_bytes. Qed.

Lemma get_word_le x rest : 0 <= x < 2 ^ 32 -> get_word (le_bytes x ++ rest) = Some (x, rest).
Proof. intros Hx. cbn [le_bytes app]. rewrite get_word_spec by (unfold byte; dlia). unfold le32. do 2 f_equal. dlia. Qed.

Lemma get_bytes_spec bs rest : get_bytes (length bs) (bs ++ rest) = Some (bs, rest).
Proof. induction bs as [| c bs IH]; [done |]. cbn [length app get_bytes uart_getc_raw mbind option_bind]. by rewrite IH. Qed.

(** Words that are not the magic number. *)
Definition noise (ws : list Z) : Prop := Forall (fun w => 0 <= w < 2 ^ 32 /\ w <> BOOT_MAGIC) ws.

Lemma wait_magic_spec ws rest : noise ws -> forall fuel, (length ws < fuel)%nat -> wait_magic fuel ((ws ≫= le_bytes) ++ le_bytes BOOT_MAGIC ++ rest) = Some rest.
Proof.
  induction 1 as [| w ws [Hw Hne] _ IH]; intros fuel Hf; (destruct fuel as [| fuel]; [lia |]); cbn [wait_magic].
  - cbn [mbind list_bind]. rewrite app_nil_l, get_word_le by done. done.
  - cbn [mbind list_bind]. rewrite <- app_assoc, get_word_le by done. change (list_bind _ _ le_bytes ws) with (ws ≫= le_bytes). set (F := ws ≫= le_bytes) in *. cbn [mbind option_bind]. destruct (Z.eqb_spec w BOOT_MAGIC); [done |]. apply IH. cbn in Hf. lia.
Qed.

Lemma words_length ws : length (ws ≫= le_bytes) = (4 * length ws)%nat.
Proof. induction ws as [| w ws IH]; [done |]. cbn [mbind list_bind]. rewrite length_app. change (list_bind _ _ le_bytes ws) with (ws ≫= le_bytes). rewrite IH. cbn [length le_bytes]. lia. Qed.

(** What [load_kernel] prints for an image of that size. *)
Definition load_output (size : Z) : list Z :=
  line "Waiting for kernel..." ++ chars "Kernel size: " ++ uart_hex size ++ [13; 10] ++ line "Loading..." ++ line "Kernel loaded. Jumping to it...".

Lemma load_kernel_spec o hartid fdt ws kernel rest : noise ws -> Z.of_nat (length kernel) < 2 ^ 32 ->
  load_kernel o hartid fdt ((ws ≫= le_bytes) ++ send_kernel kernel ++ rest) =
  Some (Jump (KERNEL_LOAD_ADDR o) kernel hartid (fdt_ptr fdt), rest, load_output (Z.of_nat (length kernel))).
Proof.
  intros Hn Hk. unfold load_kernel, send_kernel. rewrite <- !app_assoc.
  replace (say (line "Waiting for kernel...") []) with (Some (line "Waiting for kernel...")) by reflexivity. rewrite bind_some.
  rewrite wait_magic_spec; [| done | rewrite !length_app, words_length; cbn [length le_bytes]; lia]. rewrite bind_some.
  rewrite get_word_le by lia. rewrite bind_some. cbv beta iota.
  replace (say (chars "Kernel size: ") []) with (Some (chars "Kernel size: ")) by reflexivity. rewrite bind_some.
  replace (say ([13; 10] ++ line "Loading...") []) with (Some ([13; 10] ++ line "Loading...")) by reflexivity. rewrite bind_some.
  rewrite length_app. destruct (Z.ltb_spec (Z.of_nat (length kernel + length rest)) (Z.of_nat (length kernel))); [lia |].
  rewrite Nat2Z.id, get_bytes_spec, bind_some. cbv beta iota.
  replace (say (line "Kernel loaded. Jumping to it...") []) with (Some (line "Kernel loaded. Jumping to it...")) by reflexivity. rewrite bind_some.
  unfold load_output. by rewrite <- !app_assoc.
Qed.

(** Characters that do not end a line. *)
Definition line_char (c : Z) : Prop := c <> 10 /\ c <> 13.

Lemma read_line_spec line rest : Forall line_char line -> forall fuel buffer, (length line < fuel)%nat -> (length buffer <= 255)%nat ->
  read_line fuel (line ++ 10 :: rest) buffer = Some (take 255 (buffer ++ line), rest).
Proof.
  induction 1 as [| c line [H10 H13] _ IH]; intros fuel buffer Hf Hb; (destruct fuel as [| fuel]; [cbn in Hf; lia |]); cbn [app read_line uart_getc mbind option_bind Z.eqb Pos.eqb orb].
  - rewrite app_nil_r, take_ge by lia. done.
  - destruct (Z.eqb_spec c 13); [done |]. destruct (Z.eqb_spec c 10), (Z.eqb_spec c 13); try done. cbn [orb].
    destruct (Z.ltb_spec (Z.of_nat (length buffer)) 255).
    + rewrite IH; [by rewrite <- app_assoc | cbn in Hf; lia | rewrite length_app; cbn; lia].
    + rewrite IH by (cbn in Hf; lia). by rewrite !take_app_le by lia.
Qed.

(** A line that is the command [load]. *)
Lemma run_shell_load fuel o hartid fdt buffer rest : Forall line_char buffer -> (length buffer <= 255)%nat -> command_of buffer = Some Load ->
  run_shell (S fuel) o hartid fdt (buffer ++ 10 :: rest) =
  '(j, input, out) ← load_kernel o hartid fdt rest; Some (j, input, ([13; 10] ++ chars "# " ++ buffer ++ [13; 10]) ++ out).
Proof.
  intros Hl Hb Hc. cbn [run_shell]. replace (say ([13; 10] ++ chars "# ") []) with (Some ([13; 10] ++ chars "# ")) by reflexivity. rewrite bind_some.
  rewrite (read_line_spec buffer) by (done || rewrite ?length_app; cbn; lia). rewrite app_nil_l, take_ge, bind_some by done. cbv beta iota.
  replace (say [13; 10] []) with (Some [13; 10]) by reflexivity. rewrite bind_some. cbv zeta.
  destruct buffer as [| c buffer]; [discriminate Hc |]. rewrite Hc, bind_some. by rewrite <- !app_assoc.
Qed.

(** ** The properties *)

(** C34: the loader receives what the host sends: after the command [load] and any
    whole words that are not the magic number, [send_kernel] of an image leaves
    exactly its bytes at the load address, and the loader jumps there with its own
    arguments, having said so on the serial port the device tree names. *)
Theorem load_receives_kernel o hartid fdt base ws kernel rest fuel : init_uart_from_fdt fdt = Some base ->
  noise ws -> Z.of_nat (length kernel) < 2 ^ 32 -> (0 < fuel)%nat ->
  start_kernel fuel o hartid fdt (chars "load" ++ 10 :: (ws ≫= le_bytes) ++ send_kernel kernel ++ rest) =
  Some (base, Jump (KERNEL_LOAD_ADDR o) kernel hartid (fdt_ptr fdt), rest,
    (line "Start Bootloader...:" ++ [13; 10] ++ chars "# load" ++ [13; 10] ++ load_output (Z.of_nat (length kernel))) ≫= uart_putc).
Proof.
  intros Hu Hn Hk Hf. destruct fuel as [| fuel]; [lia |]. unfold start_kernel. rewrite Hu, bind_some.
  replace (say (line "Start Bootloader...:") []) with (Some (line "Start Bootloader...:")) by reflexivity. rewrite bind_some.
  assert (Hl : Forall line_char (chars "load")) by (change (Forall line_char [108; 111; 97; 100]); repeat constructor; discriminate).
  assert (Hlen : (length (chars "load") <= 255)%nat) by (cbn; lia).
  rewrite (run_shell_load fuel o hartid fdt (chars "load") _ Hl Hlen eq_refl).
  rewrite load_kernel_spec, !bind_some by done. reflexivity.
Qed.

(** One stray byte is enough to miss the magic number. *)
Lemma load_loses_step o hartid fdt : load_kernel o hartid fdt (0 :: send_kernel [1; 2; 3]) = None.
Proof. vm_compute. reflexivity. Qed.

(** A command with a conversion in it reads arguments that are not there; [%p] is
    none in the boot loader. *)
Lemma unknown_command_format : command_of (chars "%s") = Some (Unknown (chars "%s")) /\ reply (Unknown (chars "%s")) = None /\
  reply (Unknown (chars "%p")) = Some (chars "Unknown command: %p" ++ [13; 10] ++ line "Use help to get commands.").
Proof. repeat split; vm_compute; reflexivity. Qed.

Lemma load_receives_kernel_witness : exists out,
  start_kernel 1 false 3 small_blob (chars "load" ++ 10 :: ([0x41414141] ≫= le_bytes) ++ send_kernel [0x13; 0; 0; 0] ++ []) =
    Some (0x1000000000000100, Jump 0x80200000 [0x13; 0; 0; 0] 3 0x88000000, [], out).
Proof.
  assert (Hu : init_uart_from_fdt small_blob = Some 0x1000000000000100) by (vm_compute; reflexivity).
  eexists. apply (load_receives_kernel false 3 small_blob _ [0x41414141] [0x13; 0; 0; 0] [] 1 Hu); [by repeat constructor | reflexivity | lia].
Defined.
