(* ===== verification/Tmpfs.v ===== *)
(** * The file system in memory: [src/tmpfs.c] *)

From S2P Require Import Prelude Config Heap CString VfsData.

Definition TMPFS_MAX_FILE_NAME : nat := 32.
Definition TMPFS_MAX_DIR_ENTRY : nat := 16.
Definition TMPFS_MAX_FILE_SIZE : Z := 4096.

(** The string at the start of a buffer. *)
Fixpoint c_str (buf : list Z) : list Z :=
  match buf with c :: buf => if c =? 0 then [] else c :: c_str buf | [] => [] end.

(** [strncpy(name, s, n - 1); name[n - 1] = 0] into a zeroed field of [n] bytes. *)
Definition name_field (n : nat) (s : list Z) : option (list Z) :=
  buf ← strncpy (replicate n 0) (cstr s []) (n - 1);
  Some (c_str (<[(n - 1)%nat := 0]> buf)).

(** The bytes [off, off + len) of a buffer, None when it is too short. *)
Definition slice (bs : list Z) (off len : Z) : option (list Z) :=
  if (off <? 0) || (len <? 0) || (Z.of_nat (length bs) <? off + len) then None
  else Some (take (Z.to_nat len) (drop (Z.to_nat off) bs)).

(** [memcpy(bs + off, src, len)] *)
Definition splice (bs : list Z) (off : Z) (src : list Z) (len : Z) : option (list Z) :=
  src ← slice src 0 len;
  if (off <? 0) || (Z.of_nat (length bs) <? off + len) then None
  else Some (take (Z.to_nat off) bs ++ src ++ drop (Z.to_nat (off + len)) bs).

(** The first empty entry. *)
Fixpoint first_null (i : nat) (es : list Z) : option nat :=
  match es with [] => None | e :: es => if e =? 0 then Some i else first_null (S i) es end.

Section Tmpfs.
Context {H : Type} {HO : HeapOps H}.
Notation vstate := (vstate H).

Definition tmpfs_create_vnode (ty : fsnode_type) (s : vstate) : option (Z * vstate) :=
  '(v, s) ← new_object SIZEOF_VNODE s;
  '(internal, s) ← new_object SIZEOF_TMPFS_VNODE s;
  Some (v, on_vst (put_tnode internal (TmpfsVnode ty [] (replicate TMPFS_MAX_DIR_ENTRY 0) 0 [] 0))
             (on_vst (put_vnode v (Vnode 0 tmpfs_ops internal 0)) s)).

(** The result code and the root vnode. *)
Definition tmpfs_setup_mount (s : vstate) : option (Z * Z * vstate) :=
  '(root, s) ← tmpfs_create_vnode FS_DIR s; Some (0, root, s).

(** Open, of the three file systems: the position is reset. *)
Definition fs_open (ops : fs_ops) (file_node target : Z) (s : vstate) : option (Z * vstate) :=
  f ← files (vst s) !! target;
  Some (0, on_vst (put_file target (set_f_pos 0 (set_f_ops ops (set_f_vnode file_node f)))) s).

Definition tmpfs_open : Z -> Z -> vstate -> option (Z * vstate) := fs_open tmpfs_ops.

Definition tmpfs_close (f : Z) : Z := 0.

(** The answer (an [int]) and the bytes copied to the caller's buffer. *)
Definition tmpfs_read (f len : Z) (s : vstate) : option (Z * list Z * vstate) :=
  fl ← files (vst s) !! f;
  vn ← vnodes (vst s) !! f_vnode fl;
  inode ← tnodes (vst s) !! v_internal vn;
  if decide (t_type inode <> FS_FILE) then Some (-1, [], s) else
  if t_size inode <=? f_pos fl then Some (0, [], s) else
  let len := if t_size inode <? f_pos fl ⊞ len then t_size inode ⊟ f_pos fl else len in
  bs ← slice (t_bytes inode) (f_pos fl) len;
  Some (i32 len, bs, on_vst (put_file f (set_f_pos (f_pos fl ⊞ len) fl)) s).

(** [buf] is what the caller's buffer holds.  The data block is allocated by
    the first write; a NULL is written through. *)
Definition tmpfs_write (f : Z) (buf : list Z) (len : Z) (s : vstate) : option (Z * vstate) :=
  fl ← files (vst s) !! f;
  vn ← vnodes (vst s) !! f_vnode fl;
  inode ← tnodes (vst s) !! v_internal vn;
  if decide (t_type inode <> FS_FILE) then Some (-1, s) else
  '(inode, s) ← (if t_data inode =? 0 then
                   '(p, s) ← new_object TMPFS_MAX_FILE_SIZE s;
                   Some (set_t_bytes (replicate (Z.to_nat TMPFS_MAX_FILE_SIZE) 0) (set_t_data p inode), s)
                 else Some (inode, s));
  let len := if TMPFS_MAX_FILE_SIZE <? f_pos fl ⊞ len then TMPFS_MAX_FILE_SIZE ⊟ f_pos fl else len in
  bs ← splice (t_bytes inode) (f_pos fl) buf len;
  let pos := f_pos fl ⊞ len in
  let inode := set_t_bytes bs inode in
  let inode := if t_size inode <? pos then set_t_size pos inode else inode in
  Some (i32 len, on_vst (put_tnode (v_internal vn) inode) (on_vst (put_file f (set_f_pos pos fl)) s)).

(** The child with that name, None when there is none. *)
Fixpoint find_entry (name : list Z) (es : list Z) (v : vfs) : option (option Z) :=
  match es with
  | [] => Some None
  | e :: es =>
      if e =? 0 then find_entry name es v else
      vn ← vnodes v !! e;
      inode ← tnodes v !! v_internal vn;
      if streq (t_name inode) name then Some (Some e) else find_entry name es v
  end.

Definition tmpfs_lookup (dir : Z) (name : list Z) (s : vstate) : option (option Z * vstate) :=
  vn ← vnodes (vst s) !! dir;
  dentry ← tnodes (vst s) !! v_internal vn;
  if decide (t_type dentry <> FS_DIR) then Some (None, s) else
  r ← find_entry name (t_entry dentry) (vst s); Some (r, s).

(** [tmpfs_create] and [tmpfs_mkdir] differ in the type of the new node only. *)
Definition tmpfs_add (ty : fsnode_type) (dir : Z) (name : list Z) (s : vstate) : option (option Z * vstate) :=
  vn ← vnodes (vst s) !! dir;
  dentry ← tnodes (vst s) !! v_internal vn;
  if decide (t_type dentry <> FS_DIR) then Some (None, s) else
  '(new, s) ← tmpfs_create_vnode ty s;
  nv ← vnodes (vst s) !! new;
  inode ← tnodes (vst s) !! v_internal nv;
  nm ← name_field TMPFS_MAX_FILE_NAME name;
  let s := on_vst (put_tnode (v_internal nv) (set_t_name nm inode)) s in
  dentry ← tnodes (vst s) !! v_internal vn;
  match first_null 0 (t_entry dentry) with
  | Some i =>
      Some (Some new, on_vst (put_tnode (v_internal vn) (set_t_entry (<[i := new]> (t_entry dentry)) dentry)) s)
  | None => s ← free_object_at (v_internal nv) s; s ← free_object_at new s; Some (None, s)
  end.

Definition tmpfs_create : Z -> list Z -> vstate -> option (option Z * vstate) := tmpfs_add FS_FILE.
Definition tmpfs_mkdir : Z -> list Z -> vstate -> option (option Z * vstate) := tmpfs_add FS_DIR.

End Tmpfs.
