(* ===== verification/Ramfs.v ===== *)
(** * The file system of the initial ram disk: [src/ramfs.c] *)

From Stdlib Require Import Ascii String.
From S2P Require Import Prelude Config Heap CString VfsData Tmpfs.
#[local] Open Scope Z_scope.
#[local] Open Scope list_scope.

Definition RAMFS_MAX_FILE_NAME : nat := 256.

(** Hexadecimal digits: a character below '0' is not consumed. *)
Fixpoint hextoi (s : list Z) (n : nat) (r : Z) : option Z :=
  match n with
  | O => Some r
  | S n =>
      c ← head s;
      let r := i32 (Z.shiftl r 4) in
      if 97 <=? c then hextoi (tail s) n (i32 (r + (c - 97 + 10)))
      else if 65 <=? c then hextoi (tail s) n (i32 (r + (c - 65 + 10)))
      else if 48 <=? c then hextoi (tail s) n (i32 (r + (c - 48)))
      else hextoi s n r
  end.

Definition align_up_u32 (n a : Z) : Z := Z.land (u32 (n + a - 1)) (u32 (Z.lnot (a - 1))).

(** [struct cpio_t]: the size of the header and the fields that are read. *)
Definition SIZEOF_CPIO : Z := 110.
Definition cpio_mode : nat := 14.
Definition cpio_filesize : nat := 54.
Definition cpio_namesize : nat := 94.
Definition S_IFDIR : Z := 0x4000.

Section Ramfs.
Context {H : Type} {HO : HeapOps H}.
Notation vstate := (vstate H).

Definition ramfs_create_vnode (ty : fsnode_type) (name : list Z) (s : vstate) : option (Z * vstate) :=
  '(v, s) ← new_object SIZEOF_VNODE s;
  '(inode, s) ← new_object SIZEOF_RAMFS_INODE s;
  nm ← name_field RAMFS_MAX_FILE_NAME name;
  Some (v, on_vst (put_rnode inode (RamfsInode ty nm [] 0 0)) (on_vst (put_vnode v (Vnode 0 ramfs_ops inode 0)) s)).

Definition ramfs_open : Z -> Z -> vstate -> option (Z * vstate) := fs_open ramfs_ops.

Definition ramfs_close (f : Z) : Z := 0.

(** [initrd] is the contents of the initial ram disk. *)
Definition ramfs_read (initrd : list Z) (f len : Z) (s : vstate) : option (Z * list Z * vstate) :=
  fl ← files (vst s) !! f;
  vn ← vnodes (vst s) !! f_vnode fl;
  inode ← rnodes (vst s) !! v_internal vn;
  if decide (r_type inode <> FS_FILE) then Some (-1, [], s) else
  if r_size inode <=? f_pos fl then Some (0, [], s) else
  let len := if r_size inode <? f_pos fl ⊞ len then r_size inode ⊟ f_pos fl else len in
  bs ← slice initrd (r_data inode + f_pos fl) len;
  Some (i32 len, bs, on_vst (put_file f (set_f_pos (f_pos fl ⊞ len) fl)) s).

Definition ramfs_write (f : Z) : Z := -1.

Fixpoint find_rentry (name : list Z) (es : list Z) (v : vfs) : option (option Z) :=
  match es with
  | [] => Some None
  | e :: es =>
      vn ← vnodes v !! e;
      inode ← rnodes v !! v_internal vn;
      if streq (r_name inode) name then Some (Some e) else find_rentry name es v
  end.

Definition ramfs_lookup (dir : Z) (name : list Z) (s : vstate) : option (option Z * vstate) :=
  vn ← vnodes (vst s) !! dir;
  inode ← rnodes (vst s) !! v_internal vn;
  if decide (r_type inode <> FS_DIR) then Some (None, s) else
  r ← find_rentry name (r_entries inode) (vst s); Some (r, s).

Definition ramfs_create (dir : Z) (name : list Z) (s : vstate) : option (option Z * vstate) := Some (None, s).
Definition ramfs_mkdir (dir : Z) (name : list Z) (s : vstate) : option (option Z * vstate) := Some (None, s).

(** ** Mounting: the archive is unpacked into vnodes *)

(** A new entry of the directory [curr]. *)
Definition ramfs_link (ty : fsnode_type) (curr : Z) (token : list Z) (data size : Z) (s : vstate) : option (Z * vstate) :=
  '(next, s) ← ramfs_create_vnode ty token s;
  nv ← vnodes (vst s) !! next;
  inode ← rnodes (vst s) !! v_internal nv;
  let s := on_vst (put_rnode (v_internal nv) (set_r_size size (set_r_data data inode)))
             (on_vst (put_vnode next (set_v_parent curr nv)) s) in
  '(_, s) ← new_object SIZEOF_RAMFS_DIR_ENTRY s;
  cv ← vnodes (vst s) !! curr;
  ci ← rnodes (vst s) !! v_internal cv;
  Some (next, on_vst (put_rnode (v_internal cv) (set_r_entries (r_entries ci ++ [next]) ci)) s).

(** The components of a path, one vnode each: a directory when a component
    follows or the mode says so. *)
Fixpoint unpack_path (curr : Z) (toks : list (list Z)) (mode data size : Z) (s : vstate) : option vstate :=
  match toks with
  | [] => Some s
  | token :: toks =>
      '(next, s) ← ramfs_lookup curr token s;
      match next with
      | Some next => unpack_path next toks mode data size s
      | None =>
          '(next, s) ← (if bool_decide (toks <> []) || negb (Z.land mode S_IFDIR =? 0)
                        then ramfs_link FS_DIR curr token 0 0 s
                        else ramfs_link FS_FILE curr token data (u64 size) s);
          unpack_path next toks mode data size s
      end
  end.

(** One header after the other, up to the trailer or to a bad magic number. *)
Fixpoint unpack (fuel : nat) (initrd : list Z) (root ptr : Z) (s : vstate) : option vstate :=
  match fuel with
  | O => None
  | S fuel =>
      let hdr := drop (Z.to_nat ptr) initrd in
      m ← strncmp hdr (cstr (chars "070701") []) 6;
      if negb (m =? 0) then Some s else
      namesize ← hextoi (drop cpio_namesize hdr) 8 0;
      filesize ← hextoi (drop cpio_filesize hdr) 8 0;
      mode ← hextoi (drop cpio_mode hdr) 8 0;
      let name := drop (Z.to_nat SIZEOF_CPIO) hdr in
      t ← strcmp name (cstr (chars "TRAILER!!!") []);
      if t =? 0 then Some s else
      let data := ptr + align_up_u32 (u32 (SIZEOF_CPIO + namesize)) 4 in
      let ptr' := ptr + u32 (align_up_u32 (u32 (SIZEOF_CPIO + namesize)) 4 + align_up_u32 (u32 filesize) 4) in
      d ← strcmp name (cstr (chars ".") []);
      if d =? 0 then unpack fuel initrd root ptr' s else
      temp ← strncpy (replicate 256 0) name 255;
      let temp := <[255%nat := 0]> temp in
      toks ← tokens 256 (Some temp) [47; 0] None;
      s ← unpack_path root toks mode data filesize s;
      unpack fuel initrd root ptr' s
  end.

(** The result code and the root vnode, None for no initial ram disk. *)
Definition ramfs_setup_mount (fuel : nat) (initrd : option (list Z)) (s : vstate) : option (Z * option Z * vstate) :=
  match initrd with
  | None => Some (-1, None, s)
  | Some initrd =>
      '(root, s) ← ramfs_create_vnode FS_DIR (chars "/") s;
      s ← unpack fuel initrd root 0 s;
      Some (0, Some root, s)
  end.

End Ramfs.
