(* ===== verification/Vfs.v ===== *)
(** * The virtual file system: [src/vfs.c], and [src/devfs.c]

    Path lookup across mount points, the operations on open files, mounting.
    The device files are reached through the class [DevIO]: what
    [devfs_read] and [devfs_write] do to the devices. *)

From Stdlib Require Import Ascii String.
From S2P Require Import Prelude Config Heap CString VfsData Tmpfs Ramfs.
#[local] Open Scope Z_scope.
#[local] Open Scope list_scope.

(** ** [src/devfs.c] *)

(** The devices behind [/dev/uart] and [/dev/fb]: [uart_getc_nonblocking] (-1 when
    there is no character) and [uart_putc], what a call of [schedule] lets happen
    to them while other threads run, and how many such calls a reader waits at
    most; a write to the frame buffer with its flush, and the bytes that
    [video_get_info] fills in. *)
Class DevIO (D : Type) := {
  dev_getc : D -> option (Z * D);
  dev_putc : Z -> D -> option D;
  dev_yield : D -> D;
  dev_patience : nat;
  fb_write : Z -> list Z -> D -> option D;
  fb_info : D -> list Z;
}.

Section Characters.
Context {D : Type} {IO : DevIO D}.

(** [while ((c = uart_getc_nonblocking()) == -1) schedule();] *)
Fixpoint wait_char (fuel : nat) (d : D) : option (Z * D) :=
  '(c, d) ← dev_getc d;
  if c =? -1 then match fuel with O => None | S fuel => wait_char fuel (dev_yield d) end
  else Some (Z.land c 255, d).

(** The characters that are there, [n] at most. *)
Fixpoint read_available (n : nat) (d : D) : option (list Z * D) :=
  match n with
  | O => Some ([], d)
  | S n =>
      '(c, d) ← dev_getc d;
      if c =? -1 then Some ([], d) else '(cs, d) ← read_available n d; Some (Z.land c 255 :: cs, d)
  end.

Fixpoint put_all (bs : list Z) (d : D) : option D :=
  match bs with [] => Some d | c :: bs => d ← dev_putc c d; put_all bs d end.

End Characters.

Definition FB_IOCTL_GET_INFO : Z := 0.

Section Vfs.
Context {H : Type} {HO : HeapOps H} {D : Type} {IO : DevIO D}.
Notation vstate := (vstate H).

(** [internal] is the name of the device, which nothing reads. *)
Definition devfs_create_vnode (s : vstate) : option (Z * vstate) :=
  '(v, s) ← new_object SIZEOF_VNODE s;
  Some (v, on_vst (put_vnode v (Vnode 0 devfs_ops 0 0)) s).

Definition devfs_setup_mount (s : vstate) : option (Z * Z * vstate) :=
  '(root, s) ← devfs_create_vnode s; Some (0, root, s).

(** The device vnodes are created by the first lookup. *)
Definition devfs_lookup (dir : Z) (name : list Z) (s : vstate) : option (option Z * vstate) :=
  if streq name (chars "uart") then
    if uart_vnode (vst s) =? 0 then
      '(v, s) ← devfs_create_vnode s; Some (Some v, on_vst (set_uart_vnode v) s)
    else Some (Some (uart_vnode (vst s)), s)
  else if streq name (chars "fb") then
    if fb_vnode (vst s) =? 0 then
      '(v, s) ← devfs_create_vnode s; Some (Some v, on_vst (set_fb_vnode v) s)
    else Some (Some (fb_vnode (vst s)), s)
  else Some (None, s).

Definition devfs_open : Z -> Z -> vstate -> option (Z * vstate) := fs_open devfs_ops.

Definition devfs_close (f : Z) : Z := 0.

Definition devfs_read (f len : Z) (s : vstate) (d : D) : option (Z * list Z * vstate * D) :=
  if len =? 0 then Some (0, [], s, d)
  else
    '(c, d) ← wait_char dev_patience d;
    '(cs, d) ← read_available (Z.to_nat (len - 1)) d;
    Some (i32 (Z.of_nat (length (c :: cs))), c :: cs, s, d).

Definition devfs_write (f : Z) (buf : list Z) (len : Z) (s : vstate) (d : D) : option (Z * vstate * D) :=
  fl ← files (vst s) !! f;
  bs ← slice buf 0 len;
  if f_vnode fl =? fb_vnode (vst s) then
    d ← fb_write (f_pos fl) bs d;
    Some (i32 len, on_vst (put_file f (set_f_pos (f_pos fl ⊞ len) fl)) s, d)
  else d ← put_all bs d; Some (i32 len, s, d).

Definition devfs_lseek64 (f offset whence : Z) (s : vstate) : option (Z * vstate) :=
  if whence =? 0 then
    fl ← files (vst s) !! f; Some (offset, on_vst (put_file f (set_f_pos (u64 offset) fl)) s)
  else Some (-1, s).

Definition devfs_ioctl (f request : Z) (s : vstate) (d : D) : option (Z * list Z) :=
  fl ← files (vst s) !! f;
  if (f_vnode fl =? fb_vnode (vst s)) && (request =? FB_IOCTL_GET_INFO) then Some (0, fb_info d) else Some (-1, []).

(** ** The operation tables *)

Definition op_lookup (ops : fs_ops) (dir : Z) (name : list Z) (s : vstate) : option (option Z * vstate) :=
  match ops with
  | tmpfs_ops => tmpfs_lookup dir name s
  | ramfs_ops => ramfs_lookup dir name s
  | devfs_ops => devfs_lookup dir name s
  end.

(** The device file system has no [create] and no [mkdir]: the call goes
    through a null pointer. *)
Definition op_create (ops : fs_ops) (dir : Z) (name : list Z) (s : vstate) : option (option Z * vstate) :=
  match ops with
  | tmpfs_ops => tmpfs_create dir name s
  | ramfs_ops => ramfs_create dir name s
  | devfs_ops => None
  end.

Definition op_mkdir (ops : fs_ops) (dir : Z) (name : list Z) (s : vstate) : option (option Z * vstate) :=
  match ops with
  | tmpfs_ops => tmpfs_mkdir dir name s
  | ramfs_ops => ramfs_mkdir dir name s
  | devfs_ops => None
  end.

Definition op_open (ops : fs_ops) (node target : Z) (s : vstate) : option (Z * vstate) :=
  match ops with
  | tmpfs_ops => tmpfs_open node target s
  | ramfs_ops => ramfs_open node target s
  | devfs_ops => devfs_open node target s
  end.

Definition op_close (ops : fs_ops) (f : Z) : Z :=
  match ops with tmpfs_ops => tmpfs_close f | ramfs_ops => ramfs_close f | devfs_ops => devfs_close f end.

(** ** Paths *)

Definition is_slash (c : Z) : bool := c =? 47.

(** [temp[len - 1] = 0] while it is a slash; an index past the buffer has no outcome. *)
Fixpoint strip_slashes (fuel : nat) (len : Z) (temp : list Z) : option (list Z) :=
  if 1 <? len then
    c ← temp !! Z.to_nat (len - 1);
    if is_slash c then
      match fuel with O => None | S fuel => strip_slashes fuel (len - 1) (<[Z.to_nat (len - 1) := 0]> temp) end
    else Some temp
  else Some temp.

Fixpoint last_slash (i : nat) (s : list Z) (found : option nat) : option nat :=
  match s with [] => found | c :: s => last_slash (S i) s (if is_slash c then Some i else found) end.

(** The directory and the last component of a path. *)
Definition get_parent_and_child (pathname : list Z) : option (list Z * list Z) :=
  let len := Z.of_nat (length pathname) in
  temp ← strncpy (replicate (Z.to_nat PATH_MAX) 0) (cstr pathname []) (Z.to_nat (PATH_MAX - 1));
  let temp := <[Z.to_nat (PATH_MAX - 1) := 0]> temp in
  temp ← strip_slashes (length pathname) len temp;
  let s := c_str temp in
  match last_slash 0 s None with
  | None => Some (chars ".", s)
  | Some O => Some (chars "/", drop 1 s)
  | Some i => Some (take i s, drop (S i) s)
  end.

Fixpoint skip_slashes (s : list Z) : list Z :=
  match s with c :: s' => if is_slash c then skip_slashes s' else s | [] => [] end.

(** The characters up to a slash or to the end, and the rest. *)
Fixpoint next_component (s : list Z) : list Z * list Z :=
  match s with
  | [] => ([], [])
  | c :: s' => if is_slash c then ([], s) else let '(w, r) := next_component s' in (c :: w, r)
  end.

(** [while (node->mount) node = node->mount->root] *)
Fixpoint cross_mounts (fuel : nat) (node : Z) (v : vfs) : option Z :=
  n ← vnodes v !! node;
  if v_mount n =? 0 then Some node
  else match fuel with
       | O => None
       | S fuel => m ← mounts v !! v_mount n; cross_mounts fuel (m_root m) v
       end.

Definition mount_fuel (v : vfs) : nat := size (mounts v).

(** The code sets a missing parent pointer on the way down. *)
Definition set_parent (next node : Z) (s : vstate) : option vstate :=
  n ← vnodes (vst s) !! next;
  root ← mounts (vst s) !! rootfs (vst s);
  if (v_parent n =? 0) && negb (next =? m_root root) then Some (on_vst (put_vnode next (set_v_parent node n)) s)
  else Some s.

(** One component: the next node, None for "not found". *)
Definition walk_component (node : Z) (comp : list Z) (s : vstate) : option (option Z * vstate) :=
  n ← vnodes (vst s) !! node;
  if streq comp (chars ".") then Some (Some node, s)
  else if streq comp (chars "..") then Some (Some (if v_parent n =? 0 then node else v_parent n), s)
  else if bool_decide (comp <> []) then
    '(r, s) ← op_lookup (v_ops n) node comp s;
    match r with
    | None => Some (None, s)
    | Some next => s ← set_parent next node s; Some (Some next, s)
    end
  else Some (Some node, s).

(** A component of PATH_MAX characters or more overruns the local buffer. *)
Fixpoint lookup_loop (fuel : nat) (node : Z) (path : list Z) (s : vstate) : option (option Z * vstate) :=
  match path with
  | [] => Some (Some node, s)
  | _ =>
      match fuel with
      | O => None
      | S fuel =>
          node ← cross_mounts (mount_fuel (vst s)) node (vst s);
          let '(comp, rest) := next_component path in
          if PATH_MAX <=? Z.of_nat (length comp) then None else
          '(r, s) ← walk_component node comp s;
          match r with
          | None => Some (None, s)
          | Some node => lookup_loop fuel node (skip_slashes rest) s
          end
      end
  end.

(** [cwd] is the working directory of the current thread, 0 for none.  The
    answer is the vnode, None for -1. *)
Definition vfs_lookup (cwd : Z) (pathname : list Z) (s : vstate) : option (option Z * vstate) :=
  if rootfs (vst s) =? 0 then Some (None, s) else
  root ← mounts (vst s) !! rootfs (vst s);
  let '(node, path) :=
    match pathname with
    | c :: _ => if is_slash c then (m_root root, skip_slashes pathname)
                else (if cwd =? 0 then m_root root else cwd, pathname)
    | [] => (if cwd =? 0 then m_root root else cwd, [])
    end in
  '(r, s) ← lookup_loop (length path) node path s;
  match r with
  | None => Some (None, s)
  | Some node => node ← cross_mounts (mount_fuel (vst s)) node (vst s); Some (Some node, s)
  end.

(** ** Files *)

(** A new vnode with its parent set, None for -1. *)
Definition create_at (cwd : Z) (dirname name : list Z)
    (op : fs_ops -> Z -> list Z -> vstate -> option (option Z * vstate)) (s : vstate) : option (option Z * vstate) :=
  '(dir, s) ← vfs_lookup cwd dirname s;
  match dir with
  | None => Some (None, s)
  | Some dir =>
      dn ← vnodes (vst s) !! dir;
      '(r, s) ← op (v_ops dn) dir name s;
      match r with
      | None => Some (None, s)
      | Some new => n ← vnodes (vst s) !! new; Some (Some new, on_vst (put_vnode new (set_v_parent dir n)) s)
      end
  end.

(** The answer and the file handle (0 on failure). *)
Definition vfs_open (cwd : Z) (pathname : list Z) (flags : Z) (s : vstate) : option (Z * Z * vstate) :=
  '(r, s) ← vfs_lookup cwd pathname s;
  '(r, s) ← match r with
            | Some node => Some (Some node, s)
            | None =>
                if negb (Z.land flags O_CREAT =? 0) then
                  '(dirname, filename) ← get_parent_and_child pathname; create_at cwd dirname filename op_create s
                else Some (None, s)
            end;
  match r with
  | None => Some (-1, 0, s)
  | Some node =>
      n ← vnodes (vst s) !! node;
      '(f, s) ← new_object SIZEOF_FILE s;
      let s := on_vst (put_file f (File node 0 (v_ops n) flags 1)) s in
      '(res, s) ← op_open (v_ops n) node f s;
      Some (res, f, s)
  end.

Definition vfs_close (f : Z) (s : vstate) : option (Z * vstate) :=
  fl ← files (vst s) !! f;
  let fl := set_ref_count (i32 (ref_count fl - 1)) fl in
  let s := on_vst (put_file f fl) s in
  if 0 <? ref_count fl then Some (0, s)
  else s ← free_object_at f s; Some (op_close (f_ops fl) f, on_vst (fun v => set_files (delete f (files v)) v) s).

(** The answer and the bytes for the caller's buffer. *)
Definition vfs_read (initrd : list Z) (f len : Z) (s : vstate) (d : D) : option (Z * list Z * vstate * D) :=
  fl ← files (vst s) !! f;
  match f_ops fl with
  | tmpfs_ops => '(r, bs, s) ← tmpfs_read f len s; Some (r, bs, s, d)
  | ramfs_ops => '(r, bs, s) ← ramfs_read initrd f len s; Some (r, bs, s, d)
  | devfs_ops => devfs_read f len s d
  end.

Definition vfs_write (f : Z) (buf : list Z) (len : Z) (s : vstate) (d : D) : option (Z * vstate * D) :=
  fl ← files (vst s) !! f;
  match f_ops fl with
  | tmpfs_ops => '(r, s) ← tmpfs_write f buf len s; Some (r, s, d)
  | ramfs_ops => Some (ramfs_write f, s, d)
  | devfs_ops => devfs_write f buf len s d
  end.

(** Only the device files have [lseek64] and [ioctl]. *)
Definition vfs_lseek64 (f offset whence : Z) (s : vstate) : option (Z * vstate) :=
  fl ← files (vst s) !! f;
  match f_ops fl with devfs_ops => devfs_lseek64 f offset whence s | _ => Some (-1, s) end.

Definition vfs_ioctl (f request : Z) (s : vstate) (d : D) : option (Z * list Z) :=
  fl ← files (vst s) !! f;
  match f_ops fl with devfs_ops => devfs_ioctl f request s d | _ => Some (-1, []) end.

(** ** Directories and mounts *)

Definition vfs_mkdir (cwd : Z) (pathname : list Z) (s : vstate) : option (Z * vstate) :=
  '(dirname, filename) ← get_parent_and_child pathname;
  '(r, s) ← create_at cwd dirname filename op_mkdir s;
  Some (match r with Some _ => 0 | None => -1 end, s).

(** The index given to the file system, -1 when the table is full. *)
Fixpoint register_loop (i : nat) (l : list (option (list Z * fs_ops))) (fs : list Z * fs_ops) : option nat :=
  match l with
  | [] => None
  | None :: _ => Some i
  | Some _ :: l => register_loop (S i) l fs
  end.

Definition register_filesystem (fs : list Z * fs_ops) (v : vfs) : Z * vfs :=
  match register_loop 0 (fs_list v) fs with
  | Some i => (Z.of_nat i, set_fs_list (<[i := Some fs]> (fs_list v)) v)
  | None => (-1, v)
  end.

Fixpoint find_filesystem (i : nat) (l : list (option (list Z * fs_ops))) (name : list Z) : option (nat * fs_ops) :=
  match l with
  | [] => None
  | Some (n, ops) :: l => if streq n name then Some (i, ops) else find_filesystem (S i) l name
  | None :: l => find_filesystem (S i) l name
  end.

(** [fs->setup_mount]: the root vnode, which the device and memory file systems
    always create; the ram disk may be missing. *)
Definition setup_mount (fuel : nat) (initrd : option (list Z)) (ops : fs_ops) (s : vstate) : option (option Z * vstate) :=
  match ops with
  | tmpfs_ops => '(_, root, s) ← tmpfs_setup_mount s; Some (Some root, s)
  | devfs_ops => '(_, root, s) ← devfs_setup_mount s; Some (Some root, s)
  | ramfs_ops => '(_, root, s) ← ramfs_setup_mount fuel initrd s; Some (root, s)
  end.

Definition vfs_mount (fuel : nat) (initrd : option (list Z)) (cwd : Z) (target filesystem : list Z) (s : vstate) :
    option (Z * vstate) :=
  match find_filesystem 0 (fs_list (vst s)) filesystem with
  | None => Some (-1, s)
  | Some (fs, ops) =>
      '(r, s) ← vfs_lookup cwd target s;
      match r with
      | None => Some (-1, s)
      | Some mount_point =>
          '(mnt, s) ← new_object SIZEOF_MOUNT s;
          '(root, s) ← setup_mount fuel initrd ops s;
          root ← root;  (* the code writes through the root it was not given *)
          rm ← mounts (vst s) !! rootfs (vst s);
          mp ← vnodes (vst s) !! mount_point;
          rn ← vnodes (vst s) !! root;
          let parent := if mount_point =? m_root rm then root else v_parent mp in
          let s := on_vst (put_vnode root (set_v_parent parent rn)) s in
          mp ← vnodes (vst s) !! mount_point;
          Some (0, on_vst (put_vnode mount_point (set_v_mount mnt mp))
                     (on_vst (fun v => set_mounts (<[mnt := Mount root (Z.of_nat fs)]> (mounts v)) v) s))
      end
  end.

(** Boot: the file systems, the root, [/ramfs] and [/dev].  The results of
    the last calls are ignored. *)
Definition vfs_init (fuel : nat) (initrd : option (list Z)) (s : vstate) : option vstate :=
  '(_, s) ← new_object SIZEOF_FILESYSTEM s;
  let s := on_vst (fun v => snd (register_filesystem (chars "tmpfs", tmpfs_ops) v)) s in
  '(_, s) ← new_object SIZEOF_FILESYSTEM s;
  let s := on_vst (fun v => snd (register_filesystem (chars "ramfs", ramfs_ops) v)) s in
  '(_, s) ← new_object SIZEOF_FILESYSTEM s;
  let s := on_vst (fun v => snd (register_filesystem (chars "devfs", devfs_ops) v)) s in
  '(mnt, s) ← new_object SIZEOF_MOUNT s;
  '(_, root, s) ← tmpfs_setup_mount s;
  n ← vnodes (vst s) !! root;
  let s := on_vst (put_vnode root (set_v_parent root n)) s in
  let s := on_vst (fun v => set_rootfs mnt (set_mounts (<[mnt := Mount root 0]> (mounts v)) v)) s in
  '(_, s) ← vfs_mkdir 0 (chars "/ramfs") s;
  '(_, s) ← vfs_mount fuel initrd 0 (chars "/ramfs") (chars "ramfs") s;
  '(_, s) ← vfs_mkdir 0 (chars "/dev") s;
  '(_, s) ← vfs_mount fuel initrd 0 (chars "/dev") (chars "devfs") s;
  Some s.

End Vfs.
