(* ===== verification/LookupSpec.v ===== *)
(** * Path lookup as it is meant

    What a path names, as relations on the nodes, the mounts and the entries of
    the directories, without the loops, the string comparisons and the operation
    tables of [vfs_lookup]; and that each step of [Vfs] finds exactly that. *)

From Stdlib Require Import Ascii String.
From S2P Require Import Prelude Config Heap CString VfsData Tmpfs Ramfs Vfs.
#[local] Open Scope Z_scope.
#[local] Open Scope list_scope.

(** ** The reference *)

(** [r] is the node on top of what is mounted at [a]; [ids] are the mounts crossed. *)
Inductive on_top (v : vfs) : Z -> list Z -> Z -> Prop :=
  | top_here a n : vnodes v !! a = Some n -> v_mount n = 0 -> on_top v a [] a
  | top_mounted a n m ids r : vnodes v !! a = Some n -> v_mount n <> 0 -> mounts v !! v_mount n = Some m ->
      on_top v (m_root m) ids r -> on_top v a (v_mount n :: ids) r.

(** The first of the nodes [es] that has the name. *)
Definition first_named (has : Z -> list Z -> Prop) (name : list Z) (es : list Z) (r : option Z) : Prop :=
  let other e := exists other_name, has e other_name /\ other_name <> name in
  match r with
  | Some e => exists l1 l2, es = l1 ++ e :: l2 /\ has e name /\ Forall other l1
  | None => Forall other es
  end.

Definition tmpfs_name (v : vfs) (e : Z) (name : list Z) : Prop :=
  exists n i, vnodes v !! e = Some n /\ tnodes v !! v_internal n = Some i /\ t_name i = name.
Definition ramfs_name (v : vfs) (e : Z) (name : list Z) : Prop :=
  exists n i, vnodes v !! e = Some n /\ rnodes v !! v_internal n = Some i /\ r_name i = name.

Section Reference.
Context {H : Type} {HO : HeapOps H}.
Notation vstate := (vstate H).
Implicit Types (s : vstate).

(** The entry [name] of the directory [n], None when it has none or is a file.
    The nodes of the two devices are made when they are looked up first. *)
Inductive child s (n : vnode) (name : list Z) : option Z -> vstate -> Prop :=
  | child_tmpfs d r : v_ops n = tmpfs_ops -> tnodes (vst s) !! v_internal n = Some d -> t_type d = FS_DIR ->
      first_named (tmpfs_name (vst s)) name (filter (fun e => e <> 0) (t_entry d)) r -> child s n name r s
  | child_tmpfs_file d : v_ops n = tmpfs_ops -> tnodes (vst s) !! v_internal n = Some d -> t_type d = FS_FILE -> child s n name None s
  | child_ramfs d r : v_ops n = ramfs_ops -> rnodes (vst s) !! v_internal n = Some d -> r_type d = FS_DIR ->
      first_named (ramfs_name (vst s)) name (r_entries d) r -> child s n name r s
  | child_ramfs_file d : v_ops n = ramfs_ops -> rnodes (vst s) !! v_internal n = Some d -> r_type d = FS_FILE -> child s n name None s
  | child_uart : v_ops n = devfs_ops -> name = chars "uart" -> uart_vnode (vst s) <> 0 -> child s n name (Some (uart_vnode (vst s))) s
  | child_fb : v_ops n = devfs_ops -> name = chars "fb" -> fb_vnode (vst s) <> 0 -> child s n name (Some (fb_vnode (vst s))) s
  | child_new_uart p h : v_ops n = devfs_ops -> name = chars "uart" -> uart_vnode (vst s) = 0 ->
      h_allocate SIZEOF_VNODE (vheap s) = Some (p, h) -> p <> 0 ->
      child s n name (Some p) (VState h (set_uart_vnode p (put_vnode p (Vnode 0 devfs_ops 0 0) (vst s))))
  | child_new_fb p h : v_ops n = devfs_ops -> name = chars "fb" -> fb_vnode (vst s) = 0 ->
      h_allocate SIZEOF_VNODE (vheap s) = Some (p, h) -> p <> 0 ->
      child s n name (Some p) (VState h (set_fb_vnode p (put_vnode p (Vnode 0 devfs_ops 0 0) (vst s))))
  | child_no_device : v_ops n = devfs_ops -> name <> chars "uart" -> name <> chars "fb" -> child s n name None s.

(** One component from the node [a]: a dot stays, two dots go to the parent (the
    node itself when it has none), a name goes to the entry of the directory,
    which gets the directory as its parent when it has none and is not the root. *)
Inductive component s (a : Z) (n : vnode) : list Z -> option Z -> vstate -> Prop :=
  | comp_dot : component s a n (chars ".") (Some a) s
  | comp_top : v_parent n = 0 -> component s a n (chars "..") (Some a) s
  | comp_up : v_parent n <> 0 -> component s a n (chars "..") (Some (v_parent n)) s
  | comp_absent name s1 : name <> chars "." -> name <> chars ".." -> child s n name None s1 -> component s a n name None s1
  | comp_adopted name b nb root s1 : name <> chars "." -> name <> chars ".." -> child s n name (Some b) s1 ->
      vnodes (vst s1) !! b = Some nb -> mounts (vst s1) !! rootfs (vst s1) = Some root -> v_parent nb = 0 -> b <> m_root root ->
      component s a n name (Some b) (VState (vheap s1) (put_vnode b (Vnode (v_mount nb) (v_ops nb) (v_internal nb) a) (vst s1)))
  | comp_child name b nb root s1 : name <> chars "." -> name <> chars ".." -> child s n name (Some b) s1 ->
      vnodes (vst s1) !! b = Some nb -> mounts (vst s1) !! rootfs (vst s1) = Some root -> v_parent nb <> 0 \/ b = m_root root ->
      component s a n name (Some b) s1.

(** The components of a path, one after the other, each from the top of the mounts. *)
Inductive walks : vstate -> Z -> list (list Z) -> option Z -> vstate -> Prop :=
  | walks_end s a : walks s a [] (Some a) s
  | walks_absent s a ids b n c cs s1 : on_top (vst s) a ids b -> vnodes (vst s) !! b = Some n -> component s b n c None s1 ->
      walks s a (c :: cs) None s1
  | walks_on s a ids b n c cs a1 s1 r s2 : on_top (vst s) a ids b -> vnodes (vst s) !! b = Some n -> component s b n c (Some a1) s1 ->
      walks s1 a1 cs r s2 -> walks s a (c :: cs) r s2.

Definition absolute (path : list Z) : Prop := exists p, path = 47 :: p.

(** What the path names, from the root or from the working directory. *)
Inductive resolves (cwd : Z) (path : list Z) s : option Z -> vstate -> Prop :=
  | resolves_unmounted : rootfs (vst s) = 0 -> resolves cwd path s None s
  | resolves_absent root start s1 : rootfs (vst s) <> 0 -> mounts (vst s) !! rootfs (vst s) = Some root ->
      (absolute path \/ cwd = 0 -> start = m_root root) -> (~ absolute path -> cwd <> 0 -> start = cwd) ->
      walks s start (components 47 path) None s1 -> resolves cwd path s None s1
  | resolves_node root start a ids r s1 : rootfs (vst s) <> 0 -> mounts (vst s) !! rootfs (vst s) = Some root ->
      (absolute path \/ cwd = 0 -> start = m_root root) -> (~ absolute path -> cwd <> 0 -> start = cwd) ->
      walks s start (components 47 path) (Some a) s1 -> on_top (vst s1) a ids r -> resolves cwd path s (Some r) s1.

(** The names of the nodes are strings. *)
Definition names_ok (v : vfs) : Prop := (forall x i, tnodes v !! x = Some i -> is_str (t_name i)) /\ (forall x i, rnodes v !! x = Some i -> is_str (r_name i)).

End Reference.

(** ** Mount points *)

Lemma on_top_fun v a ids r : on_top v a ids r -> forall ids' r', on_top v a ids' r' -> ids' = ids /\ r' = r.
Proof.
  induction 1 as [a n E E0 | a n m ids r E E0 Em _ IH]; intros ids' r' Ht; inversion Ht as [? n' E' E0' | ? n' m' ids'' r'' E' E0' Em' Ht']; subst;
    assert (n' = n) as -> by congruence; try done.
  assert (m' = m) as -> by congruence. by destruct (IH _ _ Ht') as [-> ->].
Qed.

Lemma on_top_suffix v a l id l' r : on_top v a (l ++ id :: l') r -> exists m, mounts v !! id = Some m /\ on_top v (m_root m) l' r.
Proof.
  revert a. induction l as [| x l IH]; intros a Ht; inversion Ht as [| ? n m ? ? E E0 Em Ht']; subst; [by exists m | by apply (IH (m_root m))].
Qed.

(** No mount is crossed twice. *)
Lemma on_top_NoDup v a ids r : on_top v a ids r -> NoDup ids.
Proof.
  induction 1 as [| a n m ids r E E0 Em Ht IH]; constructor; [| done]. intros (l1 & l2 & ->)%list_elem_of_split.
  destruct (on_top_suffix _ _ _ _ _ _ Ht) as (m' & Em' & Ht'). assert (m' = m) as -> by congruence.
  destruct (on_top_fun _ _ _ _ Ht _ _ Ht') as [El _]. apply (f_equal length) in El. rewrite length_app in El. simpl in El. lia.
Qed.

Lemma on_top_length v a ids r : on_top v a ids r -> (length ids <= mount_fuel v)%nat.
Proof.
  intros Ht. pose proof (on_top_NoDup _ _ _ _ Ht) as Hnd. unfold mount_fuel. rewrite <- (size_dom (D := gset Z)).
  rewrite <- (size_list_to_set (C := gset Z) ids) by done. apply subseteq_size. intros id (l1 & l2 & ->)%elem_of_list_to_set%list_elem_of_split.
  destruct (on_top_suffix _ _ _ _ _ _ Ht) as (m & Em & _). by apply elem_of_dom_2 in Em.
Qed.

Lemma cross_mounts_spec v a r : cross_mounts (mount_fuel v) a v = Some r <-> exists ids, on_top v a ids r.
Proof.
  split.
  - generalize (mount_fuel v). intros fuel. revert a. induction fuel as [| fuel IH]; intros a E; cbn [cross_mounts] in E;
      destruct (vnodes v !! a) as [n |] eqn:En; try done; cbn [mbind option_bind] in E;
      (destruct (Z.eqb_spec (v_mount n) 0) as [E0 | E0]; [injection E as <-; exists []; by eapply top_here |]); [done |].
    destruct (mounts v !! v_mount n) as [m |] eqn:Em; [| done]. cbn [mbind option_bind] in E. destruct (IH _ E) as [ids Ht].
    exists (v_mount n :: ids). by eapply top_mounted.
  - intros [ids Ht]. pose proof (on_top_length _ _ _ _ Ht) as Hl. revert Hl. generalize (mount_fuel v). intros fuel. revert fuel.
    induction Ht as [a n E E0 | a n m ids r E E0 Em _ IH]; intros fuel Hl.
    + destruct fuel; cbn [cross_mounts]; rewrite E; cbn [mbind option_bind]; by rewrite E0.
    + destruct fuel as [| fuel]; [simpl in Hl; lia |]. cbn [cross_mounts]. rewrite E. cbn [mbind option_bind].
      destruct (Z.eqb_spec (v_mount n) 0); [done |]. rewrite Em. cbn [mbind option_bind]. apply IH. simpl in Hl. lia.
Qed.

Lemma on_top_node v a ids r : on_top v a ids r -> exists n, vnodes v !! r = Some n.
Proof. induction 1 as [a n E _ | ]; [by exists n | done]. Qed.

(** ** The entries of a directory *)

Lemma first_named_cons has name e es r nm : (forall x a b, has x a -> has x b -> a = b) -> has e nm ->
  first_named has name (e :: es) r <-> if decide (nm = name) then r = Some e else first_named has name es r.
Proof.
  intros Hfun He. destruct (decide (nm = name)) as [-> | Hne].
  - split; [| intros ->; by exists [], es]. destruct r as [x |]; cbn.
    + intros ([| y l1] & l2 & E & _ & Hl); [by injection E as -> |]. injection E as <- _.
      apply list.Forall_cons in Hl as [(o & Ho & Hno) _]. destruct Hno. by apply (Hfun e).
    + intros [(o & Ho & Hno) _]%list.Forall_cons. destruct Hno. by apply (Hfun e).
  - destruct r as [x |]; cbn.
    + split.
      * intros ([| y l1] & l2 & E & Hx & Hl); [injection E as -> _; destruct Hne; by apply (Hfun x) |]. injection E as <- E.
        apply list.Forall_cons in Hl as [_ Hl]. by exists l1, l2.
      * intros (l1 & l2 & -> & Hx & Hl). exists (e :: l1), l2. split_and!; [done | done |]. constructor; [by exists nm | done].
    + rewrite list.Forall_cons. split; [by intros [_ ?] | intros ?; split; [by exists nm | done]].
Qed.

Lemma first_named_unnamed has name e es r : (forall nm, ~ has e nm) -> ~ first_named has name (e :: es) r.
Proof.
  intros Hno. destruct r as [x |]; cbn.
  - intros ([| y l1] & l2 & E & Hx & Hl); [injection E as -> _; by destruct (Hno name) |]. injection E as <- _.
    apply list.Forall_cons in Hl as [(o & Ho & _) _]. by destruct (Hno o).
  - intros [(o & Ho & _) _]%list.Forall_cons. by destruct (Hno o).
Qed.

Lemma tmpfs_name_fun v x a b : tmpfs_name v x a -> tmpfs_name v x b -> a = b.
Proof. intros (n & i & ? & ? & <-) (n' & i' & ? & ? & <-). congruence. Qed.

Lemma ramfs_name_fun v x a b : ramfs_name v x a -> ramfs_name v x b -> a = b.
Proof. intros (n & i & ? & ? & <-) (n' & i' & ? & ? & <-). congruence. Qed.

Lemma find_entry_spec name es v r : is_str name -> names_ok v ->
  find_entry name es v = Some r <-> first_named (tmpfs_name v) name (filter (fun e => e <> 0) es) r.
Proof.
  intros Hn [Hv _]. induction es as [| e es IH]; cbn [find_entry].
  - cbn. split; [intros [= <-]; by constructor |]. destruct r as [x |]; [| done]. intros (l1 & l2 & E & _). by destruct l1.
  - destruct (Z.eqb_spec e 0) as [-> | He]; [by rewrite filter_cons_False by (intros Hx; by apply Hx) |]. rewrite filter_cons_True by done.
    destruct (vnodes v !! e) as [n |] eqn:En; cbn [mbind option_bind].
    2:{ split; [done |]. intros Hf. exfalso. revert Hf. apply first_named_unnamed. intros nm (? & ? & ? & _); congruence. }
    destruct (tnodes v !! v_internal n) as [i |] eqn:Ei; cbn [mbind option_bind].
    2:{ split; [done |]. intros Hf. exfalso. revert Hf. apply first_named_unnamed. intros nm (? & ? & ? & ? & _); congruence. }
    rewrite (first_named_cons (tmpfs_name v) name e _ r (t_name i)) by (apply tmpfs_name_fun || by exists n, i).
    rewrite streq_spec by (done || by eapply Hv). case_bool_decide as Hd; [rewrite decide_True by done | by rewrite decide_False by done].
    split; [by intros [= <-] | by intros ->].
Qed.

Lemma find_rentry_spec name es v r : is_str name -> names_ok v ->
  find_rentry name es v = Some r <-> first_named (ramfs_name v) name es r.
Proof.
  intros Hn [_ Hv]. induction es as [| e es IH]; cbn [find_rentry].
  - cbn. split; [intros [= <-]; by constructor |]. destruct r as [x |]; [| done]. intros (l1 & l2 & E & _). by destruct l1.
  - destruct (vnodes v !! e) as [n |] eqn:En; cbn [mbind option_bind].
    2:{ split; [done |]. intros Hf. exfalso. revert Hf. apply first_named_unnamed. intros nm (? & ? & ? & _); congruence. }
    destruct (rnodes v !! v_internal n) as [i |] eqn:Ei; cbn [mbind option_bind].
    2:{ split; [done |]. intros Hf. exfalso. revert Hf. apply first_named_unnamed. intros nm (? & ? & ? & ? & _); congruence. }
    rewrite (first_named_cons (ramfs_name v) name e _ r (r_name i)) by (apply ramfs_name_fun || by exists n, i).
    rewrite streq_spec by (done || by eapply Hv). case_bool_decide as Hd; [rewrite decide_True by done | by rewrite decide_False by done].
    split; [by intros [= <-] | by intros ->].
Qed.

Section Steps.
Context {H : Type} {HO : HeapOps H}.
Notation vstate := (vstate H).
Implicit Types (s : vstate).

Lemma tmpfs_lookup_spec a n name s r s' : is_str name -> names_ok (vst s) -> vnodes (vst s) !! a = Some n -> v_ops n = tmpfs_ops ->
  tmpfs_lookup a name s = Some (r, s') <-> child s n name r s'.
Proof.
  intros Hn Hv Ea Eo. unfold tmpfs_lookup. rewrite Ea. cbn [mbind option_bind]. split.
  - intros E. destruct (tnodes (vst s) !! v_internal n) as [d |] eqn:Ed; [| done]. cbn [mbind option_bind] in E.
    assert (Hty : t_type d = FS_DIR \/ t_type d = FS_FILE) by (destruct (t_type d); auto).
    case_decide as Ht; [injection E as <- <-; destruct Hty as [Hty | Hty]; [by destruct Ht | by eapply child_tmpfs_file] |].
    destruct (find_entry name (t_entry d) (vst s)) as [x |] eqn:Ef; [| done]. cbn [mbind option_bind] in E. injection E as <- <-.
    apply find_entry_spec in Ef; [| done | done]. eapply child_tmpfs; try done.
  - intros Hc. destruct Hc as [d r _ -> Ht Hf | d _ -> Ht | ? ? Eo' | ? Eo' | Eo' | Eo' | ? ? Eo' | ? ? Eo' | Eo']; try congruence; cbn [mbind option_bind].
    + rewrite Ht. rewrite (proj2 (find_entry_spec name (t_entry d) (vst s) r Hn Hv) Hf). done.
    + by rewrite Ht.
Qed.

Lemma ramfs_lookup_spec a n name s r s' : is_str name -> names_ok (vst s) -> vnodes (vst s) !! a = Some n -> v_ops n = ramfs_ops ->
  ramfs_lookup a name s = Some (r, s') <-> child s n name r s'.
Proof.
  intros Hn Hv Ea Eo. unfold ramfs_lookup. rewrite Ea. cbn [mbind option_bind]. split.
  - intros E. destruct (rnodes (vst s) !! v_internal n) as [d |] eqn:Ed; [| done]. cbn [mbind option_bind] in E.
    assert (Hty : r_type d = FS_DIR \/ r_type d = FS_FILE) by (destruct (r_type d); auto).
    case_decide as Ht; [injection E as <- <-; destruct Hty as [Hty | Hty]; [by destruct Ht | by eapply child_ramfs_file] |].
    destruct (find_rentry name (r_entries d) (vst s)) as [x |] eqn:Ef; [| done]. cbn [mbind option_bind] in E. injection E as <- <-.
    apply find_rentry_spec in Ef; [| done | done]. eapply child_ramfs; try done.
  - intros Hc. destruct Hc as [? ? Eo' | ? Eo' | d r _ -> Ht Hf | d _ -> Ht | Eo' | Eo' | ? ? Eo' | ? ? Eo' | Eo']; try congruence; cbn [mbind option_bind].
    + rewrite Ht. rewrite (proj2 (find_rentry_spec name (r_entries d) (vst s) r Hn Hv) Hf). done.
    + by rewrite Ht.
Qed.

Lemma chars_str x : forallb (fun c => negb (c =? 0)) (chars x) = true -> is_str (chars x).
Proof. intros Hb. apply Forall_fold_right. induction (chars x) as [| c l IH]; [done |]. cbn in *. apply andb_true_iff in Hb as [Hc Hb]. split; [lia | by apply IH]. Qed.

Lemma streq_chars name x : is_str name -> forallb (fun c => negb (c =? 0)) (chars x) = true -> streq name (chars x) = bool_decide (name = chars x).
Proof. intros Hn Hx. apply streq_spec; [done | by apply chars_str]. Qed.

Lemma new_device_spec s p s' : devfs_create_vnode s = Some (p, s') <->
  exists h, h_allocate SIZEOF_VNODE (vheap s) = Some (p, h) /\ p <> 0 /\ s' = VState h (put_vnode p (Vnode 0 devfs_ops 0 0) (vst s)).
Proof.
  unfold devfs_create_vnode, new_object. split.
  - destruct (h_allocate SIZEOF_VNODE (vheap s)) as [[q h] |]; [| done]. cbn [mbind option_bind].
    destruct (Z.eqb_spec q 0); [done |]. cbn [mbind option_bind]. intros [= <- <-]. by exists h.
  - intros (h & -> & Hp & ->). cbn [mbind option_bind]. destruct (Z.eqb_spec p 0); [done |]. done.
Qed.

Lemma devfs_lookup_spec a n name s r s' : is_str name -> v_ops n = devfs_ops ->
  devfs_lookup a name s = Some (r, s') <-> child s n name r s'.
Proof.
  intros Hn Eo. assert (Hne : chars "uart" <> chars "fb") by done. unfold devfs_lookup. rewrite !streq_chars by done. split.
  - case_bool_decide as Hu; [| case_bool_decide as Hf; [| by intros [= <- <-]; apply child_no_device]];
      (match goal with |- (if ?z =? 0 then _ else _) = _ -> _ => destruct (Z.eqb_spec z 0) as [E0 | E0] end;
        [| intros [= <- <-]; by (apply child_uart || apply child_fb)]);
      (destruct (devfs_create_vnode s) as [[p s1] |] eqn:Ed; [| done]; cbn [mbind option_bind]; intros [= <- <-];
       apply new_device_spec in Ed as (h & Ea & Hp & ->)); [by apply child_new_uart | by apply child_new_fb].
  - intros Hc. destruct Hc as [? ? Eo' | ? Eo' | ? ? Eo' | ? Eo' | _ -> H0 | _ -> H0 | p h _ -> H0 Ea Hp | p h _ -> H0 Ea Hp | _ H1 H2]; try congruence.
    + rewrite bool_decide_true by done. by destruct (Z.eqb_spec (uart_vnode (vst s)) 0).
    + rewrite bool_decide_false, bool_decide_true by done. by destruct (Z.eqb_spec (fb_vnode (vst s)) 0).
    + rewrite bool_decide_true by done. rewrite H0, Z.eqb_refl.
      rewrite (proj2 (new_device_spec s p (VState h (put_vnode p (Vnode 0 devfs_ops 0 0) (vst s))))) by (by exists h). done.
    + rewrite bool_decide_false, bool_decide_true by done. rewrite H0, Z.eqb_refl.
      rewrite (proj2 (new_device_spec s p (VState h (put_vnode p (Vnode 0 devfs_ops 0 0) (vst s))))) by (by exists h). done.
    + by rewrite !bool_decide_false.
Qed.

Lemma op_lookup_spec a n name s r s' : is_str name -> names_ok (vst s) -> vnodes (vst s) !! a = Some n ->
  op_lookup (v_ops n) a name s = Some (r, s') <-> child s n name r s'.
Proof.
  intros Hn Hv Ea. destruct (v_ops n) eqn:Eo; cbn [op_lookup]; [by apply tmpfs_lookup_spec | by apply ramfs_lookup_spec | by apply devfs_lookup_spec].
Qed.

Lemma child_keeps s n name r s' : child s n name r s' -> tnodes (vst s') = tnodes (vst s) /\ rnodes (vst s') = rnodes (vst s).
Proof. by destruct 1. Qed.

Lemma component_keeps s a n c r s' : component s a n c r s' -> names_ok (vst s) -> names_ok (vst s').
Proof.
  assert (Hk : forall s', tnodes (vst s') = tnodes (vst s) /\ rnodes (vst s') = rnodes (vst s) -> names_ok (vst s) -> names_ok (vst s')).
  { intros s1 [Et Er] [Ht Hr]. unfold names_ok. by rewrite Et, Er. }
  intros Hc. apply Hk. destruct Hc as [| | | name s1 _ _ Hc | name b nb root s1 _ _ Hc | name b nb root s1 _ _ Hc]; try done;
    apply child_keeps in Hc as [Et Er]; by split.
Qed.

(** [node->parent = dir] where it is missing. *)
Lemma set_parent_spec b a s s' : set_parent b a s = Some s' <->
  exists nb root, vnodes (vst s) !! b = Some nb /\ mounts (vst s) !! rootfs (vst s) = Some root /\
    ((v_parent nb = 0 /\ b <> m_root root /\
        s' = VState (vheap s) (put_vnode b (Vnode (v_mount nb) (v_ops nb) (v_internal nb) a) (vst s))) \/
     ((v_parent nb <> 0 \/ b = m_root root) /\ s' = s)).
Proof.
  unfold set_parent. split.
  - destruct (vnodes (vst s) !! b) as [nb |]; [| done]. cbn [mbind option_bind].
    destruct (mounts (vst s) !! rootfs (vst s)) as [root |]; [| done]. cbn [mbind option_bind].
    intros E. exists nb, root. split; [done |]. split; [done |].
    destruct (Z.eqb_spec (v_parent nb) 0), (Z.eqb_spec b (m_root root)); cbn [andb negb] in E; injection E as <-; tauto.
  - intros (nb & root & -> & E2 & Hp). cbn [mbind option_bind]. rewrite E2. cbn [mbind option_bind].
    destruct (Z.eqb_spec (v_parent nb) 0), (Z.eqb_spec b (m_root root)); cbn [andb negb]; destruct Hp as [(? & ? & ->) | [[? | ?] ->]]; done.
Qed.

Lemma walk_component_spec a n c s r s' : is_str c -> c <> [] -> names_ok (vst s) -> vnodes (vst s) !! a = Some n ->
  walk_component a c s = Some (r, s') <-> component s a n c r s'.
Proof.
  intros Hc Hne Hv Ea. unfold walk_component. rewrite Ea. cbn [mbind option_bind]. rewrite !streq_chars by done.
  case_bool_decide as H1; [| case_bool_decide as H2].
  - subst c. split; [intros [= <- <-]; apply comp_dot |]. intros Hcm. inversion Hcm; done.
  - subst c. split.
    + destruct (Z.eqb_spec (v_parent n) 0); intros [= <- <-]; [by apply comp_top | by apply comp_up].
    + intros Hcm. inversion Hcm; subst; try done; by destruct (Z.eqb_spec (v_parent n) 0).
  - rewrite bool_decide_true by done. split.
    + destruct (op_lookup (v_ops n) a c s) as [[[b |] s1] |] eqn:Eo; cbn [mbind option_bind]; [| | done];
        apply (op_lookup_spec a n c s _ s1 Hc Hv Ea) in Eo.
      * destruct (set_parent b a s1) as [s2 |] eqn:Es; [| done]. cbn [mbind option_bind]. intros [= <- <-].
        apply set_parent_spec in Es as (nb & root & Eb & Er & [(Hp & Hr & ->) | [Hp ->]]); [by eapply comp_adopted | by eapply comp_child].
      * intros [= <- <-]. by apply comp_absent.
    + intros Hcm. inversion Hcm as [| | | ? ? _ _ Hl | ? b nb root s1 _ _ Hl Eb Er Hp Hr | ? b nb root s1 _ _ Hl Eb Er Hp]; subst; try done;
        apply (op_lookup_spec a n c s _ _ Hc Hv Ea) in Hl; rewrite Hl; cbn [mbind option_bind]; [done | |].
      * rewrite (proj2 (set_parent_spec b a s1 (VState (vheap s1) (put_vnode b (Vnode (v_mount nb) (v_ops nb) (v_internal nb) a) (vst s1))))); [done |].
        exists nb, root. split_and!; try done. by left.
      * rewrite (proj2 (set_parent_spec b a s' s')); [done |].
        exists nb, root. split_and!; try done. by right.
Qed.

(** The loop of [vfs_lookup] over the components. *)
Fixpoint walk_path (node : Z) (comps : list (list Z)) s : option (option Z * vstate) :=
  match comps with
  | [] => Some (Some node, s)
  | c :: comps =>
      node ← cross_mounts (mount_fuel (vst s)) node (vst s);
      '(r, s) ← walk_component node c s;
      match r with None => Some (None, s) | Some node => walk_path node comps s end
  end.

Lemma walk_path_spec cs : Forall (fun c => is_str c /\ c <> []) cs -> forall a s r s', names_ok (vst s) ->
  walk_path a cs s = Some (r, s') <-> walks s a cs r s'.
Proof.
  induction 1 as [| c cs [Hc Hne] _ IH]; intros a s r s' Hv; cbn [walk_path].
  - split; [intros [= <- <-]; constructor | intros Hw; by inversion Hw].
  - split.
    + destruct (cross_mounts (mount_fuel (vst s)) a (vst s)) as [b |] eqn:Ec; [| done]. cbn [mbind option_bind].
      apply cross_mounts_spec in Ec as [ids Ht]. destruct (on_top_node _ _ _ _ Ht) as [n En].
      destruct (walk_component b c s) as [[[a1 |] s1] |] eqn:Ew; cbn [mbind option_bind]; [| | done];
        apply (walk_component_spec b n c s _ s1 Hc Hne Hv En) in Ew.
      * intros E. eapply walks_on; [done | done | done |]. apply IH; [by eapply component_keeps | done].
      * intros [= <- <-]. by eapply walks_absent.
    + intros Hw. inversion Hw as [| ? ? ids b n ? ? s1 Ht En Hcm | ? ? ids b n ? ? a1 s1 ? ? Ht En Hcm Hrest]; subst;
        rewrite (proj2 (cross_mounts_spec (vst s) a b)) by (by exists ids); cbn [mbind option_bind];
        rewrite (proj2 (walk_component_spec b n c s _ _ Hc Hne Hv En) Hcm); cbn [mbind option_bind]; [done |].
      apply IH; [by eapply component_keeps | done].
Qed.

End Steps.
