(* ===== verification/VfsProps.v ===== *)
(** * Properties of the file systems

    [vfs_lookup] finds what the path names; what is written to a file of the
    memory file system is read back. *)

From Stdlib Require Import Ascii String.
From S2P Require Import Prelude Config Allocator AllocProps Heap HeapInst MmuProps CString VfsData Tmpfs Ramfs Vfs LookupSpec.
#[local] Open Scope Z_scope.
#[local] Open Scope list_scope.

(** ** Path lookup *)

Section Lookup.
Context {H : Type} {HO : HeapOps H}.
Implicit Types (s : vstate H).

Lemma next_component_spec p : exists r, next_component p = (fst (next_component p), r) /\
  split_on 47 p = fst (next_component p) :: match r with [] => [] | _ :: r' => split_on 47 r' end /\
  (r = [] \/ exists r', r = 47 :: r') /\ (length (fst (next_component p)) + length r = length p)%nat.
Proof.
  induction p as [| c p (r & E & Hs & Hr & Hl)]; [by exists []; auto |]. cbn [next_component split_on]. unfold is_slash.
  destruct (Z.eqb_spec c 47) as [-> | Hc].
  - exists (47 :: p). simpl. destruct (split_on_hd 47 p) as (w & ws & ->). split_and!; try done. right. by exists p.
  - rewrite E. simpl. exists r. rewrite Hs. destruct (Z.eqb_spec c 47); [done |]. split_and!; try done. lia.
Qed.

Lemma components_skip p : components 47 (skip_slashes p) = components 47 p.
Proof.
  induction p as [| c p IH]; [done |]. simpl. unfold is_slash. destruct (Z.eqb_spec c 47) as [-> |]; [| done].
  by rewrite IH, components_sep.
Qed.

Lemma skip_slashes_length p : (length (skip_slashes p) <= length p)%nat.
Proof. induction p as [| c p IH]; simpl; [done |]. destruct (is_slash c); simpl; lia. Qed.

Definition no_leading (p : list Z) : Prop := match p with c :: _ => c <> 47 | [] => True end.

Lemma skip_no_leading p : no_leading (skip_slashes p).
Proof. induction p as [| c p IH]; simpl; [done |]. unfold is_slash. by destruct (Z.eqb_spec c 47). Qed.

(** The first component and the ones that follow. *)
Lemma components_next p : p <> [] -> no_leading p -> exists w r,
  next_component p = (w, r) /\ w <> [] /\ components 47 p = w :: components 47 (skip_slashes r) /\
  (length (skip_slashes r) < length p)%nat.
Proof.
  intros Hne Hnl. destruct (next_component_spec p) as (r & E & Hs & Hr & Hl).
  exists (fst (next_component p)), r. split; [done |].
  assert (Hw : fst (next_component p) <> []).
  { destruct p as [| c p]; [done |]. simpl in Hnl |- *. unfold is_slash. destruct (Z.eqb_spec c 47); [done |].
    by destruct (next_component p). }
  split; [done |]. rewrite components_skip. split.
  - unfold components. rewrite Hs, filter_cons_True by done. f_equal.
    destruct Hr as [-> | (r' & ->)]; [done |]. fold (components 47 r'). by rewrite <- (components_sep 47 r').
  - pose proof (skip_slashes_length r). destruct (fst (next_component p)); [done | simpl in Hl; lia].
Qed.

Lemma lookup_loop_path fuel node p s : (length p <= fuel)%nat -> no_leading p ->
  Forall (fun w => Z.of_nat (length w) < PATH_MAX) (components 47 p) ->
  lookup_loop fuel node p s = walk_path node (components 47 p) s.
Proof.
  revert node p s. induction fuel as [| fuel IH]; intros node p s Hf Hnl Hc.
  { destruct p; [done | simpl in Hf; lia]. }
  destruct (decide (p = [])) as [-> | Hne]; [done |].
  destruct (components_next p Hne Hnl) as (w & r & En & Hw & Ec & Hl). rewrite Ec in Hc |- *.
  apply list.Forall_cons in Hc as [Hlw Hc]. destruct p as [| c p]; [done |]. cbn [lookup_loop walk_path]. rewrite En.
  destruct (cross_mounts (mount_fuel (vst s)) node (vst s)) as [node' |]; [| done]. cbn [mbind option_bind].
  destruct (Z.leb_spec PATH_MAX (Z.of_nat (length w))); [lia |].
  destruct (walk_component node' w s) as [[[next |] s'] |]; cbn [mbind option_bind]; [| done | done].
  apply IH; [cbn [length] in Hf, Hl; lia | apply skip_no_leading | done].
Qed.

Lemma split_on_str p : is_str p -> Forall is_str (split_on 47 p).
Proof.
  induction p as [| c p IH]; intros Hp; [repeat constructor |]. apply is_str_cons in Hp as [Hc Hp]. specialize (IH Hp). cbn [split_on].
  destruct (split_on 47 p) as [| w ws]; [done |]. apply list.Forall_cons in IH as [Hw Hws].
  destruct (c =? 47); [by repeat constructor |]. constructor; [by constructor | done].
Qed.

Lemma components_str p : is_str p -> Forall (fun c => is_str c /\ c <> []) (components 47 p).
Proof.
  intros Hp. apply list.Forall_forall. intros c [Hne Hin]%list_elem_of_filter. split; [| done].
  by apply (proj1 (list.Forall_forall _ _) (split_on_str p Hp)).
Qed.

(** Where the lookup starts. *)
Definition start_of (cwd : Z) (pathname : list Z) (root : mount) : Z :=
  match pathname with
  | c :: _ => if is_slash c then m_root root else if cwd =? 0 then m_root root else cwd
  | [] => if cwd =? 0 then m_root root else cwd
  end.

Lemma start_of_spec cwd pathname root : (absolute pathname \/ cwd = 0 -> start_of cwd pathname root = m_root root) /\
  (~ absolute pathname -> cwd <> 0 -> start_of cwd pathname root = cwd).
Proof.
  unfold absolute, start_of. destruct pathname as [| c p].
  - split; [intros [[? E] | ->]; done | intros _ Hc; by destruct (Z.eqb_spec cwd 0)].
  - unfold is_slash. destruct (Z.eqb_spec c 47) as [-> | Hne]; [split; [done |]; intros Hn; destruct Hn; by exists p |].
    split; [intros [[? E] | ->]; [congruence | done] | intros _ Hc; by destruct (Z.eqb_spec cwd 0)].
Qed.

Lemma vfs_lookup_path cwd pathname s :
  Forall (fun w => Z.of_nat (length w) < PATH_MAX) (components 47 pathname) ->
  vfs_lookup cwd pathname s =
    if rootfs (vst s) =? 0 then Some (None, s) else
    root ← mounts (vst s) !! rootfs (vst s);
    '(r, s) ← walk_path (start_of cwd pathname root) (components 47 pathname) s;
    match r with
    | None => Some (None, s)
    | Some node => node ← cross_mounts (mount_fuel (vst s)) node (vst s); Some (Some node, s)
    end.
Proof.
  intros Hc. unfold vfs_lookup, start_of. destruct (rootfs (vst s) =? 0); [done |].
  destruct (mounts (vst s) !! rootfs (vst s)) as [root |]; [| done]. cbn [mbind option_bind].
  destruct pathname as [| c p]; [done |]. destruct (is_slash c) eqn:E.
  - rewrite (lookup_loop_path _ _ _ s); [by rewrite components_skip | done | apply skip_no_leading | by rewrite components_skip].
  - rewrite (lookup_loop_path _ _ _ s); [done | done | | done]. unfold is_slash in E. simpl. lia.
Qed.

(** C28: path lookup answers exactly what the path names, and only then: from the
    root for a leading slash and from the working directory otherwise, the
    components between the slashes are followed one by one; before each, and at
    the end, the mounts on the node are crossed; a dot stays, two dots go to the
    parent, a name goes to the first entry of that name in the file system of
    the directory, or to the device of that name. *)
Theorem vfs_lookup_components cwd pathname s r s' : is_str pathname -> names_ok (vst s) ->
  Forall (fun w => Z.of_nat (length w) < PATH_MAX) (components 47 pathname) ->
  vfs_lookup cwd pathname s = Some (r, s') <-> resolves cwd pathname s r s'.
Proof.
  intros Hp Hv Hc. rewrite vfs_lookup_path by done. pose proof (components_str pathname Hp) as Hcs. split.
  - destruct (Z.eqb_spec (rootfs (vst s)) 0); [intros [= <- <-]; by apply resolves_unmounted |].
    destruct (mounts (vst s) !! rootfs (vst s)) as [root |] eqn:Er; [| done]. cbn [mbind option_bind].
    destruct (start_of_spec cwd pathname root) as [Hs1 Hs2].
    destruct (walk_path _ _ _) as [[[a |] s1] |] eqn:Ew; cbn [mbind option_bind]; [| | done];
      apply walk_path_spec in Ew; try done.
    + destruct (cross_mounts (mount_fuel (vst s1)) a (vst s1)) as [b |] eqn:Ec; [| done]. cbn [mbind option_bind]. intros [= <- <-].
      apply cross_mounts_spec in Ec as [ids Ht]. by eapply resolves_node.
    + intros [= <- <-]. by eapply resolves_absent.
  - assert (Hstart : forall root start, (absolute pathname \/ cwd = 0 -> start = m_root root) -> (~ absolute pathname -> cwd <> 0 -> start = cwd) ->
      start_of cwd pathname root = start).
    { intros root start H1 H2. destruct (start_of_spec cwd pathname root) as [Hs1 Hs2].
      assert (absolute pathname \/ ~ absolute pathname) as [Ha | Ha].
      { destruct pathname as [| c p]; [right; by intros [? ?] |]. destruct (decide (c = 47)) as [-> | Hne]; [left; by exists p | right; intros [? [= ? _]]; done]. }
      - rewrite Hs1, H1 by auto. done.
      - destruct (decide (cwd = 0)); [rewrite Hs1, H1 by auto | rewrite Hs2, H2 by auto]; done. }
    intros Hr. destruct Hr as [E | root start s1 Hn Er H1 H2 Hw | root start a ids r s1 Hn Er H1 H2 Hw Ht];
      [by destruct (Z.eqb_spec (rootfs (vst s)) 0) | |];
      (destruct (Z.eqb_spec (rootfs (vst s)) 0); [done |]); rewrite Er; cbn [mbind option_bind];
      rewrite (Hstart root start H1 H2), (proj2 (walk_path_spec _ Hcs start s _ _ Hv) Hw); cbn [mbind option_bind]; [done |].
    by rewrite (proj2 (cross_mounts_spec (vst s1) a r)) by (by exists ids).
Qed.

(** A longer component overruns the local buffer of [vfs_lookup]. *)
Lemma vfs_lookup_overrun cwd name s : no_leading name -> components 47 name = [name] ->
  PATH_MAX <= Z.of_nat (length name) -> rootfs (vst s) <> 0 -> vfs_lookup cwd name s = None.
Proof.
  intros Hnl Hc Hl Hr. unfold vfs_lookup. destruct (Z.eqb_spec (rootfs (vst s)) 0); [done |].
  destruct (mounts (vst s) !! rootfs (vst s)) as [root |]; [| done]. cbn [mbind option_bind].
  destruct name as [| c p]; [done |]. simpl in Hnl. unfold is_slash. destruct (Z.eqb_spec c 47); [done |].
  destruct (components_next (c :: p)) as (w & r & En & _ & Ec & _); [done | done |]. rewrite Hc in Ec. injection Ec as <- _.
  cbn [length lookup_loop]. rewrite En. destruct (cross_mounts _ _ _); [| done]. cbn [mbind option_bind].
  destruct (Z.leb_spec PATH_MAX (Z.of_nat (length (c :: p)))); [done | lia].
Qed.

End Lookup.

(** ** Files in memory *)

Section Files.
Context {H : Type} {HO : HeapOps H}.
Implicit Types (s : vstate H).

(** [f] is an open file of the memory file system, on the node [inode]. *)
Record tmpfs_file s (f : Z) (fl : file) (vn : vnode) (inode : tmpfs_vnode) : Prop := {
  tf_file : files (vst s) !! f = Some fl;
  tf_vnode : vnodes (vst s) !! f_vnode fl = Some vn;
  tf_inode : tnodes (vst s) !! v_internal vn = Some inode;
}.

(** A file node: at most a block of data, none before the first write. *)
Record inode_ok (inode : tmpfs_vnode) : Prop := {
  io_type : t_type inode = FS_FILE;
  io_size : 0 <= t_size inode <= TMPFS_MAX_FILE_SIZE;
  io_none : t_data inode = 0 -> t_size inode = 0;
  io_data : t_data inode <> 0 -> Z.of_nat (length (t_bytes inode)) = TMPFS_MAX_FILE_SIZE;
}.

Lemma slice_ok bs off len : 0 <= off -> 0 <= len -> off + len <= Z.of_nat (length bs) ->
  slice bs off len = Some (take (Z.to_nat len) (drop (Z.to_nat off) bs)).
Proof.
  intros. unfold slice. destruct (Z.ltb_spec off 0), (Z.ltb_spec len 0), (Z.ltb_spec (Z.of_nat (length bs)) (off + len)); try lia. done.
Qed.

Lemma splice_ok bs off src len : 0 <= off -> 0 <= len <= Z.of_nat (length src) -> off + len <= Z.of_nat (length bs) ->
  splice bs off src len = Some (take (Z.to_nat off) bs ++ take (Z.to_nat len) src ++ drop (Z.to_nat (off + len)) bs).
Proof.
  intros. unfold splice. rewrite slice_ok by lia. cbn [mbind option_bind].
  destruct (Z.ltb_spec off 0), (Z.ltb_spec (Z.of_nat (length bs)) (off + len)); try lia. by rewrite drop_0.
Qed.

(** What was written is read back. *)
Lemma slice_splice bs off src len : 0 <= off -> 0 <= len <= Z.of_nat (length src) -> off + len <= Z.of_nat (length bs) ->
  slice (take (Z.to_nat off) bs ++ take (Z.to_nat len) src ++ drop (Z.to_nat (off + len)) bs) off len =
  Some (take (Z.to_nat len) src).
Proof.
  intros. rewrite slice_ok; [| lia | lia | rewrite !length_app, !length_take, length_drop; lia].
  f_equal. rewrite drop_app_length' by (rewrite length_take; lia). by rewrite take_app_length' by (rewrite length_take; lia).
Qed.

(** C31: reading back what was written: [tmpfs_write] stores as much of the
    buffer as fits in the block, at the position of the file, advances the
    position and grows the size; a read of that many bytes from the same
    position through any other handle on the node answers exactly those bytes, and
    the bytes around them are as before. *)
Theorem tmpfs_write_read s f fl vn inode buf len :
  tmpfs_file s f fl vn inode -> inode_ok inode -> t_data inode <> 0 ->
  0 <= f_pos fl <= TMPFS_MAX_FILE_SIZE -> 0 <= len -> f_pos fl + len < 2 ^ 64 -> len <= Z.of_nat (length buf) ->
  let n := Z.min len (TMPFS_MAX_FILE_SIZE - f_pos fl) in
  exists s' inode', tmpfs_write f buf len s = Some (n, s') /\
    tmpfs_file s' f (set_f_pos (f_pos fl + n) fl) vn inode' /\ inode_ok inode' /\
    t_size inode' = Z.max (t_size inode) (f_pos fl + n) /\
    t_bytes inode' = take (Z.to_nat (f_pos fl)) (t_bytes inode) ++ take (Z.to_nat n) buf ++
                     drop (Z.to_nat (f_pos fl + n)) (t_bytes inode) /\
    forall g gl, g <> f -> files (vst s) !! g = Some gl -> f_vnode gl = f_vnode fl -> f_pos gl = f_pos fl -> 0 < n ->
      exists s'', tmpfs_read g n s' = Some (n, take (Z.to_nat n) buf, s'').
Proof.
  intros [Hf Hv Hi] [Hty Hsz _ Hd] Hnz Hpos Hlen Hw Hbuf n. specialize (Hd Hnz). unfold TMPFS_MAX_FILE_SIZE in *.
  unfold tmpfs_write. rewrite Hf. cbn [mbind option_bind]. rewrite Hv. cbn [mbind option_bind]. rewrite Hi. cbn [mbind option_bind].
  rewrite decide_False by (intros Hn; by apply Hn). destruct (Z.eqb_spec (t_data inode) 0); [done |]. cbn [mbind option_bind].
  unfold TMPFS_MAX_FILE_SIZE. rewrite (u64_small (f_pos fl + len)), (u64_small (4096 - f_pos fl)) by lia.
  replace (if 4096 <? f_pos fl + len then 4096 - f_pos fl else len) with n.
  2: { subst n. destruct (Z.ltb_spec 4096 (f_pos fl + len)); lia. }
  assert (Hn : 0 <= n <= len /\ f_pos fl + n <= 4096) by (subst n; lia).
  rewrite splice_ok by lia. cbn [mbind option_bind]. rewrite (u64_small (f_pos fl + n)), (i32_small n) by lia.
  set (bs := take (Z.to_nat (f_pos fl)) (t_bytes inode) ++ take (Z.to_nat n) buf ++ drop (Z.to_nat (f_pos fl + n)) (t_bytes inode)).
  set (inode' := if t_size (set_t_bytes bs inode) <? f_pos fl + n then set_t_size (f_pos fl + n) (set_t_bytes bs inode) else set_t_bytes bs inode).
  assert (Hinode : t_type inode' = FS_FILE /\ t_data inode' = t_data inode /\ t_bytes inode' = bs /\
    t_size inode' = Z.max (t_size inode) (f_pos fl + n)).
  { subst inode'. cbn [set_t_bytes t_size]. destruct (Z.ltb_spec (t_size inode) (f_pos fl + n)); simpl; split_and!; try done; lia. }
  destruct Hinode as (Ht' & Hd' & Hb' & Hs').
  eexists _, inode'. split; [done |]. split_and!; try done.
  - split; cbn [vst on_vst put_tnode put_file set_tnodes set_files files vnodes tnodes]; [by rewrite lookup_insert_eq | done | by rewrite lookup_insert_eq].
  - split; [done | unfold TMPFS_MAX_FILE_SIZE; lia | congruence |]. intros _. rewrite Hb'. subst bs.
    unfold TMPFS_MAX_FILE_SIZE. rewrite !length_app, !length_take, length_drop. lia.
  - intros g gl Hne Hg Evn Epos Hn0. unfold tmpfs_read. cbn [vst on_vst put_tnode put_file set_tnodes set_files files vnodes tnodes].
    rewrite lookup_insert_ne, Hg by done. cbn [mbind option_bind]. rewrite Evn, Hv. cbn [mbind option_bind].
    rewrite lookup_insert_eq. cbn [mbind option_bind]. rewrite decide_False by (intros Hty'; by apply Hty').
    rewrite Hs', Epos. destruct (Z.leb_spec (Z.max (t_size inode) (f_pos fl + n)) (f_pos fl)); [lia |].
    rewrite (u64_small (f_pos fl + n)) by lia.
    destruct (Z.ltb_spec (Z.max (t_size inode) (f_pos fl + n)) (f_pos fl + n)); [lia |].
    rewrite Hb'. subst bs. rewrite slice_splice by lia. cbn [mbind option_bind]. rewrite i32_small by lia. by eexists.
Qed.

(** A length close to 2^64 wraps around and the copy runs past the block. *)
Lemma tmpfs_write_wraps s f fl vn inode buf len :
  tmpfs_file s f fl vn inode -> inode_ok inode -> t_data inode <> 0 ->
  0 < f_pos fl <= TMPFS_MAX_FILE_SIZE -> 2 ^ 64 - f_pos fl <= len < 2 ^ 64 -> tmpfs_write f buf len s = None.
Proof.
  intros [Hf Hv Hi] [Hty _ _ Hd] Hnz Hpos Hlen. specialize (Hd Hnz). unfold TMPFS_MAX_FILE_SIZE in *.
  unfold tmpfs_write. rewrite Hf. cbn [mbind option_bind]. rewrite Hv. cbn [mbind option_bind]. rewrite Hi. cbn [mbind option_bind].
  rewrite decide_False by (intros Hn; by apply Hn). destruct (Z.eqb_spec (t_data inode) 0); [done |]. cbn [mbind option_bind].
  replace (f_pos fl ⊞ len) with (f_pos fl + len - 2 ^ 64).
  2: { unfold u64. change (2 ^ 64) with 18446744073709551616 in *. dlia. }
  unfold TMPFS_MAX_FILE_SIZE. destruct (Z.ltb_spec 4096 (f_pos fl + len - 2 ^ 64)); [lia |].
  unfold splice. destruct (slice buf 0 len) as [bs |]; [| done]. cbn [mbind option_bind].
  destruct (Z.ltb_spec (f_pos fl) 0), (Z.ltb_spec (Z.of_nat (length (t_bytes inode))) (f_pos fl + len)); (done || lia).
Qed.

End Files.

(** ** Concrete inputs, used by the witnesses *)

(** Two handles on an empty file that has its block; a directory tree with one
    mount. *)
Definition demo_vfs : vfs :=
  Vfs (<[2 := Vnode 0 tmpfs_ops 3 10]> (<[10 := Vnode 0 tmpfs_ops 11 10]> ∅))
      (<[1 := File 2 0 tmpfs_ops 0 1]> (<[5 := File 2 0 tmpfs_ops 0 1]> ∅))
      (<[20 := Mount 10 0]> ∅)
      (<[3 := TmpfsVnode FS_FILE (chars "a") [] 4 (replicate 4096 0) 0]>
         (<[11 := TmpfsVnode FS_DIR [] [2] 0 [] 0]> ∅)) ∅ [] 20 0 0.

Definition demo_state : vstate allocator := VState heap0 demo_vfs.

#[local] Opaque heap0.

(** The root directory has the file "a" and the directory "dev", on which the
    device file system is mounted. *)
Definition demo_tree : vfs :=
  Vfs (<[2 := Vnode 0 tmpfs_ops 3 10]> (<[10 := Vnode 0 tmpfs_ops 11 0]> (<[12 := Vnode 21 tmpfs_ops 13 0]> (<[30 := Vnode 0 devfs_ops 0 10]> ∅))))
      ∅ (<[20 := Mount 10 0]> (<[21 := Mount 30 1]> ∅))
      (<[3 := TmpfsVnode FS_FILE (chars "a") [] 0 [] 0]> (<[13 := TmpfsVnode FS_DIR (chars "dev") [] 0 [] 0]>
         (<[11 := TmpfsVnode FS_DIR [] [0; 12; 2] 0 [] 0]> ∅))) ∅ [] 20 40 0.
Definition adopted_tree : vfs := put_vnode 12 (Vnode 21 tmpfs_ops 13 10) demo_tree.

Lemma demo_names : names_ok demo_tree.
Proof.
  split; [| intros x i Hx; change ((∅ : gmap Z ramfs_inode) !! x = Some i) in Hx; by rewrite lookup_empty in Hx]. intros x i Hx. cbn [tnodes demo_tree] in Hx.
  apply lookup_insert_Some in Hx as [[_ <-] | [_ [[_ <-] | [_ [[_ <-] | [_ Hx]]%lookup_insert_Some]]%lookup_insert_Some]];
    [.. | by rewrite lookup_empty in Hx]; repeat constructor; discriminate.
Qed.

Lemma demo_entry v e name n i l1 l2 : (vnodes v !! e = Some n) -> tnodes v !! v_internal n = Some i -> t_name i = name ->
  Forall (fun x => exists o, tmpfs_name v x o /\ o <> name) l1 -> first_named (tmpfs_name v) name (l1 ++ e :: l2) (Some e).
Proof. intros Hn Hi He Hl. exists l1, l2. split_and!; [reflexivity | by exists n, i | exact Hl]. Qed.

(** Down to the mount, up from the device file system, and down to the file. *)
Lemma demo_walk : walks (VState heap0 demo_tree) 10 [chars "."; chars "dev"; chars ".."; chars "a"] (Some 2) (VState heap0 adopted_tree).
Proof.
  eapply (walks_on _ _ [] 10); [by eapply top_here | reflexivity | apply comp_dot |].
  eapply (walks_on _ _ [] 10); [by eapply top_here | reflexivity | |].
  { eapply (comp_adopted _ _ _ _ 12 _ (Mount 10 0) (VState heap0 demo_tree)); [discriminate | discriminate | | reflexivity | reflexivity | reflexivity | discriminate].
    eapply child_tmpfs; [reflexivity | reflexivity | reflexivity |].
    eapply (demo_entry _ _ _ _ _ [] [2]); [reflexivity | reflexivity | reflexivity | constructor]. }
  eapply (walks_on _ _ [21] 30); [eapply (top_mounted _ 12 (Vnode 21 tmpfs_ops 13 10) (Mount 30 1)); [reflexivity | discriminate | reflexivity | by eapply top_here] | reflexivity | apply comp_up; discriminate |].
  eapply (walks_on _ _ [] 10); [by eapply top_here | reflexivity | | apply walks_end].
  eapply (comp_child _ _ _ _ 2 _ (Mount 10 0)); [discriminate | discriminate | | reflexivity | reflexivity | left; discriminate].
  eapply child_tmpfs; [reflexivity | reflexivity | reflexivity |].
  eapply (demo_entry _ _ _ _ _ [12] []); [reflexivity | reflexivity | reflexivity |]. constructor; [| constructor].
  exists (chars "dev"). split; [eexists _, _; split_and!; reflexivity | discriminate].
Qed.

Lemma vfs_lookup_components_witness :
  vfs_lookup 0 (chars "/.//dev/../a/") (VState heap0 demo_tree) = Some (Some 2, VState heap0 adopted_tree) /\
  resolves 30 (chars "../b") (VState heap0 demo_tree) None (VState heap0 demo_tree).
Proof.
  split.
  - apply (vfs_lookup_components 0 (chars "/.//dev/../a/") (VState heap0 demo_tree)).
    + repeat constructor; discriminate.
    + exact demo_names.
    + replace (components 47 (chars "/.//dev/../a/")) with [chars "."; chars "dev"; chars ".."; chars "a"] by reflexivity. repeat constructor.
    + eapply (resolves_node _ _ _ (Mount 10 0) 10 2 []); [discriminate | reflexivity | reflexivity | | | by eapply top_here].
      * intros Hn. destruct Hn. by exists (chars ".//dev/../a/").
      * replace (components 47 (chars "/.//dev/../a/")) with [chars "."; chars "dev"; chars ".."; chars "a"] by reflexivity. exact demo_walk.
  - apply (vfs_lookup_components 30 (chars "../b") (VState heap0 demo_tree)).
    + repeat constructor; discriminate.
    + exact demo_names.
    + replace (components 47 (chars "../b")) with [chars ".."; chars "b"] by reflexivity. repeat constructor.
    + reflexivity.
Defined.

Lemma tmpfs_write_read_witness :
  exists s' s'', tmpfs_write 1 [104; 105] 2 demo_state = Some (2, s') /\ tmpfs_read 5 2 s' = Some (2, [104; 105], s'').
Proof.
  destruct (tmpfs_write_read demo_state 1 (File 2 0 tmpfs_ops 0 1) (Vnode 0 tmpfs_ops 3 10)
    (TmpfsVnode FS_FILE (chars "a") [] 4 (replicate 4096 0) 0) [104; 105] 2) as (s' & inode' & E & _ & _ & _ & _ & Hr).
  - split; reflexivity.
  - split; [reflexivity | cbn; unfold TMPFS_MAX_FILE_SIZE; lia | intros E; discriminate E | intros _; reflexivity].
  - intros E; discriminate E.
  - cbn; unfold TMPFS_MAX_FILE_SIZE; lia.
  - lia.
  - cbn. lia.
  - cbn. lia.
  - destruct (Hr 5 (File 2 0 tmpfs_ops 0 1)) as (s'' & E'); [lia | reflexivity | reflexivity | reflexivity | cbn; unfold TMPFS_MAX_FILE_SIZE; lia |].
    exists s', s''. split; [exact E | exact E'].
Defined.
