(* ===== verification/Uart.v ===== *)
(** * The serial port: [src/uart.c]

    The ring buffers, the interrupt handler and the character routines.  The
    16550 device is an interface: its registers are read and written through
    the operations of the class [Device]. *)

From S2P Require Import Prelude.

(** ** Ring buffers *)

Definition RINGBUF_SIZE : Z := 2048.

Record ringbuf_t := Ringbuf { buffer : list Z; head : Z; tail : Z }.

(** [ring->buffer[i] = c], [ring->buffer[i]]: None when out of bounds. *)
Definition buf_set (i c : Z) (buf : list Z) : option (list Z) :=
  if (i <? 0) || (Z.of_nat (length buf) <=? i) then None else Some (<[Z.to_nat i := c]> buf).
Definition buf_get (i : Z) (buf : list Z) : option Z :=
  if i <? 0 then None else buf !! Z.to_nat i.

(** The status returned (1: success, 0: full) and the new ring. *)
Definition ringbuf_push (r : ringbuf_t) (c : Z) : option (Z * ringbuf_t) :=
  let next := Z.rem (head r + 1) RINGBUF_SIZE in
  if negb (next =? tail r) then
    buf ← buf_set (head r) c (buffer r);
    Some (1, Ringbuf buf next (tail r))
  else Some (0, r).

(** The character popped, or None when the ring is empty. *)
Definition ringbuf_pop (r : ringbuf_t) : option (option Z * ringbuf_t) :=
  if negb (head r =? tail r) then
    c ← buf_get (tail r) (buffer r);
    Some (Some c, Ringbuf (buffer r) (head r) (Z.rem (tail r + 1) RINGBUF_SIZE))
  else Some (None, r).

Definition empty_ring : ringbuf_t := Ringbuf (replicate 2048 0) 0 0.

(** ** The device and the driver state *)

Definition LSR_DR : Z := Z.shiftl 1 0.
Definition LSR_TDRQ : Z := Z.shiftl 1 5.

(** The registers of the 16550: reads may change the device. *)
Class Device (dev : Type) := {
  read_LSR : dev -> Z * dev;
  read_RBR : dev -> Z * dev;
  write_THR : Z -> dev -> dev;
  read_IIR : dev -> Z * dev;
  read_IER : dev -> Z;
  write_IER : Z -> dev -> dev;
  read_MCR : dev -> Z;
  write_MCR : Z -> dev -> dev;
}.

Section Driver.
Context {dev : Type} `{DV : Device dev}.

Record uart := Uart {
  uart_base_addr : Z;
  uart_async : bool;
  rx_ring : ringbuf_t;
  tx_ring : ringbuf_t;
  sie : bool;  (* the SIE bit of sstatus *)
  device : dev;
}.

Definition set_device (d : dev) (u : uart) : uart :=
  Uart (uart_base_addr u) (uart_async u) (rx_ring u) (tx_ring u) (sie u) d.
Definition set_rx (r : ringbuf_t) (u : uart) : uart :=
  Uart (uart_base_addr u) (uart_async u) r (tx_ring u) (sie u) (device u).
Definition set_tx (r : ringbuf_t) (u : uart) : uart :=
  Uart (uart_base_addr u) (uart_async u) (rx_ring u) r (sie u) (device u).
Definition set_async (a : bool) (u : uart) : uart :=
  Uart (uart_base_addr u) a (rx_ring u) (tx_ring u) (sie u) (device u).

Definition irq_enabled (u : uart) : bool := sie u.

Definition uart_setup_interrupts (u : uart) : uart :=
  if uart_base_addr u =? 0 then u else
  let d := write_IER (Z.lor (read_IER (device u)) (Z.shiftl 1 0)) (device u) in
  let d := write_MCR (Z.lor (read_MCR d) (Z.shiftl 1 3)) d in
  set_async true (set_device d u).

(** [*UART_IER |= (1 << 1)] and [*UART_IER &= (unsigned char)~(1 << 1)] *)
Definition thri_on (u : uart) : uart :=
  set_device (write_IER (Z.lor (read_IER (device u)) (Z.shiftl 1 1)) (device u)) u.
Definition thri_off (u : uart) : uart :=
  set_device (write_IER (Z.land (read_IER (device u)) (Z.land (Z.lnot (Z.shiftl 1 1)) 255)) (device u)) u.

Fixpoint uart_try_tx (fuel : nat) (u : uart) : option uart :=
  let '(lsr, d) := read_LSR (device u) in
  let u := set_device d u in
  if Z.land lsr LSR_TDRQ =? 0 then Some u else
  match fuel with
  | O => None
  | S fuel =>
      '(c, r) ← ringbuf_pop (tx_ring u);
      match c with
      | None => Some (thri_off u)
      | Some c => let u := set_tx r u in uart_try_tx fuel (set_device (write_THR c (device u)) u)
      end
  end.

(** [while ((LSR & DR) != 0) ringbuf_push(&rx_ring, RBR)] *)
Fixpoint drain_rx (fuel : nat) (u : uart) : option uart :=
  let '(lsr, d) := read_LSR (device u) in
  let u := set_device d u in
  if Z.land lsr LSR_DR =? 0 then Some u else
  match fuel with
  | O => None
  | S fuel =>
      let '(c, d) := read_RBR (device u) in
      '(_, r) ← ringbuf_push (rx_ring u) c;
      drain_rx fuel (set_rx r (set_device d u))
  end.

Fixpoint handle_uart_interrupt (fuel : nat) (u : uart) : option uart :=
  match fuel with
  | O => None
  | S fuel' =>
      let '(iir, d) := read_IIR (device u) in
      let u := set_device d u in
      if Z.land iir 1 =? 1 then Some u else
      let '(lsr, d) := read_LSR (device u) in
      let u := set_device d u in
      u ← (if negb (Z.land lsr LSR_DR =? 0) then drain_rx fuel u else Some u);
      u ← uart_try_tx fuel u;
      handle_uart_interrupt fuel' u
  end.

(** ** Characters *)

(** The environment: what interrupts do to the state while the processor waits. *)
Context (wfi : uart -> uart).

Definition cr_to_nl (c : Z) : Z := if c =? 13 then 10 else c.

Fixpoint uart_getc_raw_polling (fuel : nat) (u : uart) : option (Z * uart) :=
  let '(lsr, d) := read_LSR (device u) in
  let u := set_device d u in
  if Z.land lsr LSR_DR =? 0 then match fuel with O => None | S fuel => uart_getc_raw_polling fuel u end
  else let '(c, d) := read_RBR (device u) in Some (c, set_device d u).

Definition uart_getc_polling (fuel : nat) (u : uart) : option (Z * uart) :=
  '(c, u) ← uart_getc_raw_polling fuel u; Some (cr_to_nl c, u).

Fixpoint poll_tdrq (fuel : nat) (u : uart) : option uart :=
  let '(lsr, d) := read_LSR (device u) in
  let u := set_device d u in
  if Z.land lsr LSR_TDRQ =? 0 then match fuel with O => None | S fuel => poll_tdrq fuel u end else Some u.

Definition put_polling (fuel : nat) (c : Z) (u : uart) : option uart :=
  u ← poll_tdrq fuel u; Some (set_device (write_THR c (device u)) u).

Definition uart_putc_polling (fuel : nat) (c : Z) (u : uart) : option uart :=
  u ← (if c =? 10 then put_polling fuel 13 u else Some u); put_polling fuel c u.

(** [while (!ringbuf_pop(&rx_ring, &c)) wfi] *)
Fixpoint wait_rx (fuel : nat) (u : uart) : option (Z * uart) :=
  '(c, r) ← ringbuf_pop (rx_ring u);
  match c with
  | Some c => Some (c, set_rx r u)
  | None => match fuel with O => None | S fuel => wait_rx fuel (wfi u) end
  end.

Definition uart_getc_raw (fuel : nat) (u : uart) : option (Z * uart) :=
  if uart_async u then
    '(c, r) ← ringbuf_pop (rx_ring u);
    match c with
    | Some c => Some (c, set_rx r u)
    | None => if irq_enabled u then wait_rx fuel u else uart_getc_raw_polling fuel u
    end
  else uart_getc_raw_polling fuel u.

Definition uart_getc (fuel : nat) (u : uart) : option (Z * uart) :=
  if uart_async u then
    '(c, r) ← ringbuf_pop (rx_ring u);
    match c with
    | Some c => Some (cr_to_nl c, set_rx r u)
    | None => if irq_enabled u then '(c, u) ← wait_rx fuel u; Some (cr_to_nl c, u)
              else uart_getc_polling fuel u
    end
  else uart_getc_polling fuel u.

(** -1 when there is no character. *)
Definition uart_getc_nonblocking (fuel : nat) (u : uart) : option (Z * uart) :=
  if uart_async u then
    '(c, r) ← ringbuf_pop (rx_ring u);
    match c with Some c => Some (cr_to_nl c, set_rx r u) | None => Some (-1, u) end
  else uart_getc_polling fuel u.

(** [while (!ringbuf_push(&tx_ring, c)) { IER |= THRI; wfi; }] *)
Fixpoint push_tx (fuel : nat) (c : Z) (u : uart) : option uart :=
  '(ok, r) ← ringbuf_push (tx_ring u) c;
  if negb (ok =? 0) then Some (set_tx r u)
  else match fuel with O => None | S fuel => push_tx fuel c (wfi (thri_on u)) end.

Definition put_char (fuel : nat) (c : Z) (u : uart) : option uart :=
  if uart_async u && irq_enabled u then
    u ← push_tx fuel c u; uart_try_tx fuel (thri_on u)
  else uart_putc_polling fuel c u.

Definition uart_putc (fuel : nat) (c : Z) (u : uart) : option uart :=
  u ← (if c =? 10 then put_char fuel 13 u else Some u); put_char fuel c u.

Fixpoint uart_puts (fuel : nat) (s : list Z) (u : uart) : option uart :=
  match s with
  | [] => Some u
  | c :: s => u ← uart_putc fuel c u; uart_puts fuel s u
  end.

(** The digits of [uart_hex], from the most significant one. *)
Fixpoint hex_digits (n : nat) (h : Z) : list Z :=
  match n with
  | O => []
  | S n => let d := Z.land (Z.shiftr h (4 * Z.of_nat n)) 15 in
           (if 9 <? d then d + 0x57 else d + 48) :: hex_digits n h
  end.

Definition uart_hex (fuel : nat) (h : Z) (u : uart) : option uart :=
  u ← uart_puts fuel [48; 120] u; uart_puts fuel (hex_digits 16 h) u.

End Driver.

Arguments uart : clear implicits.
