(* ===== verification/UartProps.v ===== *)
(** * Properties of the serial port driver

    The ring buffer is a bounded queue, and the driver neither loses, repeats
    nor reorders characters in either direction. *)

From S2P Require Import Prelude Uart.

(** ** The ring buffer *)

(** The ring [r] holds the sequence [q], oldest first. *)
Record ring_ok (r : ringbuf_t) (q : list Z) : Prop := {
  ro_length : length (buffer r) = 2048%nat;
  ro_head : 0 <= head r < RINGBUF_SIZE;
  ro_tail : 0 <= tail r < RINGBUF_SIZE;
  ro_count : Z.of_nat (length q) = (head r - tail r) mod RINGBUF_SIZE;
  ro_cells : forall k : nat, (k < length q)%nat ->
    buffer r !! Z.to_nat ((tail r + Z.of_nat k) mod RINGBUF_SIZE) = q !! k;
}.

Lemma empty_ring_ok : ring_ok empty_ring [].
Proof. split; try done. simpl. lia. Qed.

Lemma ring_push_ok r q c : ring_ok r q -> Z.of_nat (length q) < RINGBUF_SIZE - 1 ->
  exists r', ringbuf_push r c = Some (1, r') /\ ring_ok r' (q ++ [c]).
Proof.
  intros [Hl Hh Ht Hc Hk] Hlt. unfold RINGBUF_SIZE in *. unfold ringbuf_push, buf_set, RINGBUF_SIZE.
  rewrite Z.rem_mod_nonneg by lia.
  destruct (Z.eqb_spec ((head r + 1) mod 2048) (tail r)) as [E | E]; [dlia |]. simpl negb. cbv iota. rewrite Hl.
  destruct (Z.ltb_spec (head r) 0), (Z.leb_spec (Z.of_nat 2048) (head r)); try lia. cbn [orb mbind option_bind].
  eexists. split; [done |]. split; cbn [buffer head tail].
  - by rewrite length_insert.
  - unfold RINGBUF_SIZE. dlia.
  - done.
  - rewrite length_app. simpl. unfold RINGBUF_SIZE. dlia.
  - intros k Hkl. rewrite length_app in Hkl. simpl in Hkl. unfold RINGBUF_SIZE.
    destruct (decide (k = length q)) as [-> |].
    + rewrite list_lookup_middle by done. replace ((tail r + Z.of_nat (length q)) mod 2048) with (head r) by dlia.
      apply list_lookup_insert_eq. lia.
    + rewrite lookup_app_l by lia. rewrite <- (Hk k) by lia. apply list_lookup_insert_ne. dlia.
Qed.

Lemma ring_push_full r q c : ring_ok r q -> Z.of_nat (length q) = RINGBUF_SIZE - 1 -> ringbuf_push r c = Some (0, r).
Proof.
  intros [Hl Hh Ht Hc _] Hlt. unfold RINGBUF_SIZE in *. unfold ringbuf_push, RINGBUF_SIZE.
  rewrite Z.rem_mod_nonneg by lia. destruct (Z.eqb_spec ((head r + 1) mod 2048) (tail r)); [done | dlia].
Qed.

Lemma ring_bound r q : ring_ok r q -> Z.of_nat (length q) <= RINGBUF_SIZE - 1.
Proof. intros [_ _ _ Hc _]. rewrite Hc. unfold RINGBUF_SIZE. dlia. Qed.

Lemma ring_pop_ok r q : ring_ok r q ->
  exists r', ringbuf_pop r = Some (list.head q, r') /\ ring_ok r' (list.tail q).
Proof.
  intros [Hl Hh Ht Hc Hk]. unfold RINGBUF_SIZE in *. unfold ringbuf_pop, buf_get, RINGBUF_SIZE.
  destruct (Z.eqb_spec (head r) (tail r)) as [E | E]; simpl negb; cbv iota.
  - destruct q; [| simpl in Hc; dlia]. exists r. split; [done |]. by split.
  - destruct q as [| c q]; [simpl in Hc; dlia |].
    destruct (Z.ltb_spec (tail r) 0); [lia |].
    pose proof (Hk 0%nat ltac:(simpl; lia)) as H0. rewrite Z.add_0_r, Z.mod_small in H0 by lia. rewrite H0.
    cbn [mbind option_bind lookup list_lookup]. eexists. split; [done |].
    rewrite Z.rem_mod_nonneg by lia. simpl in Hc. split; cbn [buffer head tail list.tail]; unfold RINGBUF_SIZE.
    + done.
    + done.
    + dlia.
    + dlia.
    + intros k Hkl. pose proof (Hk (S k) ltac:(simpl; lia)) as HS. simpl in HS. rewrite <- HS. f_equal. f_equal. dlia.
Qed.

(** Operations on the ring and on a queue of capacity 2047. *)
Inductive ring_op := Push (c : Z) | Pop.

(** The results: the status of a push, the character of a pop. *)
Definition ring_step (o : ring_op) (r : ringbuf_t) : option (option Z * ringbuf_t) :=
  match o with
  | Push c => '(ok, r) ← ringbuf_push r c; Some (Some ok, r)
  | Pop => ringbuf_pop r
  end.

Definition fifo_step (o : ring_op) (q : list Z) : option Z * list Z :=
  match o with
  | Push c => if bool_decide (Z.of_nat (length q) < RINGBUF_SIZE - 1) then (Some 1, q ++ [c]) else (Some 0, q)
  | Pop => (list.head q, list.tail q)
  end.

Fixpoint ring_run (os : list ring_op) (r : ringbuf_t) : option (list (option Z) * ringbuf_t) :=
  match os with
  | [] => Some ([], r)
  | o :: os => '(v, r) ← ring_step o r; '(vs, r) ← ring_run os r; Some (v :: vs, r)
  end.

Fixpoint fifo_run (os : list ring_op) (q : list Z) : list (option Z) * list Z :=
  match os with
  | [] => ([], q)
  | o :: os => let '(v, q) := fifo_step o q in let '(vs, q) := fifo_run os q in (v :: vs, q)
  end.

Lemma ring_step_refines o r q : ring_ok r q ->
  exists r', ring_step o r = Some ((fifo_step o q).1, r') /\ ring_ok r' (fifo_step o q).2.
Proof.
  intros Hr. destruct o as [c |]; simpl.
  - case_bool_decide as Hlt.
    + destruct (ring_push_ok r q c Hr Hlt) as (r' & -> & ?). by exists r'.
    + pose proof (ring_bound _ _ Hr). rewrite (ring_push_full r q c) by (done || lia). by exists r.
  - by apply ring_pop_ok.
Qed.

(** The ring buffer is a bounded first-in first-out queue: any sequence of
    pushes and pops stays within the buffer and gives, operation by operation,
    the results of a queue of capacity [RINGBUF_SIZE - 1]. *)
Theorem ring_refines_fifo os r q : ring_ok r q ->
  exists r', ring_run os r = Some ((fifo_run os q).1, r') /\ ring_ok r' (fifo_run os q).2.
Proof.
  revert r q. induction os as [| o os IH]; intros r q Hr; simpl.
  { by exists r. }
  destruct (ring_step_refines o r q Hr) as (r1 & -> & Hr1). cbn [mbind option_bind].
  destruct (fifo_step o q) as [v q1] eqn:E. simpl in *.
  destruct (IH r1 q1 Hr1) as (r2 & -> & Hr2). cbn [mbind option_bind].
  destruct (fifo_run os q1) as [vs q2]. by exists r2.
Qed.

Lemma ring_refines_fifo_witness :
  exists r', ring_run [Push 65; Push 66; Pop; Pop; Pop] empty_ring = Some ([Some 1; Some 1; Some 65; Some 66; None], r').
Proof.
  destruct (ring_refines_fifo [Push 65; Push 66; Pop; Pop; Pop] empty_ring [] empty_ring_ok) as (r' & E & _).
  exists r'. exact E.
Defined.

(** ** The device *)

(** What the driver relies on: the characters sent and the characters that
    wait to be received, and which registers change them. *)
Class DeviceLaws (dev : Type) `{DV : Device dev} := {
  sent : dev -> list Z;
  incoming : dev -> list Z;
  LSR_sent d : sent (read_LSR d).2 = sent d;
  LSR_incoming d : incoming (read_LSR d).2 = incoming d;
  LSR_ready d : Z.land (read_LSR d).1 LSR_DR = 0 <-> incoming d = [];
  RBR_sent d : sent (read_RBR d).2 = sent d;
  RBR_incoming d c cs : incoming d = c :: cs -> (read_RBR d).1 = c /\ incoming (read_RBR d).2 = cs;
  THR_sent c d : sent (write_THR c d) = sent d ++ [c];
  THR_incoming c d : incoming (write_THR c d) = incoming d;
  IER_sent v d : sent (write_IER v d) = sent d;
  IER_incoming v d : incoming (write_IER v d) = incoming d;
  IIR_sent d : sent (read_IIR d).2 = sent d;
  IIR_incoming d : incoming (read_IIR d).2 = incoming d;
  (* interrupt causes still to be acknowledged; reading IIR acknowledges one *)
  pending : dev -> nat;
  IIR_none d : Z.land (read_IIR d).1 1 = 1 <-> pending d = O;
  IIR_pending d : pending (read_IIR d).2 = pred (pending d);
  LSR_pending d : pending (read_LSR d).2 = pending d;
  RBR_pending d : pending (read_RBR d).2 = pending d;
  THR_pending c d : pending (write_THR c d) = pending d;
  IER_pending v d : pending (write_IER v d) = pending d;
}.

Section Props.
Context {dev : Type} `{DL : DeviceLaws dev}.

(** Transmission moves characters from the ring to the device, in order. *)
Lemma uart_try_tx_spec fuel (u : uart dev) q : ring_ok (tx_ring u) q -> (length q < fuel)%nat ->
  exists u' q', uart_try_tx fuel u = Some u' /\ ring_ok (tx_ring u') q' /\
    sent (device u') ++ q' = sent (device u) ++ q /\ (length q' <= length q)%nat /\
    incoming (device u') = incoming (device u) /\ pending (device u') = pending (device u) /\
    rx_ring u' = rx_ring u /\ sie u' = sie u /\ uart_async u' = uart_async u.
Proof.
  revert u q. induction fuel as [| fuel IH]; intros u q Hr Hf; [lia |]. cbn [uart_try_tx].
  pose proof (LSR_sent (device u)) as Hs. pose proof (LSR_incoming (device u)) as Hi. pose proof (LSR_pending (device u)) as Hp.
  destruct (read_LSR (device u)) as [lsr d]. simpl in Hs, Hi, Hp.
  destruct (Z.eqb_spec (Z.land lsr LSR_TDRQ) 0).
  { exists (set_device d u), q. cbn. by rewrite Hs, Hi, Hp. }
  cbn [tx_ring set_device]. destruct (ring_pop_ok _ _ Hr) as (r' & -> & Hr'). cbn [mbind option_bind].
  destruct q as [| c q]; simpl list.head; cbv iota.
  - eexists _, []. split; [done |]. cbn. rewrite IER_sent, IER_incoming, IER_pending, Hs, Hi, Hp. done.
  - destruct (IH (set_device (write_THR c (device (set_tx r' (set_device d u)))) (set_tx r' (set_device d u))) q)
      as (u' & q' & -> & Hr2 & Hs2 & Hl2 & Hi2 & Hp2 & ? & ? & ?); [done | simpl in Hf; lia |].
    exists u', q'. cbn in Hs2, Hi2, Hp2. rewrite THR_sent, Hs, <- app_assoc in Hs2. rewrite THR_incoming, Hi in Hi2.
    rewrite THR_pending, Hp in Hp2. split_and!; try done. simpl. lia.
Qed.

(** Reception moves the waiting characters into the ring, in order, and drops
    what does not fit. *)
Lemma drain_rx_spec fuel (u : uart dev) q : ring_ok (rx_ring u) q -> (length (incoming (device u)) <= fuel)%nat ->
  exists u', drain_rx fuel u = Some u' /\ incoming (device u') = [] /\ sent (device u') = sent (device u) /\
    pending (device u') = pending (device u) /\
    ring_ok (rx_ring u') (take 2047 (q ++ incoming (device u))) /\ tx_ring u' = tx_ring u /\
    sie u' = sie u /\ uart_async u' = uart_async u.
Proof.
  revert u q. induction fuel as [| fuel IH]; intros u q Hr Hf; cbn [drain_rx].
  all: pose proof (LSR_sent (device u)) as Hs; pose proof (LSR_incoming (device u)) as Hi; pose proof (LSR_ready (device u)) as Hrd.
  all: pose proof (LSR_pending (device u)) as Hp.
  all: destruct (read_LSR (device u)) as [lsr d]; simpl in Hs, Hi, Hrd, Hp.
  all: pose proof (ring_bound _ _ Hr) as Hb; unfold RINGBUF_SIZE in Hb.
  all: destruct (Z.eqb_spec (Z.land lsr LSR_DR) 0) as [E | E].
  1, 3: exists (set_device d u); cbn; rewrite Hs, Hi, Hp, (proj1 Hrd E), app_nil_r, take_ge by lia; done.
  { exfalso. apply E, Hrd. destruct (incoming (device u)); [done | simpl in Hf; lia]. }
  destruct (incoming (device u)) as [| c cs] eqn:Ei; [by destruct E; apply Hrd |].
  cbn [device set_device]. destruct (RBR_incoming d c cs) as [Hc Hcs]; [congruence |].
  pose proof (RBR_sent d) as Hsr. pose proof (RBR_pending d) as Hpr.
  destruct (read_RBR d) as [c' d']. simpl in Hc, Hcs, Hsr, Hpr. subst c'.
  cbn [rx_ring set_device]. destruct (ring_step_refines (Push c) _ _ Hr) as (r' & Hps & Hr'). unfold ring_step in Hps.
  destruct (ringbuf_push (rx_ring u) c) as [[ok r1] |]; [| done]. cbn [mbind option_bind] in *.
  injection Hps as _ ->.
  destruct (IH (set_rx r' (set_device d' (set_device d u))) (fifo_step (Push c) q).2 Hr') as (u' & -> & ? & ? & ? & Hr2 & ? & ? & ?).
  { cbn. rewrite Hcs. simpl in Hf. lia. }
  exists u'. cbn in *. split_and!; try done; try congruence. rewrite Hcs in Hr2.
  case_bool_decide as Hlt; cbn [snd] in Hr2; [by rewrite <- app_assoc in Hr2 |].
  rewrite take_app_length' in Hr2 |- * by (unfold RINGBUF_SIZE in *; lia). done.
Qed.

Context (wfi : uart dev -> uart dev).

Lemma put_char_async fuel c (u : uart dev) q :
  uart_async u = true -> sie u = true -> ring_ok (tx_ring u) q -> Z.of_nat (length q) < RINGBUF_SIZE - 1 ->
  (2048 <= fuel)%nat ->
  exists u' q', put_char wfi fuel c u = Some u' /\ ring_ok (tx_ring u') q' /\ (length q' <= S (length q))%nat /\
    sent (device u') ++ q' = sent (device u) ++ q ++ [c] /\ incoming (device u') = incoming (device u) /\
    rx_ring u' = rx_ring u /\ sie u' = true /\ uart_async u' = true.
Proof.
  intros Ha Hs Hr Hq Hf. unfold put_char, irq_enabled. rewrite Ha, Hs. cbn [andb].
  destruct (ring_push_ok _ _ c Hr Hq) as (r' & Hp & Hr').
  assert (Ep : push_tx wfi fuel c u = Some (set_tx r' u)) by (destruct fuel; simpl; by rewrite Hp).
  rewrite Ep. cbn [mbind option_bind]. pose proof (ring_bound _ _ Hr') as Hb. unfold RINGBUF_SIZE in Hb.
  destruct (uart_try_tx_spec fuel (thri_on (set_tx r' u)) (q ++ [c])) as (u' & q' & -> & ? & Hse & Hl & Hi & _ & ? & ? & ?);
    [done | lia |].
  exists u', q'. cbn in *. rewrite IER_sent in Hse. rewrite IER_incoming in Hi. rewrite length_app in Hl. simpl in Hl.
  split_and!; try done; try congruence. lia.
Qed.

(** A character written while interrupts are on and the ring has room is
    never lost or reordered: [uart_putc] terminates, and the characters handed
    to the device followed by those still in the ring are the old ones followed
    by the new one, a newline preceded by a carriage return. *)
Theorem uart_putc_in_order fuel c (u : uart dev) q :
  uart_async u = true -> sie u = true -> ring_ok (tx_ring u) q -> Z.of_nat (length q) + 2 < RINGBUF_SIZE ->
  (2048 <= fuel)%nat ->
  exists u' q', uart_putc wfi fuel c u = Some u' /\ ring_ok (tx_ring u') q' /\
    sent (device u') ++ q' = sent (device u) ++ q ++ (if c =? 10 then [13; 10] else [c]) /\
    incoming (device u') = incoming (device u) /\ rx_ring u' = rx_ring u.
Proof.
  intros Ha Hs Hr Hq Hf. unfold RINGBUF_SIZE in Hq. unfold uart_putc. destruct (Z.eqb_spec c 10) as [-> |].
  - destruct (put_char_async fuel 13 u q) as (u1 & q1 & -> & Hr1 & Hl1 & Hs1 & Hi1 & ? & ? & ?);
      [done | done | done | unfold RINGBUF_SIZE; lia | done |].
    cbn [mbind option_bind].
    destruct (put_char_async fuel 10 u1 q1) as (u2 & q2 & -> & Hr2 & Hl2 & Hs2 & Hi2 & ? & ? & ?);
      [done | done | done | unfold RINGBUF_SIZE; lia | done |].
    exists u2, q2. split_and!; [done | done | | congruence | congruence].
    rewrite Hs2, app_assoc, Hs1, <- !app_assoc. done.
  - cbn [mbind option_bind]. destruct (put_char_async fuel c u q) as (u1 & q1 & -> & Hr1 & Hl1 & Hs1 & Hi1 & ? & ? & ?);
      [done | done | done | unfold RINGBUF_SIZE; lia | done |].
    by exists u1, q1.
Qed.

Lemma handle_uart_interrupt_spec fuel (u : uart dev) qr qt :
  ring_ok (rx_ring u) qr -> ring_ok (tx_ring u) qt ->
  (pending (device u) + length (incoming (device u)) + 2048 < fuel)%nat ->
  exists u' qt', handle_uart_interrupt fuel u = Some u' /\ pending (device u') = O /\
    ring_ok (tx_ring u') qt' /\ sent (device u') ++ qt' = sent (device u) ++ qt /\
    (pending (device u) = O -> ring_ok (rx_ring u') qr /\ incoming (device u') = incoming (device u)) /\
    (pending (device u) <> O -> ring_ok (rx_ring u') (take 2047 (qr ++ incoming (device u))) /\ incoming (device u') = []).
Proof.
  revert u qr qt. induction fuel as [| fuel IH]; intros u qr qt Hrx Htx Hf; [lia |].
  cbn [handle_uart_interrupt].
  pose proof (IIR_sent (device u)) as Hs. pose proof (IIR_incoming (device u)) as Hi.
  pose proof (IIR_none (device u)) as Hn. pose proof (IIR_pending (device u)) as Hp.
  destruct (read_IIR (device u)) as [iir d]. simpl in Hs, Hi, Hn, Hp.
  destruct (Z.eqb_spec (Z.land iir 1) 1) as [E | E].
  { apply Hn in E. exists (set_device d u), qt. cbn. rewrite Hs, Hi, Hp, E. done. }
  assert (Hpd : pending (device u) <> O) by (intros E'; by apply E, Hn).
  pose proof (LSR_sent d) as Hs1. pose proof (LSR_incoming d) as Hi1. pose proof (LSR_pending d) as Hp1.
  pose proof (LSR_ready d) as Hr1. cbn [device set_device]. destruct (read_LSR d) as [lsr d1]. simpl in Hs1, Hi1, Hp1, Hr1.
  set (u1 := set_device d1 (set_device d u)).
  assert (Hdr : exists u2, (if negb (Z.land lsr LSR_DR =? 0) then drain_rx (S fuel) u1 else Some u1) = Some u2 /\
    incoming (device u2) = [] /\ sent (device u2) = sent (device u) /\ pending (device u2) = pred (pending (device u)) /\
    ring_ok (rx_ring u2) (take 2047 (qr ++ incoming (device u))) /\ tx_ring u2 = tx_ring u).
  { destruct (Z.eqb_spec (Z.land lsr LSR_DR) 0) as [E1 | E1]; simpl negb; cbv iota.
    - apply Hr1 in E1. exists u1. pose proof (ring_bound _ _ Hrx) as Hb. unfold RINGBUF_SIZE in Hb.
      assert (Ei : incoming (device u) = []) by congruence. rewrite Ei, app_nil_r, take_ge by lia.
      cbn. split_and!; try done; congruence.
    - destruct (drain_rx_spec (S fuel) u1 qr) as (u2 & -> & ? & ? & ? & Hr2 & ? & _); [done | cbn; rewrite Hi1, Hi; lia |].
      exists u2. cbn in *. rewrite Hi1, Hi in Hr2. split_and!; try done; congruence. }
  destruct Hdr as (u2 & -> & Hin2 & Hs2 & Hp2 & Hrx2 & Htx2). cbn [mbind option_bind].
  pose proof (ring_bound _ _ Htx) as Hb. unfold RINGBUF_SIZE in Hb.
  destruct (uart_try_tx_spec (S fuel) u2 qt) as (u3 & qt3 & -> & Htx3 & Hs3 & Hl3 & Hi3 & Hp3 & Hrx3 & _); [by rewrite Htx2 | lia |].
  cbn [mbind option_bind].
  destruct (IH u3 (take 2047 (qr ++ incoming (device u))) qt3) as (u4 & qt4 & -> & ? & Htx4 & Hs4 & Hz & Hnz);
    [by rewrite Hrx3 | done | rewrite Hi3, Hp3, Hin2, Hp2; simpl; lia |].
  exists u4, qt4. split_and!; [done | done | done | congruence | done |]. intros _.
  rewrite Hi3, Hin2, app_nil_r in *. rewrite take_take in Hnz.
  destruct (decide (pending (device u3) = O)) as [E3 | E3]; [by apply Hz | by apply Hnz].
Qed.

(** The interrupt handler ends once the device has no interrupt pending, and
    then every character that was waiting is in the receive ring in order (as
    far as the ring has room), and no transmitted character is lost. *)
Theorem handle_uart_interrupt_in_order fuel (u : uart dev) qr qt :
  ring_ok (rx_ring u) qr -> ring_ok (tx_ring u) qt ->
  (pending (device u) + length (incoming (device u)) + 2048 < fuel)%nat ->
  exists u' qt', handle_uart_interrupt fuel u = Some u' /\ pending (device u') = O /\
    ring_ok (tx_ring u') qt' /\ sent (device u') ++ qt' = sent (device u) ++ qt /\
    (pending (device u) = O -> ring_ok (rx_ring u') qr /\ incoming (device u') = incoming (device u)) /\
    (pending (device u) <> O -> ring_ok (rx_ring u') (take 2047 (qr ++ incoming (device u))) /\ incoming (device u') = []).
Proof. apply handle_uart_interrupt_spec. Qed.

End Props.

(** ** A concrete device, used by the witnesses *)

Module ToyUart.

(** Always ready to send; the characters to receive and the interrupts pending
    are given; IER is ignored. *)
Record toy := Toy { toy_sent : list Z; toy_in : list Z; toy_pending : nat }.

#[export] Instance toy_device : Device toy := {
  read_LSR d := (if bool_decide (toy_in d = []) then 32 else 33, d);
  read_RBR d := (default 0 (list.head (toy_in d)), Toy (toy_sent d) (list.tail (toy_in d)) (toy_pending d));
  write_THR c d := Toy (toy_sent d ++ [c]) (toy_in d) (toy_pending d);
  read_IIR d := (if bool_decide (toy_pending d = O) then 1 else 0, Toy (toy_sent d) (toy_in d) (pred (toy_pending d)));
  read_IER _ := 0; write_IER _ d := d; read_MCR _ := 0; write_MCR _ d := d;
}.

#[local] Obligation Tactic := intros; simpl; try done.

#[export] Program Instance toy_laws : DeviceLaws toy := {
  sent := toy_sent; incoming := toy_in; pending := toy_pending;
}.
Next Obligation. by case_bool_decide. Qed.
Next Obligation. simpl in *. by match goal with H : toy_in _ = _ |- _ => rewrite H end. Qed.
Next Obligation. by case_bool_decide. Qed.

Definition toy_uart (d : toy) : uart toy := Uart 0x10000000 true empty_ring empty_ring true d.

End ToyUart.
Import ToyUart.

Lemma uart_putc_in_order_witness :
  exists u' q', uart_putc (fun u => u) 2048 10 (toy_uart (Toy [65] [] 0)) = Some u' /\
    toy_sent (device u') ++ q' = [65; 13; 10].
Proof.
  destruct (uart_putc_in_order (fun u => u) 2048 10 (toy_uart (Toy [65] [] 0)) []) as (u' & q' & E & _ & Hs & _).
  - reflexivity.
  - reflexivity.
  - apply empty_ring_ok.
  - reflexivity.
  - apply le_n.
  - exists u', q'. split; [exact E | exact Hs].
Defined.

Lemma handle_uart_interrupt_in_order_witness :
  exists u', handle_uart_interrupt 3000 (toy_uart (Toy [] [72; 105] 1)) = Some u' /\ ring_ok (rx_ring u') [72; 105].
Proof.
  destruct (handle_uart_interrupt_in_order 3000 (toy_uart (Toy [] [72; 105] 1)) [] []) as (u' & _ & E & _ & _ & _ & _ & H).
  - apply empty_ring_ok.
  - apply empty_ring_ok.
  - simpl. lia.
  - exists u'. split; [exact E |]. apply H. discriminate.
Defined.
