(* ===== verification/Plic.v ===== *)
(** * The interrupt controller: [src/plic.c]

    The registers of the PLIC are 32-bit words behind the class [PlicDevice];
    [plic_base] and the [sie] register of the processor are kept with it. *)

From S2P Require Import Prelude Fdt.

(** Loads may change the device: that of the claim register does. *)
Class PlicDevice (P : Type) := {
  plic_load : Z -> P -> Z * P;
  plic_store : Z -> Z -> P -> P;
}.

(** The addresses of the registers; the macros read [plic_base]. *)
Definition PLIC_PRIORITY (base irq : Z) : Z := base ⊞ i32 (irq * 4).
Definition PLIC_S_CONTEXT : Z := 1.
Definition PLIC_ENABLE_WORD (base ctx n : Z) : Z := base ⊞ 0x002000 ⊞ (0x80 ⊠ ctx) ⊞ (4 ⊠ n).
Definition PLIC_THRESHOLD (base ctx : Z) : Z := base ⊞ 0x200000 ⊞ (0x1000 ⊠ ctx).
Definition PLIC_CLAIM (base ctx : Z) : Z := base ⊞ 0x200004 ⊞ (0x1000 ⊠ ctx).

Definition SIE_SEIE : Z := Z.shiftl 1 9.

Section Driver.
Context {P : Type} `{PD : PlicDevice P}.

Record plic := Plic_ { plic_base : Z; sie_csr : Z; regs : P }.
Definition set_regs (d : P) (p : plic) : plic := Plic_ (plic_base p) (sie_csr p) d.
Definition set_sie (x : Z) (p : plic) : plic := Plic_ (plic_base p) x (regs p).

Definition plic_enable_irq (context irq : Z) (p : plic) : plic :=
  let word := irq / 32 in
  let bit := irq mod 32 in
  let a := PLIC_ENABLE_WORD (plic_base p) context word in
  let '(v, d) := plic_load a (regs p) in
  set_regs (plic_store a (u32 (Z.lor v (Z.shiftl 1 bit))) d) p.

Definition plic_init (hartid : Z) (fdt : fdt_blob) (p : plic) : option plic :=
  base ← fdt_get_plic_base fdt; Some (Plic_ base (sie_csr p) (regs p)).

(** [irq] is an [int]: [plic_enable_irq] takes it as an [uint32_t]. *)
Definition plic_enable_interrupt (irq : Z) (p : plic) : plic :=
  if plic_base p =? 0 then p else
  let p := set_regs (plic_store (PLIC_PRIORITY (plic_base p) irq) 1 (regs p)) p in
  let p := plic_enable_irq PLIC_S_CONTEXT (u32 irq) p in
  let p := set_regs (plic_store (PLIC_THRESHOLD (plic_base p) PLIC_S_CONTEXT) 0 (regs p)) p in
  set_sie (Z.lor (sie_csr p) SIE_SEIE) p.

Definition plic_claim (p : plic) : Z * plic :=
  if plic_base p =? 0 then (0, p) else
  let '(v, d) := plic_load (PLIC_CLAIM (plic_base p) PLIC_S_CONTEXT) (regs p) in (i32 v, set_regs d p).

Definition plic_complete (irq : Z) (p : plic) : plic :=
  if plic_base p =? 0 then p
  else set_regs (plic_store (PLIC_CLAIM (plic_base p) PLIC_S_CONTEXT) (u32 irq) (regs p)) p.

End Driver.
Arguments plic : clear implicits.

(** ** The device *)

Definition NR_IRQ : Z := 1024.

(** The registers that are plain memory: priorities, enable bits and threshold. *)
Inductive config_reg (base : Z) : Z -> Prop :=
  | Priority irq : 0 <= irq < NR_IRQ -> config_reg base (base + 4 * irq)
  | Enable n : 0 <= n < 32 -> config_reg base (base + 0x2080 + 4 * n)
  | Threshold : config_reg base (base + 0x201000).

Definition claim_reg (base : Z) : Z := base + 0x201004.

(** What the driver relies on: [waiting] are the sources a claim would answer,
    in order, [claimed] those claimed and not completed. *)
Class PlicLaws (P : Type) `{PD : PlicDevice P} (base : Z) := {
  content : Z -> P -> Z;
  waiting : P -> list Z;
  claimed : P -> list Z;
  content_word a d : 0 <= content a d < 2 ^ 32;
  load_config a d : config_reg base a -> plic_load a d = (content a d, d);
  store_config a v d : config_reg base a -> 0 <= v < 2 ^ 32 -> content a (plic_store a v d) = v;
  store_other a b v d : config_reg base a -> config_reg base b -> a <> b -> content b (plic_store a v d) = content b d;
  store_claimed a v d : config_reg base a -> claimed (plic_store a v d) = claimed d;
  claim_none d : waiting d = [] -> (plic_load (claim_reg base) d).1 = 0;
  claim_first d irq irqs : waiting d = irq :: irqs ->
    (plic_load (claim_reg base) d).1 = irq /\ waiting (plic_load (claim_reg base) d).2 = irqs /\
    claimed (plic_load (claim_reg base) d).2 = irq :: claimed d;
  complete_claimed irq d : claimed (plic_store (claim_reg base) irq d) = filter (fun i => i <> irq) (claimed d);
  complete_waiting irq d : waiting (plic_store (claim_reg base) irq d) = waiting d;
  waiting_irq d irq : irq ∈ waiting d -> 0 < irq < NR_IRQ;
}.

Section Props.
Context {P : Type} (base : Z) `{PL : PlicLaws P base}.
Context (Hbase : 0 < base) (Htop : base + 0x4000000 <= 2 ^ 64).

Definition priority (irq : Z) (p : plic P) : Z := content (base + 4 * irq) (regs p).
Definition enabled (irq : Z) (p : plic P) : bool := Z.testbit (content (base + 0x2080 + 4 * (irq / 32)) (regs p)) (irq mod 32).
Definition threshold (p : plic P) : Z := content (base + 0x201000) (regs p).

Lemma PLIC_PRIORITY_reg irq : 0 <= irq < NR_IRQ -> PLIC_PRIORITY base irq = base + 4 * irq.
Proof. unfold NR_IRQ, PLIC_PRIORITY. intros. unwrap. lia. Qed.

Lemma PLIC_ENABLE_reg n : 0 <= n < 32 -> PLIC_ENABLE_WORD base PLIC_S_CONTEXT n = base + 0x2080 + 4 * n.
Proof. unfold PLIC_ENABLE_WORD, PLIC_S_CONTEXT. intros. unwrap. lia. Qed.

Lemma PLIC_THRESHOLD_reg : PLIC_THRESHOLD base PLIC_S_CONTEXT = base + 0x201000.
Proof. unfold PLIC_THRESHOLD, PLIC_S_CONTEXT. unwrap. lia. Qed.

Lemma PLIC_CLAIM_reg : PLIC_CLAIM base PLIC_S_CONTEXT = claim_reg base.
Proof. unfold PLIC_CLAIM, PLIC_S_CONTEXT, claim_reg. unwrap. lia. Qed.

Lemma irq_word irq : 0 <= irq < NR_IRQ -> 0 <= irq / 32 < 32 /\ 0 <= irq mod 32 < 32 /\ irq = 32 * (irq / 32) + irq mod 32.
Proof. unfold NR_IRQ. intros. dlia. Qed.

(** The bits of an enable word after one of them was set. *)
Lemma set_bit_word v bit n : 0 <= bit -> 0 <= n < 32 ->
  Z.testbit (u32 (Z.lor v (Z.shiftl 1 bit))) n = Z.testbit v n || (n =? bit).
Proof.
  intros Hb Hn. unfold u32. rewrite Z.mod_pow2_bits_low, Z.lor_spec, shiftl_1, Z.pow2_bits_eqb, Z.eqb_sym by lia. done.
Qed.

(** What the store to one register does to the others. *)
Lemma store_content a b v d : config_reg base a -> config_reg base b -> 0 <= v < 2 ^ 32 ->
  content b (plic_store a v d) = if b =? a then v else content b d.
Proof. intros. destruct (Z.eqb_spec b a) as [-> |]; [by apply store_config | by apply store_other]. Qed.

(** ** The properties *)

(** Enabling an interrupt sets its priority to 1, its enable bit, the
    threshold to 0 and [SEIE]; the priorities and enable bits of all other
    interrupts, and the interrupts that are being served, are as before. *)
Theorem plic_enable_interrupt_enables irq (p : plic P) : plic_base p = base -> 0 <= irq < NR_IRQ ->
  let p' := plic_enable_interrupt irq p in
  plic_base p' = base /\ threshold p' = 0 /\ claimed (regs p') = claimed (regs p) /\
  (forall i, 0 <= i < NR_IRQ -> priority i p' = if i =? irq then 1 else priority i p) /\
  (forall i, 0 <= i < NR_IRQ -> enabled i p' = enabled i p || (i =? irq)) /\
  sie_csr p' = Z.lor (sie_csr p) SIE_SEIE.
Proof.
  intros Hp Hirq. destruct (irq_word irq Hirq) as (Hw & Hb & Ew). pose proof Hirq as Hirq'. unfold NR_IRQ in Hirq'.
  unfold plic_enable_interrupt, plic_enable_irq, threshold, priority, enabled. rewrite Hp. destruct (Z.eqb_spec base 0); [lia |].
  cbn [plic_base set_regs regs sie_csr set_sie]. rewrite Hp, (u32_small irq) by lia.
  rewrite PLIC_PRIORITY_reg, PLIC_ENABLE_reg by done.
  pose proof (Priority base irq Hirq) as HP. pose proof (Enable base (irq / 32) Hw) as HE. pose proof (Threshold base) as HT.
  rewrite load_config by done. cbn [plic_base set_regs regs sie_csr set_sie]. rewrite Hp, PLIC_THRESHOLD_reg.
  cbn [plic_base set_regs regs sie_csr set_sie]. split_and!; [done | | | | | done].
  - by rewrite store_config by (done || lia).
  - by rewrite !store_claimed.
  - intros i Hi. pose proof (Priority base i Hi) as Hreg. unfold NR_IRQ in Hi. pose proof u32_range.
    rewrite !store_content by (done || lia || apply u32_range).
    repeat zcase; (lia || done).
  - intros i Hi. destruct (irq_word i Hi) as (Hwi & Hbi & Ei). pose proof (Enable base (i / 32) Hwi) as Hreg.
    rewrite !store_content by (done || lia || apply u32_range).
    destruct (Z.eqb_spec (base + 0x2080 + 4 * (i / 32)) (base + 0x201000)); [lia |].
    destruct (Z.eqb_spec (base + 0x2080 + 4 * (i / 32)) (base + 0x2080 + 4 * (irq / 32))) as [E | E].
    + rewrite set_bit_word by lia. replace (irq / 32) with (i / 32) by lia.
      destruct (Z.eqb_spec (base + 0x2080 + 4 * (i / 32)) (base + 4 * irq)); [lia |].
      f_equal. destruct (Z.eqb_spec (i mod 32) (irq mod 32)), (Z.eqb_spec i irq); (lia || done).
    + destruct (Z.eqb_spec (base + 0x2080 + 4 * (i / 32)) (base + 4 * irq)); [lia |].
      destruct (Z.eqb_spec i irq) as [-> |]; [lia | by rewrite orb_false_r].
Qed.

(** Without a controller nothing is written and nothing is claimed. *)
Lemma plic_absent irq (p : plic P) : plic_base p = 0 ->
  plic_enable_interrupt irq p = p /\ plic_claim p = (0, p) /\ plic_complete irq p = p.
Proof. intros E. unfold plic_enable_interrupt, plic_claim, plic_complete. by rewrite E. Qed.

(** A claim answers the first waiting source and marks it as being served. *)
Lemma plic_claim_spec irq irqs (p : plic P) : plic_base p = base -> waiting (regs p) = irq :: irqs ->
  exists d, plic_claim p = (irq, set_regs d p) /\ 0 < irq < NR_IRQ /\ waiting d = irqs /\ claimed d = irq :: claimed (regs p).
Proof.
  intros Hp Hw. assert (Hi : 0 < irq < NR_IRQ) by (eapply waiting_irq; rewrite Hw; by left).
  unfold plic_claim. rewrite Hp. destruct (Z.eqb_spec base 0); [lia |]. rewrite PLIC_CLAIM_reg.
  destruct (claim_first (regs p) irq irqs Hw) as (H1 & H2 & H3). destruct (plic_load _ _) as [v d]. cbn [fst snd] in *. subst v.
  exists d. unfold NR_IRQ in Hi. by rewrite i32_small by lia.
Qed.

Lemma plic_complete_spec irq (p : plic P) : plic_base p = base -> 0 < irq < NR_IRQ ->
  exists d, plic_complete irq p = set_regs d p /\ waiting d = waiting (regs p) /\ claimed d = filter (fun i => i <> irq) (claimed (regs p)).
Proof.
  unfold NR_IRQ. intros Hp Hi. unfold plic_complete. rewrite Hp. destruct (Z.eqb_spec base 0); [lia |].
  rewrite PLIC_CLAIM_reg, u32_small by lia. eexists. split; [done |]. split; [apply complete_waiting | apply complete_claimed].
Qed.

End Props.

(** ** A concrete controller, used by the witnesses *)

Module ToyPlic.

(** The words of the registers, the sources that wait and those claimed. *)
Record toy := Toy { words : gmap Z Z; queue : list Z; serving : list Z }.

Definition BASE : Z := 0x0c000000.
Definition is_config (a : Z) : bool := bool_decide (BASE <= a <= BASE + 0x201000).
Definition toy_irq (i : Z) : Prop := 0 < i < NR_IRQ.

#[export] Instance toy_plic : PlicDevice toy := {
  plic_load a d :=
    if a =? claim_reg BASE then
      match filter toy_irq (queue d) with
      | i :: q => (i, Toy (words d) q (i :: serving d))
      | [] => (0, d)
      end
    else (u32 (default 0 (words d !! a)), d);
  plic_store a v d :=
    if a =? claim_reg BASE then Toy (words d) (queue d) (filter (fun i => i <> v) (serving d))
    else Toy (<[a := v]> (words d)) (queue d) (serving d);
}.

Lemma config_not_claim a : config_reg BASE a -> (a =? claim_reg BASE) = false.
Proof. unfold claim_reg, BASE. intros [i Hi | n Hn |]; unfold NR_IRQ in *; apply Z.eqb_neq; lia. Qed.

#[local] Obligation Tactic := intros; cbn [plic_load plic_store toy_plic]; try rewrite (Z.eqb_refl (claim_reg BASE)).

#[export] Program Instance toy_laws : PlicLaws toy BASE := {
  content a d := u32 (default 0 (words d !! a));
  waiting d := filter toy_irq (queue d);
  claimed := serving;
}.
Next Obligation. apply u32_range. Qed.
Next Obligation. by rewrite config_not_claim. Qed.
Next Obligation. rewrite config_not_claim by done. cbn. rewrite lookup_insert_eq. by apply u32_small. Qed.
Next Obligation. rewrite config_not_claim by done. cbn. by rewrite lookup_insert_ne. Qed.
Next Obligation. by rewrite config_not_claim. Qed.
Next Obligation. by match goal with H : _ = [] |- _ => rewrite H end. Qed.
Next Obligation.
  match goal with H : _ = _ :: _ |- _ => rewrite H; pose proof H as E end. cbn. split_and!; [done | | done].
  assert (Ef : filter toy_irq (irq :: irqs) = irq :: irqs) by (rewrite <- E; by apply list_filter_filter_l).
  rewrite filter_cons in Ef. case_decide; [by injection Ef | ].
  assert (Hl : length (filter toy_irq irqs) = S (length irqs)) by (by rewrite Ef). pose proof (length_filter toy_irq irqs). lia.
Qed.
Next Obligation. done. Qed.
Next Obligation. done. Qed.
Next Obligation. cbn in *. match goal with H : _ ∈ _ |- _ => apply list_elem_of_filter in H as [? _] end. done. Qed.

Lemma plic_enable_interrupt_enables_witness :
  let p := plic_enable_interrupt 10 (Plic_ BASE 0x20 (Toy {[BASE + 0x2080 := 1]} [] [])) in
  enabled BASE 10 p = enabled BASE 0 p /\ enabled BASE 11 p = false /\ sie_csr p = 0x220.
Proof.
  destruct (plic_enable_interrupt_enables BASE eq_refl ltac:(discriminate) 10 (Plic_ BASE 0x20 (Toy {[BASE + 0x2080 := 1]} [] [])))
    as (_ & _ & _ & _ & He & Hs); [reflexivity | split; [discriminate | reflexivity] |].
  split; [| split]; [| | exact Hs].
  - rewrite (He 10), (He 0) by (split; [discriminate | reflexivity]). vm_compute. reflexivity.
  - rewrite (He 11) by (split; [discriminate | reflexivity]). vm_compute. reflexivity.
Defined.

End ToyPlic.
