(* ===== verification/Video.v ===== *)
(** * The screen: [src/video.c]

    The frame buffer is memory that the display controller reads: its bytes, by
    address.  On QEMU the device [fw_cfg], behind the class [FwCfg], is told
    where it is; on the Orange Pi the cache lines that were written are flushed. *)

From Stdlib Require Import String.
From S2P Require Import Prelude Config CString VfsData Tmpfs.
#[local] Open Scope Z_scope.
#[local] Open Scope list_scope.

Inductive platform := QEMU | ORANGE_PI.
Class Platform := { board_ : platform }.

Definition FB_WIDTH : Z := 1920.
Definition FB_HEIGHT : Z := 1080.
Definition FB_BPP : Z := 4.
Definition FB_SIZE : Z := FB_WIDTH * FB_HEIGHT * FB_BPP.
Definition XRGB8888 : Z := 875713112.
Definition FB_BASE `{Platform} : Z := (match board_ with QEMU => 0x87000000 | ORANGE_PI => 0x7f700000 end) ⊞ PAGE_OFFSET.

(** ** Bytes in memory *)

Definition bswap64 (x : Z) : Z :=
  Z.lor (Z.lor (Z.lor (Z.lor (Z.lor (Z.lor (Z.lor
    (Z.land x 0x00000000000000FF ⋘ 56) (Z.land x 0x000000000000FF00 ⋘ 40))
    (Z.land x 0x0000000000FF0000 ⋘ 24)) (Z.land x 0x00000000FF000000 ⋘ 8))
    (Z.land x 0x000000FF00000000 ⋙ 8)) (Z.land x 0x0000FF0000000000 ⋙ 24))
    (Z.land x 0x00FF000000000000 ⋙ 40)) (Z.land x 0xFF00000000000000 ⋙ 56).
Definition bswap32 (x : Z) : Z :=
  Z.lor (Z.lor (Z.lor (u32 (Z.shiftl (Z.land x 0x000000FF) 24)) (u32 (Z.shiftl (Z.land x 0x0000FF00) 8)))
    (Z.land x 0x00FF0000 ⋙ 8)) (Z.land x 0xFF000000 ⋙ 24).
Definition bswap16 (x : Z) : Z := Z.lor (Z.shiftl (Z.land x 0x00FF) 8) (Z.land x 0xFF00 ⋙ 8).

(** The bytes of an integer of [n] bytes, the lowest first, and back. *)
Fixpoint to_bytes (n : nat) (x : Z) : list Z := match n with O => [] | S n => Z.land x 255 :: to_bytes n (Z.shiftr x 8) end.
Fixpoint of_bytes (bs : list Z) : Z := match bs with [] => 0 | c :: bs => Z.lor c (Z.shiftl (of_bytes bs) 8) end.

Fixpoint set_bytes (a : Z) (bs : list Z) (m : gmap Z Z) : gmap Z Z :=
  match bs with [] => m | c :: bs => <[a := c]> (set_bytes (a + 1) bs m) end.
Fixpoint get_bytes (n : nat) (a : Z) (m : gmap Z Z) : option (list Z) :=
  match n with O => Some [] | S n => c ← m !! a; cs ← get_bytes n (a + 1) m; Some (c :: cs) end.

(** ** [fw_cfg] *)

Record FWCfgDmaAccess := Access { control : Z; length_ : Z; address : Z }.

(** The memory a transfer touches: the request, at [access_at], and the bytes. *)
Record dma_memory := DmaMemory { access_at : Z; access : FWCfgDmaAccess; bytes : gmap Z Z }.

(** A store to the DMA register, and time passing while the driver polls. *)
Class FwCfg (F : Type) := {
  write_dma : Z -> dma_memory -> F -> dma_memory * F;
  dma_wait : dma_memory -> F -> dma_memory * F;
}.

(** Where the compiler puts the local variables whose addresses are taken. *)
Class Frames := { access_var : Z; count_var : Z; file_var : Z; cfg_var : Z }.

Definition FW_CFG_DMA_CTL_ERROR : Z := 0x01.
Definition FW_CFG_DMA_CTL_READ : Z := 0x02.
Definition FW_CFG_DMA_CTL_SKIP : Z := 0x04.
Definition FW_CFG_DMA_CTL_SELECT : Z := 0x08.
Definition FW_CFG_DMA_CTL_WRITE : Z := 0x10.
Definition FW_CFG_FILE_DIR : Z := 0x19.
Definition SIZEOF_FWCfgFile : Z := 64.

(** [addr & ~PAGE_OFFSET] *)
Definition physical (a : Z) : Z := Z.land a (u64 (Z.lnot PAGE_OFFSET)).

Section Video.
Context {PF : Platform} {F : Type} {FW : FwCfg F} {FR : Frames}.

(** [v_flushed] are the cache lines given to [cbo.flush], the last first. *)
Record video := Video { v_mem : gmap Z Z; v_fw : F; v_flushed : list Z }.

Fixpoint poll_dma (fuel : nat) (dm : dma_memory) (d : F) : option (dma_memory * F) :=
  if Z.land (bswap32 (control (access dm))) (2 ^ 32 - 1 - FW_CFG_DMA_CTL_ERROR) =? 0 then Some (dm, d)
  else match fuel with O => None | S fuel => let '(dm, d) := dma_wait dm d in poll_dma fuel dm d end.

Definition fw_cfg_dma_transfer (fuel : nat) (addr length control : Z) (v : video) : option video :=
  let access := Access (bswap32 control) (bswap32 length) (bswap64 (physical addr)) in
  let '(dm, d) := write_dma (bswap64 (physical access_var)) (DmaMemory access_var access (v_mem v)) (v_fw v) in
  '(dm, d) ← poll_dma fuel dm d;
  Some (Video (bytes dm) d (v_flushed v)).

Definition fw_cfg_read_entry (fuel : nat) (buf e len : Z) (v : video) : option video :=
  let control := Z.lor (Z.lor (u32 (Z.shiftl e 16)) FW_CFG_DMA_CTL_SELECT) FW_CFG_DMA_CTL_READ in
  fw_cfg_dma_transfer fuel buf (u32 len) control v.

Definition fw_cfg_write_entry (fuel : nat) (buf e len : Z) (v : video) : option video :=
  let control := Z.lor (Z.lor (u32 (Z.shiftl e 16)) FW_CFG_DMA_CTL_SELECT) FW_CFG_DMA_CTL_WRITE in
  fw_cfg_dma_transfer fuel buf (u32 len) control v.

(** The loop over the directory; [name] ends with a NUL. *)
Fixpoint find_loop (fuel n : nat) (name : list Z) (v : video) : option (Z * video) :=
  match n with
  | O => Some (-1, v)
  | S n =>
      v ← fw_cfg_dma_transfer fuel file_var SIZEOF_FWCfgFile FW_CFG_DMA_CTL_READ v;
      file ← get_bytes 64 file_var (v_mem v);
      c ← strncmp name (drop 8 file) 56;
      if c =? 0 then Some (bswap16 (of_bytes (take 2 (drop 4 file))), v) else find_loop fuel n name v
  end.

Definition fw_cfg_find_file (fuel : nat) (name : list Z) (v : video) : option (Z * video) :=
  let v := Video (set_bytes count_var (to_bytes 4 0) (v_mem v)) (v_fw v) (v_flushed v) in
  v ← fw_cfg_read_entry fuel count_var FW_CFG_FILE_DIR 4 v;
  count ← get_bytes 4 count_var (v_mem v);
  find_loop fuel (Z.to_nat (bswap32 (of_bytes count))) name v.

(** [struct RAMFBCfg], packed. *)
Definition ramfb_cfg : list Z :=
  to_bytes 8 (bswap64 (physical FB_BASE)) ++ to_bytes 4 (bswap32 XRGB8888) ++ to_bytes 4 (bswap32 0) ++
  to_bytes 4 (bswap32 FB_WIDTH) ++ to_bytes 4 (bswap32 FB_HEIGHT) ++ to_bytes 4 (bswap32 (FB_WIDTH * FB_BPP)).

(** What is printed, and the state. *)
Definition video_init (fuel : nat) (v : video) : option (list Z * video) :=
  match board_ with
  | ORANGE_PI => Some ([], v)
  | QEMU =>
      let v := Video (set_bytes cfg_var ramfb_cfg (v_mem v)) (v_fw v) (v_flushed v) in
      '(file_select, v) ← fw_cfg_find_file fuel (cstr (chars "etc/ramfb") []) v;
      if negb (file_select =? -1) then v ← fw_cfg_write_entry fuel cfg_var file_select 28 v; Some ([], v)
      else Some (chars "Failed to find etc/ramfb in fw_cfg" ++ [13; 10], v)
  end.

(** ** Drawing *)

Definition CACHE_BLOCK_SIZE : Z := 64.

(** The lines from [line] up to [end_]. *)
Fixpoint flush_loop (fuel : nat) (line end_ : Z) (v : video) : option video :=
  if line <? end_ then
    match fuel with
    | O => None
    | S fuel => flush_loop fuel (line ⊞ CACHE_BLOCK_SIZE) end_ (Video (v_mem v) (v_fw v) (line :: v_flushed v))
    end
  else Some v.

Definition flush_dcache (addr len : Z) (v : video) : option video :=
  match board_ with
  | QEMU => Some v
  | ORANGE_PI =>
      let start := Z.land addr (u64 (Z.lnot (CACHE_BLOCK_SIZE - 1))) in
      flush_loop (Z.to_nat (len / CACHE_BLOCK_SIZE + 2)) start (addr ⊞ len) v
  end.

Definition video_get_info : list Z := to_bytes 4 FB_WIDTH ++ to_bytes 4 FB_HEIGHT ++ to_bytes 4 FB_BPP.
Definition video_flush : Z -> Z -> video -> option video := flush_dcache.
Definition video_get_base : Z := FB_BASE.

(** [memcpy] to the frame buffer: a copy that leaves it has no outcome. *)
Definition fb_copy (dst : Z) (bs : list Z) (v : video) : option video :=
  if (dst <? FB_BASE) || (FB_BASE + FB_SIZE <? dst + Z.of_nat (length bs)) then None
  else Some (Video (set_bytes dst bs (v_mem v)) (v_fw v) (v_flushed v)).

(** One row: [fb] and [bmp_image] point to words. *)
Definition copy_row (bmp_image : list Z) (width start_x start_y y : Z) (v : video) : option video :=
  let dst := FB_BASE ⊞ 4 * (i32 ((start_y + y) * FB_WIDTH) + start_x) in
  row ← slice bmp_image (4 * u32 (y * width)) (4 * width);
  v ← fb_copy dst row v;
  flush_dcache dst (4 * width) v.

Definition video_bmp_display (bmp_image : list Z) (width height : Z) (v : video) : option video :=
  let start_x := Z.quot (i32 (FB_WIDTH - i32 width)) 2 in
  let start_y := Z.quot (i32 (FB_HEIGHT - i32 height)) 2 in
  for_range (Z.to_nat (i32 height)) 0 (copy_row bmp_image width start_x start_y) v.

End Video.
Arguments video : clear implicits.
