(* ===== verification/VideoProps.v ===== *)
(** * Properties of the screen and of [fw_cfg]

    A picture is drawn centred and nothing else is touched; [video_init] finds
    the file of the display and writes its configuration. *)

From Stdlib Require Import String.
From S2P Require Import Prelude Config Align CString VfsData Tmpfs Video.
#[local] Open Scope Z_scope.
#[local] Open Scope list_scope.

(** ** Bytes *)

Lemma set_bytes_lookup bs : forall a m x, set_bytes a bs m !! x =
  if a <=? x then match bs !! Z.to_nat (x - a) with Some c => Some c | None => m !! x end else m !! x.
Proof.
  induction bs as [| c bs IH]; intros a m x; cbn [set_bytes].
  - rewrite lookup_nil. by destruct (a <=? x).
  - destruct (Z.eqb_spec x a) as [-> |].
    + rewrite lookup_insert_eq, Z.leb_refl, Z.sub_diag. done.
    + rewrite lookup_insert_ne, IH by done. destruct (Z.leb_spec (a + 1) x), (Z.leb_spec a x); try lia; [| done].
      replace (Z.to_nat (x - a)) with (S (Z.to_nat (x - (a + 1)))) by lia. done.
Qed.

Lemma set_bytes_in bs a m x : a <= x < a + Z.of_nat (length bs) -> set_bytes a bs m !! x = bs !! Z.to_nat (x - a).
Proof.
  intros Hx. rewrite set_bytes_lookup. destruct (Z.leb_spec a x); [| lia].
  destruct (lookup_lt_is_Some_2 bs (Z.to_nat (x - a))) as [c ->]; [lia | done].
Qed.

Lemma set_bytes_out bs a m x : ~ a <= x < a + Z.of_nat (length bs) -> set_bytes a bs m !! x = m !! x.
Proof. intros Hx. rewrite set_bytes_lookup. destruct (Z.leb_spec a x); [| done]. by rewrite lookup_ge_None_2 by lia. Qed.

Lemma get_bytes_ext n : forall a m m', (forall x, a <= x < a + Z.of_nat n -> m !! x = m' !! x) -> get_bytes n a m = get_bytes n a m'.
Proof.
  induction n as [| n IH]; intros a m m' E; cbn [get_bytes]; [done |]. rewrite (E a) by lia.
  rewrite (IH (a + 1) m m'); [done |]. intros x Hx. apply E. lia.
Qed.

Lemma get_set_bytes bs : forall a m, get_bytes (length bs) a (set_bytes a bs m) = Some bs.
Proof.
  induction bs as [| c bs IH]; intros a m; cbn [length get_bytes set_bytes]; [done |].
  rewrite lookup_insert_eq. cbn [mbind option_bind].
  rewrite (get_bytes_ext _ _ _ (set_bytes (a + 1) bs m)), IH; [done |]. intros x Hx. by rewrite lookup_insert_ne by lia.
Qed.

(** *** Byte order *)

(** The value of [n] bytes, the highest first. *)
Definition be (n : nat) (x : Z) : Z := of_bytes (reverse (to_bytes n x)).

Definition byte_at (x k : Z) : Z := Z.land (Z.shiftr x k) 255.

Lemma to_bytes_at n : forall x, to_bytes n x = byte_at x <$> ((fun i => 8 * Z.of_nat i) <$> seq 0 n).
Proof.
  induction n as [| n IH]; intros x; cbn [to_bytes]; [done |]. rewrite IH. cbn [seq fmap list_fmap]. f_equal.
  rewrite <- (fmap_S_seq 0 n) || rewrite <- (seq_shift n 0). rewrite <- !list_fmap_compose. apply list_fmap_ext. intros i j _. cbn. unfold byte_at.
  rewrite Z.shiftr_shiftr by lia. do 2 f_equal. lia.
Qed.

Lemma to_bytes_length n : forall x, length (to_bytes n x) = n.
Proof. induction n as [| n IH]; intros x; cbn [to_bytes length]; [done | by rewrite IH]. Qed.

Lemma to_bytes_range n : forall x, Forall (fun c => 0 <= c < 256) (to_bytes n x).
Proof.
  induction n as [| n IH]; intros x; cbn [to_bytes]; constructor; [| apply IH].
  change 255 with (Z.ones 8). rewrite Z.land_ones by lia. apply Z.mod_pos_bound. lia.
Qed.

Lemma lor_byte c y : 0 <= c < 256 -> Z.lor c (Z.shiftl y 8) = c + 256 * y.
Proof. intros. rewrite Z.lor_comm, Z.shiftl_mul_pow2 by lia. rewrite lor_add_disjoint by lia. change (2 ^ 8) with 256. lia. Qed.

Lemma of_to_bytes n : forall x, 0 <= x < 2 ^ (8 * Z.of_nat n) -> of_bytes (to_bytes n x) = x.
Proof.
  induction n as [| n IH]; intros x Hx; cbn [to_bytes of_bytes]; [cbn in Hx; lia |].
  assert (Hd : 0 <= x / 256 < 2 ^ (8 * Z.of_nat n)).
  { replace (8 * Z.of_nat (S n)) with (8 * Z.of_nat n + 8) in Hx by lia. rewrite Z.pow_add_r in Hx by lia. change (2 ^ 8) with 256 in Hx.
    split; [apply Z.div_pos; lia | apply Z.div_lt_upper_bound; lia]. }
  rewrite Z.shiftr_div_pow2 by lia. change (2 ^ 8) with 256. rewrite IH by done. change 255 with (Z.ones 8). rewrite Z.land_ones by lia.
  change (2 ^ 8) with 256. rewrite lor_byte by (apply Z.mod_pos_bound; lia). pose proof (Z.div_mod x 256). lia.
Qed.

Lemma to_of_bytes bs : forall n, Forall (fun c => 0 <= c < 256) bs -> length bs = n -> to_bytes n (of_bytes bs) = bs.
Proof.
  induction bs as [| c bs IH]; intros n Hb <-; cbn [length to_bytes of_bytes]; [done |]. apply list.Forall_cons in Hb as [Hc Hb].
  rewrite lor_byte by done. change 255 with (Z.ones 8). rewrite Z.land_ones, Z.shiftr_div_pow2 by lia. change (2 ^ 8) with 256. f_equal.
  - rewrite Z.mul_comm, Z.mod_add, Z.mod_small by lia. done.
  - replace ((c + 256 * of_bytes bs) / 256) with (of_bytes bs); [by apply IH |]. rewrite Z.mul_comm, Z.div_add, Z.div_small by lia. lia.
Qed.

Lemma byte_at_div x k : 0 <= k -> byte_at x k = x / 2 ^ k mod 256.
Proof. intros. unfold byte_at. rewrite Z.shiftr_div_pow2 by done. change 255 with (Z.ones 8). by rewrite Z.land_ones. Qed.

Lemma mask_left x k s : 0 <= k -> 0 <= s -> Z.shiftl (Z.land x (255 * 2 ^ k)) s = Z.shiftl (byte_at x k) (k + s).
Proof. intros. rewrite land_byte, byte_at_div, !Z.shiftl_mul_pow2, Z.pow_add_r by lia. lia. Qed.

Lemma mask_right x k s : 0 <= s <= k -> Z.shiftr (Z.land x (255 * 2 ^ k)) s = Z.shiftl (byte_at x k) (k - s).
Proof.
  intros. rewrite land_byte, byte_at_div, Z.shiftl_mul_pow2, Z.shiftr_div_pow2 by lia.
  replace k with (k - s + s) at 2 by lia. rewrite Z.pow_add_r, Z.mul_assoc by lia. apply Z.div_mul. lia.
Qed.

Lemma shifted_byte x k s w : 0 <= k -> 0 <= s -> s + 8 <= w -> 0 <= Z.shiftl (byte_at x k) s < 2 ^ w.
Proof.
  intros. rewrite byte_at_div, Z.shiftl_mul_pow2 by lia. pose proof (Z.mod_pos_bound (x / 2 ^ k) 256).
  pose proof (pow2_mono (s + 8) w). rewrite Z.pow_add_r in * by lia. change (2 ^ 8) with 256 in *. nia.
Qed.

(** The macros reverse the bytes. *)
Lemma bswap64_be x : bswap64 x = be 8 x.
Proof.
  unfold bswap64.
  change 0xFF00000000000000 with (255 * 2 ^ 56). change 0x00FF000000000000 with (255 * 2 ^ 48). change 0x0000FF0000000000 with (255 * 2 ^ 40).
  change 0x000000FF00000000 with (255 * 2 ^ 32). change 0x00000000FF000000 with (255 * 2 ^ 24). change 0x0000000000FF0000 with (255 * 2 ^ 16).
  change 0x000000000000FF00 with (255 * 2 ^ 8). change 0x00000000000000FF with (255 * 2 ^ 0).
  rewrite !mask_left, !mask_right, !u64_small by (lia || (apply shifted_byte; lia)).
  unfold be. rewrite (to_bytes_at 8) by done. cbn [reverse rev_append of_bytes fmap list_fmap seqZ seq Z.to_nat].
  change (reverse _) with (byte_at x <$> [56; 48; 40; 32; 24; 16; 8; 0]). cbn [fmap list_fmap of_bytes].
  rewrite Z.shiftl_0_l, !Z.shiftl_lor, !Z.shiftl_shiftl, !Z.lor_0_r by lia.
  do 7 (etransitivity; [apply Z.lor_comm |]; f_equal). all: done.
Qed.

Lemma bswap32_be x : bswap32 x = be 4 x.
Proof.
  unfold bswap32.
  change 0xFF000000 with (255 * 2 ^ 24). change 0x00FF0000 with (255 * 2 ^ 16). change 0x0000FF00 with (255 * 2 ^ 8). change 0x000000FF with (255 * 2 ^ 0).
  rewrite !mask_left, !mask_right, !u32_small by (lia || (apply shifted_byte; lia)).
  unfold be. rewrite (to_bytes_at 4) by done.
  change (reverse _) with (byte_at x <$> [24; 16; 8; 0]). cbn [fmap list_fmap of_bytes].
  rewrite Z.shiftl_0_l, !Z.shiftl_lor, !Z.shiftl_shiftl, !Z.lor_0_r by lia.
  do 3 (etransitivity; [apply Z.lor_comm |]; f_equal). all: done.
Qed.

Lemma be_be n x : 0 <= x < 2 ^ (8 * Z.of_nat n) -> be n (be n x) = x.
Proof.
  intros Hx. unfold be. rewrite to_of_bytes; [by rewrite reverse_involutive, of_to_bytes | | by rewrite length_reverse, to_bytes_length].
  rewrite Forall_reverse. apply to_bytes_range.
Qed.
(** *** The device *)

Record fw_state := FwState { items : gmap Z (list Z); selected : Z; position : nat }.

Definition requested (c bit : Z) : bool := negb (Z.land c bit =? 0).
Definition item_bytes (s : fw_state) : list Z := default [] (items s !! selected s).

(** What a request of control word [c] for [n] bytes at the physical address
    [pa] does to memory and to the device. *)
Definition dma_effect (c : Z) (n : nat) (pa : Z) (m : gmap Z Z) (s : fw_state) : gmap Z Z * fw_state :=
  let s := if requested c FW_CFG_DMA_CTL_SELECT then FwState (items s) (c ⋙ 16) 0 else s in
  let s' := FwState (items s) (selected s) (position s + n) in
  if requested c FW_CFG_DMA_CTL_READ then
    (set_bytes (pa + PAGE_OFFSET) (take n (drop (position s) (item_bytes s) ++ replicate n 0)) m, s')
  else if requested c FW_CFG_DMA_CTL_WRITE then
    let bs := default [] (get_bytes n (pa + PAGE_OFFSET) m) in
    (m, FwState (<[selected s := take (position s) (item_bytes s) ++ bs ++ drop (position s + n) (item_bytes s)]> (items s)) (selected s) (position s + n))
  else if requested c FW_CFG_DMA_CTL_SKIP then (m, s')
  else (m, s).

(** [n] waits until the device clears the control word. *)
Inductive dma_run {F : Type} {FW : FwCfg F} : nat -> dma_memory * F -> dma_memory * F -> Prop :=
  | Dma_done dm d : control (access dm) = 0 -> dma_run 0 (dm, d) (dm, d)
  | Dma_busy n dm d r : Z.land (be 4 (control (access dm))) (2 ^ 32 - 1 - FW_CFG_DMA_CTL_ERROR) <> 0 ->
      dma_run n (dma_wait dm d) r -> dma_run (S n) (dm, d) r.

(** What the driver relies on: the numbers of a request and the pointer to it
    are read with the highest byte first, and it completes. *)
Class FwCfgLaws (F : Type) {FW : FwCfg F} := {
  fw_view : F -> fw_state;
  fw_latency : nat;
  dma_completes at_ r m d v : be 8 v = physical at_ ->
    exists n dm d', (n <= fw_latency)%nat /\ dma_run n (write_dma v (DmaMemory at_ r m) d) (dm, d') /\
      (bytes dm, fw_view d') = dma_effect (be 4 (control r)) (Z.to_nat (be 4 (length_ r))) (be 8 (address r)) m (fw_view d);
}.

Definition kernel_addr (a : Z) : Prop := PAGE_OFFSET <= a < 2 ^ 64.

Lemma physical_kernel a : kernel_addr a -> 0 <= physical a < 2 ^ 38 /\ physical a + PAGE_OFFSET = a.
Proof.
  unfold kernel_addr, physical. change (u64 (Z.lnot PAGE_OFFSET)) with (2 ^ 38 - 1). rewrite land_mask by lia. intros Ha.
  change PAGE_OFFSET with (2 ^ 64 - 2 ^ 38) in *. dlia.
Qed.

Section FwCfg.
Context {F : Type} {FW : FwCfg F} {FL : FwCfgLaws F} {FR : Frames}.
Notation video := (video F).

Lemma poll_dma_spec n x y : dma_run n x y -> forall fuel, (n <= fuel)%nat -> poll_dma fuel x.1 x.2 = Some y.
Proof.
  induction 1 as [dm d E | n dm d r Hb _ IH]; intros fuel Hf; cbn [fst snd].
  - destruct fuel; cbn [poll_dma]; by rewrite E.
  - destruct fuel as [| fuel]; [lia |]. cbn [poll_dma]. rewrite bswap32_be. destruct (Z.eqb_spec (Z.land (be 4 (control (access dm))) (2 ^ 32 - 1 - FW_CFG_DMA_CTL_ERROR)) 0); [done |].
    specialize (IH fuel ltac:(lia)). by destruct (dma_wait dm d).
Qed.

Context (fuel : nat) (Hfuel : (fw_latency <= fuel)%nat) (Haccess : kernel_addr access_var).

(** A transfer has the effect that was asked for. *)
Lemma transfer_spec addr len c (v : video) : kernel_addr addr -> 0 <= len < 2 ^ 32 -> 0 <= c < 2 ^ 32 ->
  exists v', fw_cfg_dma_transfer fuel addr len c v = Some v' /\ v_flushed v' = v_flushed v /\
    (v_mem v', fw_view (v_fw v')) = dma_effect c (Z.to_nat len) (physical addr) (v_mem v) (fw_view (v_fw v)).
Proof.
  intros Ha Hl Hc. unfold fw_cfg_dma_transfer.
  destruct (physical_kernel _ Ha) as [Hpa _], (physical_kernel _ Haccess) as [Hpv _].
  destruct (dma_completes access_var (Access (bswap32 c) (bswap32 len) (bswap64 (physical addr))) (v_mem v) (v_fw v) (bswap64 (physical access_var)))
    as (n & dm & d & Hn & Hrun & E); [rewrite bswap64_be; apply be_be; lia |].
  cbn [control length_ address] in E. rewrite !bswap32_be, bswap64_be, !be_be in E by lia.
  apply poll_dma_spec with (fuel := fuel) in Hrun; [| lia].
  destruct (write_dma _ _ _) as [dm0 d0]. cbn [fst snd] in Hrun. rewrite Hrun. cbn [mbind option_bind].
  eexists. split; [reflexivity |]. by split.
Qed.

(** *** The directory *)

Record fw_file := FwFile { ff_size : Z; ff_select : Z; ff_name : list Z }.

Definition be_bytes (n : nat) (x : Z) : list Z := reverse (to_bytes n x).

Definition enc_file (f : fw_file) : list Z :=
  be_bytes 4 (ff_size f) ++ be_bytes 2 (ff_select f) ++ be_bytes 2 0 ++ ff_name f ++ replicate (56 - length (ff_name f)) 0.

Definition directory (fs : list fw_file) : list Z := be_bytes 4 (Z.of_nat (length fs)) ++ concat (map enc_file fs).

Definition file_ok (f : fw_file) : Prop := 0 <= ff_select f < 2 ^ 16 /\ is_str (ff_name f) /\ (length (ff_name f) < 56)%nat.

Fixpoint find_select (name : list Z) (fs : list fw_file) : Z :=
  match fs with [] => -1 | f :: fs => if decide (name = ff_name f) then ff_select f else find_select name fs end.

Lemma be_bytes_length n x : length (be_bytes n x) = n.
Proof. unfold be_bytes. by rewrite length_reverse, to_bytes_length. Qed.

Lemma enc_file_length f : file_ok f -> length (enc_file f) = 64%nat.
Proof. intros (_ & _ & Hl). unfold enc_file. rewrite !length_app, !be_bytes_length, length_replicate. lia. Qed.

Lemma bswap16_be x : bswap16 x = be 2 x.
Proof.
  unfold bswap16. change 0xFF00 with (255 * 2 ^ 8). change 0x00FF with (255 * 2 ^ 0). rewrite mask_left, mask_right by lia.
  unfold be. rewrite (to_bytes_at 2). change (reverse _) with (byte_at x <$> [8; 0]). cbn [fmap list_fmap of_bytes].
  rewrite Z.shiftl_0_l, !Z.lor_0_r. etransitivity; [apply Z.lor_comm |]. by f_equal.
Qed.

(** Reading a big-endian number. *)
Lemma be_of_be_bytes n x : 0 <= x < 2 ^ (8 * Z.of_nat n) -> be n (of_bytes (be_bytes n x)) = x.
Proof. exact (be_be n x). Qed.

(** The bytes [a .. a + n) of memory may differ. *)
Definition same_but (a n : Z) (m m' : gmap Z Z) : Prop := forall x, ~ a <= x < a + n -> m' !! x = m !! x.

(** A transfer of the [n] bytes [bs] that come next in the item that is selected. *)
Lemma read_spec addr (v : video) bs rest : kernel_addr addr -> Z.of_nat (length bs) < 2 ^ 32 ->
  drop (position (fw_view (v_fw v))) (item_bytes (fw_view (v_fw v))) = bs ++ rest ->
  exists v', fw_cfg_dma_transfer fuel addr (Z.of_nat (length bs)) FW_CFG_DMA_CTL_READ v = Some v' /\ v_flushed v' = v_flushed v /\
    get_bytes (length bs) addr (v_mem v') = Some bs /\ same_but addr (Z.of_nat (length bs)) (v_mem v) (v_mem v') /\
    fw_view (v_fw v') = FwState (items (fw_view (v_fw v))) (selected (fw_view (v_fw v))) (position (fw_view (v_fw v)) + length bs).
Proof.
  intros Ha Hl Hd. destruct (transfer_spec addr (Z.of_nat (length bs)) FW_CFG_DMA_CTL_READ v) as (v' & -> & Hfl & E); [done | lia | by vm_compute |].
  exists v'. unfold dma_effect in E. change (requested FW_CFG_DMA_CTL_READ FW_CFG_DMA_CTL_SELECT) with false in E.
  change (requested FW_CFG_DMA_CTL_READ FW_CFG_DMA_CTL_READ) with true in E. cbv iota in E.
  destruct (physical_kernel _ Ha) as [_ Ep]. rewrite Ep, Nat2Z.id, Hd, <- app_assoc, take_app_length in E. injection E as Em Ev.
  split_and!; [done | done | rewrite Em; apply get_set_bytes | | done].
  intros x Hx. rewrite Em. by apply set_bytes_out.
Qed.

Lemma find_loop_spec name fs : is_str name -> kernel_addr file_var -> Forall file_ok fs -> forall v : video,
  drop (position (fw_view (v_fw v))) (item_bytes (fw_view (v_fw v))) = concat (map enc_file fs) ->
  exists v', find_loop fuel (length fs) (cstr name []) v = Some (find_select name fs, v') /\ v_flushed v' = v_flushed v /\
    items (fw_view (v_fw v')) = items (fw_view (v_fw v)) /\ same_but file_var 64 (v_mem v) (v_mem v').
Proof.
  intros Hn Hf Hok. induction Hok as [| f fs Hok _ IH]; intros v Hd; cbn [length find_loop find_select].
  { exists v. split_and!; [done | done | done | by intros x _]. }
  cbn [map concat] in Hd. pose proof (enc_file_length f Hok) as Hlen.
  destruct (read_spec file_var v (enc_file f) (concat (map enc_file fs)) Hf ltac:(lia) Hd) as (v1 & E & Hfl & Hg & Hm & Hv).
  rewrite Hlen in E, Hg, Hm, Hv. change (Z.of_nat 64) with SIZEOF_FWCfgFile in E. rewrite E. cbn [mbind option_bind]. rewrite Hg. cbn [mbind option_bind].
  destruct Hok as (Hsel & Hstr & Hl).
  assert (Ename : drop 8 (enc_file f) = cstr (ff_name f) (replicate (55 - length (ff_name f)) 0)).
  { unfold enc_file, cstr. replace (56 - length (ff_name f))%nat with (S (55 - length (ff_name f))) by lia.
    rewrite !app_assoc, <- (app_assoc _ (ff_name f)), drop_app_length' by (rewrite !length_app, !be_bytes_length; lia). done. }
  assert (Esel : take 2 (drop 4 (enc_file f)) = be_bytes 2 (ff_select f)).
  { unfold enc_file. rewrite drop_app_length' by (by rewrite be_bytes_length). by rewrite take_app_length' by (by rewrite be_bytes_length). }
  rewrite Ename, Esel, bswap16_be, be_of_be_bytes by lia.
  destruct (strncmp_spec name (ff_name f) [] (replicate (55 - length (ff_name f)) 0) Hn Hstr 56 Hl) as (z & -> & Hz). cbn [mbind option_bind].
  destruct (Z.eqb_spec z 0) as [E0 | E0].
  - exists v1. rewrite decide_True by tauto. rewrite Hv. by split_and!.
  - rewrite decide_False by tauto. destruct (IH v1) as (v2 & -> & Hfl2 & Hi & Hm2).
    { rewrite Hv. unfold item_bytes in *. cbn [position selected items]. rewrite <- drop_drop, Hd. by rewrite drop_app_length'. }
    exists v2. rewrite Hi, Hfl2, Hv. split_and!; [done | done | done |]. intros x Hx. rewrite Hm2 by done. by apply Hm.
Qed.

Lemma fw_cfg_find_file_spec name fs (v : video) : is_str name -> kernel_addr file_var -> kernel_addr count_var -> Forall file_ok fs ->
  Z.of_nat (length fs) < 2 ^ 32 -> items (fw_view (v_fw v)) !! FW_CFG_FILE_DIR = Some (directory fs) ->
  exists v', fw_cfg_find_file fuel (cstr name []) v = Some (find_select name fs, v') /\ v_flushed v' = v_flushed v /\
    items (fw_view (v_fw v')) = items (fw_view (v_fw v)) /\
    (forall x, ~ count_var <= x < count_var + 4 -> ~ file_var <= x < file_var + 64 -> v_mem v' !! x = v_mem v !! x).
Proof.
  intros Hn Hf Hc Hok Hl Hdir. unfold fw_cfg_find_file, fw_cfg_read_entry. set (v0 := Video _ _ _).
  change (u32 4) with (Z.of_nat 4). change (Z.lor _ _) with 0x19000A.
  destruct (transfer_spec count_var (Z.of_nat 4) 0x19000A v0) as (v1 & -> & Hfl & E); [done | lia | lia |]. cbn [mbind option_bind].
  unfold dma_effect in E. change (requested 0x19000A FW_CFG_DMA_CTL_SELECT) with true in E. change (requested 0x19000A FW_CFG_DMA_CTL_READ) with true in E.
  cbv iota in E. cbn [position item_bytes selected items] in E. change (0x19000A ⋙ 16) with FW_CFG_FILE_DIR in E.
  unfold item_bytes in E. cbn [selected items] in E. change (fw_view (v_fw v0)) with (fw_view (v_fw v)) in E. rewrite Hdir in E.
  destruct (physical_kernel _ Hc) as [_ Ep]. rewrite Ep, Nat2Z.id in E. cbn [default drop] in E. unfold directory in E at 1.
  unfold id in E. rewrite drop_0, <- app_assoc, take_app_length' in E by (by rewrite be_bytes_length). pose proof (f_equal fst E) as Em. pose proof (f_equal snd E) as Ev. cbn [fst snd] in Em, Ev.
  assert (Hg : get_bytes 4 count_var (v_mem v1) = Some (be_bytes 4 (Z.of_nat (length fs)))) by (rewrite Em; apply (get_set_bytes (be_bytes 4 _))).
  rewrite Hg. cbn [mbind option_bind]. rewrite bswap32_be, be_of_be_bytes, Nat2Z.id by lia.
  destruct (find_loop_spec name fs Hn Hf Hok v1) as (v2 & -> & Hfl2 & Hi & Hm2).
  { rewrite Ev. unfold item_bytes. cbn [position selected items]. rewrite Hdir. unfold default, id. unfold directory. by rewrite drop_app_length' by (by rewrite be_bytes_length). }
  exists v2. split_and!; [done | by rewrite Hfl2, Hfl | by rewrite Hi, Ev |]. intros x Hxc Hxf. rewrite Hm2, Em, set_bytes_out by (rewrite ?be_bytes_length; lia).
  unfold v0. cbn [v_mem]. by rewrite set_bytes_out by (rewrite to_bytes_length; lia).
Qed.

(** *** The display *)

Lemma low_bit_spec e b c : 0 <= c < 2 ^ 16 -> requested (Z.lor (Z.shiftl e 16) b) c = requested b c.
Proof.
  intros Hc. unfold requested. rewrite Z.land_lor_distr_l. replace (Z.land (Z.shiftl e 16) c) with 0; [done |].
  symmetry. apply Z.bits_inj'. intros n Hn. rewrite Z.land_spec, Z.bits_0. destruct (Z.ltb_spec n 16).
  - by rewrite Z.shiftl_spec_low.
  - rewrite andb_comm, <- (Z.mod_small c (2 ^ 16)), Z.mod_pow2_bits_high by lia. done.
Qed.

(** [struct RAMFBCfg] as the display reads it: the highest byte of every field first. *)
Definition ramfb_config : list Z :=
  be_bytes 8 0x87000000 ++ be_bytes 4 XRGB8888 ++ be_bytes 4 0 ++ be_bytes 4 1920 ++ be_bytes 4 1080 ++ be_bytes 4 7680.

Definition ramfb : list Z := chars "etc/ramfb".

(** The local variables do not overlap. *)
Definition frames_apart : Prop :=
  kernel_addr count_var /\ kernel_addr file_var /\ kernel_addr cfg_var /\
  (cfg_var + 28 <= count_var \/ count_var + 4 <= cfg_var) /\ (cfg_var + 28 <= file_var \/ file_var + 64 <= cfg_var).

Lemma write_spec addr e (v : video) bs old : kernel_addr addr -> 0 <= e < 2 ^ 16 -> Z.of_nat (length bs) < 2 ^ 31 ->
  get_bytes (length bs) addr (v_mem v) = Some bs -> default [] (items (fw_view (v_fw v)) !! e) = old ->
  exists v', fw_cfg_write_entry fuel addr e (Z.of_nat (length bs)) v = Some v' /\ v_mem v' = v_mem v /\ v_flushed v' = v_flushed v /\
    items (fw_view (v_fw v')) = <[e := bs ++ drop (length bs) old]> (items (fw_view (v_fw v))).
Proof.
  intros Ha He Hl Hg Hold. unfold fw_cfg_write_entry. rewrite (u32_small (Z.of_nat _)) by lia.
  rewrite u32_small by (rewrite Z.shiftl_mul_pow2 by lia; lia). rewrite <- Z.lor_assoc. change (Z.lor FW_CFG_DMA_CTL_SELECT FW_CFG_DMA_CTL_WRITE) with 24.
  assert (Hc : 0 <= Z.lor (Z.shiftl e 16) 24 < 2 ^ 32) by (rewrite Z.shiftl_mul_pow2, lor_add_disjoint by lia; lia).
  destruct (transfer_spec addr (Z.of_nat (length bs)) (Z.lor (Z.shiftl e 16) 24) v) as (v' & -> & Hfl & E); [done | lia | done |].
  exists v'. unfold dma_effect in E. rewrite !low_bit_spec in E by (by vm_compute). change (requested 24 FW_CFG_DMA_CTL_SELECT) with true in E.
  change (requested 24 FW_CFG_DMA_CTL_READ) with false in E. change (requested 24 FW_CFG_DMA_CTL_WRITE) with true in E. cbv iota in E.
  assert (Es : Z.lor (Z.shiftl e 16) 24 ⋙ 16 = e) by (rewrite Z.shiftr_lor, Z.shiftr_shiftl_l by lia; rewrite Z.sub_diag, Z.shiftl_0_r; apply Z.lor_0_r).
  destruct (physical_kernel _ Ha) as [_ Ep]. unfold item_bytes in E. cbn [position selected items] in E. rewrite Es, Ep, Nat2Z.id, Hg, Hold in E.
  injection E as -> ->. done.
Qed.

(** C38: on QEMU [video_init] finds the file of the display in the directory and
    writes its configuration there: the physical address of the frame buffer, the
    format, the size and the stride, each with the highest byte first; without such
    a file it says so and writes nothing.  No memory but the locals changes. *)
Theorem video_init_configures {PF : Platform} fs (v : video) : board_ = QEMU -> frames_apart -> Forall file_ok fs -> Z.of_nat (length fs) < 2 ^ 32 ->
  let its := items (fw_view (v_fw v)) in
  its !! FW_CFG_FILE_DIR = Some (directory fs) ->
  let sel := find_select ramfb fs in
  exists out v', video_init fuel v = Some (out, v') /\ v_flushed v' = v_flushed v /\
    items (fw_view (v_fw v')) = (if sel =? -1 then its else <[sel := ramfb_config ++ drop 28 (default [] (its !! sel))]> its) /\
    (out = [] <-> sel <> -1) /\
    (forall x, ~ cfg_var <= x < cfg_var + 28 -> ~ count_var <= x < count_var + 4 -> ~ file_var <= x < file_var + 64 -> v_mem v' !! x = v_mem v !! x).
Proof.
  intros Hb (Hc & Hf & Hg & Hac & Haf) Hok Hl its Hdir sel. unfold video_init. rewrite Hb. set (v0 := Video _ _ _).
  assert (Ecfg : ramfb_cfg = ramfb_config) by (unfold ramfb_cfg, FB_BASE; rewrite Hb; by vm_compute).
  assert (Hlen : length ramfb_cfg = 28%nat) by (rewrite Ecfg; by vm_compute).
  destruct (fw_cfg_find_file_spec ramfb fs v0) as (v1 & E & Hfl & Hi & Hm); [repeat constructor; discriminate | done | done | done | done | exact Hdir |].
  fold ramfb. rewrite E. cbn [mbind option_bind]. fold sel.
  assert (Hout : forall x, ~ cfg_var <= x < cfg_var + 28 -> v_mem v0 !! x = v_mem v !! x).
  { intros x Hx. unfold v0. cbn [v_mem]. apply set_bytes_out. rewrite Hlen. exact Hx. }
  destruct (Z.eqb_spec sel (-1)) as [Es | Es]; cbn [negb].
  - eexists _, v1. split; [reflexivity |]. split_and!; [by rewrite Hfl | by rewrite Hi | split; [discriminate | done] |].
    intros x H1 H2 H3. rewrite Hm by done. by apply Hout.
  - assert (Hsel : 0 <= sel < 2 ^ 16).
    { subst sel. clear -Hok Es. induction Hok as [| f fs [Hs _] _ IH]; cbn [find_select] in *; [done |]. case_decide; [done | by apply IH]. }
    destruct (write_spec cfg_var sel v1 ramfb_cfg (default [] (its !! sel)) Hg Hsel) as (v2 & E2 & Hm2 & Hfl2 & Hi2).
    + rewrite Hlen. done.
    + rewrite <- (get_set_bytes ramfb_cfg cfg_var (v_mem v)). rewrite Hlen. apply get_bytes_ext. intros x Hx. apply Hm; lia.
    + by rewrite Hi.
    + rewrite Hlen in E2, Hi2. change (Z.of_nat 28) with 28 in E2. rewrite E2. cbn [mbind option_bind]. eexists _, v2. split; [reflexivity |].
      split_and!; [by rewrite Hfl2, Hfl | by rewrite Hi2, Hi, Ecfg | by split | ]. intros x H1 H2 H3. rewrite Hm2, Hm by done. by apply Hout.
Qed.

End FwCfg.

(** ** Drawing *)

Section Display.
Context {PF : Platform} {F : Type}.
Notation video := (video F).

Lemma FB_BASE_range : 0 < FB_BASE /\ FB_BASE + FB_SIZE < 2 ^ 64 - 64.
Proof. unfold FB_BASE. destruct board_; by vm_compute. Qed.

(** The cache lines from [line] on are flushed, and those flushed before stay so. *)
Lemma flush_loop_spec fuel : forall line end_ (v : video), 0 <= line -> end_ < 2 ^ 64 - 64 -> end_ - line <= 64 * Z.of_nat fuel ->
  exists l, flush_loop fuel line end_ v = Some (Video (v_mem v) (v_fw v) l) /\
    (forall x, x ∈ v_flushed v -> x ∈ l) /\ (forall i, 0 <= i -> line + 64 * i < end_ -> line + 64 * i ∈ l).
Proof.
  induction fuel as [| fuel IH]; intros line end_ v Hl He Hf; cbn [flush_loop]; destruct (Z.ltb_spec line end_).
  1: lia.
  1, 3: exists (v_flushed v); destruct v; split_and!; [done | done | lia].
  destruct (IH (line ⊞ CACHE_BLOCK_SIZE) end_ (Video (v_mem v) (v_fw v) (line :: v_flushed v))) as (l & -> & Hold & Hnew);
    unfold CACHE_BLOCK_SIZE in *; rewrite ?u64_small in * by lia; [lia | lia | lia |].
  exists l. split_and!; [done | intros x Hx; apply Hold; by right |].
  intros i Hi Hlt. destruct (decide (i = 0)) as [-> |]; [rewrite Z.mul_0_r, Z.add_0_r; apply Hold; by left |].
  replace (line + 64 * i) with (line + 64 + 64 * (i - 1)) by lia. apply Hnew; lia.
Qed.

(** The line of a byte. *)
Definition line_of (a : Z) : Z := a - a mod 64.

Lemma flush_dcache_spec addr len (v : video) : 0 <= addr -> 0 <= len -> addr + len < 2 ^ 64 - 64 ->
  exists l, flush_dcache addr len v = Some (Video (v_mem v) (v_fw v) l) /\ (forall x, x ∈ v_flushed v -> x ∈ l) /\
    (board_ = ORANGE_PI -> forall a, addr <= a < addr + len -> line_of a ∈ l).
Proof.
  intros Ha Hl Ht. unfold flush_dcache. destruct board_; [exists (v_flushed v); by destruct v |].
  change (CACHE_BLOCK_SIZE - 1) with (2 ^ 6 - 1). rewrite land_lnot_mask, u64_small by lia. change (2 ^ 6) with 64. unfold CACHE_BLOCK_SIZE.
  destruct (flush_loop_spec (Z.to_nat (len / 64 + 2)) (addr - addr mod 64) (addr + len) v) as (l & -> & Hold & Hnew); [dlia | lia | dlia |].
  exists l. split_and!; [done | done |]. intros _ a Hin. unfold line_of.
  replace (a - a mod 64) with (addr - addr mod 64 + 64 * (a / 64 - addr / 64)) by dlia. apply Hnew; dlia.
Qed.

(** The row [y] of the picture lands where it should. *)
Lemma copy_row_spec image w sx sy y (v : video) : 0 < w -> 0 <= sx -> sx + w <= FB_WIDTH -> 0 <= y -> 0 <= sy -> sy + y < FB_HEIGHT ->
  4 * (y * w + w) <= Z.of_nat (length image) ->
  let dst := FB_BASE + 4 * ((sy + y) * FB_WIDTH + sx) in
  exists v', copy_row image w sx sy y v = Some v' /\
    v_mem v' = set_bytes dst (take (Z.to_nat (4 * w)) (drop (Z.to_nat (4 * (y * w))) image)) (v_mem v) /\ v_fw v' = v_fw v /\
    (forall x, x ∈ v_flushed v -> x ∈ v_flushed v') /\
    (board_ = ORANGE_PI -> forall a, dst <= a < dst + 4 * w -> line_of a ∈ v_flushed v').
Proof.
  intros Hw Hsx Hx Hy Hsy Hh Hi dst. destruct FB_BASE_range as (Hb & Ht). unfold FB_SIZE, FB_WIDTH, FB_HEIGHT, FB_BPP in *.
  assert (Hyw : 0 <= y * w < 2 ^ 31) by nia. unfold copy_row, FB_WIDTH. unwrap. fold dst.
  unfold slice. repeat (zcase; [lia |]). cbn [orb mbind option_bind].
  unfold fb_copy. rewrite length_take_le by (rewrite length_drop; lia). unfold FB_SIZE, FB_WIDTH, FB_HEIGHT, FB_BPP. repeat (zcase; [lia |]). cbn [orb mbind option_bind].
  match goal with |- context [flush_dcache _ _ ?v1] => destruct (flush_dcache_spec dst (4 * w) v1) as (l & -> & Hold & Hnew) end; [lia | lia | lia |].
  eexists. split; [reflexivity |]. cbn. by split_and!.
Qed.

(** The byte [k] of the pixel at column [x], row [y]. *)
Definition pixel (v : video) (x y k : Z) : option Z := v_mem v !! (FB_BASE + 4 * (y * FB_WIDTH + x) + k).
Definition on_screen (x y k : Z) : Prop := 0 <= x < FB_WIDTH /\ 0 <= y < FB_HEIGHT /\ 0 <= k < 4.

(** The rectangle at [sx], [sy]. *)
Definition in_rect (sx sy w h x y : Z) : bool := (sx <=? x) && (x <? sx + w) && (sy <=? y) && (y <? sy + h).

Lemma in_rect_spec sx sy w h x y : in_rect sx sy w h x y = true <-> sx <= x < sx + w /\ sy <= y < sy + h.
Proof. unfold in_rect. rewrite !andb_true_iff, !Z.leb_le, !Z.ltb_lt. lia. Qed.

(** The first [h] rows of a picture are drawn. *)
Record drawn (image : list Z) (sx sy w h : Z) (v v' : video) : Prop := {
  drawn_device : v_fw v' = v_fw v;
  drawn_pixel x y k : on_screen x y k ->
    pixel v' x y k = if in_rect sx sy w h x y then image !! Z.to_nat (4 * ((y - sy) * w + (x - sx)) + k) else pixel v x y k;
  drawn_rest a : ~ FB_BASE <= a < FB_BASE + FB_SIZE -> v_mem v' !! a = v_mem v !! a;
  drawn_flushed : board_ = ORANGE_PI -> forall x y k, on_screen x y k -> in_rect sx sy w h x y = true ->
    line_of (FB_BASE + 4 * (y * FB_WIDTH + x) + k) ∈ v_flushed v';
}.

Lemma drawn_row image w sx sy h y (v v1 : video) : 0 < w -> 0 <= sx -> sx + w <= FB_WIDTH -> 0 <= sy -> sy + h <= FB_HEIGHT ->
  4 * (w * h) <= Z.of_nat (length image) -> 0 <= y < h -> drawn image sx sy w y v v1 ->
  exists v2, copy_row image w sx sy y v1 = Some v2 /\ drawn image sx sy w (y + 1) v v2.
Proof.
  intros Hw Hsx Hx Hsy Hsh Hi Hy [Hd Hp Hr Hf]. assert (Hyw : 0 <= y * w /\ y * w + w <= w * h) by nia.
  destruct (copy_row_spec image w sx sy y v1) as (v2 & E & Em & Ed & Hold & Hnew); [lia.. |].
  exists v2. split; [exact E |]. clear E. unfold on_screen, FB_SIZE, FB_WIDTH, FB_HEIGHT, FB_BPP in *.
  assert (Hlen : length (take (Z.to_nat (4 * w)) (drop (Z.to_nat (4 * (y * w))) image)) = Z.to_nat (4 * w))
    by (apply length_take_le; rewrite length_drop; lia).
  split; [congruence | | |].
  - intros x yy k Hk. unfold on_screen, pixel, FB_WIDTH, FB_HEIGHT in *. rewrite Em. destruct (decide (yy = sy + y /\ sx <= x < sx + w)) as [[-> Hin] | Hout].
    + rewrite set_bytes_in by (rewrite Hlen; lia). rewrite lookup_take_lt, lookup_drop by lia.
      rewrite (proj2 (in_rect_spec sx sy w (y + 1) x (sy + y))) by lia. f_equal. replace (sy + y - sy) with y by lia. lia.
    + rewrite set_bytes_out by (rewrite Hlen; lia). rewrite (Hp x yy k Hk).
      destruct (in_rect sx sy w y x yy) eqn:E1, (in_rect sx sy w (y + 1) x yy) eqn:E2; try done.
      * apply in_rect_spec in E1. assert (in_rect sx sy w (y + 1) x yy = true) by (apply in_rect_spec; lia). congruence.
      * apply in_rect_spec in E2. assert (in_rect sx sy w y x yy = true) by (apply in_rect_spec; lia). congruence.
  - intros a Ha. unfold FB_SIZE, FB_WIDTH, FB_HEIGHT, FB_BPP in *. rewrite Em, set_bytes_out by (rewrite Hlen; lia). by apply Hr.
  - intros Hb x yy k Hk Hin%in_rect_spec. unfold on_screen, FB_WIDTH, FB_HEIGHT in *. destruct (decide (yy = sy + y)) as [-> | Hne].
    + apply (Hnew Hb). lia.
    + apply Hold, (Hf Hb x yy k Hk). apply in_rect_spec. lia.
Qed.

(** C37: a picture that fits the screen is drawn in its middle: every pixel inside
    of it is the picture's, every other one and the rest of memory are as
    before, and without coherent caches every line written was flushed. *)
Theorem video_bmp_display_centres image w h (v : video) : 0 < w <= FB_WIDTH -> 0 < h <= FB_HEIGHT -> 4 * (w * h) <= Z.of_nat (length image) ->
  exists v', video_bmp_display image w h v = Some v' /\ drawn image ((FB_WIDTH - w) / 2) ((FB_HEIGHT - h) / 2) w h v v'.
Proof.
  intros Hw Hh Hi. unfold video_bmp_display.
  assert (Esx : Z.quot (i32 (FB_WIDTH - i32 w)) 2 = (FB_WIDTH - w) / 2) by (unfold FB_WIDTH in *; unwrap; apply Z.quot_div_nonneg; lia).
  assert (Esy : Z.quot (i32 (FB_HEIGHT - i32 h)) 2 = (FB_HEIGHT - h) / 2) by (unfold FB_HEIGHT in *; unwrap; apply Z.quot_div_nonneg; lia).
  rewrite Esx, Esy, (i32_small h) by (unfold FB_HEIGHT in *; lia). clear Esx Esy.
  assert (Hsx : 0 <= (FB_WIDTH - w) / 2 /\ (FB_WIDTH - w) / 2 + w <= FB_WIDTH) by (unfold FB_WIDTH in *; dlia).
  assert (Hsy : 0 <= (FB_HEIGHT - h) / 2 /\ (FB_HEIGHT - h) / 2 + h <= FB_HEIGHT) by (unfold FB_HEIGHT in *; dlia).
  set (sx := (FB_WIDTH - w) / 2) in *. set (sy := (FB_HEIGHT - h) / 2) in *. clearbody sx sy.
  destruct (for_range_inv (fun j v' => drawn image sx sy w j v v') (Z.to_nat h) 0 (copy_row image w sx sy) v) as (v' & E & Hd).
  - split; [done | | done |]; [intros x y k _ | intros _ x y k _].
    + destruct (in_rect sx sy w 0 x y) eqn:E; [apply in_rect_spec in E; lia | done].
    + intros E%in_rect_spec. lia.
  - intros j s Hj Hs. apply (drawn_row image w sx sy h j v s); (lia || done).
  - exists v'. split; [exact E |]. by rewrite Z2Nat.id in Hd by lia.
Qed.

(** A picture wider than the screen starts before the frame buffer. *)
Lemma display_overrun image (v : video) : 4 * (1922 * 1080) <= Z.of_nat (length image) -> video_bmp_display image 1922 1080 v = None.
Proof.
  intros Hi. unfold video_bmp_display, FB_WIDTH, FB_HEIGHT. change (Z.quot (i32 (1920 - i32 1922)) 2) with (-1).
  change (Z.quot (i32 (1080 - i32 1080)) 2) with 0. assert (exists n, Z.to_nat (i32 1080) = S n) as [n ->] by (exists 1079%nat; by vm_compute). cbn [for_range].
  assert (E : copy_row image 1922 (-1) 0 0 v = None); [| by rewrite E].
  unfold copy_row, FB_WIDTH. change (4 * (i32 ((0 + 0) * 1920) + -1)) with (-4). unfold slice. change (4 * u32 (0 * 1922)) with 0.
  repeat (zcase; [lia |]). cbn [orb mbind option_bind].
  assert (Ed : FB_BASE ⊞ -4 = FB_BASE - 4) by (unfold FB_BASE; by destruct board_). rewrite Ed.
  unfold fb_copy. by destruct (Z.ltb_spec (FB_BASE - 4) FB_BASE); [| lia].
Qed.

End Display.

(** ** A concrete device, used by the witnesses *)

Module ToyFwCfg.

(** Requests are served at once. *)
#[export] Instance toy_fw : FwCfg fw_state := {
  write_dma v dm d :=
    if be 8 v =? physical (access_at dm) then
      let r := access dm in
      let '(m, s) := dma_effect (be 4 (control r)) (Z.to_nat (be 4 (length_ r))) (be 8 (address r)) (bytes dm) d in
      (DmaMemory (access_at dm) (Access 0 (length_ r) (address r)) m, s)
    else (dm, d);
  dma_wait dm d := (dm, d);
}.

#[export, program] Instance toy_fw_laws : FwCfgLaws fw_state := { fw_view s := s; fw_latency := 0 }.
Next Obligation.
  intros at_ r m d v E. destruct (dma_effect (be 4 (control r)) (Z.to_nat (be 4 (length_ r))) (be 8 (address r)) m d) as [m' s'] eqn:Ee.
  exists 0%nat, (DmaMemory at_ (Access 0 (length_ r) (address r)) m'), s'. split_and!; [done | | done].
  cbn [write_dma toy_fw access_at access bytes]. rewrite E, Z.eqb_refl, Ee. by constructor.
Qed.

Definition stack : Z := 0xffffffc081000000.
#[export] Instance toy_frames : Frames := { access_var := stack; count_var := stack + 32; file_var := stack + 64; cfg_var := stack + 128 }.

Definition toy_files : list fw_file := [FwFile 4 0x20 (chars "etc/acpi/rsdp"); FwFile 28 0x2a (chars "etc/ramfb")].
Definition toy_state : fw_state := FwState {[FW_CFG_FILE_DIR := directory toy_files; 0x2a := replicate 28 0]} 0 0.

Lemma video_bmp_display_centres_witness :
  let P : Platform := {| board_ := ORANGE_PI |} in
  exists v', video_bmp_display (map Z.of_nat (seq 0 24)) 2 3 (Video ∅ toy_state []) = Some v' /\
    pixel v' 959 538 0 = Some 0 /\ pixel v' 960 539 1 = Some 13 /\ pixel v' 961 539 0 = None /\
    line_of (FB_BASE + 4 * (539 * FB_WIDTH + 960) + 1) ∈ v_flushed v'.
Proof.
  intros P. destruct (video_bmp_display_centres (map Z.of_nat (seq 0 24)) 2 3 (Video ∅ toy_state [])) as (v' & E & Hd);
    [by split | by split | by vm_compute |].
  exists v'. split_and!; [exact E | | | |].
  - refine (eq_trans (drawn_pixel _ _ _ _ _ _ _ Hd 959 538 0 _) _); [by repeat split | vm_compute; reflexivity].
  - refine (eq_trans (drawn_pixel _ _ _ _ _ _ _ Hd 960 539 1 _) _); [by repeat split | vm_compute; reflexivity].
  - refine (eq_trans (drawn_pixel _ _ _ _ _ _ _ Hd 961 539 0 _) _); [by repeat split | vm_compute; reflexivity].
  - apply (drawn_flushed _ _ _ _ _ _ _ Hd eq_refl 960 539 1); [by repeat split | vm_compute; reflexivity].
Defined.

Lemma video_init_configures_witness :
  let P : Platform := {| board_ := QEMU |} in
  exists v', video_init 0 (Video ∅ toy_state []) = Some ([], v') /\ items (v_fw v') !! 0x2a = Some ramfb_config.
Proof.
  intros P. destruct (video_init_configures (F := fw_state) (FL := toy_fw_laws) 0 (le_n 0) ltac:(by split) toy_files (Video ∅ toy_state [])) as (out & v' & E & _ & Hi & Ho & _).
  - reflexivity.
  - repeat split; (discriminate || (left; discriminate) || (right; discriminate)).
  - repeat constructor; try discriminate; vm_compute; lia.
  - by vm_compute.
  - reflexivity.
  - exists v'. rewrite (proj2 Ho) in E by discriminate. split; [exact E |].
    change (items (fw_view (v_fw v')) !! 0x2a = Some ramfb_config). rewrite Hi. vm_compute. reflexivity.
Defined.

End ToyFwCfg.
