(* ===== verification/Vma.v ===== *)
(** * User memory areas: the helpers of [src/syscall.c]

    The sorted list of areas of a thread: overlap test, insertion, removal, the
    search for a free region, duplication on fork, and the placement part of
    [sys_mmap]. *)

From S2P Require Import Prelude Config Align AllocSizes.

(** [struct vm_area]; [va_node] is the address of the node itself. *)
Record vm_area := VmArea {
  va_node : Z;
  va_start : Z;
  va_end : Z;
  va_prot : Z;
  va_flags : Z;
  va_file_data : Z;
  va_file_size : Z;
}.

#[export] Instance vm_area_eq_dec : EqDecision vm_area.
Proof. solve_decision. Defined.

(** ** Operations *)

Fixpoint is_vma_overlap (vmas : list vm_area) (start end_ : Z) : bool :=
  match vmas with
  | [] => false
  | curr :: vmas =>
      if negb ((end_ <=? va_start curr) || (va_end curr <=? start)) then true
      else is_vma_overlap vmas start end_
  end.

(** [while (curr->next && curr->next->start < start)]: insertion after [curr]. *)
Fixpoint insert_after (new : vm_area) (curr : vm_area) (rest : list vm_area) : list vm_area :=
  match rest with
  | nxt :: rest' =>
      if va_start nxt <? va_start new then curr :: insert_after new nxt rest'
      else curr :: new :: rest
  | [] => [curr; new]
  end.

(** [node] is what [allocate] answered; the code writes through it unchecked. *)
Definition add_vma (node start length prot flags : Z) (vmas : list vm_area) : option (vm_area * list vm_area) :=
  if node =? 0 then None else
  let new := VmArea node start (start ⊞ length) prot flags 0 0 in
  match vmas with
  | [] => Some (new, [new])
  | v :: rest =>
      if start <? va_start v then Some (new, new :: v :: rest)
      else Some (new, insert_after new v rest)
  end.

(** The list and the node that was freed, if any. *)
Fixpoint remove_vma (start : Z) (vmas : list vm_area) : option Z * list vm_area :=
  match vmas with
  | [] => (None, [])
  | v :: rest =>
      if va_start v =? start then (Some (va_node v), rest)
      else let '(f, rest') := remove_vma start rest in (f, v :: rest')
  end.

(** The inner loop: the end of the first area that overlaps. *)
Fixpoint first_vma_overlap (addr length : Z) (vmas : list vm_area) : option Z :=
  match vmas with
  | [] => None
  | curr :: vmas =>
      if negb ((addr ⊞ length <=? va_start curr) || (va_end curr <=? addr)) then Some (va_end curr)
      else first_vma_overlap addr length vmas
  end.

Fixpoint find_free_loop (fuel : nat) (addr length : Z) (vmas : list vm_area) : option Z :=
  match first_vma_overlap addr length vmas with
  | None => Some addr
  | Some e => match fuel with O => None | S fuel => find_free_loop fuel e length vmas end
  end.

Definition VMA_SEARCH_BASE : Z := 0x10000000.

Definition find_free_vma_region (vmas : list vm_area) (len : Z) : option Z :=
  find_free_loop (length vmas) VMA_SEARCH_BASE len vmas.

(** The nodes come from [allocate], one per area; the copy stops at a failure. *)
Fixpoint copy_vma_list (nodes : list Z) (vmas : list vm_area) : list vm_area :=
  match vmas, nodes with
  | v :: vmas, n :: nodes =>
      if n =? 0 then []
      else VmArea n (va_start v) (va_end v) (va_prot v) (va_flags v) (va_file_data v) (va_file_size v)
             :: copy_vma_list nodes vmas
  | _, _ => []
  end.

(** [sys_mmap] up to the new area: the address, -1 for failure, and the areas. *)
Definition sys_mmap_place (node addr length prot flags : Z) (vmas : list vm_area) : option (Z * list vm_area) :=
  let length := Z.land (length ⊞ PAGE_SIZE ⊟ 1) (u64 (Z.lnot (PAGE_SIZE - 1))) in
  if length =? 0 then Some (u64 (-1), vmas) else
  start ← (if (addr =? 0) || negb (Z.land addr (PAGE_SIZE - 1) =? 0) || is_vma_overlap vmas addr (addr ⊞ length)
           then find_free_vma_region vmas length else Some addr);
  '(_, vmas) ← add_vma node start length prot flags vmas;
  Some (start, vmas).

(** [end_ <= base]: where user addresses stop. *)
Definition USER_TOP : Z := 0x4000000000.
Definition USER_STACK_SIZE : Z := 0x2000.
Definition PROT_READ : Z := 1.
Definition PROT_WRITE : Z := 2.
Definition PROT_EXEC : Z := 4.
Definition MAP_ANONYMOUS : Z := 0x20.
Definition MAP_POPULATE : Z := 0x8000.

(** The areas of a fresh program: [sys_exec] and [exec] from the old areas on.
    [size] is the size of the file, [nodes] the two nodes from [allocate]. *)
Definition exec_vmas (node1 node2 data size : Z) : option (list vm_area) :=
  let code_pages := (size ⊞ PAGE_SIZE ⊟ 1) / PAGE_SIZE in
  '(code, vmas) ← add_vma node1 0 (code_pages ⊠ PAGE_SIZE) (Z.lor (Z.lor PROT_READ PROT_WRITE) PROT_EXEC) MAP_ANONYMOUS [];
  let code := VmArea (va_node code) (va_start code) (va_end code) (va_prot code) (va_flags code) data size in
  '(_, vmas) ← add_vma node2 (USER_TOP - USER_STACK_SIZE) USER_STACK_SIZE (Z.lor PROT_READ PROT_WRITE) MAP_ANONYMOUS [code];
  Some vmas.

(** ** The invariant *)

(** Areas in order, non-empty and apart, inside the address space. *)
Fixpoint vmas_from (lo : Z) (vmas : list vm_area) : Prop :=
  match vmas with
  | [] => True
  | v :: rest => lo <= va_start v /\ va_start v < va_end v < 2 ^ 64 /\ vmas_from (va_end v) rest
  end.

Definition vmas_ok (vmas : list vm_area) : Prop := vmas_from 0 vmas.

(** [start, start + len) meets no area. *)
Definition clear_of (start len : Z) (vmas : list vm_area) : Prop :=
  forall v, v ∈ vmas -> start + len <= va_start v \/ va_end v <= start.

Lemma vmas_from_mono lo lo' vmas : lo' <= lo -> vmas_from lo vmas -> vmas_from lo' vmas.
Proof. destruct vmas as [| v vmas]; [done |]. simpl. intros ? (? & ? & ?). split_and!; done || lia. Qed.

Lemma vmas_from_elem lo vmas v : vmas_from lo vmas -> v ∈ vmas -> lo <= va_start v /\ va_start v < va_end v < 2 ^ 64.
Proof.
  revert lo. induction vmas as [| w vmas IH]; intros lo Hv; [by intros ?%elem_of_nil |].
  destruct Hv as (? & ? & Hv). intros [-> | Hin]%elem_of_cons; [done |]. apply (IH _ Hv) in Hin. lia.
Qed.

Lemma is_vma_overlap_spec vmas start len :
  is_vma_overlap vmas start (start + len) = false <-> clear_of start len vmas.
Proof.
  unfold clear_of. induction vmas as [| v vmas IH]; simpl.
  { split; [| done]. by intros _ v ?%elem_of_nil. }
  destruct (Z.leb_spec (start + len) (va_start v)), (Z.leb_spec (va_end v) start); simpl; rewrite ?IH.
  all: try (split; [intros Hc w [-> | Hw]%elem_of_cons; [lia | by apply Hc] | intros Hc w Hw; apply Hc; by right]).
  split; [done |]. intros Hc. destruct (Hc v); [by left | lia | lia].
Qed.

Lemma first_vma_overlap_None vmas addr len : 0 <= addr -> 0 <= len -> addr + len < 2 ^ 64 ->
  first_vma_overlap addr len vmas = None -> clear_of addr len vmas.
Proof.
  intros ? ? ?. unfold clear_of. induction vmas as [| v vmas IH]; simpl.
  { by intros _ v ?%elem_of_nil. }
  rewrite u64_small by lia. destruct (Z.leb_spec (addr + len) (va_start v)), (Z.leb_spec (va_end v) addr); simpl; try done.
  all: intros Hn w [-> | Hw]%elem_of_cons; [lia | by apply IH].
Qed.

Lemma first_vma_overlap_Some vmas addr len e : 0 <= addr -> 0 <= len -> addr + len < 2 ^ 64 ->
  first_vma_overlap addr len vmas = Some e ->
  exists v, v ∈ vmas /\ e = va_end v /\ addr < va_end v /\ va_start v < addr + len.
Proof.
  intros ? ? ?. induction vmas as [| v vmas IH]; simpl; [done |].
  rewrite u64_small by lia. destruct (Z.leb_spec (addr + len) (va_start v)), (Z.leb_spec (va_end v) addr); simpl.
  4: { intros [= <-]. exists v. split_and!; try done. by left. }
  all: intros (w & ? & ?)%IH; exists w; split; [by right | done].
Qed.

(** The areas that end after [addr] bound the number of jumps. *)
Definition ahead (addr : Z) (vmas : list vm_area) : nat := length (filter (fun v => addr < va_end v) vmas).

Lemma ahead_mono addr addr' vmas : addr <= addr' -> (ahead addr' vmas <= ahead addr vmas)%nat.
Proof.
  intros Ha. unfold ahead. induction vmas as [| v vmas IH]; [done |].
  rewrite !filter_cons. repeat case_decide; simpl; lia.
Qed.

Lemma ahead_decr addr addr' v vmas : v ∈ vmas -> addr < va_end v <= addr' -> (ahead addr' vmas < ahead addr vmas)%nat.
Proof.
  intros Hin Ha. induction vmas as [| w vmas IH]; [by apply elem_of_nil in Hin |].
  pose proof (ahead_mono addr addr' vmas ltac:(lia)) as Hm. unfold ahead in *. rewrite !filter_cons.
  apply elem_of_cons in Hin as [<- | Hin]; [rewrite decide_False, decide_True by lia; simpl; lia |].
  specialize (IH Hin). repeat case_decide; simpl; lia.
Qed.

Lemma find_free_loop_spec fuel addr len vmas top :
  vmas_ok vmas -> 0 <= addr <= top -> 0 < len -> top + len < 2 ^ 64 -> (forall v, v ∈ vmas -> va_end v <= top) ->
  (ahead addr vmas <= fuel)%nat ->
  exists a, find_free_loop fuel addr len vmas = Some a /\ addr <= a <= top /\ clear_of a len vmas /\
    (a = addr \/ exists v, v ∈ vmas /\ a = va_end v) /\
    forall a', addr <= a' -> clear_of a' len vmas -> a <= a'.
Proof.
  intros Hok. revert addr. induction fuel as [| fuel IH]; intros addr Ha Hl Ht Htop Hf; cbn [find_free_loop].
  all: destruct (first_vma_overlap addr len vmas) as [e |] eqn:E;
    [| exists addr; split_and!; try done; try lia; apply first_vma_overlap_None; try done; lia].
  all: destruct (first_vma_overlap_Some vmas addr len e) as (v & Hv & -> & Hlt & Hs); try done; try lia.
  all: pose proof (Htop v Hv); pose proof (ahead_decr addr (va_end v) v vmas Hv ltac:(lia)).
  1: lia.
  destruct (IH (va_end v)) as (a & -> & Har & Hc & Hor & Hmin); try done; try lia.
  exists a. split_and!; try done; try lia.
  - destruct Hor as [-> | ?]; right; [by exists v | done].
  - intros a' Ha' Hc'. apply Hmin; [| done]. destruct (Hc' v Hv); lia.
Qed.

(** ** Insertion and removal keep the areas in order *)

Lemma insert_after_ok new curr rest lo :
  vmas_from lo (curr :: rest) -> va_start curr <= va_start new -> va_start new < va_end new < 2 ^ 64 ->
  clear_of (va_start new) (va_end new - va_start new) (curr :: rest) ->
  vmas_from lo (insert_after new curr rest) /\ insert_after new curr rest ≡ₚ new :: curr :: rest.
Proof.
  revert curr lo. induction rest as [| nxt rest IH]; intros curr lo (Hlo & Hc & Hr) Hs Hn Hcl; cbn [insert_after].
  - destruct (Hcl curr) as [H | H]; [by left | lia |]. split; [simpl; split_and!; done || lia | by apply perm_swap].
  - destruct (Hcl curr) as [H | H]; [by left | lia |]. destruct (Z.ltb_spec (va_start nxt) (va_start new)).
    + destruct (IH nxt (va_end curr)) as [Ho Hp]; [done | lia | done | intros v Hv; apply Hcl; by right |].
      split; [cbn [vmas_from]; tauto |]. rewrite Hp. apply perm_swap.
    + destruct Hr as (? & ? & ?). destruct (Hcl nxt) as [H' | H']; [right; left | | lia].
      split; [simpl; split_and!; done || lia | apply perm_swap].
Qed.

Lemma add_vma_ok node start len prot flags vmas :
  node <> 0 -> vmas_ok vmas -> 0 <= start -> 0 < len -> start + len < 2 ^ 64 -> clear_of start len vmas ->
  exists vmas', add_vma node start len prot flags vmas = Some (VmArea node start (start + len) prot flags 0 0, vmas') /\
    vmas_ok vmas' /\ vmas' ≡ₚ VmArea node start (start + len) prot flags 0 0 :: vmas.
Proof.
  intros Hn Hok Hs Hl Ht Hc. unfold add_vma. destruct (Z.eqb_spec node 0); [done |]. rewrite u64_small by lia.
  set (new := VmArea _ _ _ _ _ _ _). destruct vmas as [| v rest].
  { exists [new]. split_and!; [done | unfold vmas_ok, new; simpl; lia | done]. }
  destruct Hok as (H0 & Hv & Hr). destruct (Z.ltb_spec start (va_start v)).
  - exists (new :: v :: rest). split_and!; [done | | done].
    destruct (Hc v) as [? | ?]; [by left | | lia]. unfold vmas_ok, new. simpl. split_and!; done || lia.
  - exists (insert_after new v rest). split; [done |]. apply insert_after_ok; [cbn [vmas_from]; tauto | simpl; lia | simpl; lia |].
    simpl. by replace (start + len - start) with len by lia.
Qed.

Lemma remove_vma_spec start vmas lo : vmas_from lo vmas ->
  (forall v, v ∈ vmas -> va_start v = start ->
     (remove_vma start vmas).1 = Some (va_node v) /\ v :: (remove_vma start vmas).2 ≡ₚ vmas) /\
  ((forall v, v ∈ vmas -> va_start v <> start) -> remove_vma start vmas = (None, vmas)) /\
  vmas_from lo (remove_vma start vmas).2.
Proof.
  revert lo. induction vmas as [| w vmas IH]; intros lo Hok; simpl.
  { split_and!; try done. by intros v ?%elem_of_nil. }
  destruct Hok as (Hlo & Hw & Hr). destruct (IH _ Hr) as (Hy & Hn & Hok').
  destruct (Z.eqb_spec (va_start w) start) as [E | E].
  - split_and!.
    + intros v [-> | Hv]%elem_of_cons Hs; [done |]. apply (vmas_from_elem _ _ _ Hr) in Hv. lia.
    + intros Hno. by destruct (Hno w ltac:(by left)).
    + simpl. eapply vmas_from_mono; [| done]. lia.
  - destruct (remove_vma start vmas) as [f rest] eqn:Er. simpl in *. refine (conj _ (conj _ (conj Hlo (conj Hw Hok')))).
    + intros v [-> | Hv]%elem_of_cons Hs; [done |]. destruct (Hy v Hv Hs) as [-> Hp]. split; [done |].
      rewrite <- Hp. apply perm_swap.
    + intros Hno. specialize (Hn ltac:(intros v Hv; apply Hno; by right)). by injection Hn as -> ->.
Qed.
