(* ===== verification/VmaProps.v ===== *)
(** * Properties of the user memory areas *)

From S2P Require Import Prelude Config Align Vma.

(** [find_free_vma_region] terminates and is an exact first fit: the region
    it returns starts at or above the search base, meets no area of the thread,
    and no lower address at or above the base would do. *)
Theorem find_free_first_fit vmas len top :
  vmas_ok vmas -> 0 < len -> VMA_SEARCH_BASE <= top -> top + len < 2 ^ 64 -> (forall v, v ∈ vmas -> va_end v <= top) ->
  exists a, find_free_vma_region vmas len = Some a /\ VMA_SEARCH_BASE <= a <= top /\ clear_of a len vmas /\
    forall a', VMA_SEARCH_BASE <= a' -> clear_of a' len vmas -> a <= a'.
Proof.
  intros Hok Hl Hb Ht Htop.
  destruct (find_free_loop_spec (length vmas) VMA_SEARCH_BASE len vmas top) as (a & E & Ha & Hc & _ & Hmin);
    try done; [apply length_filter |].
  by exists a.
Qed.

(** Two areas used by the witnesses: a program and its stack. *)
Definition demo_vmas : list vm_area :=
  [VmArea 1 0 0x2000 7 32 0 0; VmArea 2 0x10000000 0x10001000 3 32 0 0; VmArea 3 0x3fffffe000 0x4000000000 3 32 0 0].

Lemma demo_vmas_ok : vmas_ok demo_vmas.
Proof. unfold vmas_ok, demo_vmas. simpl. lia. Qed.

Lemma demo_vmas_top v : v ∈ demo_vmas -> va_end v <= 0x4000000000.
Proof. unfold demo_vmas. rewrite !elem_of_cons, elem_of_nil. intros [-> | [-> | [-> | []]]]; simpl; lia. Qed.

Lemma find_free_first_fit_witness :
  exists a, find_free_vma_region demo_vmas 0x3000 = Some a /\ clear_of a 0x3000 demo_vmas.
Proof.
  destruct (find_free_first_fit demo_vmas 0x3000 0x4000000000 demo_vmas_ok) as (a & E & _ & Hc & _);
    [lia | unfold VMA_SEARCH_BASE; lia | lia | apply demo_vmas_top |].
  exists a. split; [exact E | exact Hc].
Defined.

(** ** [sys_mmap] *)

(** The length the code rounds up to. *)
Lemma mmap_length length : 0 <= length -> length + PAGE_SIZE < 2 ^ 64 ->
  Z.land (length ⊞ PAGE_SIZE ⊟ 1) (u64 (Z.lnot (PAGE_SIZE - 1))) = round_up length PAGE_SHIFT.
Proof.
  rewrite PAGE_SIZE_val. intros. rewrite (u64_small (length + _)), u64_small by lia.
  change (4096 - 1) with (2 ^ 12 - 1). rewrite land_lnot_mask by lia. unfold PAGE_SHIFT.
  rewrite <- round_up_mask by lia. change (2 ^ 12) with 4096. done.
Qed.

Definition page_aligned (x : Z) : Prop := (2 ^ PAGE_SHIFT | x).

(** C39: [sys_mmap] reserves a fresh region: it answers -1 without change for an
    empty length; otherwise it adds exactly one area of the rounded-up length,
    at the hint when the hint is usable and elsewhere when it is not, page
    aligned, disjoint from every other area, and the areas stay in order. *)
Theorem sys_mmap_reserves node addr len prot flags vmas top :
  node <> 0 -> vmas_ok vmas -> (forall v, v ∈ vmas -> va_end v <= top /\ page_aligned (va_end v)) ->
  VMA_SEARCH_BASE <= top -> 0 <= len -> 0 <= addr -> addr + len + PAGE_SIZE < 2 ^ 64 -> top + len + PAGE_SIZE < 2 ^ 64 ->
  (len = 0 -> sys_mmap_place node addr len prot flags vmas = Some (2 ^ 64 - 1, vmas)) /\
  (0 < len -> exists a vmas' v, sys_mmap_place node addr len prot flags vmas = Some (a, vmas') /\
     va_start v = a /\ va_end v = a + round_up len PAGE_SHIFT /\ va_prot v = prot /\ va_flags v = flags /\
     page_aligned a /\ clear_of a (round_up len PAGE_SHIFT) vmas /\ vmas' ≡ₚ v :: vmas /\ vmas_ok vmas' /\
     (addr <> 0 -> page_aligned addr -> clear_of addr (round_up len PAGE_SHIFT) vmas -> a = addr)).
Proof.
  intros Hn Hok Hv Hb Hl0 Ha0 Ha Ht. rewrite PAGE_SIZE_val in *. pose proof (mmap_length len Hl0) as Em.
  rewrite PAGE_SIZE_val in Em. specialize (Em ltac:(lia)).
  unfold sys_mmap_place. rewrite PAGE_SIZE_val, Em. split.
  { intros ->. done. }
  intros Hl. destruct (round_up_spec len PAGE_SHIFT) as [Hra Hrr]; [done |].
  set (n := round_up len PAGE_SHIFT) in *. unfold PAGE_SHIFT in Hrr. change (2 ^ 12) with 4096 in Hrr.
  destruct (Z.eqb_spec n 0); [lia |]. rewrite (u64_small (addr + n)) by lia.
  assert (Hal : Z.land addr (4096 - 1) =? 0 = true <-> page_aligned addr).
  { change (4096 - 1) with (2 ^ 12 - 1). rewrite land_mask, Z.eqb_eq by lia. symmetry. by apply divide_mod. }
  destruct (find_free_loop_spec (length vmas) VMA_SEARCH_BASE n vmas top) as (a & E & Har & Hc & Hor & _);
    [done | unfold VMA_SEARCH_BASE in *; lia | lia | lia | intros; by apply Hv | apply length_filter |].
  fold (find_free_vma_region vmas n) in E.
  assert (Hsel : exists s, (if (addr =? 0) || negb (Z.land addr (4096 - 1) =? 0) || is_vma_overlap vmas addr (addr + n)
      then find_free_vma_region vmas n else Some addr) = Some s /\ 0 <= s /\ s + n < 2 ^ 64 /\ page_aligned s /\
      clear_of s n vmas /\ (addr <> 0 -> page_aligned addr -> clear_of addr n vmas -> s = addr)).
  { destruct ((addr =? 0) || negb (Z.land addr (4096 - 1) =? 0) || is_vma_overlap vmas addr (addr + n)) eqn:Eb.
    - exists a. split_and!; [done | unfold VMA_SEARCH_BASE in *; lia | lia | | done |].
      + destruct Hor as [-> | (v & Hin & ->)]; [by exists 0x10000 | by apply Hv].
      + intros Hz Hpa Hcl. exfalso. apply Hal in Hpa. apply is_vma_overlap_spec in Hcl.
        rewrite Hpa, Hcl in Eb. destruct (Z.eqb_spec addr 0); done.
    - apply orb_false_iff in Eb as [Eb Eo]. apply orb_false_iff in Eb as [_ Ea].
      apply negb_false_iff, Hal in Ea. apply is_vma_overlap_spec in Eo.
      exists addr. split_and!; try done; lia. }
  destruct Hsel as (s & -> & Hs0 & Hs & Hsa & Hsc & Heq). cbn [mbind option_bind].
  destruct (add_vma_ok node s n prot flags vmas) as (vmas' & -> & Hok' & Hp); try done; [lia |].
  cbn [mbind option_bind]. exists s, vmas', (VmArea node s (s + n) prot flags 0 0). split_and!; done.
Qed.

Lemma sys_mmap_reserves_witness :
  exists a vmas', sys_mmap_place 9 0x2000 5000 3 32 demo_vmas = Some (a, vmas') /\ a = 0x2000 /\ vmas_ok vmas'.
Proof.
  destruct (sys_mmap_reserves 9 0x2000 5000 3 32 demo_vmas 0x4000000000) as [_ H].
  - lia.
  - apply demo_vmas_ok.
  - intros v Hv. split; [by apply demo_vmas_top |].
    unfold demo_vmas in Hv. rewrite !elem_of_cons, elem_of_nil in Hv. destruct Hv as [-> | [-> | [-> | []]]];
      [exists 2 | exists 0x10001 | exists 0x4000000]; reflexivity.
  - unfold VMA_SEARCH_BASE. lia.
  - lia.
  - lia.
  - rewrite PAGE_SIZE_val. lia.
  - rewrite PAGE_SIZE_val. lia.
  - destruct H as (a & vmas' & v & E & _ & _ & _ & _ & _ & _ & _ & Hok & Ha); [lia |].
    exists a, vmas'. split_and!; [exact E | | exact Hok]. apply Ha; [lia | by exists 2 |].
    apply is_vma_overlap_spec. reflexivity.
Defined.

(** A length close to 2^64 wraps around: the search answers an address inside
    an existing area, and the area added ends before it starts. *)
Lemma sys_mmap_wraps :
  exists vmas', sys_mmap_place 9 0 (2 ^ 64 - 0x1000) 3 32 demo_vmas = Some (0x10000000, vmas') /\
    VmArea 9 0x10000000 0xffff000 3 32 0 0 ∈ vmas' /\ VmArea 2 0x10000000 0x10001000 3 32 0 0 ∈ vmas'.
Proof. eexists. split; [vm_compute; reflexivity |]. rewrite !elem_of_cons. split; tauto. Qed.

(** ** Adding and removing an area *)

Lemma vmas_ok_unique lo vmas vmas' : vmas_from lo vmas -> vmas_from lo vmas' -> vmas ≡ₚ vmas' -> vmas = vmas'.
Proof.
  revert lo vmas'. induction vmas as [| v vmas IH]; intros lo vmas' Hok Hok' Hp.
  { by apply Permutation_nil_l in Hp. }
  destruct vmas' as [| v' vmas']; [by apply Permutation_nil_r in Hp |].
  pose proof Hok as (? & ? & Hr). pose proof Hok' as (? & ? & Hr').
  assert (v = v') as <-.
  { assert (Hv : v ∈ v' :: vmas') by (rewrite <- Hp; by left).
    assert (Hv' : v' ∈ v :: vmas) by (rewrite Hp; by left).
    apply elem_of_cons in Hv as [? | Hv]; [done |]. apply elem_of_cons in Hv' as [? | Hv']; [done |].
    apply (vmas_from_elem _ _ _ Hr') in Hv. apply (vmas_from_elem _ _ _ Hr) in Hv'. lia. }
  f_equal. apply (IH (va_end v)); [done | done |]. by apply Permutation_cons_inv in Hp.
Qed.

(** Removing the area just added gives back the areas as they were, and the
    node of the removed area is the one freed: the area of a signal stack
    leaves no trace after [sys_sigreturn]. *)
Theorem remove_add_vma node start len prot flags vmas :
  node <> 0 -> vmas_ok vmas -> 0 <= start -> 0 < len -> start + len < 2 ^ 64 -> clear_of start len vmas ->
  exists v vmas', add_vma node start len prot flags vmas = Some (v, vmas') /\
    remove_vma start vmas' = (Some node, vmas).
Proof.
  intros Hn Hok Hs Hl Ht Hc.
  destruct (add_vma_ok node start len prot flags vmas Hn Hok Hs Hl Ht Hc) as (vmas' & E & Hok' & Hp).
  eexists _, vmas'. split; [exact E |].
  destruct (remove_vma_spec start vmas' 0 Hok') as (Hy & _ & Hok2).
  destruct (Hy (VmArea node start (start + len) prot flags 0 0)) as [Hf Hp2]; [rewrite Hp; by left | done |].
  destruct (remove_vma start vmas') as [f vmas2]. simpl in *. subst f. f_equal.
  apply (vmas_ok_unique 0); [done | done |]. apply (Permutation_cons_inv (a := VmArea node start (start + len) prot flags 0 0)).
  by rewrite Hp2.
Qed.

Lemma remove_add_vma_witness :
  exists v vmas', add_vma 9 0x20000000 0x1000 7 32 demo_vmas = Some (v, vmas') /\
    remove_vma 0x20000000 vmas' = (Some 9, demo_vmas).
Proof.
  apply (remove_add_vma 9 0x20000000 0x1000 7 32 demo_vmas); [lia | apply demo_vmas_ok | lia | lia | lia |].
  apply is_vma_overlap_spec. reflexivity.
Defined.

(** ** The areas of a new program *)

Lemma exec_vmas_ok node1 node2 data size :
  node1 <> 0 -> node2 <> 0 -> 0 < size -> size + PAGE_SIZE <= USER_TOP - USER_STACK_SIZE ->
  exists vmas, exec_vmas node1 node2 data size = Some vmas /\ vmas_ok vmas /\
    vmas = [VmArea node1 0 (round_up size PAGE_SHIFT) 7 MAP_ANONYMOUS data size;
            VmArea node2 (USER_TOP - USER_STACK_SIZE) USER_TOP 3 MAP_ANONYMOUS 0 0].
Proof.
  rewrite PAGE_SIZE_val. unfold USER_TOP, USER_STACK_SIZE. intros H1 H2 Hs Ht. unfold exec_vmas. rewrite PAGE_SIZE_val.
  rewrite (u64_small (size + _)), (u64_small (size + 4096 - 1)) by lia.
  assert (Er : (size + 4096 - 1) / 4096 * 4096 = round_up size PAGE_SHIFT).
  { unfold PAGE_SHIFT. rewrite <- round_up_mask by lia. change (2 ^ 12) with 4096.
    pose proof (Z.div_mod (size + 4096 - 1) 4096). lia. }
  rewrite u64_small by dlia. rewrite Er. destruct (round_up_spec size PAGE_SHIFT) as [_ Hr]; [done |].
  unfold PAGE_SHIFT in *. change (2 ^ 12) with 4096 in Hr. set (n := round_up size 12) in *.
  unfold add_vma. destruct (Z.eqb_spec node1 0); [done |]. cbn [mbind option_bind va_node va_start va_end va_prot va_flags].
  destruct (Z.eqb_spec node2 0); [done |]. rewrite (u64_small (0 + n)) by lia.
  unfold USER_TOP, USER_STACK_SIZE. rewrite u64_small by lia.
  destruct (Z.ltb_spec (274877906944 - 8192) 0); [lia |]. cbn [insert_after mbind option_bind].
  eexists. split; [done |]. split; [| done]. unfold vmas_ok. simpl. lia.
Qed.
