(* ===== verification/Kernel.v ===== *)
(** * The state of the kernel: [src/thread.h], [src/timer.c], [src/task.c]

    Threads, timers and tasks by address, the globals of the scheduler, and the
    state of the components below: the heap and the words of memory, the file
    systems.  Interrupts are off while the kernel changes this state, so every
    operation is one step. *)

From S2P Require Import Prelude Config Heap VfsData Vma.

Inductive THREAD_STATUS :=
  THREAD_RUNNING | THREAD_READY | THREAD_WAITING | THREAD_TERMINATED | THREAD_ABORTED.

#[export] Instance thread_status_eq_dec : EqDecision THREAD_STATUS.
Proof. solve_decision. Defined.

(** [struct thread_context]: what [switch_to] saves and restores. *)
Record thread_context := Context_ { ra : Z; sp : Z; s_regs : list Z }.

(** [struct thread]. *)
Record thread := Thread {
  t_context : thread_context;
  t_pid : Z;
  t_status : THREAD_STATUS;
  t_kernel_sp : Z;
  t_user_sp : Z;
  t_kernel_stack : Z;
  t_user_stack : Z;
  t_next : Z;
  t_parent : Z;
  t_waiting_pid : Z;
  t_priority : Z;  (* current_task_priority *)
  t_arg : Z;
  t_entry_func : Z;
  t_pgd : Z;
  t_vmas : list vm_area;
  t_signal_handler : list Z;
  t_sigpending : Z;
  t_handling : Z;  (* is_handling_signal *)
  t_saved_regs : list Z;  (* signal_saved_regs *)
  t_stack_page : Z;  (* signal_stack_page *)
  t_stack_vaddr : Z;  (* signal_stack_vaddr *)
  t_cwd : Z;
  t_root : Z;
  t_fdt : list Z;
}.
Definition set_t_context (v : thread_context) (r : thread) : thread :=
  Thread v (t_pid r) (t_status r) (t_kernel_sp r) (t_user_sp r) (t_kernel_stack r) (t_user_stack r) (t_next r) (t_parent r) (t_waiting_pid r) (t_priority r) (t_arg r) (t_entry_func r) (t_pgd r) (t_vmas r) (t_signal_handler r) (t_sigpending r) (t_handling r) (t_saved_regs r) (t_stack_page r) (t_stack_vaddr r) (t_cwd r) (t_root r) (t_fdt r).
Definition set_t_pid (v : Z) (r : thread) : thread :=
  Thread (t_context r) v (t_status r) (t_kernel_sp r) (t_user_sp r) (t_kernel_stack r) (t_user_stack r) (t_next r) (t_parent r) (t_waiting_pid r) (t_priority r) (t_arg r) (t_entry_func r) (t_pgd r) (t_vmas r) (t_signal_handler r) (t_sigpending r) (t_handling r) (t_saved_regs r) (t_stack_page r) (t_stack_vaddr r) (t_cwd r) (t_root r) (t_fdt r).
Definition set_t_status (v : THREAD_STATUS) (r : thread) : thread :=
  Thread (t_context r) (t_pid r) v (t_kernel_sp r) (t_user_sp r) (t_kernel_stack r) (t_user_stack r) (t_next r) (t_parent r) (t_waiting_pid r) (t_priority r) (t_arg r) (t_entry_func r) (t_pgd r) (t_vmas r) (t_signal_handler r) (t_sigpending r) (t_handling r) (t_saved_regs r) (t_stack_page r) (t_stack_vaddr r) (t_cwd r) (t_root r) (t_fdt r).
Definition set_t_kernel_stack (v : Z) (r : thread) : thread :=
  Thread (t_context r) (t_pid r) (t_status r) (t_kernel_sp r) (t_user_sp r) v (t_user_stack r) (t_next r) (t_parent r) (t_waiting_pid r) (t_priority r) (t_arg r) (t_entry_func r) (t_pgd r) (t_vmas r) (t_signal_handler r) (t_sigpending r) (t_handling r) (t_saved_regs r) (t_stack_page r) (t_stack_vaddr r) (t_cwd r) (t_root r) (t_fdt r).
Definition set_t_next (v : Z) (r : thread) : thread :=
  Thread (t_context r) (t_pid r) (t_status r) (t_kernel_sp r) (t_user_sp r) (t_kernel_stack r) (t_user_stack r) v (t_parent r) (t_waiting_pid r) (t_priority r) (t_arg r) (t_entry_func r) (t_pgd r) (t_vmas r) (t_signal_handler r) (t_sigpending r) (t_handling r) (t_saved_regs r) (t_stack_page r) (t_stack_vaddr r) (t_cwd r) (t_root r) (t_fdt r).
Definition set_t_parent (v : Z) (r : thread) : thread :=
  Thread (t_context r) (t_pid r) (t_status r) (t_kernel_sp r) (t_user_sp r) (t_kernel_stack r) (t_user_stack r) (t_next r) v (t_waiting_pid r) (t_priority r) (t_arg r) (t_entry_func r) (t_pgd r) (t_vmas r) (t_signal_handler r) (t_sigpending r) (t_handling r) (t_saved_regs r) (t_stack_page r) (t_stack_vaddr r) (t_cwd r) (t_root r) (t_fdt r).
Definition set_t_waiting_pid (v : Z) (r : thread) : thread :=
  Thread (t_context r) (t_pid r) (t_status r) (t_kernel_sp r) (t_user_sp r) (t_kernel_stack r) (t_user_stack r) (t_next r) (t_parent r) v (t_priority r) (t_arg r) (t_entry_func r) (t_pgd r) (t_vmas r) (t_signal_handler r) (t_sigpending r) (t_handling r) (t_saved_regs r) (t_stack_page r) (t_stack_vaddr r) (t_cwd r) (t_root r) (t_fdt r).
Definition set_t_priority (v : Z) (r : thread) : thread :=
  Thread (t_context r) (t_pid r) (t_status r) (t_kernel_sp r) (t_user_sp r) (t_kernel_stack r) (t_user_stack r) (t_next r) (t_parent r) (t_waiting_pid r) v (t_arg r) (t_entry_func r) (t_pgd r) (t_vmas r) (t_signal_handler r) (t_sigpending r) (t_handling r) (t_saved_regs r) (t_stack_page r) (t_stack_vaddr r) (t_cwd r) (t_root r) (t_fdt r).
Definition set_t_arg (v : Z) (r : thread) : thread :=
  Thread (t_context r) (t_pid r) (t_status r) (t_kernel_sp r) (t_user_sp r) (t_kernel_stack r) (t_user_stack r) (t_next r) (t_parent r) (t_waiting_pid r) (t_priority r) v (t_entry_func r) (t_pgd r) (t_vmas r) (t_signal_handler r) (t_sigpending r) (t_handling r) (t_saved_regs r) (t_stack_page r) (t_stack_vaddr r) (t_cwd r) (t_root r) (t_fdt r).
Definition set_t_pgd (v : Z) (r : thread) : thread :=
  Thread (t_context r) (t_pid r) (t_status r) (t_kernel_sp r) (t_user_sp r) (t_kernel_stack r) (t_user_stack r) (t_next r) (t_parent r) (t_waiting_pid r) (t_priority r) (t_arg r) (t_entry_func r) v (t_vmas r) (t_signal_handler r) (t_sigpending r) (t_handling r) (t_saved_regs r) (t_stack_page r) (t_stack_vaddr r) (t_cwd r) (t_root r) (t_fdt r).
Definition set_t_vmas (v : list vm_area) (r : thread) : thread :=
  Thread (t_context r) (t_pid r) (t_status r) (t_kernel_sp r) (t_user_sp r) (t_kernel_stack r) (t_user_stack r) (t_next r) (t_parent r) (t_waiting_pid r) (t_priority r) (t_arg r) (t_entry_func r) (t_pgd r) v (t_signal_handler r) (t_sigpending r) (t_handling r) (t_saved_regs r) (t_stack_page r) (t_stack_vaddr r) (t_cwd r) (t_root r) (t_fdt r).
Definition set_t_signal_handler (v : list Z) (r : thread) : thread :=
  Thread (t_context r) (t_pid r) (t_status r) (t_kernel_sp r) (t_user_sp r) (t_kernel_stack r) (t_user_stack r) (t_next r) (t_parent r) (t_waiting_pid r) (t_priority r) (t_arg r) (t_entry_func r) (t_pgd r) (t_vmas r) v (t_sigpending r) (t_handling r) (t_saved_regs r) (t_stack_page r) (t_stack_vaddr r) (t_cwd r) (t_root r) (t_fdt r).
Definition set_t_sigpending (v : Z) (r : thread) : thread :=
  Thread (t_context r) (t_pid r) (t_status r) (t_kernel_sp r) (t_user_sp r) (t_kernel_stack r) (t_user_stack r) (t_next r) (t_parent r) (t_waiting_pid r) (t_priority r) (t_arg r) (t_entry_func r) (t_pgd r) (t_vmas r) (t_signal_handler r) v (t_handling r) (t_saved_regs r) (t_stack_page r) (t_stack_vaddr r) (t_cwd r) (t_root r) (t_fdt r).
Definition set_t_handling (v : Z) (r : thread) : thread :=
  Thread (t_context r) (t_pid r) (t_status r) (t_kernel_sp r) (t_user_sp r) (t_kernel_stack r) (t_user_stack r) (t_next r) (t_parent r) (t_waiting_pid r) (t_priority r) (t_arg r) (t_entry_func r) (t_pgd r) (t_vmas r) (t_signal_handler r) (t_sigpending r) v (t_saved_regs r) (t_stack_page r) (t_stack_vaddr r) (t_cwd r) (t_root r) (t_fdt r).
Definition set_t_saved_regs (v : list Z) (r : thread) : thread :=
  Thread (t_context r) (t_pid r) (t_status r) (t_kernel_sp r) (t_user_sp r) (t_kernel_stack r) (t_user_stack r) (t_next r) (t_parent r) (t_waiting_pid r) (t_priority r) (t_arg r) (t_entry_func r) (t_pgd r) (t_vmas r) (t_signal_handler r) (t_sigpending r) (t_handling r) v (t_stack_page r) (t_stack_vaddr r) (t_cwd r) (t_root r) (t_fdt r).
Definition set_t_stack_page (v : Z) (r : thread) : thread :=
  Thread (t_context r) (t_pid r) (t_status r) (t_kernel_sp r) (t_user_sp r) (t_kernel_stack r) (t_user_stack r) (t_next r) (t_parent r) (t_waiting_pid r) (t_priority r) (t_arg r) (t_entry_func r) (t_pgd r) (t_vmas r) (t_signal_handler r) (t_sigpending r) (t_handling r) (t_saved_regs r) v (t_stack_vaddr r) (t_cwd r) (t_root r) (t_fdt r).
Definition set_t_stack_vaddr (v : Z) (r : thread) : thread :=
  Thread (t_context r) (t_pid r) (t_status r) (t_kernel_sp r) (t_user_sp r) (t_kernel_stack r) (t_user_stack r) (t_next r) (t_parent r) (t_waiting_pid r) (t_priority r) (t_arg r) (t_entry_func r) (t_pgd r) (t_vmas r) (t_signal_handler r) (t_sigpending r) (t_handling r) (t_saved_regs r) (t_stack_page r) v (t_cwd r) (t_root r) (t_fdt r).
Definition set_t_cwd (v : Z) (r : thread) : thread :=
  Thread (t_context r) (t_pid r) (t_status r) (t_kernel_sp r) (t_user_sp r) (t_kernel_stack r) (t_user_stack r) (t_next r) (t_parent r) (t_waiting_pid r) (t_priority r) (t_arg r) (t_entry_func r) (t_pgd r) (t_vmas r) (t_signal_handler r) (t_sigpending r) (t_handling r) (t_saved_regs r) (t_stack_page r) (t_stack_vaddr r) v (t_root r) (t_fdt r).
Definition set_t_fdt (v : list Z) (r : thread) : thread :=
  Thread (t_context r) (t_pid r) (t_status r) (t_kernel_sp r) (t_user_sp r) (t_kernel_stack r) (t_user_stack r) (t_next r) (t_parent r) (t_waiting_pid r) (t_priority r) (t_arg r) (t_entry_func r) (t_pgd r) (t_vmas r) (t_signal_handler r) (t_sigpending r) (t_handling r) (t_saved_regs r) (t_stack_page r) (t_stack_vaddr r) (t_cwd r) (t_root r) v.

(** Callbacks: the functions the kernel registers itself, and others by address. *)
Inductive callback := CB_NULL | CB_wakeup | CB_scheduler_timer | CB_periodic_timer | CB_other (fn : Z).

#[export] Instance callback_eq_dec : EqDecision callback.
Proof. solve_decision. Defined.

Record timer_node := TimerNode { tn_addr : Z; expire_time : Z; tn_callback : callback; tn_arg : Z }.
Record task_node := TaskNode { tk_addr : Z; tk_callback : callback; tk_arg : Z; tk_priority : Z }.

Definition KERNEL_STACK_SIZE : Z := 0x2000.
Definition SIZEOF_THREAD : Z := 912.
Definition SIZEOF_VM_AREA : Z := 56.
Definition SIZEOF_TIMER_NODE : Z := 40.
Definition SIZEOF_TASK_NODE : Z := 32.
Definition NR_FD : nat := 16.

Section Kernel.
Context {H : Type}.

(** [cpu] holds the registers of the running thread that [switch_to] exchanges,
    [reads] counts the readings of the clock, [hw_timer] is what was last given
    to [sbi_set_timer], [fallback_priority] is the static of [run_tasks]. *)
Record kernel := Kernel {
  k_heap : H;
  k_mem : gmap Z Z;
  k_vfs : vfs;
  threads : gmap Z thread;
  run_queue : Z;
  nr_threads : Z;
  tp : Z;
  cpu : thread_context;
  satp : Z;
  kernel_pgd : Z;
  timer_list : list timer_node;
  task_queue : list task_node;
  hw_timer : Z;
  reads : nat;
  time_freq : Z;
  fallback_priority : Z;
}.
Definition set_k_heap (v : H) (r : kernel) : kernel :=
  Kernel v (k_mem r) (k_vfs r) (threads r) (run_queue r) (nr_threads r) (tp r) (cpu r) (satp r) (kernel_pgd r) (timer_list r) (task_queue r) (hw_timer r) (reads r) (time_freq r) (fallback_priority r).
Definition set_k_mem (v : gmap Z Z) (r : kernel) : kernel :=
  Kernel (k_heap r) v (k_vfs r) (threads r) (run_queue r) (nr_threads r) (tp r) (cpu r) (satp r) (kernel_pgd r) (timer_list r) (task_queue r) (hw_timer r) (reads r) (time_freq r) (fallback_priority r).
Definition set_k_vfs (v : vfs) (r : kernel) : kernel :=
  Kernel (k_heap r) (k_mem r) v (threads r) (run_queue r) (nr_threads r) (tp r) (cpu r) (satp r) (kernel_pgd r) (timer_list r) (task_queue r) (hw_timer r) (reads r) (time_freq r) (fallback_priority r).
Definition set_threads (v : gmap Z thread) (r : kernel) : kernel :=
  Kernel (k_heap r) (k_mem r) (k_vfs r) v (run_queue r) (nr_threads r) (tp r) (cpu r) (satp r) (kernel_pgd r) (timer_list r) (task_queue r) (hw_timer r) (reads r) (time_freq r) (fallback_priority r).
Definition set_run_queue (v : Z) (r : kernel) : kernel :=
  Kernel (k_heap r) (k_mem r) (k_vfs r) (threads r) v (nr_threads r) (tp r) (cpu r) (satp r) (kernel_pgd r) (timer_list r) (task_queue r) (hw_timer r) (reads r) (time_freq r) (fallback_priority r).
Definition set_nr_threads (v : Z) (r : kernel) : kernel :=
  Kernel (k_heap r) (k_mem r) (k_vfs r) (threads r) (run_queue r) v (tp r) (cpu r) (satp r) (kernel_pgd r) (timer_list r) (task_queue r) (hw_timer r) (reads r) (time_freq r) (fallback_priority r).
Definition set_tp (v : Z) (r : kernel) : kernel :=
  Kernel (k_heap r) (k_mem r) (k_vfs r) (threads r) (run_queue r) (nr_threads r) v (cpu r) (satp r) (kernel_pgd r) (timer_list r) (task_queue r) (hw_timer r) (reads r) (time_freq r) (fallback_priority r).
Definition set_cpu (v : thread_context) (r : kernel) : kernel :=
  Kernel (k_heap r) (k_mem r) (k_vfs r) (threads r) (run_queue r) (nr_threads r) (tp r) v (satp r) (kernel_pgd r) (timer_list r) (task_queue r) (hw_timer r) (reads r) (time_freq r) (fallback_priority r).
Definition set_satp (v : Z) (r : kernel) : kernel :=
  Kernel (k_heap r) (k_mem r) (k_vfs r) (threads r) (run_queue r) (nr_threads r) (tp r) (cpu r) v (kernel_pgd r) (timer_list r) (task_queue r) (hw_timer r) (reads r) (time_freq r) (fallback_priority r).
Definition set_kernel_pgd (v : Z) (r : kernel) : kernel :=
  Kernel (k_heap r) (k_mem r) (k_vfs r) (threads r) (run_queue r) (nr_threads r) (tp r) (cpu r) (satp r) v (timer_list r) (task_queue r) (hw_timer r) (reads r) (time_freq r) (fallback_priority r).
Definition set_timer_list (v : list timer_node) (r : kernel) : kernel :=
  Kernel (k_heap r) (k_mem r) (k_vfs r) (threads r) (run_queue r) (nr_threads r) (tp r) (cpu r) (satp r) (kernel_pgd r) v (task_queue r) (hw_timer r) (reads r) (time_freq r) (fallback_priority r).
Definition set_task_queue (v : list task_node) (r : kernel) : kernel :=
  Kernel (k_heap r) (k_mem r) (k_vfs r) (threads r) (run_queue r) (nr_threads r) (tp r) (cpu r) (satp r) (kernel_pgd r) (timer_list r) v (hw_timer r) (reads r) (time_freq r) (fallback_priority r).
Definition set_hw_timer (v : Z) (r : kernel) : kernel :=
  Kernel (k_heap r) (k_mem r) (k_vfs r) (threads r) (run_queue r) (nr_threads r) (tp r) (cpu r) (satp r) (kernel_pgd r) (timer_list r) (task_queue r) v (reads r) (time_freq r) (fallback_priority r).
Definition set_reads (v : nat) (r : kernel) : kernel :=
  Kernel (k_heap r) (k_mem r) (k_vfs r) (threads r) (run_queue r) (nr_threads r) (tp r) (cpu r) (satp r) (kernel_pgd r) (timer_list r) (task_queue r) (hw_timer r) v (time_freq r) (fallback_priority r).
Definition set_time_freq (v : Z) (r : kernel) : kernel :=
  Kernel (k_heap r) (k_mem r) (k_vfs r) (threads r) (run_queue r) (nr_threads r) (tp r) (cpu r) (satp r) (kernel_pgd r) (timer_list r) (task_queue r) (hw_timer r) (reads r) v (fallback_priority r).
Definition set_fallback_priority (v : Z) (r : kernel) : kernel :=
  Kernel (k_heap r) (k_mem r) (k_vfs r) (threads r) (run_queue r) (nr_threads r) (tp r) (cpu r) (satp r) (kernel_pgd r) (timer_list r) (task_queue r) (hw_timer r) (reads r) (time_freq r) v.

Definition put_thread (p : Z) (t : thread) (k : kernel) : kernel := set_threads (<[p := t]> (threads k)) k.

(** [p->field = ...]: None when [p] is not a live thread. *)
Definition upd_thread (p : Z) (f : thread -> thread) (k : kernel) : option kernel :=
  t ← threads k !! p; Some (put_thread p (f t) k).

Definition get_cur_thread (k : kernel) : Z := tp k.

(** The parts of the state the components below work on. *)
Definition as_vm (k : kernel) : memory H := Memory (k_heap k) (k_mem k).
Definition with_vm (k : kernel) (vm : memory H) : kernel := set_k_mem (mem vm) (set_k_heap (heap vm) k).
Definition as_fs (k : kernel) : vstate H := VState (k_heap k) (k_vfs k).
Definition with_fs (k : kernel) (s : vstate H) : kernel := set_k_vfs (vst s) (set_k_heap (vheap s) k).

Context {HO : HeapOps H}.

Definition kalloc (sz : Z) (k : kernel) : option (Z * kernel) :=
  '(p, h) ← h_allocate sz (k_heap k); Some (p, set_k_heap h k).
Definition kfree (p : Z) (k : kernel) : option kernel :=
  h ← h_free p (k_heap k); Some (set_k_heap h k).

End Kernel.
Arguments kernel : clear implicits.
