(* ===== verification/Sched.v ===== *)
(** * The scheduler: [src/thread.c], [enqueue] and [schedule]

    The run queue is a ring of threads linked by their [next] field. *)

From S2P Require Import Prelude Config Heap VfsData Vma Mmu Kernel.

(** ** Definitions *)

Definition runnable (st : THREAD_STATUS) : bool :=
  bool_decide (st = THREAD_READY) || bool_decide (st = THREAD_RUNNING).

(** From [nxt] on, up to [head]: the first runnable thread, None inside when
    there is none. *)
Fixpoint find_runnable (fuel : nat) (nxt head : Z) (ths : gmap Z thread) : option (option Z) :=
  t ← ths !! nxt;
  if runnable (t_status t) then Some (Some nxt)
  else if t_next t =? head then Some None
  else match fuel with O => None | S fuel => find_runnable fuel (t_next t) head ths end.

(** [next = run_queue; while (next->pid != 0) ...] *)
Fixpoint find_idle (fuel : nat) (nxt rq : Z) (ths : gmap Z thread) : option Z :=
  t ← ths !! nxt;
  if t_pid t =? 0 then Some nxt
  else if t_next t =? rq then Some rq
  else match fuel with O => None | S fuel => find_idle fuel (t_next t) rq ths end.

Definition ring_fuel (ths : gmap Z thread) : nat := size ths.

Section Sched.
Context {H : Type}.
Notation kernel := (kernel H).

(** The queue is the one of the kernel: [*queue] is [run_queue]. *)
Definition enqueue (t : Z) (k : kernel) : option kernel :=
  if run_queue k =? 0 then upd_thread t (set_t_next t) (set_run_queue t k)
  else
    q ← threads k !! run_queue k;
    k ← upd_thread (run_queue k) (set_t_next t) k;
    upd_thread t (set_t_next (t_next q)) k.

Definition pgd_of (t : thread) (k : kernel) : Z := if t_pgd t =? 0 then kernel_pgd k else t_pgd t.

(** Saves the registers of [prev], loads those of [nxt] and moves [tp]. *)
Definition switch_to (prev nxt : Z) (k : kernel) : option kernel :=
  k ← upd_thread prev (set_t_context (cpu k)) k;
  n ← threads k !! nxt;
  Some (set_tp nxt (set_cpu (t_context n) k)).

(** The boolean tells whether another thread runs now: the caller's
    continuation then resumes when that thread is switched away from. *)
Definition schedule (k : kernel) : option (bool * kernel) :=
  if tp k =? 0 then Some (false, k) else
  prev ← threads k !! tp k;
  found ← find_runnable (ring_fuel (threads k)) (t_next prev) (t_next prev) (threads k);
  nxt ← match found with
        | Some nxt => Some nxt
        | None => find_idle (ring_fuel (threads k)) (run_queue k) (run_queue k) (threads k)
        end;
  k ← (if decide (t_status prev = THREAD_RUNNING) then upd_thread (tp k) (set_t_status THREAD_READY) k else Some k);
  k ← upd_thread nxt (set_t_status THREAD_RUNNING) k;
  if negb (tp k =? nxt) then
    n ← threads k !! nxt;
    p ← threads k !! tp k;
    let k := if negb (pgd_of n k =? pgd_of p k) then set_satp (MAKE_SATP (pgd_of n k ⊟ PAGE_OFFSET)) k else k in
    k ← switch_to (tp k) nxt k;
    Some (true, k)
  else Some (false, k).

End Sched.

(** ** Rings *)

Lemma bind_eq {A B} (x : option A) (f : A -> option B) a : x = Some a -> x ≫= f = f a.
Proof. by intros ->. Qed.

(** The threads [xs] in the order of [next], from [x] to [y]. *)
Fixpoint path (ths : gmap Z thread) (x : Z) (xs : list Z) (y : Z) : Prop :=
  match xs with
  | [] => x = y
  | z :: zs => x = z /\ exists t, ths !! x = Some t /\ path ths (t_next t) zs y
  end.

Definition ring (ths : gmap Z thread) (h : Z) (xs : list Z) : Prop :=
  NoDup xs /\ xs <> [] /\ path ths h xs h.

Lemma path_app ths x xs ys y : path ths x (xs ++ ys) y <-> exists m, path ths x xs m /\ path ths m ys y.
Proof.
  revert x. induction xs as [| z zs IH]; intros x; simpl.
  - split; [by exists x | by intros (m & -> & ?)].
  - split.
    + intros (-> & t & Ht & (m & ? & ?)%IH). exists m. split; [| done]. split; [done |]. by exists t.
    + intros (m & (-> & t & Ht & ?) & ?). split; [done |]. exists t. split; [done |]. apply IH. by exists m.
Qed.

Lemma path_elem ths x xs y a : path ths x xs y -> a ∈ xs -> exists t, ths !! a = Some t.
Proof.
  revert x. induction xs as [| z zs IH]; intros x; [by intros _ ?%elem_of_nil |].
  intros (-> & t & Ht & Hp) [-> | Ha]%elem_of_cons; [by exists t | by eapply IH].
Qed.

(** Only the [next] fields of its threads matter to a path. *)
Lemma path_ext ths ths' x xs y :
  (forall a t, a ∈ xs -> ths !! a = Some t -> exists t', ths' !! a = Some t' /\ t_next t' = t_next t) ->
  path ths x xs y -> path ths' x xs y.
Proof.
  revert x. induction xs as [| z zs IH]; intros x He; [done |]. intros (-> & t & Ht & Hp).
  destruct (He z t) as (t' & Ht' & En); [by left | done |]. split; [done |]. exists t'. split; [done |].
  rewrite En. apply IH; [| done]. intros a u Ha. apply He. by right.
Qed.

(** A ring can be read from any of its threads. *)
Lemma ring_rotate ths h xs ys x : ring ths h (xs ++ x :: ys) -> ring ths x (x :: ys ++ xs).
Proof.
  intros (Hnd & _ & (m & Hp1 & Hp2)%path_app). pose proof Hp2 as [<- _]. split_and!; [| done |].
  - change (m :: ys ++ xs) with ((m :: ys) ++ xs). by rewrite Permutation_app_comm.
  - change (m :: ys ++ xs) with ((m :: ys) ++ xs). apply path_app. by exists h.
Qed.

Lemma ring_from ths h xs x : ring ths h xs -> x ∈ xs -> exists ys, ring ths x (x :: ys) /\ xs ≡ₚ x :: ys.
Proof.
  intros Hr (l1 & l2 & ->)%list_elem_of_split. exists (l2 ++ l1). split; [by eapply ring_rotate |].
  by rewrite Permutation_app_comm.
Qed.

Lemma ring_length ths h xs : ring ths h xs -> (length xs <= ring_fuel ths)%nat.
Proof.
  intros (Hnd & _ & Hp). unfold ring_fuel. rewrite <- size_dom. rewrite <- (size_list_to_set (C := gset Z) xs Hnd).
  apply subseteq_size. intros a Ha%elem_of_list_to_set. destruct (path_elem _ _ _ _ _ Hp Ha) as [t Ht].
  apply elem_of_dom. by exists t.
Qed.

(** The status of a thread, and the first runnable one of a list. *)
Definition is_runnable (ths : gmap Z thread) (x : Z) : bool :=
  match ths !! x with Some t => runnable (t_status t) | None => false end.

Fixpoint first_runnable (ths : gmap Z thread) (xs : list Z) : option Z :=
  match xs with [] => None | x :: xs => if is_runnable ths x then Some x else first_runnable ths xs end.

Lemma find_runnable_spec fuel ths x xs h : path ths x (x :: xs) h -> h ∉ xs -> (length xs <= fuel)%nat ->
  find_runnable fuel x h ths = Some (first_runnable ths (x :: xs)).
Proof.
  revert x xs. induction fuel as [| fuel IH]; intros x xs (_ & t & Ht & Hp) Hh Hf; simpl; unfold is_runnable;
    rewrite Ht; cbn [mbind option_bind]; destruct (runnable (t_status t)); try done.
  - destruct xs; [| simpl in Hf; lia]. simpl in Hp. rewrite Hp. by rewrite Z.eqb_refl.
  - destruct xs as [| y ys]; [simpl in Hp; rewrite Hp; by rewrite Z.eqb_refl |].
    pose proof Hp as [Ey _]. destruct (Z.eqb_spec (t_next t) h) as [E | _]; [set_solver |].
    rewrite Ey in *. apply (IH y ys Hp); [set_solver | simpl in Hf; lia].
Qed.

Fixpoint first_idle (ths : gmap Z thread) (xs : list Z) : option Z :=
  match xs with
  | [] => None
  | x :: xs => if bool_decide (t_pid <$> ths !! x = Some 0) then Some x else first_idle ths xs
  end.

Lemma find_idle_spec fuel ths x xs h i : path ths x (x :: xs) h -> h ∉ xs -> (length xs <= fuel)%nat ->
  first_idle ths (x :: xs) = Some i -> find_idle fuel x h ths = Some i.
Proof.
  revert x xs. induction fuel as [| fuel IH]; intros x xs (_ & t & Ht & Hp) Hh Hf; simpl;
    rewrite Ht; cbn [mbind option_bind fmap option_fmap option_map]; destruct (Z.eqb_spec (t_pid t) 0) as [E | E];
    try (rewrite bool_decide_true by congruence; congruence);
    rewrite bool_decide_false by congruence.
  - by destruct xs; [| simpl in Hf; lia].
  - destruct xs as [| y ys]; [done |]. pose proof Hp as [Ey _]. destruct (Z.eqb_spec (t_next t) h); [set_solver |].
    rewrite Ey in *. apply (IH y ys Hp); [set_solver | simpl in Hf; lia].
Qed.

Lemma first_runnable_elem ths xs x : first_runnable ths xs = Some x ->
  x ∈ xs /\ is_runnable ths x = true /\ exists l1 l2, xs = l1 ++ x :: l2 /\ forall y, y ∈ l1 -> is_runnable ths y = false.
Proof.
  induction xs as [| z zs IH]; simpl; [done |]. destruct (is_runnable ths z) eqn:E.
  - intros [= <-]. split_and!; [by left | done |]. exists [], zs. split; [done |]. by intros y ?%elem_of_nil.
  - intros (? & ? & l1 & l2 & -> & Hl)%IH. split_and!; [by right | done |]. exists (z :: l1), l2. split; [done |].
    intros y [-> | ?]%elem_of_cons; [done | by apply Hl].
Qed.
