(* ===== verification/SchedProps.v ===== *)
(** * Properties of the scheduler *)

From S2P Require Import Prelude Config Heap VfsData Vma Mmu Kernel Sched.

Section Sched.
Context {H : Type}.
Notation kernel := (kernel H).
Implicit Types (k : kernel).

(** The run queue, read from the current thread: [xs] are the others, in the
    order of [next]. *)
Record sched_ok k (xs : list Z) : Prop := {
  so_nonnull : 0 ∉ tp k :: xs;
  so_ring : ring (threads k) (tp k) (tp k :: xs);
  so_queue : run_queue k ∈ tp k :: xs;
  so_idle : exists i t, i ∈ tp k :: xs /\ threads k !! i = Some t /\ t_pid t = 0;
  so_running x t : x ∈ tp k :: xs -> threads k !! x = Some t -> t_status t = THREAD_RUNNING -> x = tp k;
  so_satp t : threads k !! tp k = Some t -> satp k = MAKE_SATP (pgd_of t k ⊟ PAGE_OFFSET);
}.

(** The thread that runs next: the first runnable one after the current thread,
    which comes last; the idle thread when there is none. *)
Definition next_thread k (xs : list Z) (nxt : Z) : Prop :=
  match first_runnable (threads k) (xs ++ [tp k]) with
  | Some x => nxt = x
  | None => nxt ∈ tp k :: xs /\ exists t, threads k !! nxt = Some t /\ t_pid t = 0
  end.

(** What rescheduling does to the thread [x]. *)
Definition rescheduled k (nxt x : Z) (t : thread) : thread :=
  let t' := if decide (x = nxt) then set_t_status THREAD_RUNNING t
            else if decide (x = tp k /\ t_status t = THREAD_RUNNING) then set_t_status THREAD_READY t else t in
  if decide (x = tp k /\ nxt <> tp k) then set_t_context (cpu k) t' else t'.

(** Everything else is as before. *)
Definition only_switched k k' : Prop :=
  k' = set_threads (threads k') (set_tp (tp k') (set_cpu (cpu k') (set_satp (satp k') k))).

Lemma rescheduled_fields k nxt x t :
  t_next (rescheduled k nxt x t) = t_next t /\ t_pid (rescheduled k nxt x t) = t_pid t /\
  t_pgd (rescheduled k nxt x t) = t_pgd t.
Proof. unfold rescheduled. by repeat case_decide. Qed.

Lemma first_idle_exists ths x0 xs y0 : path ths x0 xs y0 ->
  (exists i t, i ∈ xs /\ ths !! i = Some t /\ t_pid t = 0) ->
  exists i t, first_idle ths xs = Some i /\ i ∈ xs /\ ths !! i = Some t /\ t_pid t = 0.
Proof.
  intros _ (i & t & Hi & Ht & Hp). induction xs as [| z zs IH]; [by apply elem_of_nil in Hi |]. cbn [first_idle].
  case_bool_decide as E.
  - destruct (ths !! z) as [u |] eqn:Ez; [| done]. injection E as E. exists z, u. split_and!; [done | by left | done | done].
  - apply elem_of_cons in Hi as [<- | Hi]; [rewrite Ht in E; simpl in E; congruence |].
    destruct (IH Hi) as (j & u & ? & ? & ? & ?). exists j, u. split_and!; try done. by right.
Qed.

(** The candidate the loops of [schedule] find. *)
Lemma schedule_candidate k xs : sched_ok k xs -> exists prev nxt,
  threads k !! tp k = Some prev /\ next_thread k xs nxt /\ nxt ∈ tp k :: xs /\
  find_runnable (ring_fuel (threads k)) (t_next prev) (t_next prev) (threads k) = Some (first_runnable (threads k) (xs ++ [tp k])) /\
  match first_runnable (threads k) (xs ++ [tp k]) with
  | Some x => Some x
  | None => find_idle (ring_fuel (threads k)) (run_queue k) (run_queue k) (threads k)
  end = Some nxt.
Proof.
  intros [Hnz Hr Hq Hid _ _]. pose proof Hr as (Hnd & _ & (_ & prev & Hprev & Hp)).
  pose proof (ring_length _ _ _ Hr) as Hlen.
  assert (Hr' : exists y ys, xs ++ [tp k] = y :: ys /\ t_next prev = y /\ path (threads k) y (y :: ys) y).
  { pose proof (ring_rotate (threads k) (tp k) [] xs (tp k) Hr) as _. destruct xs as [| y ys].
    - exists (tp k), []. simpl in Hp. rewrite Hp. split_and!; [done | done |]. split; [done |]. exists prev. split; [done | done].
    - exists y, (ys ++ [tp k]). pose proof Hp as [Ey _]. split_and!; [done | done |].
      destruct (ring_rotate (threads k) (tp k) [tp k] ys y Hr) as (_ & _ & Hpath). done. }
  destruct Hr' as (y & ys & E & En & Hpath).
  assert (Hnd' : NoDup (y :: ys)) by (rewrite <- E, Permutation_app_comm; done).
  exists prev. apply NoDup_cons in Hnd' as [Hy _].
  assert (Hl : (length ys <= ring_fuel (threads k))%nat).
  { apply (f_equal length) in E. rewrite length_app in E. simpl in *. lia. }
  rewrite En, (find_runnable_spec _ _ y ys y Hpath Hy Hl), <- E. unfold next_thread.
  destruct (first_runnable (threads k) (xs ++ [tp k])) as [x |] eqn:Ef.
  - exists x. split_and!; try done. apply first_runnable_elem in Ef as (Hx & _). set_solver.
  - destruct (ring_from _ _ _ _ Hr Hq) as (zs & Hrq & Hperm).
    destruct (first_idle_exists (threads k) (run_queue k) (run_queue k :: zs) (run_queue k)) as (i & t & Ei & Hi & Ht & Hpid);
      [apply Hrq | by setoid_rewrite <- Hperm |].
    exists i. assert (i ∈ tp k :: xs) by (by rewrite Hperm). split_and!; try done; [by exists t |].
    pose proof Hrq as (Hndq & _ & Hpq). apply NoDup_cons in Hndq as [Hnq _].
    apply (find_idle_spec _ _ _ zs); try done. pose proof (ring_length _ _ _ Hrq). simpl in *. lia.
Qed.

(** The same ring read from another of its threads. *)
Lemma ring_next k xs nxt : ring (threads k) (tp k) (tp k :: xs) -> nxt ∈ tp k :: xs ->
  exists xs', ring (threads k) nxt (nxt :: xs') /\ nxt :: xs' ≡ₚ tp k :: xs /\
    (forall a b, tp k :: xs = a ++ nxt :: b -> xs' = b ++ a).
Proof.
  intros Hr (a & b & E)%list_elem_of_split. exists (b ++ a). rewrite E in Hr |- *. split; [by eapply ring_rotate | split].
  - rewrite app_comm_cons. apply Permutation_app_comm.
  - intros a' b' E'. pose proof Hr as (Hnd & _).
    assert (a = a' /\ b = b') as [-> ->]; [| done].
    revert a' E' Hnd. clear. induction a as [| z a IH]; intros [| z' a'] E Hnd; simpl in *.
    + by injection E.
    + simplify_eq E; intros; subst. apply NoDup_cons in Hnd as [Hn _]. set_solver.
    + simplify_eq E; intros; subst. apply NoDup_cons in Hnd as [Hn _]. set_solver.
    + injection E as Ez E. subst z'. apply NoDup_cons in Hnd as [_ Hnd]. destruct (IH a' E Hnd) as [-> ->]. done.
Qed.

(** Rescheduling keeps the well-formedness, whatever thread of the queue is chosen. *)
Lemma sched_ok_next k xs nxt xs' n k' : sched_ok k xs -> ring (threads k) nxt (nxt :: xs') ->
  nxt :: xs' ≡ₚ tp k :: xs -> threads k !! nxt = Some n ->
  (forall x, threads k' !! x = rescheduled k nxt x <$> threads k !! x) ->
  tp k' = nxt -> run_queue k' = run_queue k -> kernel_pgd k' = kernel_pgd k ->
  satp k' = MAKE_SATP (pgd_of n k ⊟ PAGE_OFFSET) -> sched_ok k' xs'.
Proof.
  intros [Hnz Hr Hq Hid Hrun Hsatp] Hr' Hperm Hn Hk Et Eq Ek Es. split; rewrite ?Et, ?Eq.
  - by rewrite Hperm.
  - destruct Hr' as (Hnd & _ & Hp). split_and!; [done | done |]. eapply path_ext; [| exact Hp].
    intros a t _ Ha. exists (rescheduled k nxt a t). rewrite Hk, Ha. split; [done |]. apply rescheduled_fields.
  - by rewrite Hperm.
  - destruct Hid as (i & t & Hi & Ht & Hp). exists i, (rescheduled k nxt i t). rewrite Hperm, Hk, Ht. split_and!; [done | done |].
    destruct (rescheduled_fields k nxt i t) as (_ & -> & _). done.
  - intros x t Hx Ht Hst. rewrite Hk in Ht. destruct (threads k !! x) as [u |] eqn:Eu; [| done]. simpl in Ht.
    injection Ht as <-. rewrite Hperm in Hx. destruct (decide (x = nxt)) as [| Hne]; [done |]. exfalso.
    assert (Hs : t_status (rescheduled k nxt x u) =
      if decide (x = tp k /\ t_status u = THREAD_RUNNING) then THREAD_READY else t_status u).
    { unfold rescheduled. rewrite (decide_False (P := x = nxt)) by done. by repeat case_decide. }
    rewrite Hs in Hst. case_decide as Hc; [done |]. apply Hc. split; [| done]. by apply (Hrun x u).
  - intros t Ht. rewrite Hk, Hn in Ht. simpl in Ht. injection Ht as <-. rewrite Es. unfold pgd_of.
    destruct (rescheduled_fields k nxt nxt n) as (_ & _ & ->). by rewrite Ek.
Qed.

(** The statuses [schedule] leaves. *)
Definition marked k (nxt x : Z) (t : thread) : thread :=
  if decide (x = nxt) then set_t_status THREAD_RUNNING t
  else if decide (x = tp k /\ t_status t = THREAD_RUNNING) then set_t_status THREAD_READY t else t.

Lemma mark_spec k nxt prev n : threads k !! tp k = Some prev -> threads k !! nxt = Some n ->
  exists k2, (forall B (f : kernel -> option B),
      (k1 ← (if decide (t_status prev = THREAD_RUNNING) then upd_thread (tp k) (set_t_status THREAD_READY) k else Some k);
       k2 ← upd_thread nxt (set_t_status THREAD_RUNNING) k1; f k2) = f k2) /\
    k2 = set_threads (threads k2) k /\ forall x, threads k2 !! x = marked k nxt x <$> threads k !! x.
Proof.
  intros Hprev Hn.
  set (t1 := if decide (t_status prev = THREAD_RUNNING) then <[tp k := set_t_status THREAD_READY prev]> (threads k) else threads k).
  assert (E1 : (if decide (t_status prev = THREAD_RUNNING) then upd_thread (tp k) (set_t_status THREAD_READY) k else Some k) =
               Some (set_threads t1 k)).
  { subst t1. unfold upd_thread. rewrite Hprev. case_decide; [done | by destruct k]. }
  assert (Hk1 : forall x, t1 !! x = (fun t => if decide (x = tp k /\ t_status t = THREAD_RUNNING) then set_t_status THREAD_READY t else t) <$> threads k !! x).
  { intros x. subst t1. destruct (decide (x = tp k)) as [-> | Hx].
    - rewrite Hprev. simpl. case_decide; [rewrite lookup_insert_eq, decide_True by done; done |].
      by rewrite Hprev, decide_False by tauto.
    - assert (E : forall t, (if decide (x = tp k /\ t_status t = THREAD_RUNNING) then set_t_status THREAD_READY t else t) = t)
        by (intros; by rewrite decide_False by tauto).
      case_decide; rewrite ?lookup_insert_ne by done; destruct (threads k !! x); simpl; by rewrite ?E. }
  clearbody t1.
  assert (Hn1 : exists n1, t1 !! nxt = Some n1 /\ set_t_status THREAD_RUNNING n1 = set_t_status THREAD_RUNNING n).
  { rewrite Hk1, Hn. eexists. split; [reflexivity |]. cbv beta. destruct (decide (nxt = tp k /\ t_status n = THREAD_RUNNING)); reflexivity. }
  destruct Hn1 as (n1 & Hn1 & En1).
  assert (E2 : upd_thread nxt (set_t_status THREAD_RUNNING) (set_threads t1 k) =
               Some (set_threads (<[nxt := set_t_status THREAD_RUNNING n]> t1) k)).
  { unfold upd_thread. cbn [threads set_threads]. rewrite Hn1. cbn. by rewrite En1. }
  eexists. split_and!; [intros B f; rewrite (bind_eq _ _ _ E1), (bind_eq _ _ _ E2); reflexivity | reflexivity |].
  intros x. cbn. unfold marked.
  destruct (decide (x = nxt)) as [-> | Hne]; [by rewrite lookup_insert_eq, Hn |]. by rewrite lookup_insert_ne, Hk1.
Qed.

(** What is left of [schedule] once the statuses are changed: the switch itself. *)
Lemma switch_spec k k2 nxt prev n : threads k !! tp k = Some prev -> threads k !! nxt = Some n -> tp k <> nxt ->
  satp k = MAKE_SATP (pgd_of prev k ⊟ PAGE_OFFSET) ->
  k2 = set_threads (threads k2) k -> (forall x, threads k2 !! x = marked k nxt x <$> threads k !! x) ->
  exists k', (n ← threads k2 !! nxt; p ← threads k2 !! tp k2;
      let k := if negb (pgd_of n k2 =? pgd_of p k2) then set_satp (MAKE_SATP (pgd_of n k2 ⊟ PAGE_OFFSET)) k2 else k2 in
      k ← switch_to (tp k) nxt k; Some (true, k)) = Some (true, k') /\
    (forall x, threads k' !! x = rescheduled k nxt x <$> threads k !! x) /\
    tp k' = nxt /\ cpu k' = t_context n /\ satp k' = MAKE_SATP (pgd_of n k ⊟ PAGE_OFFSET) /\
    only_switched k k'.
Proof.
  intros Hprev Hn Hne Hsatp E2 Hk2. set (t2 := threads k2) in *. clearbody t2. subst k2. cbn [tp set_threads].
  rewrite !Hk2, Hprev, Hn. cbn [mbind option_bind fmap option_fmap option_map].
  assert (Hpg : forall x t, pgd_of (marked k nxt x t) (set_threads t2 k) = pgd_of t k)
    by (intros; unfold pgd_of, marked; by repeat case_decide).
  rewrite !Hpg. set (k3 := if negb _ then _ else _).
  assert (H3 : k3 = set_satp (MAKE_SATP (pgd_of n k ⊟ PAGE_OFFSET)) (set_threads t2 k)).
  { subst k3. destruct (Z.eqb_spec (pgd_of n k) (pgd_of prev k)) as [E |]; [| done]. rewrite E, <- Hsatp. by destruct k. }
  rewrite H3. clear k3 H3. unfold switch_to, upd_thread. cbn [tp threads set_threads set_satp]. rewrite Hk2, Hprev.
  cbn [mbind option_bind fmap option_fmap option_map put_thread threads set_threads set_satp].
  rewrite lookup_insert_ne, Hk2, Hn by done. cbn [mbind option_bind fmap option_fmap option_map].
  eexists. split; [reflexivity |]. cbn. split.
  - intros x. unfold rescheduled. fold (marked k nxt x). destruct (decide (x = tp k)) as [-> | Hx].
    + rewrite lookup_insert_eq, Hprev. simpl. f_equal.
      by rewrite (decide_True (P := tp k = tp k /\ nxt <> tp k)) by (split; congruence).
    + rewrite lookup_insert_ne, Hk2 by done. destruct (threads k !! x); [| done]. simpl.
      by rewrite (decide_False (P := x = tp k /\ nxt <> tp k)) by tauto.
  - split_and!; try done. unfold marked. by rewrite decide_True.
Qed.

Lemma schedule_spec k xs : sched_ok k xs ->
  exists sw k' nxt xs', schedule k = Some (sw, k') /\ next_thread k xs nxt /\ nxt ∈ tp k :: xs /\
    tp k' = nxt /\ (sw = true <-> nxt <> tp k) /\ sched_ok k' xs' /\ nxt :: xs' ≡ₚ tp k :: xs /\
    (forall a b, tp k :: xs = a ++ nxt :: b -> xs' = b ++ a) /\
    (forall x, threads k' !! x = rescheduled k nxt x <$> threads k !! x) /\
    (nxt <> tp k -> Some (cpu k') = t_context <$> threads k !! nxt) /\
    only_switched k k'.
Proof.
  intros Hok. destruct (schedule_candidate k xs Hok) as (prev & nxt & Hprev & Hnt & Hin & Efr & Eid).
  pose proof Hok as [Hnz Hr Hq Hid Hrun Hsatp].
  destruct (ring_next k xs nxt Hr Hin) as (xs' & Hr' & Hperm & Hrot).
  assert (Hn : exists n, threads k !! nxt = Some n) by (destruct Hr as (_ & _ & Hp); by eapply path_elem).
  destruct Hn as [n Hn]. unfold schedule.
  destruct (Z.eqb_spec (tp k) 0) as [E0 |]; [rewrite E0 in Hnz; set_solver |].
  rewrite (bind_eq _ _ _ Hprev), (bind_eq _ _ _ Efr), (bind_eq _ _ _ Eid).
  destruct (mark_spec k nxt prev n Hprev Hn) as (k2 & E2 & Ek2 & Hk2).
  rewrite E2.
  assert (Et : tp k2 = tp k) by (by rewrite Ek2).
  destruct (Z.eqb_spec (tp k2) nxt) as [Heq | Hne]; cbv beta iota delta [negb].
  - assert (Hres : forall x, threads k2 !! x = rescheduled k nxt x <$> threads k !! x).
    { intros x. rewrite Hk2. destruct (threads k !! x); [| done]. simpl. unfold rescheduled. f_equal.
      by rewrite (decide_False (P := x = tp k /\ nxt <> tp k)) by (intros [_ ?]; congruence). }
    exists false, k2, nxt, xs'. split_and!; try done; try (by rewrite Ek2); try congruence.
    { split; [done | congruence]. }
    eapply (sched_ok_next k xs nxt xs' n k2); try done; try (by rewrite Ek2).
    rewrite Ek2. cbn. apply Hsatp. congruence.
  - rewrite Et in Hne. destruct (switch_spec k k2 nxt prev n) as (k' & E' & Hres & Et' & Ec & Es & Ef); try done; [by apply Hsatp |].
    exists true, k', nxt, xs'. split; [exact E' |]. split_and!; try done; try congruence.
    + eapply (sched_ok_next k xs nxt xs' n k'); try done; by rewrite Ef.
    + intros _. by rewrite Hn, Ec.
Qed.

(** The threads that are not runnable are never chosen while one is. *)
Lemma next_thread_runnable k xs nxt t : next_thread k xs nxt -> t ∈ xs ++ [tp k] -> is_runnable (threads k) t = true ->
  first_runnable (threads k) (xs ++ [tp k]) = Some nxt.
Proof.
  unfold next_thread. intros Hn Ht Hr. destruct (first_runnable _ _) eqn:E; [by rewrite Hn |]. exfalso.
  clear Hn. induction (xs ++ [tp k]) as [| x l IH]; [by apply elem_of_nil in Ht |]. simpl in E.
  destruct (is_runnable (threads k) x) eqn:Ex; [done |]. apply elem_of_cons in Ht as [-> | Ht]; [congruence | by apply IH].
Qed.

(** ** The properties *)

(** C11: schedule always finds a thread: the first runnable one after the current
    thread in the run queue, the current one last and the idle thread when there
    is none.  That thread runs then, alone; the registers and the page table are
    its own, those of the thread that ran are saved, and the queue is as before,
    read from the new thread. *)
Theorem schedule_round_robin k xs : sched_ok k xs ->
  exists sw k' nxt xs', schedule k = Some (sw, k') /\ next_thread k xs nxt /\ nxt ∈ tp k :: xs /\
    tp k' = nxt /\ (sw = true <-> nxt <> tp k) /\ sched_ok k' xs' /\ nxt :: xs' ≡ₚ tp k :: xs /\
    (forall a b, tp k :: xs = a ++ nxt :: b -> xs' = b ++ a) /\
    (forall x, threads k' !! x = rescheduled k nxt x <$> threads k !! x) /\
    (nxt <> tp k -> Some (cpu k') = t_context <$> threads k !! nxt) /\
    only_switched k k'.
Proof. apply schedule_spec. Qed.

(** Between two calls of [schedule] the current thread may change anything that
    keeps the queue well-formed, in its order, and the thread [t] runnable. *)
Definition works (t : Z) k k' : Prop :=
  tp k' = tp k /\ (forall xs, sched_ok k xs -> sched_ok k' xs) /\
  (is_runnable (threads k) t = true -> is_runnable (threads k') t = true).

(** [waits t n k]: from [k] on, [schedule] is called [n] times, and none gives
    the processor to [t]. *)
Inductive waits (t : Z) : nat -> kernel -> Prop :=
| waits_O k : waits t O k
| waits_S n k sw k1 k2 : schedule k = Some (sw, k1) -> tp k1 <> t -> works t k1 k2 -> waits t n k2 -> waits t (S n) k.

Lemma rescheduled_runnable k nxt t u : runnable (t_status u) = true -> runnable (t_status (rescheduled k nxt t u)) = true.
Proof. unfold rescheduled. by repeat case_decide. Qed.

Lemma waits_bound t n k l1 l2 : sched_ok k (l1 ++ t :: l2) -> is_runnable (threads k) t = true ->
  waits t n k -> (n <= length l1)%nat.
Proof.
  intros Hok Hr Hw. revert l1 l2 Hok Hr. induction Hw as [k | n k sw k1 k2 Hs Hne (Et & Hk & Hrt) _ IH]; intros l1 l2 Hok Hr; [lia |].
  destruct (schedule_spec k _ Hok) as (sw' & k1' & nxt & xs' & Hs' & Hn & _ & Htp & _ & Hok1 & _ & Hrot & Hth & _).
  assert (k1' = k1) as -> by congruence.
  assert (Ef : first_runnable (threads k) ((l1 ++ t :: l2) ++ [tp k]) = Some nxt).
  { apply (next_thread_runnable _ _ _ t); [done | set_solver | done]. }
  assert (Hl : exists a b, l1 = a ++ nxt :: b).
  { apply list_elem_of_split. clear -Ef Hr Hne Htp. revert Ef. rewrite <- app_assoc. subst nxt.
    induction l1 as [| x l1 IH]; simpl; [rewrite Hr; congruence |]. destruct (is_runnable (threads k) x).
    - intros [= ->]. by left.
    - intros E. right. by apply IH. }
  destruct Hl as (a & b & ->). specialize (Hrot (tp k :: a) (b ++ t :: l2)).
  rewrite <- !app_assoc in Hrot. specialize (Hrot eq_refl). subst xs'.
  apply Hk in Hok1. apply (IH b (l2 ++ tp k :: a)) in Hok1.
  - rewrite length_app. simpl. lia.
  - apply Hrt. unfold is_runnable in *. rewrite Hth. destruct (threads k !! t); [| done]. by apply rescheduled_runnable.
Qed.

(** C12: no thread starves: while a thread stays runnable and the queue keeps its
    order, schedule passes it over at most as often as there are threads between
    the current one and it. *)
Theorem schedule_bounded_waiting k l1 t l2 : sched_ok k (l1 ++ t :: l2) -> is_runnable (threads k) t = true ->
  forall n, waits t n k -> (n <= length l1)%nat.
Proof. intros Hok Hr n. by eapply waits_bound. Qed.

End Sched.

(** ** A queue of three threads, for the witnesses *)

(** The idle thread 100 runs, 200 waits and 300 is ready. *)
Definition demo_thread (pid : Z) (st : THREAD_STATUS) (nxt pgd : Z) : thread :=
  Thread (Context_ pid pid []) pid st 0 0 0 0 nxt 0 (-1) (-1) 0 0 pgd [] (replicate 32 0) 0 0 [] 0 0 0 0 (replicate NR_FD 0).

Definition demo_kernel {H} (h : H) : kernel H :=
  Kernel h ∅ vfs0 (list_to_map [(100, demo_thread 0 THREAD_RUNNING 200 4096); (200, demo_thread 1 THREAD_WAITING 300 4096);
                                (300, demo_thread 2 THREAD_READY 100 8192)])
    100 3 100 (Context_ 7 7 []) (MAKE_SATP (4096 ⊟ PAGE_OFFSET)) 4096 [] [] (2 ^ 64 - 1) 0 10000000 (-1).

Lemma demo_kernel_ok {H} (h : H) : sched_ok (demo_kernel h) [200; 300].
Proof.
  split.
  - set_solver.
  - split_and!; [repeat constructor; set_solver | done |]. repeat (split; [reflexivity |]; eexists; split; [reflexivity |]). reflexivity.
  - by left.
  - exists 100, (demo_thread 0 THREAD_RUNNING 200 4096). split_and!; [by left | reflexivity | reflexivity].
  - intros x t Hx. rewrite !elem_of_cons in Hx. destruct Hx as [-> | [-> | [-> | []%elem_of_nil]]]; [done | |]; intros [= <-]; discriminate.
  - intros t [= <-]. reflexivity.
Qed.

Lemma schedule_round_robin_witness :
  sched_ok (demo_kernel tt) [200; 300] /\ exists sw k', schedule (demo_kernel tt) = Some (sw, k') /\ tp k' = 300.
Proof.
  split; [apply demo_kernel_ok |].
  destruct (schedule_round_robin (demo_kernel tt) [200; 300] (demo_kernel_ok tt)) as (sw & k' & nxt & xs' & E & Hn & _ & Ht & _).
  exists sw, k'. split; [exact E |]. rewrite Ht. exact Hn.
Defined.

Lemma schedule_bounded_waiting_witness : sched_ok (demo_kernel tt) ([200] ++ 300 :: []) /\
  is_runnable (threads (demo_kernel tt)) 300 = true /\ (forall n, waits 300 n (demo_kernel tt) -> (n <= 1)%nat).
Proof.
  split_and!; [apply demo_kernel_ok | reflexivity |].
  apply (schedule_bounded_waiting (demo_kernel tt) [200] 300 []); [apply demo_kernel_ok | reflexivity].
Defined.
