(* ===== verification/Timer.v ===== *)
(** * The timer and the task queue: [src/timer.c], [src/task.c]

    The list of timers in the order of their expiry and the queue of tasks in
    the order of their priority; each node is an object of the heap. *)

From S2P Require Import Prelude Config Heap VfsData Vma Kernel Sched.

(** What [rdtime] returns, reading after reading. *)
Class Clock := { time_at : nat -> Z }.

Definition TIMER_OFF : Z := 2 ^ 64 - 1.  (* -1ULL *)

(** ** Lists *)

(** The loop over [timer_list], and [list_add_tail] before the node it stops at. *)
Fixpoint insert_timer (n : timer_node) (l : list timer_node) : list timer_node :=
  match l with
  | [] => [n]
  | x :: l' => if expire_time n <? expire_time x then n :: l else x :: insert_timer n l'
  end.

(** The [while] loop of [add_task], [curr] first. *)
Fixpoint insert_after_task (n curr : task_node) (l : list task_node) : list task_node :=
  match l with
  | x :: l' => if tk_priority n <=? tk_priority x then curr :: insert_after_task n x l' else curr :: n :: l
  | [] => [curr; n]
  end.

Definition insert_task (n : task_node) (q : list task_node) : list task_node :=
  match q with
  | [] => [n]
  | h :: t => if tk_priority h <? tk_priority n then n :: q else insert_after_task n h t
  end.

Section Timer.
Context {H : Type} {HO : HeapOps H} {HC : Clock}.
Notation kernel := (kernel H).

Definition rdtime (k : kernel) : Z * kernel := (time_at (reads k), set_reads (S (reads k)) k).

Definition sbi_set_timer (t : Z) (k : kernel) : kernel := set_hw_timer t k.

Definition get_time_in_seconds (k : kernel) : option (Z * kernel) :=
  let '(t, k) := rdtime k in
  if time_freq k =? 0 then None else Some (t / time_freq k, k).

Definition add_timer_ticks (cb : callback) (arg ticks : Z) (k : kernel) : option (Z * kernel) :=
  let '(current_time, k) := rdtime k in
  let expire := current_time ⊞ ticks in
  '(p, k) ← kalloc SIZEOF_TIMER_NODE k;
  if p =? 0 then Some (-1, k) else
  let l := insert_timer (TimerNode p expire cb arg) (timer_list k) in
  let k := set_timer_list l k in
  Some (0, match l with
           | x :: _ => if tn_addr x =? p then sbi_set_timer expire k else k
           | [] => k
           end).

(** [(unsigned long)sec] sign-extends its [int]. *)
Definition add_timer (cb : callback) (arg sec : Z) (k : kernel) : option kernel :=
  '(_, k) ← add_timer_ticks cb arg (u64 sec ⊠ time_freq k) k; Some k.

Definition add_timer_ms (cb : callback) (arg ms : Z) (k : kernel) : option kernel :=
  '(_, k) ← add_timer_ticks cb arg ((u64 ms ⊠ time_freq k) / 1000) k; Some k.

Definition scheduler_timer_callback (k : kernel) : option kernel :=
  '(_, k) ← add_timer_ticks CB_scheduler_timer 0 (time_freq k / 32) k; Some k.

(** [ENABLE_PERIODIC_TIMER] is defined. *)
Definition periodic_timer_callback (k : kernel) : option kernel := add_timer CB_periodic_timer 0 2 k.

(** [freq] is what [fdt_get_timebase_frequency] finds. *)
Definition timer_init (freq : Z) (k : kernel) : option kernel :=
  let k := set_timer_list [] k in
  let k := set_time_freq freq k in
  let k := sbi_set_timer TIMER_OFF k in
  k ← add_timer CB_periodic_timer 0 2 k;
  '(_, k) ← add_timer_ticks CB_scheduler_timer 0 (time_freq k / 32) k; Some k.

Definition add_task (cb : callback) (arg priority : Z) (k : kernel) : option kernel :=
  '(p, k) ← kalloc SIZEOF_TASK_NODE k;
  if p =? 0 then Some k
  else Some (set_task_queue (insert_task (TaskNode p cb arg priority) (task_queue k)) k).

(** The loop of [handle_timer_interrupt]: every pass removes the first timer. *)
Fixpoint expire_loop (l : list timer_node) (k : kernel) : option kernel :=
  match l with
  | [] => Some k
  | head_node :: rest =>
      let '(current_time, k) := rdtime k in
      if expire_time head_node <=? current_time then
        let k := set_timer_list rest k in
        k ← (if decide (tn_callback head_node = CB_NULL) then Some k
             else add_task (tn_callback head_node) (tn_arg head_node) 10 k);
        k ← kfree (tn_addr head_node) k;
        expire_loop rest k
      else Some k
  end.

Definition handle_timer_interrupt (k : kernel) : option (bool * kernel) :=
  k ← expire_loop (timer_list k) k;
  schedule (sbi_set_timer (match timer_list k with n :: _ => expire_time n | [] => TIMER_OFF end) k).

(** The priority of the task that runs, of the current thread or static. *)
Definition task_priority (t : Z) (k : kernel) : option Z :=
  if t =? 0 then Some (fallback_priority k) else t_priority <$> threads k !! t.

Definition set_task_priority (t v : Z) (k : kernel) : option kernel :=
  if t =? 0 then Some (set_fallback_priority v k) else upd_thread t (set_t_priority v) k.

(** [call] is what calling a callback does, the interrupts taken meanwhile included. *)
Fixpoint run_tasks (fuel : nat) (call : callback -> Z -> kernel -> option kernel) (current : Z) (k : kernel) : option kernel :=
  match task_queue k with
  | [] => Some k
  | task :: rest =>
      prio ← task_priority current k;
      if tk_priority task <=? prio then Some k else
      match fuel with
      | O => None
      | S fuel =>
          k ← set_task_priority current (tk_priority task) (set_task_queue rest k);
          k ← call (tk_callback task) (tk_arg task) k;
          k ← set_task_priority current prio k;
          k ← kfree (tk_addr task) k;
          run_tasks fuel call current k
      end
  end.

(** ** The callbacks of the kernel *)

Definition thread_wakeup_callback (arg : Z) (k : kernel) : option kernel :=
  t ← threads k !! arg;
  if decide (t_status t = THREAD_WAITING) then upd_thread arg (set_t_status THREAD_READY) k else Some k.

(** [other] is what calling a function outside this development does. *)
Definition run_callback (other : Z -> Z -> kernel -> option kernel) (cb : callback) (arg : Z) (k : kernel) : option kernel :=
  match cb with
  | CB_NULL => None
  | CB_wakeup => thread_wakeup_callback arg k
  | CB_scheduler_timer => scheduler_timer_callback k
  | CB_periodic_timer => periodic_timer_callback k
  | CB_other fn => other fn arg k
  end.

(** [Some (-1)], or the thread waits and another one runs: it returns 0 when it
    is scheduled again. *)
Definition thread_sleep (usec : Z) (k : kernel) : option (Z * bool * kernel) :=
  let current := tp k in
  if current =? 0 then Some (-1, false, k) else
  k ← upd_thread current (set_t_status THREAD_WAITING) k;
  '(r, k) ← add_timer_ticks CB_wakeup current ((usec ⊠ time_freq k) / 1000000) k;
  if negb (r =? 0) then k ← upd_thread current (set_t_status THREAD_READY) k; Some (-1, false, k)
  else '(sw, k) ← schedule k; Some (0, sw, k).

End Timer.
