(* ===== verification/TimerProps.v ===== *)
(** * Properties of the timers and of the task queue

    [fires] is what expired timers do to the heap and to the queue of tasks,
    [tasks_ran] what the tasks do one after the other; the timer interrupt and
    [run_tasks] do exactly that, and a sleeping thread wakes. *)

From S2P Require Import Prelude Config Heap VfsData Vma Mmu MmuProps HeapInst Allocator AllocProps Kernel Sched SchedProps Timer.

(** ** Sorted insertion *)

Lemma StronglySorted_insert {A} (R : A -> A -> Prop) n l1 l2 :
  StronglySorted R (l1 ++ l2) -> Forall (fun x => R x n) l1 -> Forall (R n) l2 -> StronglySorted R (l1 ++ n :: l2).
Proof.
  induction l1 as [| x l1 IH]; simpl; intros Hs H1 H2; [by constructor |].
  inversion_clear Hs as [| ? ? Hs' Hx]. inversion_clear H1. constructor; [by apply IH |].
  rewrite Forall_app in Hx |- *. destruct Hx. split; [done |]. by constructor.
Qed.

Definition earlier (x y : timer_node) : Prop := expire_time x <= expire_time y.
Definition before (x y : task_node) : Prop := tk_priority y <= tk_priority x.

Lemma insert_timer_spec n l : StronglySorted earlier l -> exists l1 l2, l = l1 ++ l2 /\ insert_timer n l = l1 ++ n :: l2 /\
  Forall (fun x => expire_time x <= expire_time n) l1 /\ Forall (fun x => expire_time n < expire_time x) l2.
Proof.
  induction l as [| x l IH]; intros Hs; [by exists [], [] |]. inversion_clear Hs as [| ? ? Hs' Hx]. simpl.
  destruct (Z.ltb_spec (expire_time n) (expire_time x)) as [Hlt | Hge].
  - exists [], (x :: l). split_and!; [done | done | done |]. constructor; [done |].
    eapply Forall_impl; [exact Hx |]. unfold earlier. intros; lia.
  - destruct (IH Hs') as (l1 & l2 & -> & -> & H1 & H2). exists (x :: l1), l2. split_and!; try done. by constructor.
Qed.

Lemma insert_after_task_spec n c l : StronglySorted before (c :: l) -> tk_priority n <= tk_priority c ->
  exists l1 l2, l = l1 ++ l2 /\ insert_after_task n c l = c :: l1 ++ n :: l2 /\
    Forall (fun x => tk_priority n <= tk_priority x) (c :: l1) /\ Forall (fun x => tk_priority x < tk_priority n) l2.
Proof.
  revert c. induction l as [| x l IH]; intros c Hs Hc; [exists [], []; repeat constructor; done |].
  inversion_clear Hs as [| ? ? Hs' _]. simpl. destruct (Z.leb_spec (tk_priority n) (tk_priority x)) as [Hle | Hlt].
  - destruct (IH x Hs' Hle) as (l1 & l2 & -> & -> & H1 & H2). exists (x :: l1), l2. split_and!; try done. by constructor.
  - exists [], (x :: l). split_and!; [done | done | by repeat constructor |]. inversion_clear Hs' as [| ? ? _ Hx].
    constructor; [done |]. eapply Forall_impl; [exact Hx |]. unfold before. intros; lia.
Qed.

Lemma insert_task_spec n q : StronglySorted before q -> exists l1 l2, q = l1 ++ l2 /\ insert_task n q = l1 ++ n :: l2 /\
  Forall (fun x => tk_priority n <= tk_priority x) l1 /\ Forall (fun x => tk_priority x < tk_priority n) l2.
Proof.
  destruct q as [| h t]; intros Hs; [by exists [], [] |]. simpl. destruct (Z.ltb_spec (tk_priority h) (tk_priority n)) as [Hlt | Hge].
  - exists [], (h :: t). split_and!; [done | done | done |]. inversion_clear Hs as [| ? ? _ Hx]. constructor; [done |].
    eapply Forall_impl; [exact Hx |]. unfold before. intros; lia.
  - destruct (insert_after_task_spec n h t Hs Hge) as (l1 & l2 & -> & -> & H1 & H2). by exists (h :: l1), l2.
Qed.

Lemma insert_timer_sorted n l : StronglySorted earlier l -> StronglySorted earlier (insert_timer n l).
Proof.
  intros Hs. destruct (insert_timer_spec n l Hs) as (l1 & l2 & -> & -> & H1 & H2). apply StronglySorted_insert; [done | done |].
  eapply Forall_impl; [exact H2 |]. unfold earlier. intros; lia.
Qed.

Lemma insert_task_sorted n q : StronglySorted before q -> StronglySorted before (insert_task n q).
Proof.
  intros Hs. destruct (insert_task_spec n q Hs) as (l1 & l2 & -> & -> & H1 & H2). apply StronglySorted_insert; [done | done |].
  eapply Forall_impl; [exact H2 |]. unfold before. intros; lia.
Qed.

Lemma insert_task_perm n q : StronglySorted before q -> insert_task n q ≡ₚ n :: q.
Proof. intros Hs. destruct (insert_task_spec n q Hs) as (l1 & l2 & -> & -> & _). by rewrite Permutation_middle. Qed.

Lemma insert_timer_perm n l : StronglySorted earlier l -> insert_timer n l ≡ₚ n :: l.
Proof. intros Hs. destruct (insert_timer_spec n l Hs) as (l1 & l2 & -> & -> & _). by rewrite Permutation_middle. Qed.

(** ** The invariant *)

Section Timer.
Context {H : Type} {HO : HeapOps H} {HS : HeapSpec H} {HC : Clock}.
Notation kernel := (kernel H).
Implicit Types (k : kernel).

Definition nodes (ts : list timer_node) (q : list task_node) : list Z := (tn_addr <$> ts) ++ (tk_addr <$> q).

Definition next_expiry (ts : list timer_node) : Z := match ts with n :: _ => expire_time n | [] => TIMER_OFF end.

(** The timers and the tasks are sorted, and their nodes are distinct live
    objects of the heap. *)
Record queues_ok k (m : gmap Z (Z * Z)) : Prop := {
  qo_owns : owns (k_heap k) m;
  qo_timers : StronglySorted earlier (timer_list k);
  qo_tasks : StronglySorted before (task_queue k);
  qo_nodup : NoDup (nodes (timer_list k) (task_queue k));
  qo_live a : a ∈ nodes (timer_list k) (task_queue k) -> exists n, m !! a = Some (n, 1);
}.

(** The hardware timer is set to the first expiry. *)
Definition armed k : Prop := hw_timer k = next_expiry (timer_list k).

(** Only the heap, the queues and the timer changed. *)
Definition only_queues k k' : Prop :=
  k' = set_k_heap (k_heap k') (set_timer_list (timer_list k') (set_task_queue (task_queue k')
         (set_hw_timer (hw_timer k') (set_reads (reads k') k)))).

Lemma only_queues_trans k1 k2 k3 : only_queues k1 k2 -> only_queues k2 k3 -> only_queues k1 k3.
Proof. unfold only_queues. intros -> ->. by destruct k1. Qed.

Lemma only_queues_sched k k' xs : only_queues k k' -> sched_ok k xs -> sched_ok k' xs.
Proof. intros -> []. by split. Qed.

Lemma kalloc_spec k m sz : owns (k_heap k) m -> 0 < sz <= MAX_ALLOC_SIZE ->
  (kalloc sz k = Some (0, k) /\ h_allocate sz (k_heap k) = Some (0, k_heap k)) \/
  exists p h n, kalloc sz k = Some (p, set_k_heap h k) /\ p <> 0 /\ sz <= n /\ m !! p = None /\ owns h (<[p := (n, 1)]> m).
Proof.
  intros Ho Hsz. unfold kalloc. destruct (owns_allocate _ _ _ Ho Hsz) as [E | (p & h & n & E & Hn & Hp & Ho')]; rewrite E.
  - left. by destruct k.
  - right. exists p, h, n. split_and!; try done. destruct (owns_bounds _ _ p n 1 Ho'); [by rewrite lookup_insert_eq | lia].
Qed.

Lemma kalloc_answers sz k p k' : kalloc sz k = Some (p, k') -> h_allocate sz (k_heap k) = Some (p, k_heap k').
Proof. unfold kalloc. destruct (h_allocate sz (k_heap k)) as [[q h] |]; [| done]. by intros [= <- <-]. Qed.

Lemma nodes_fresh k m p : queues_ok k m -> m !! p = None -> p ∉ nodes (timer_list k) (task_queue k).
Proof. intros [] Hp Hin. destruct (qo_live0 p Hin). congruence. Qed.

Lemma queues_ok_ext k k' m : queues_ok k m -> k_heap k' = k_heap k -> timer_list k' = timer_list k ->
  task_queue k' = task_queue k -> queues_ok k' m.
Proof. intros [] E1 E2 E3. split; by rewrite ?E1, ?E2, ?E3. Qed.

(** A new node in one of the queues. *)
Lemma queues_ok_grow k m ts q h p n : queues_ok k m -> m !! p = None -> owns h (<[p := (n, 1)]> m) ->
  StronglySorted earlier ts -> StronglySorted before q -> nodes ts q ≡ₚ p :: nodes (timer_list k) (task_queue k) ->
  queues_ok (set_k_heap h (set_timer_list ts (set_task_queue q k))) (<[p := (n, 1)]> m).
Proof.
  intros Hq Hp Ho Hts Hqs Hperm. pose proof (nodes_fresh _ _ _ Hq Hp) as Hfr. destruct Hq. split; cbn; try done.
  - rewrite Hperm. by constructor.
  - intros a. rewrite Hperm, elem_of_cons. destruct (decide (a = p)) as [-> | Ha].
    + intros _. exists n. by rewrite lookup_insert_eq.
    + intros [-> | Hin]; [done |]. rewrite lookup_insert_ne by done. by apply qo_live0.
Qed.

Lemma insert_timer_head n l : (forall x, x ∈ l -> tn_addr x <> tn_addr n) ->
  match insert_timer n l with x :: _ => tn_addr x = tn_addr n <-> x = n | [] => False end.
Proof.
  destruct l as [| x l]; intros Hne; simpl; [done |]. destruct (_ <? _); [done |].
  assert (tn_addr x <> tn_addr n) by (apply Hne; by left). split; congruence.
Qed.

Lemma add_timer_ticks_ok k m cb arg ticks : queues_ok k m -> armed k ->
  exists r k', add_timer_ticks cb arg ticks k = Some (r, k') /\ only_queues k k' /\ armed k' /\ reads k' = S (reads k) /\
    task_queue k' = task_queue k /\
    ((r = -1 /\ timer_list k' = timer_list k /\ queues_ok k' m /\ h_allocate SIZEOF_TIMER_NODE (k_heap k) = Some (0, k_heap k) /\
        k_heap k' = k_heap k) \/
     (r = 0 /\ exists p n, m !! p = None /\ (p <> 0 /\ h_allocate SIZEOF_TIMER_NODE (k_heap k) = Some (p, k_heap k')) /\ queues_ok k' (<[p := (n, 1)]> m) /\
        timer_list k' = insert_timer (TimerNode p (time_at (reads k) ⊞ ticks) cb arg) (timer_list k))).
Proof.
  intros Hq Ha. unfold add_timer_ticks, rdtime. set (k1 := set_reads (S (reads k)) k).
  assert (Hq1 : queues_ok k1 m) by (by eapply queues_ok_ext).
  destruct (kalloc_spec k1 m SIZEOF_TIMER_NODE) as [[E Ef] | (p & h & n & E & Hp0 & _ & Hp & Ho)];
    [apply Hq1 | vm_compute; split; congruence | |]; pose proof (kalloc_answers _ _ _ _ E) as Eh; rewrite E; cbn [mbind option_bind].
  - exists (-1), k1. split_and!; try done; left; by split_and!.
  - destruct (Z.eqb_spec p 0); [done |]. set (nd := TimerNode p (time_at (reads k) ⊞ ticks) cb arg).
    assert (Hfr : forall x, x ∈ timer_list k -> tn_addr x <> p).
    { intros x Hx <-. destruct (qo_live _ _ Hq (tn_addr x)); [| congruence]. unfold nodes. apply elem_of_app. left. by apply list_elem_of_fmap_2. }
    pose proof (insert_timer_head nd (timer_list k) Hfr) as Hhd.
    assert (Hq' : forall hw, queues_ok (set_hw_timer hw (set_timer_list (insert_timer nd (timer_list k)) (set_k_heap h k1))) (<[p := (n, 1)]> m)).
    { intros hw. eapply queues_ok_ext; [apply (queues_ok_grow k m (insert_timer nd (timer_list k)) (task_queue k) h p n); try done | done..].
      - apply insert_timer_sorted, Hq.
      - apply Hq.
      - unfold nodes. by rewrite insert_timer_perm by apply Hq. }
    cbn [timer_list set_timer_list set_k_heap k1 set_reads].
    destruct (insert_timer nd (timer_list k)) as [| x l] eqn:Ei; [done |]. cbn [tn_addr].
    destruct (Z.eqb_spec (tn_addr x) p) as [Ex | Ex]; eexists 0, _; (split; [reflexivity |]).
    + assert (x = nd) as -> by (by apply Hhd). split_and!; try done. right. split; [done |]. exists p, n.
      split_and!; [done | done | exact Eh | apply Hq' | symmetry; exact Ei].
    + split_and!; try done; [| right; split; [done |]; exists p, n; split_and!; [done | done | exact Eh | | symmetry; exact Ei]].
      * unfold armed in *. cbn. rewrite Ha. destruct (timer_list k) as [| y l']; simpl in Ei; [by injection Ei as <- <- |].
        destruct (_ <? _); injection Ei as <- <-; [done | by simpl].
      * eapply queues_ok_ext; [apply (Hq' 0) | done..].
Qed.

Lemma add_task_ok k m cb arg prio : queues_ok k m ->
  exists p k' m', add_task cb arg prio k = Some k' /\ only_queues k k' /\ queues_ok k' m' /\ m ⊆ m' /\
    timer_list k' = timer_list k /\ hw_timer k' = hw_timer k /\ reads k' = reads k /\
    (forall a, a ∈ nodes (timer_list k') (task_queue k') -> a ∈ nodes (timer_list k) (task_queue k) \/ m !! a = None) /\
    h_allocate SIZEOF_TASK_NODE (k_heap k) = Some (p, k_heap k') /\
    ((p = 0 /\ k' = k /\ m' = m) \/
     (p <> 0 /\ m !! p = None /\ (exists n, m' = <[p := (n, 1)]> m) /\ task_queue k' = insert_task (TaskNode p cb arg prio) (task_queue k))).
Proof.
  intros Hq. unfold add_task.
  destruct (kalloc_spec k m SIZEOF_TASK_NODE) as [[E Ef] | (p & h & n & E & Hp0 & _ & Hp & Ho)];
    [apply Hq | vm_compute; split; congruence | |]; pose proof (kalloc_answers _ _ _ _ E) as Eh; rewrite E; cbn [mbind option_bind].
  - exists 0, k, m. split_and!; try done; [by destruct k | auto | by left].
  - destruct (Z.eqb_spec p 0) as [|_]; [done |]. set (nd := TaskNode p cb arg prio).
    set (k' := set_task_queue (insert_task nd (task_queue k)) (set_k_heap h k)).
    assert (Hperm : nodes (timer_list k) (insert_task nd (task_queue k)) ≡ₚ p :: nodes (timer_list k) (task_queue k)).
    { unfold nodes. rewrite insert_task_perm by apply Hq. cbn. by rewrite Permutation_middle. }
    exists p, k', (<[p := (n, 1)]> m). split_and!; try done.
    + eapply queues_ok_ext; [apply (queues_ok_grow k m (timer_list k) (insert_task nd (task_queue k)) h p n); try done | done..].
      * apply Hq.
      * apply insert_task_sorted, Hq.
    + by apply insert_subseteq.
    + intros a. cbn. rewrite Hperm, elem_of_cons. intros [-> |]; [by right | by left].
    + right. split_and!; [done | done | by exists n | done].
Qed.

(** Freeing a node that left its queue. *)
Lemma kfree_node k m a n : queues_ok k m -> a ∉ nodes (timer_list k) (task_queue k) -> m !! a = Some (n, 1) ->
  exists k', kfree a k = Some k' /\ k' = set_k_heap (k_heap k') k /\ h_free a (k_heap k) = Some (k_heap k') /\ queues_ok k' (delete a m) /\
    timer_list k' = timer_list k /\ task_queue k' = task_queue k /\ hw_timer k' = hw_timer k /\ reads k' = reads k.
Proof.
  intros [Ho Hts Hqs Hnd Hl] Ha Hm. unfold kfree. destruct (owns_free _ _ _ _ Ho Hm) as (h & -> & Ho'). cbn [mbind option_bind].
  exists (set_k_heap h k). split_and!; try done. split; try done. intros b Hb. cbn in Hb. destruct (Hl b Hb) as [n' Hn'].
  exists n'. rewrite lookup_delete_ne; [done | by intros <-].
Qed.

(** ** The timer interrupt *)

(** What the timers [fired] do to the allocator, to the objects it owns and to
    the queue of tasks, one after the other: the callback gets a node behind the
    tasks of priority 10 and above; if the allocator has none it is lost; then
    the node of the timer is freed. *)
Inductive fires : list timer_node -> list timer_node ->
    H -> gmap Z (Z * Z) -> list task_node -> H -> gmap Z (Z * Z) -> list task_node -> Prop :=
  | fires_none h m q : fires [] [] h m q h m q
  | fires_null n fired lost h m q h1 h2 m2 q2 :
      tn_callback n = CB_NULL -> h_free (tn_addr n) h = Some h1 ->
      fires fired lost h1 (delete (tn_addr n) m) q h2 m2 q2 ->
      fires (n :: fired) lost h m q h2 m2 q2
  | fires_lost n fired lost h m q h1 h2 m2 q2 :
      tn_callback n <> CB_NULL -> h_allocate SIZEOF_TASK_NODE h = Some (0, h) -> h_free (tn_addr n) h = Some h1 ->
      fires fired lost h1 (delete (tn_addr n) m) q h2 m2 q2 ->
      fires (n :: fired) (n :: lost) h m q h2 m2 q2
  | fires_task n fired lost h m ql qr p s h1 h2 h3 m3 q3 :
      tn_callback n <> CB_NULL -> h_allocate SIZEOF_TASK_NODE h = Some (p, h1) -> p <> 0 -> m !! p = None ->
      Forall (fun x => 10 <= tk_priority x) ql -> Forall (fun x => tk_priority x < 10) qr ->
      h_free (tn_addr n) h1 = Some h2 ->
      fires fired lost h2 (delete (tn_addr n) (<[p := (s, 1)]> m)) (ql ++ TaskNode p (tn_callback n) (tn_arg n) 10 :: qr) h3 m3 q3 ->
      fires (n :: fired) lost h m (ql ++ qr) h3 m3 q3.

(** [fired] are the timers the clock has passed, reading after reading, and
    the first of [rest] is not one. *)
Definition fired_at (r : nat) (fired rest : list timer_node) : Prop :=
  (forall i n, fired !! i = Some n -> expire_time n <= time_at (r + i)) /\
  match rest with n :: _ => time_at (r + length fired) < expire_time n | [] => True end.

(** One timer: its callback is queued, or lost, and its node freed. *)
Lemma fire_ok x l k m : timer_list k = x :: l -> queues_ok k m ->
  let k2 := set_timer_list l (set_reads (S (reads k)) k) in
  exists k3 k4 m4, (if decide (tn_callback x = CB_NULL) then Some k2 else add_task (tn_callback x) (tn_arg x) 10 k2) = Some k3 /\
    kfree (tn_addr x) k3 = Some k4 /\ only_queues k k4 /\ queues_ok k4 m4 /\ timer_list k4 = l /\ reads k4 = S (reads k) /\
    forall fired lost h' m' q', fires fired lost (k_heap k4) m4 (task_queue k4) h' m' q' ->
      exists lost', fires (x :: fired) lost' (k_heap k) m (task_queue k) h' m' q'.
Proof.
  intros El Hq k2. pose proof Hq as [Ho Hts Hqs Hnd Hlv]. unfold nodes in Hnd, Hlv. rewrite El in *.
  destruct (Hlv (tn_addr x)) as [nx Hnx]; [by left |].
  apply NoDup_cons in Hnd as [Hx Hnd]. inversion_clear Hts as [| ? ? Hts' _].
  assert (Hq2 : queues_ok k2 m) by (split; try done; intros a Ha; apply Hlv; by right).
  destruct (decide (tn_callback x = CB_NULL)) as [Hc | Hc].
  - destruct (kfree_node k2 m (tn_addr x) nx Hq2) as (k4 & E4 & Ek4 & Ef & Hq4 & Et4 & Eq4 & _ & Er4); [done | done |].
    exists k2, k4, (delete (tn_addr x) m). rewrite Et4, Er4. split_and!; try done; [by rewrite Ek4 |]. intros fired lost h' m' q' Hf.
    exists lost. rewrite Eq4 in Hf. by eapply fires_null.
  - destruct (add_task_ok k2 m (tn_callback x) (tn_arg x) 10 Hq2) as (p & k3 & m3 & E & Hoq & Hq3 & Hm & Et & _ & Er & Hin & Ea & Hp).
    destruct (kfree_node k3 m3 (tn_addr x) nx Hq3) as (k4 & E4 & Ek4 & Ef & Hq4 & Et4 & Eq4 & _ & Er4);
      [intros [Ha | Ha]%Hin; [done | congruence] | by eapply lookup_weaken |].
    exists k3, k4, (delete (tn_addr x) m3). rewrite Et4, Er4, Et, Er. split_and!; try done.
    { apply (only_queues_trans k k2); [done |]. apply (only_queues_trans k2 k3); [done |]. by rewrite Ek4. }
    intros fired lost h' m' q' Hf. rewrite Eq4 in Hf. destruct Hp as [(-> & -> & ->) | (Hp0 & Hp & [n ->] & Eq)].
    + exists (x :: lost). by eapply fires_lost.
    + exists lost. destruct (insert_task_spec (TaskNode p (tn_callback x) (tn_arg x) 10) (task_queue k) Hqs) as (ql & qr & Eql & Ei & H1 & H2).
      change (task_queue k2) with (task_queue k) in Eq. rewrite Eq, Ei in Hf. rewrite Eql. by eapply fires_task.
Qed.

Lemma expire_loop_ok l k m : timer_list k = l -> queues_ok k m ->
  exists fired rest lost k' m', expire_loop l k = Some k' /\ only_queues k k' /\ queues_ok k' m' /\
    l = fired ++ rest /\ timer_list k' = rest /\ fired_at (reads k) fired rest /\
    fires fired lost (k_heap k) m (task_queue k) (k_heap k') m' (task_queue k').
Proof.
  revert k m. induction l as [| x l IH]; intros k m El Hq; cbn [expire_loop].
  - exists [], [], [], k, m. split_and!; try done; [by destruct k | constructor].
  - unfold rdtime. destruct (Z.leb_spec (expire_time x) (time_at (reads k))) as [Hle | Hlt].
    2:{ exists [], (x :: l), [], (set_reads (S (reads k)) k), m.
        split_and!; try done; [by eapply queues_ok_ext | split; [done | cbn; by rewrite Nat.add_0_r] | constructor]. }
    destruct (fire_ok x l k m El Hq) as (k3 & k4 & m4 & -> & E4 & Hoq & Hq4 & Et4 & Er4 & Hstep). cbn [mbind option_bind].
    rewrite E4. cbn [mbind option_bind]. destruct (IH k4 m4 Et4 Hq4) as (fired & rest & lost & k' & m' & E' & Hoq' & Hq' & -> & Et' & [Hf Hr] & Hfs).
    destruct (Hstep _ _ _ _ _ Hfs) as [lost' Hfs'].
    exists (x :: fired), rest, lost', k', m'. split_and!; try done; [by apply (only_queues_trans k k4) |].
    split; [| simpl length; rewrite Nat.add_succ_r, <- Nat.add_succ_l; rewrite Er4 in Hr; exact Hr].
    intros [| i] n; simpl; [intros [= <-]; by rewrite Nat.add_0_r |]. intros Hn. rewrite Nat.add_succ_r, <- Nat.add_succ_l.
    rewrite Er4 in Hf. by apply Hf.
Qed.

Lemma handle_timer_interrupt_ok k m xs : queues_ok k m -> sched_ok k xs ->
  exists fired rest lost k1 m1 sw k', handle_timer_interrupt k = Some (sw, k') /\ schedule k1 = Some (sw, k') /\
    timer_list k = fired ++ rest /\ fired_at (reads k) fired rest /\
    only_queues k k1 /\ queues_ok k1 m1 /\ armed k1 /\ timer_list k1 = rest /\
    fires fired lost (k_heap k) m (task_queue k) (k_heap k1) m1 (task_queue k1).
Proof.
  intros Hq Hs. destruct (expire_loop_ok (timer_list k) k m eq_refl Hq) as
    (fired & rest & lost & k0 & m' & E & Hoq & Hq' & El & Et & Hf & Hfs).
  set (k1 := sbi_set_timer (next_expiry (timer_list k0)) k0).
  assert (Hoq1 : only_queues k k1) by (by apply (only_queues_trans k k0)).
  destruct (schedule_spec k1 xs) as (sw & k' & _ & _ & Es & _); [by apply (only_queues_sched k) |].
  exists fired, rest, lost, k1, m', sw, k'. split_and!; try done.
  - unfold handle_timer_interrupt. rewrite E. exact Es.
  - by eapply queues_ok_ext.
Qed.

(** ** Running the tasks *)

(** The tasks of the kernel itself: they wake a thread or rearm the timer. *)
Definition kernel_task k (x : task_node) : Prop :=
  match tk_callback x with
  | CB_wakeup => is_Some (threads k !! tk_arg x)
  | CB_scheduler_timer | CB_periodic_timer => True
  | _ => False
  end.

(** The thread [t] at [a] once the tasks [ran] ran. *)
Definition woken (ran : list task_node) (a : Z) (t : thread) : thread :=
  if bool_decide (t_status t = THREAD_WAITING /\ Exists (fun x => tk_callback x = CB_wakeup /\ tk_arg x = a) ran)
  then set_t_status THREAD_READY t else t.

(** The ticks after which a timer of the kernel fires again: 1/32 of a second
    and two seconds. *)
Definition rearms (k : kernel) (cb : callback) : option Z :=
  match cb with
  | CB_scheduler_timer => Some (time_freq k / 32)
  | CB_periodic_timer => Some ((2 * time_freq k) mod 2 ^ 64)
  | _ => None
  end.

(** What a callback of the kernel does: it wakes a thread that waits, or sets
    its timer again behind those that expire no later; without memory for the
    node the timer stops. *)
Inductive callback_effect : callback -> Z -> kernel -> gmap Z (Z * Z) -> kernel -> gmap Z (Z * Z) -> Prop :=
  | ce_wakes a t k m : threads k !! a = Some t -> t_status t = THREAD_WAITING ->
      callback_effect CB_wakeup a k m (set_threads (<[a := set_t_status THREAD_READY t]> (threads k)) k) m
  | ce_awake a t k m : threads k !! a = Some t -> t_status t <> THREAD_WAITING -> callback_effect CB_wakeup a k m k m
  | ce_stops cb a ticks k m : rearms k cb = Some ticks ->
      h_allocate SIZEOF_TIMER_NODE (k_heap k) = Some (0, k_heap k) ->
      callback_effect cb a k m (set_reads (S (reads k)) k) m
  | ce_rearms cb a ticks k m p s h l1 l2 : rearms k cb = Some ticks ->
      h_allocate SIZEOF_TIMER_NODE (k_heap k) = Some (p, h) -> p <> 0 -> m !! p = None ->
      timer_list k = l1 ++ l2 ->
      let expire := (time_at (reads k) + ticks) mod 2 ^ 64 in
      Forall (fun x => expire_time x <= expire) l1 -> Forall (fun x => expire < expire_time x) l2 ->
      let l := l1 ++ TimerNode p expire cb 0 :: l2 in
      callback_effect cb a k m
        (set_hw_timer (next_expiry l) (set_timer_list l (set_k_heap h (set_reads (S (reads k)) k)))) (<[p := (s, 1)]> m).

(** The priority of the thread [cur], or of the boot processor. *)
Definition prioritised (cur v : Z) (k : kernel) : kernel :=
  if cur =? 0 then set_fallback_priority v k else set_threads (alter (set_t_priority v) cur (threads k)) k.

(** The tasks [ran] run one after the other: each leaves the queue, raises the
    priority of the thread to its own, has its effect, gives the thread its
    priority back and its node to the allocator. *)
Inductive tasks_ran (cur prio : Z) : list task_node -> kernel -> gmap Z (Z * Z) -> kernel -> gmap Z (Z * Z) -> Prop :=
  | tasks_none k m : tasks_ran cur prio [] k m k m
  | tasks_one x ran q k m k2 m2 h k' m' :
      task_queue k = x :: q ->
      callback_effect (tk_callback x) (tk_arg x) (prioritised cur (tk_priority x) (set_task_queue q k)) m k2 m2 ->
      h_free (tk_addr x) (k_heap k2) = Some h ->
      tasks_ran cur prio ran (set_k_heap h (prioritised cur prio k2)) (delete (tk_addr x) m2) k' m' ->
      tasks_ran cur prio (x :: ran) k m k' m'.

(** A timer that rearms itself changes nothing but the timers. *)
Lemma rearm_ok k m cb ticks x b : queues_ok k m -> armed k -> tk_callback x <> CB_wakeup -> rearms k cb = Some ticks ->
  exists k' m', ('(_, k) ← add_timer_ticks cb 0 ticks k; Some k) = Some k' /\ queues_ok k' m' /\ m ⊆ m' /\ armed k' /\
    task_queue k' = task_queue k /\ tp k' = tp k /\ fallback_priority k' = fallback_priority k /\
    (forall a, a ∈ tn_addr <$> timer_list k' -> a ∈ tn_addr <$> timer_list k \/ m !! a = None) /\
    (forall a, threads k' !! a = woken [x] a <$> threads k !! a) /\ callback_effect cb b k m k' m'.
Proof.
  intros Hq Ha Hx Hr.
  assert (Hw : forall a, threads k !! a = woken [x] a <$> threads k !! a).
  { intros a. destruct (threads k !! a) as [u |]; [| done]. simpl. unfold woken. rewrite bool_decide_false; [done |].
    rewrite Exists_cons, Exists_nil. intros [_ [[? _] | []]]. done. }
  destruct (add_timer_ticks_ok k m cb 0 ticks Hq Ha) as
    (r & k' & -> & Hoq & Ha' & Er & Eq & [(_ & Et & Hq' & Ea & Eh) | (_ & p & n & Hp & [Hp0 Ea] & Hq' & Et)]); cbn [mbind option_bind];
    assert (Eth : threads k' = threads k /\ tp k' = tp k /\ fallback_priority k' = fallback_priority k) by (by rewrite Hoq);
    destruct Eth as (Eth & Etp & Ef).
  - exists k', m. rewrite Eth. split_and!; try done; [rewrite Et; auto |].
    assert (k' = set_reads (S (reads k)) k) as ->; [| by eapply ce_stops].
    etrans; [exact Hoq |]. rewrite Eh, Eq, Er, Ha', Et, <- Ha. by destruct k.
  - exists k', (<[p := (n, 1)]> m). rewrite Eth. split_and!; try done; [by apply insert_subseteq | |].
    { rewrite Et. intros c. rewrite insert_timer_perm by apply Hq. cbn. rewrite elem_of_cons. intros [-> |]; auto. }
    destruct (insert_timer_spec (TimerNode p (time_at (reads k) ⊞ ticks) cb 0) (timer_list k) (qo_timers _ _ Hq)) as (l1 & l2 & El & Ei & H1 & H2).
    rewrite Ei in Et. set (l := l1 ++ _ :: l2) in Et.
    assert (k' = set_hw_timer (next_expiry l) (set_timer_list l (set_k_heap (k_heap k') (set_reads (S (reads k)) k)))) as ->.
    { etrans; [exact Hoq |]. rewrite Ha', Et, Eq, Er. by destruct k. }
    by apply (ce_rearms cb b ticks k m p n (k_heap k') l1 l2).
Qed.

Lemma run_callback_ok other k m x : queues_ok k m -> armed k -> kernel_task k x ->
  exists k' m', run_callback other (tk_callback x) (tk_arg x) k = Some k' /\ queues_ok k' m' /\ m ⊆ m' /\ armed k' /\
    task_queue k' = task_queue k /\ tp k' = tp k /\ fallback_priority k' = fallback_priority k /\
    (forall a, a ∈ tn_addr <$> timer_list k' -> a ∈ tn_addr <$> timer_list k \/ m !! a = None) /\
    (forall a, threads k' !! a = woken [x] a <$> threads k !! a) /\ callback_effect (tk_callback x) (tk_arg x) k m k' m'.
Proof.
  intros Hq Ha Hk. unfold kernel_task in Hk. destruct (tk_callback x) eqn:Ec; try done; cbn [run_callback].
  - destruct Hk as [t Ht]. unfold thread_wakeup_callback. rewrite Ht. cbn [mbind option_bind].
    assert (Hw : forall a u, threads k !! a = Some u ->
      (a = tk_arg x /\ t_status u = THREAD_WAITING) \/ woken [x] a u = u).
    { intros a u _. unfold woken. case_bool_decide as Hb; [| by right]. left. destruct Hb as [? Hb].
      apply Exists_cons in Hb as [[_ ?] | Hb]; [done | by apply Exists_nil in Hb]. }
    case_decide as Hst.
    + exists (put_thread (tk_arg x) (set_t_status THREAD_READY t) k), m. unfold upd_thread. rewrite Ht.
      split_and!; try done; [by eapply queues_ok_ext | auto | | by apply ce_wakes]. intros a. cbn. destruct (decide (a = tk_arg x)) as [-> | Hne].
      * rewrite lookup_insert_eq, Ht. simpl. unfold woken. rewrite bool_decide_true; [done |]. split; [done |].
        apply Exists_cons. by left.
      * rewrite lookup_insert_ne by done. destruct (threads k !! a) as [u |] eqn:Eu; [| done]. simpl.
        destruct (Hw a u Eu) as [[? _] | ->]; done.
    + exists k, m. split_and!; try done; [auto | | by eapply ce_awake]. intros a. destruct (threads k !! a) as [u |] eqn:Eu; [| done]. simpl.
      destruct (Hw a u Eu) as [[-> ?] | ->]; [congruence | done].
  - by apply rearm_ok; rewrite ?Ec.
  - by apply rearm_ok; rewrite ?Ec.
Qed.

Lemma woken_same ran a t :
  ~ (t_status t = THREAD_WAITING /\ Exists (fun x => tk_callback x = CB_wakeup /\ tk_arg x = a) ran) -> woken ran a t = t.
Proof. intros Hn. unfold woken. by rewrite bool_decide_false. Qed.

Lemma woken_ready ran a t : t_status t = THREAD_WAITING ->
  Exists (fun x => tk_callback x = CB_wakeup /\ tk_arg x = a) ran -> woken ran a t = set_t_status THREAD_READY t.
Proof. intros Hw He. unfold woken. by rewrite bool_decide_true. Qed.

Lemma woken_cons x ran a t : woken (x :: ran) a t = woken ran a (woken [x] a t).
Proof.
  destruct (decide (t_status t = THREAD_WAITING)) as [Hw | Hw].
  2:{ rewrite (woken_same [x]), !woken_same by tauto. done. }
  destruct (decide (tk_callback x = CB_wakeup /\ tk_arg x = a)) as [Hx | Hx].
  - rewrite (woken_ready (x :: ran)), (woken_ready [x]) by (try done; apply Exists_cons; by left).
    by rewrite woken_same by (intros [? _]; done).
  - rewrite (woken_same [x]) by (rewrite Exists_cons, Exists_nil; tauto). unfold woken.
    rewrite (bool_decide_ext _ (t_status t = THREAD_WAITING /\ Exists (fun x => tk_callback x = CB_wakeup /\ tk_arg x = a) ran)); [done |].
    rewrite Exists_cons. tauto.
Qed.

Lemma woken_nil a t : woken [] a t = t.
Proof. apply woken_same. rewrite Exists_nil. tauto. Qed.

(** The priority field of [cur] is written. *)
Definition with_priority (cur v a : Z) (t : thread) : thread :=
  if bool_decide (a = cur /\ cur <> 0) then set_t_priority v t else t.

Lemma set_task_priority_ok cur v k prio : task_priority cur k = Some prio ->
  exists k', set_task_priority cur v k = Some k' /\ k' = prioritised cur v k /\ task_priority cur k' = Some v /\ tp k' = tp k /\
    k_heap k' = k_heap k /\ timer_list k' = timer_list k /\ task_queue k' = task_queue k /\ hw_timer k' = hw_timer k /\
    (forall a, threads k' !! a = with_priority cur v a <$> threads k !! a) /\
    (forall a t, threads k !! a = Some t -> with_priority cur prio a t = t).
Proof.
  unfold task_priority, set_task_priority. destruct (Z.eqb_spec cur 0) as [-> | Hc]; intros Hp.
  - exists (set_fallback_priority v k). split_and!; try done.
    + intros a. cbn. destruct (threads k !! a); [| done]. simpl. unfold with_priority. by rewrite bool_decide_false by tauto.
    + intros a t _. unfold with_priority. by rewrite bool_decide_false by tauto.
  - unfold upd_thread. destruct (threads k !! cur) as [t |] eqn:Et; [| done]. injection Hp as Hp. cbn [mbind option_bind].
    exists (put_thread cur (set_t_priority v t) k). split_and!; try done.
    + unfold prioritised. destruct (Z.eqb_spec cur 0); [done |]. unfold put_thread. f_equal.
      apply map_eq. intros a. destruct (decide (a = cur)) as [-> | Ha]; [by rewrite lookup_insert_eq, lookup_alter_eq, Et | by rewrite lookup_insert_ne, lookup_alter_ne].
    + cbn. by rewrite lookup_insert_eq.
    + intros a. cbn. unfold with_priority. destruct (decide (a = cur)) as [-> | Ha].
      * by rewrite lookup_insert_eq, Et, bool_decide_true.
      * rewrite lookup_insert_ne, bool_decide_false by (try done; tauto). by destruct (threads k !! a).
    + intros a u Hu. unfold with_priority. case_bool_decide as Hb; [| done]. destruct Hb as [-> _].
      assert (u = t) as -> by congruence. rewrite <- Hp. by destruct t.
Qed.

(** A callback between the two writes of the priority. *)
Lemma woken_priority cur prio v x a t : with_priority cur prio a t = t ->
  with_priority cur prio a (woken [x] a (with_priority cur v a t)) = woken [x] a t.
Proof.
  intros <-. unfold with_priority. case_bool_decide; [| done]. unfold woken. cbn [t_status set_t_priority]. by case_bool_decide.
Qed.

(** [call] runs the callback of [x] when the priority of the task is the current
    one; at another priority it may do anything. *)
Definition calls_at (other call : callback -> Z -> kernel -> option kernel) (cur : Z) (x : task_node) : Prop :=
  forall k, task_priority cur k = Some (tk_priority x) -> call (tk_callback x) (tk_arg x) k = other (tk_callback x) (tk_arg x) k.

(** One pass of the loop. *)
Lemma run_task_ok other call k m x rest cur prio : calls_at (run_callback other) call cur x -> queues_ok k m -> armed k -> Forall (kernel_task k) (task_queue k) ->
  task_queue k = x :: rest -> task_priority cur k = Some prio ->
  exists k1 k2 k3 k4 m4, set_task_priority cur (tk_priority x) (set_task_queue rest k) = Some k1 /\
    call (tk_callback x) (tk_arg x) k1 = Some k2 /\ set_task_priority cur prio k2 = Some k3 /\
    kfree (tk_addr x) k3 = Some k4 /\
    (forall ran k' m', tasks_ran cur prio ran k4 m4 k' m' -> tasks_ran cur prio (x :: ran) k m k' m') /\ queues_ok k4 m4 /\ armed k4 /\ Forall (kernel_task k4) rest /\ task_queue k4 = rest /\
    tp k4 = tp k /\ task_priority cur k4 = Some prio /\ forall a, threads k4 !! a = woken [x] a <$> threads k !! a.
Proof.
  intros Hcall Hq Ha Hks El Hp.
  pose proof Hq as [Ho Hts Hqs Hnd Hlv]. unfold nodes in Hnd, Hlv. rewrite El in Hqs, Hnd, Hlv, Hks. cbn [fmap list_fmap] in Hnd, Hlv.
  rewrite <- Permutation_middle in Hnd. apply NoDup_cons in Hnd as [Hx Hnd].
  destruct (Hlv (tk_addr x)) as [nx Hnx]; [rewrite <- Permutation_middle; by left |].
  inversion_clear Hqs as [| ? ? Hqs' _]. inversion Hks as [| ? ? Hkx Hkr]. subst.
  assert (Hq0 : queues_ok (set_task_queue rest k) m).
  { split; try done. intros b Hb. apply Hlv. rewrite <- Permutation_middle. by right. }
  destruct (set_task_priority_ok cur (tk_priority x) (set_task_queue rest k) prio Hp) as
    (k1 & E1 & Ek1 & Hp1 & Etp1 & Eh1 & Et1 & Eq1 & Ehw1 & Hth1 & Hid).
  assert (Hq1 : queues_ok k1 m) by (by eapply queues_ok_ext).
  assert (Ha1 : armed k1) by (unfold armed; rewrite Ehw1, Et1; exact Ha).
  assert (Hks1 : forall y, kernel_task k y -> kernel_task k1 y).
  { intros y. unfold kernel_task. destruct (tk_callback y); try done. rewrite Hth1. cbn. by rewrite fmap_is_Some. }
  destruct (run_callback_ok other k1 m x Hq1 Ha1 (Hks1 _ Hkx)) as (k2 & m2 & E2 & Hq2 & Hm2 & Ha2 & Eq2 & Etp2 & Ef2 & Hin2 & Hth2 & Hce).
  rewrite <- (Hcall k1 Hp1) in E2.
  assert (Hp2 : task_priority cur k2 = Some (tk_priority x)).
  { rewrite <- Hp1. unfold task_priority. destruct (cur =? 0); [by rewrite Ef2 |]. rewrite Hth2.
    destruct (threads k1 !! cur) as [t |]; [| done]. cbn. unfold woken. by case_bool_decide. }
  destruct (set_task_priority_ok cur prio k2 (tk_priority x) Hp2) as (k3 & E3 & Ek3 & Hp3 & Etp3 & Eh3 & Et3 & Eq3 & Ehw3 & Hth3 & _).
  assert (Hq3 : queues_ok k3 m2) by (by eapply queues_ok_ext).
  destruct (kfree_node k3 m2 (tk_addr x) nx Hq3) as (k4 & E4 & Hoq & Efr & Hq4 & Et4 & Eq4 & Ehw4 & _); [| by eapply lookup_weaken |].
  { rewrite Et3, Eq3, Eq2, Eq1. unfold nodes. intros [Hi | Hi]%elem_of_app.
    - apply Hin2 in Hi as [Hi | Hi]; [| congruence]. rewrite Et1 in Hi. apply Hx, elem_of_app. by left.
    - apply Hx, elem_of_app. by right. }
  assert (E43 : threads k4 = threads k3 /\ tp k4 = tp k3 /\ fallback_priority k4 = fallback_priority k3) by (by rewrite Hoq).
  destruct E43 as (Eth4 & Etp4 & Ef4).
  assert (Hth : forall a, threads k4 !! a = woken [x] a <$> threads k !! a).
  { intros a. rewrite Eth4, Hth3, Hth2, Hth1. cbn [threads set_task_queue].
    destruct (threads k !! a) as [t |] eqn:Et; [| done]. cbn. f_equal. apply woken_priority. by apply Hid. }
  exists k1, k2, k3, k4, (delete (tk_addr x) m2). split_and!; try done.
  - intros ran k' m' Hran. rewrite Ek1 in Hce. eapply tasks_one; [exact El | exact Hce | rewrite <- Eh3; exact Efr |].
    by rewrite <- Ek3, <- Hoq.
  - unfold armed in *. by rewrite Ehw4, Ehw3, Et4, Et3.
  - eapply Forall_impl; [exact Hkr |]. intros y. unfold kernel_task. destruct (tk_callback y); try done. rewrite Hth. by rewrite fmap_is_Some.
  - rewrite Eq4, Eq3, Eq2, Eq1. done.
  - rewrite Etp4, Etp3, Etp2, Etp1. done.
  - rewrite <- Hp3. unfold task_priority. by rewrite Eth4, Ef4.
Qed.

Lemma run_tasks_ok other call fuel k m cur prio : Forall (calls_at (run_callback other) call cur) (task_queue k) ->
  (length (task_queue k) <= fuel)%nat -> queues_ok k m -> armed k ->
  Forall (kernel_task k) (task_queue k) -> task_priority cur k = Some prio ->
  exists ran rest k' m', run_tasks fuel call cur k = Some k' /\ task_queue k = ran ++ rest /\
    Forall (fun x => prio < tk_priority x) ran /\ Forall (fun x => tk_priority x <= prio) rest /\ task_queue k' = rest /\
    queues_ok k' m' /\ armed k' /\ tp k' = tp k /\ task_priority cur k' = Some prio /\ tasks_ran cur prio ran k m k' m' /\
    forall a, threads k' !! a = woken ran a <$> threads k !! a.
Proof.
  revert k m. induction fuel as [| fuel IH]; intros k m Hcall Hf Hq Ha Hks Hp; cbn [run_tasks].
  all: assert (Hid : forall a, threads k !! a = woken [] a <$> threads k !! a)
    by (intros; destruct (threads k !! a); [by simpl; rewrite woken_nil | done]).
  all: destruct (task_queue k) as [| x rest] eqn:Eq; [exists [], [], k, m; split_and!; done || constructor |].
  { simpl in Hf. lia. }
  rewrite Hp. cbn [mbind option_bind]. destruct (Z.leb_spec (tk_priority x) prio) as [Hle | Hlt].
  - exists [], (x :: rest), k, m. split_and!; try done; [| constructor]. pose proof (qo_tasks _ _ Hq) as Hs. rewrite Eq in Hs. inversion_clear Hs as [| ? ? _ Hx].
    constructor; [done |]. eapply Forall_impl; [exact Hx |]. unfold before. intros; lia.
  - apply list.Forall_cons in Hcall as [Hcx Hcall].
    destruct (run_task_ok other call k m x rest cur prio Hcx Hq Ha) as (k1 & k2 & k3 & k4 & m4 & E1 & E2 & E3 & E4 & Hrun & Hq4 & Ha4 & Hk4 & Eq4 & Et & Hp4 & Hth);
      [by rewrite Eq | done | done |].
    rewrite E1. cbn [mbind option_bind]. rewrite E2. cbn [mbind option_bind]. rewrite E3. cbn [mbind option_bind]. rewrite E4. cbn [mbind option_bind].
    destruct (IH k4 m4) as (ran & rest' & k' & m' & E' & Er & Hran & Hrest & Eq' & Hq' & Ha' & Et' & Hp' & Hran' & Hth'); try (by rewrite ?Eq4).
    { rewrite Eq4. simpl in Hf. lia. }
    rewrite Eq4 in Er. subst rest. exists (x :: ran), rest', k', m'. split_and!; try done; [simpl; by f_equal | by constructor | congruence | by apply Hrun |].
    intros a. rewrite Hth', Hth. destruct (threads k !! a); [| done]. cbn. by rewrite (woken_cons x ran).
Qed.

(** ** From the timer to the thread it wakes *)

Lemma fires_elem fired lost h m q h' m' q' : fires fired lost h m q h' m' q' ->
  (forall x, x ∈ q -> x ∈ q') /\
  forall nd, nd ∈ fired -> tn_callback nd <> CB_NULL -> nd ∉ lost -> exists p, TaskNode p (tn_callback nd) (tn_arg nd) 10 ∈ q'.
Proof.
  induction 1 as [| n fired lost h m q h1 h2 m2 q2 Hc _ _ [IH1 IH2] | n fired lost h m q h1 h2 m2 q2 Hc _ _ _ [IH1 IH2]
    | n fired lost h m ql qr p s h1 h2 h3 m3 q3 Hc _ _ _ _ _ _ _ [IH1 IH2]].
  - split; [done |]. intros nd Hnd. by apply elem_of_nil in Hnd.
  - split; [done |]. intros nd [-> | Hnd]%elem_of_cons Hcb Hl; [done | by apply IH2].
  - split; [done |]. intros nd [-> | Hnd]%elem_of_cons Hcb [Hne Hl]%not_elem_of_cons; [done | by apply IH2].
  - split.
    + intros x Hx. apply IH1. rewrite elem_of_app, elem_of_cons. apply elem_of_app in Hx. tauto.
    + intros nd [-> | Hnd]%elem_of_cons Hcb Hl; [| by apply IH2]. exists p. apply IH1. rewrite elem_of_app, elem_of_cons. tauto.
Qed.

Lemma fires_Forall (P : task_node -> Prop) fired lost h m q h' m' q' : fires fired lost h m q h' m' q' -> Forall P q ->
  (forall n p, n ∈ fired -> tn_callback n <> CB_NULL -> P (TaskNode p (tn_callback n) (tn_arg n) 10)) -> Forall P q'.
Proof.
  induction 1 as [| n fired lost h m q h1 h2 m2 q2 Hc _ _ IH | n fired lost h m q h1 h2 m2 q2 Hc _ _ _ IH
    | n fired lost h m ql qr p s h1 h2 h3 m3 q3 Hc _ _ _ _ _ _ _ IH]; intros Hq HP; [done | | |].
  1,2: apply IH; [done |]; intros n' p' Hn; apply HP; by right.
  apply IH; [| intros n' p' Hn; apply HP; by right]. rewrite Forall_app in Hq |- *. destruct Hq. split; [done |].
  constructor; [| done]. apply HP; [by left | done].
Qed.

(** The timers of the kernel itself. *)
Definition kernel_timer k (n : timer_node) : Prop :=
  match tn_callback n with
  | CB_wakeup => is_Some (threads k !! tn_arg n)
  | CB_scheduler_timer | CB_periodic_timer | CB_NULL => True
  | CB_other _ => False
  end.

Lemma fired_all ts fired rest r nd : StronglySorted earlier ts -> ts = fired ++ rest -> fired_at r fired rest -> nd ∈ ts ->
  (forall i, (r <= i)%nat -> expire_time nd <= time_at i) -> nd ∈ fired.
Proof.
  intros Hs -> [_ Hr] [Hin | Hin]%elem_of_app Ht; [done |]. exfalso. destruct rest as [| n rest]; [by apply elem_of_nil in Hin |].
  specialize (Ht (r + length fired)%nat ltac:(lia)). enough (expire_time n <= expire_time nd) by lia.
  apply elem_of_cons in Hin as [-> | Hin]; [lia |]. clear -Hs Hin. induction fired as [| x fired IH]; simpl in Hs.
  - inversion_clear Hs as [| ? ? _ Hx]. rewrite list.Forall_forall in Hx. by apply Hx.
  - inversion_clear Hs. by apply IH.
Qed.

Lemma rescheduled_waiting k nxt a u : t_status u = THREAD_WAITING ->
  (a = nxt /\ t_status (rescheduled k nxt a u) = THREAD_RUNNING) \/ t_status (rescheduled k nxt a u) = THREAD_WAITING.
Proof.
  intros Hw. unfold rescheduled. repeat case_decide; cbn; try (right; exact Hw); try (exfalso; destruct_and!; congruence); left; (split; [assumption | reflexivity]).
Qed.

Lemma sleeper_wakes other k m xs nd u : queues_ok k m -> sched_ok k xs ->
  Forall (kernel_task k) (task_queue k) -> Forall (kernel_timer k) (timer_list k) ->
  nd ∈ timer_list k -> tn_callback nd = CB_wakeup -> threads k !! tn_arg nd = Some u -> t_status u = THREAD_WAITING ->
  (forall i, (reads k <= i)%nat -> expire_time nd <= time_at i) ->
  exists sw k' fired rest lost k1 m1, handle_timer_interrupt k = Some (sw, k') /\ schedule k1 = Some (sw, k') /\
    timer_list k = fired ++ rest /\ fires fired lost (k_heap k) m (task_queue k) (k_heap k1) m1 (task_queue k1) /\
    (nd ∉ lost -> forall prio, task_priority (tp k') k' = Some prio -> prio < 10 ->
     exists k2, run_tasks (length (task_queue k')) (run_callback other) (tp k') k' = Some k2 /\
       is_runnable (threads k2) (tn_arg nd) = true).
Proof.
  intros Hq Hs Hkt Hkn Hin Hcb Hu Hw Ht.
  destruct (handle_timer_interrupt_ok k m xs Hq Hs) as (fired & rest & lost & k1 & m1 & sw & k' & E & Es & El & Hf & Hoq & Hq1 & Ha1 & Et & Hfs).
  destruct (schedule_spec k1 xs) as (sw' & k'' & nxt & _ & Es' & _ & _ & _ & _ & _ & _ & _ & Hth & _ & Hos); [by apply (only_queues_sched k) |].
  assert (k'' = k') as -> by congruence.
  destruct (fires_elem _ _ _ _ _ _ _ _ Hfs) as [_ Hqn].
  exists sw, k', fired, rest, lost, k1, m1. split_and!; try done. intros H0 prio Hp Hlt.
  assert (Ek' : k_heap k' = k_heap k1 /\ timer_list k' = timer_list k1 /\ task_queue k' = task_queue k1 /\ hw_timer k' = hw_timer k1)
    by (by rewrite Hos).
  destruct Ek' as (Eh' & Et' & Eq' & Ehw').
  assert (Eth : threads k1 = threads k) by (by rewrite Hoq).
  assert (Hks : Forall (kernel_task k') (task_queue k')).
  { assert (Hlive : forall a, is_Some (threads k !! a) -> is_Some (threads k' !! a)) by (intros a Ha; by rewrite Hth, Eth, fmap_is_Some).
    rewrite Eq'. eapply fires_Forall; [exact Hfs | |].
    - eapply Forall_impl; [exact Hkt |]. intros x. unfold kernel_task. destruct (tk_callback x); auto.
    - intros n p Hn Hc. rewrite list.Forall_forall in Hkn. specialize (Hkn n). rewrite El in Hkn. specialize (Hkn ltac:(by apply elem_of_app; left)).
      unfold kernel_timer in Hkn. unfold kernel_task. cbn. destruct (tn_callback n); auto. }
  destruct (run_tasks_ok other (run_callback other) (length (task_queue k')) k' m1 (tp k') prio) as (ran & rest' & k2 & m2 & E2 & Er & Hran & Hrest & _ & _ & _ & _ & _ & _ & Hth2); try done.
  { apply list.Forall_forall. by intros x _ k3 _. }
  { by eapply queues_ok_ext. }
  { unfold armed in *. by rewrite Ehw', Et'. }
  exists k2. split; [exact E2 |]. unfold is_runnable. rewrite Hth2, Hth, Eth, Hu. cbn.
  destruct (rescheduled_waiting k1 nxt (tn_arg nd) u Hw) as [[_ Hst] | Hst].
  - rewrite woken_same by (rewrite Hst; intros [? _]; done). by rewrite Hst.
  - rewrite woken_ready; [done | done |]. apply list.Exists_exists.
    destruct (Hqn nd) as [p Hpn]; [| by rewrite Hcb | done |].
    { eapply fired_all; [apply Hq | exact El | exact Hf | done | done]. }
    exists (TaskNode p (tn_callback nd) (tn_arg nd) 10). split; [| done].
    rewrite <- Eq', Er in Hpn. apply elem_of_app in Hpn as [Hpn | Hpn]; [done |]. exfalso.
    rewrite list.Forall_forall in Hrest. apply Hrest in Hpn. cbn in Hpn. lia.
Qed.

(** ** The properties *)

(** C16: add_timer_ticks either leaves the list as it is, when there is no memory
    for a node, or puts the timer behind those that expire no later and before
    those that expire later; the list stays sorted, its nodes distinct live
    objects, and the hardware timer set to its first expiry. *)
Theorem add_timer_ticks_sorted k m cb arg ticks : queues_ok k m -> armed k ->
  exists r k' m', add_timer_ticks cb arg ticks k = Some (r, k') /\ only_queues k k' /\ queues_ok k' m' /\ armed k' /\
    ((r = -1 /\ timer_list k' = timer_list k /\ h_allocate SIZEOF_TIMER_NODE (k_heap k) = Some (0, k_heap k)) \/
     (r = 0 /\ exists p l1 l2, timer_list k = l1 ++ l2 /\
        timer_list k' = l1 ++ TimerNode p (time_at (reads k) ⊞ ticks) cb arg :: l2 /\
        Forall (fun x => expire_time x <= time_at (reads k) ⊞ ticks) l1 /\
        Forall (fun x => time_at (reads k) ⊞ ticks < expire_time x) l2)).
Proof.
  intros Hq Ha.
  destruct (add_timer_ticks_ok k m cb arg ticks Hq Ha) as (r & k' & E & Ho & Ha' & _ & _ & [(Hr & Et & Hq' & Ef & _) | (Hr & p & n & _ & _ & Hq' & Et)]);
    eexists r, k', _; (split_and!; [exact E | exact Ho | exact Hq' | exact Ha' |]); [by left | right; split; [done |]].
  destruct (insert_timer_spec (TimerNode p (time_at (reads k) ⊞ ticks) cb arg) (timer_list k) (qo_timers _ _ Hq)) as (l1 & l2 & El & Ei & H1 & H2).
  exists p, l1, l2. rewrite Et, Ei. by split_and!.
Qed.

(** C13: the timer interrupt takes off the list exactly the timers the clock has
    passed and serves them in the order of their expiry: the callback of each is
    queued with priority 10, behind the tasks of the same priority, in a node
    that the allocator gives (only if it answers 0 the callback is lost), and the
    node of the timer is freed.  It then sets the hardware timer to the next
    expiry and reschedules. *)
Theorem handle_timer_interrupt_fires k m xs : queues_ok k m -> sched_ok k xs ->
  exists fired rest lost k1 m1 sw k', handle_timer_interrupt k = Some (sw, k') /\ schedule k1 = Some (sw, k') /\
    timer_list k = fired ++ rest /\ fired_at (reads k) fired rest /\
    only_queues k k1 /\ queues_ok k1 m1 /\ armed k1 /\ timer_list k1 = rest /\
    fires fired lost (k_heap k) m (task_queue k) (k_heap k1) m1 (task_queue k1).
Proof. apply handle_timer_interrupt_ok. Qed.

(** C15: run_tasks stops: it runs the tasks whose priority is above that of the
    current thread, in the order of the queue and each at its own priority (at
    another one the call could do anything), frees the node of each before the
    next one runs, leaves the others and restores the
    priority of the thread; the threads the tasks wake are ready afterwards. *)
Theorem run_tasks_in_order other call k m cur prio : queues_ok k m -> armed k ->
  Forall (kernel_task k) (task_queue k) -> Forall (calls_at (run_callback other) call cur) (task_queue k) -> task_priority cur k = Some prio ->
  exists ran rest k' m', run_tasks (length (task_queue k)) call cur k = Some k' /\ task_queue k = ran ++ rest /\
    Forall (fun x => prio < tk_priority x) ran /\ Forall (fun x => tk_priority x <= prio) rest /\ task_queue k' = rest /\
    queues_ok k' m' /\ armed k' /\ tp k' = tp k /\ task_priority cur k' = Some prio /\ tasks_ran cur prio ran k m k' m' /\
    forall a, threads k' !! a = woken ran a <$> threads k !! a.
Proof. intros Hq Ha Hk Hcall Hp. by apply (run_tasks_ok other call _ k m cur prio). Qed.

(** C14: a thread that waits for a timer runs again: once the clock has passed
    the expiry, the next timer interrupt and the tasks run after it make the
    thread runnable, unless the allocator had no node for its task. *)
Theorem sleeping_thread_wakes other k m xs nd u : queues_ok k m -> sched_ok k xs ->
  Forall (kernel_task k) (task_queue k) -> Forall (kernel_timer k) (timer_list k) ->
  nd ∈ timer_list k -> tn_callback nd = CB_wakeup -> threads k !! tn_arg nd = Some u -> t_status u = THREAD_WAITING ->
  (forall i, (reads k <= i)%nat -> expire_time nd <= time_at i) ->
  exists sw k' fired rest lost k1 m1, handle_timer_interrupt k = Some (sw, k') /\ schedule k1 = Some (sw, k') /\
    timer_list k = fired ++ rest /\ fires fired lost (k_heap k) m (task_queue k) (k_heap k1) m1 (task_queue k1) /\
    (nd ∉ lost -> forall prio, task_priority (tp k') k' = Some prio -> prio < 10 ->
     exists k2, run_tasks (length (task_queue k')) (run_callback other) (tp k') k' = Some k2 /\
       is_runnable (threads k2) (tn_arg nd) = true).
Proof. apply sleeper_wakes. Qed.

End Timer.

(** ** Witnesses: the three threads, on the allocator of [demo_vm] *)

#[local] Instance demo_clock : Clock := { time_at i := 1000 * Z.of_nat i }.

#[local] Opaque heap0.

Lemma demo_queues_ok : queues_ok (demo_kernel heap0) ∅ /\ armed (demo_kernel heap0).
Proof.
  split; [| reflexivity]. split; cbn; [exact heap0_owns | constructor | constructor | constructor |]. intros a Ha. by apply elem_of_nil in Ha.
Qed.

Lemma heap0_gives sz : (fst <$> allocate sz heap0) <> Some 0 -> h_allocate sz heap0 <> Some (0, heap0).
Proof. intros E' E. apply E'. change (h_allocate sz heap0) with (allocate sz heap0) in E. rewrite E. reflexivity. Qed.

(** Thread 200 sleeps until 500, and there is memory for the task that wakes it. *)
Lemma demo_sleeper : exists k m p, queues_ok k m /\ only_queues (demo_kernel heap0) k /\ task_queue k = [] /\
  reads k = 1%nat /\ timer_list k = [TimerNode p 500 CB_wakeup 200] /\
  h_allocate SIZEOF_TASK_NODE (k_heap k) <> Some (0, k_heap k) /\
  forall sw k', handle_timer_interrupt k = Some (sw, k') -> task_priority (tp k') k' = Some (-1).
Proof.
  destruct demo_queues_ok as [Hq Ha].
  assert (Em : ('(_, k) ← add_timer_ticks CB_wakeup 200 500 (demo_kernel heap0); fst <$> h_allocate SIZEOF_TASK_NODE (k_heap k)) <> Some 0)
    by (vm_compute; congruence).
  assert (Ep : ('(_, k) ← add_timer_ticks CB_wakeup 200 500 (demo_kernel heap0); '(_, k') ← handle_timer_interrupt k; task_priority (tp k') k') = Some (-1))
    by (vm_compute; reflexivity).
  destruct (add_timer_ticks_ok (demo_kernel heap0) ∅ CB_wakeup 200 500 Hq Ha) as
    (r & k & E & Ho & Ha' & Er & Et & [(_ & _ & _ & Ef & _) | (_ & p & n & _ & _ & Hq' & El)]).
  - exfalso. apply (heap0_gives SIZEOF_TIMER_NODE); [vm_compute; congruence | exact Ef].
  - rewrite E in Em, Ep. cbn [mbind option_bind] in Em, Ep.
    exists k, (<[p := (n, 1)]> ∅), p. split_and!; [exact Hq' | exact Ho | exact Et | exact Er | exact El | |].
    + intros E0. apply Em. rewrite E0. reflexivity.
    + intros sw k' E'. rewrite E' in Ep. exact Ep.
Qed.

(** Its timer fires: the task that wakes it is queued and the timer's node freed. *)
Lemma demo_fires p lost m q h' m' q' h : fires [TimerNode p 500 CB_wakeup 200] lost h m q h' m' q' -> q = [] ->
  h_allocate SIZEOF_TASK_NODE h <> Some (0, h) ->
  lost = [] /\ exists t s, t <> 0 /\ q' = [TaskNode t CB_wakeup 200 10] /\ m' = delete p (<[t := (s, 1)]> m).
Proof.
  intros Hf Hq Hn. inversion Hf as [| | ? ? ? ? ? ? ? ? ? ? ? Ha | ? ? ? ? ? ql qr t s ? ? ? ? ? _ Ha Ht _ _ _ _ Hf']; subst; [discriminate | destruct (Hn Ha) |].
  apply app_nil in Hq as [-> ->]. inversion Hf'; subst. split; [reflexivity |]. exists t, s. split_and!; [exact Ht | reflexivity | reflexivity].
Qed.

Definition demo_other (_ _ : Z) (k : kernel allocator) : option (kernel allocator) := Some k.

(** The callbacks, at priority 10 of thread 100 only. *)
Definition demo_call (cb : callback) (arg : Z) (k : kernel allocator) : option (kernel allocator) :=
  if decide (task_priority 100 k = Some 10) then run_callback demo_other cb arg k else None.

(** A task that wakes thread 200. *)
Lemma demo_task : exists k m p, queues_ok k m /\ armed k /\ only_queues (demo_kernel heap0) k /\
  task_queue k = [TaskNode p CB_wakeup 200 10].
Proof.
  destruct demo_queues_ok as [Hq Ha].
  destruct (add_task_ok (demo_kernel heap0) ∅ CB_wakeup 200 10 Hq) as (p & k & m & _ & Ho & Hq' & _ & Et & Eh & _ & _ & Ea & [(-> & -> & _) | (_ & _ & [n ->] & Eq)]).
  - exfalso. apply (heap0_gives SIZEOF_TASK_NODE); [vm_compute; congruence | exact Ea].
  - exists k, (<[p := (n, 1)]> ∅), p. split_and!; [exact Hq' | unfold armed; rewrite Eh, Et; exact Ha | exact Ho | exact Eq].
Qed.

Lemma add_timer_ticks_sorted_witness : queues_ok (demo_kernel heap0) ∅ /\ armed (demo_kernel heap0) /\
  exists k' m' p, add_timer_ticks CB_wakeup 200 500 (demo_kernel heap0) = Some (0, k') /\ queues_ok k' m' /\
    timer_list k' = [TimerNode p 500 CB_wakeup 200].
Proof.
  destruct demo_queues_ok as [Hq Ha]. split; [exact Hq |]. split; [exact Ha |].
  destruct (add_timer_ticks_sorted (demo_kernel heap0) ∅ CB_wakeup 200 500 Hq Ha) as
    (r & k' & m' & E & _ & Hq' & _ & [(_ & _ & Ef) | (Hr & p & l1 & l2 & El & Et & _)]).
  - exfalso. apply (heap0_gives SIZEOF_TIMER_NODE); [vm_compute; congruence | exact Ef].
  - exists k', m', p. split; [rewrite <- Hr; exact E |]. split; [exact Hq' |].
    change (timer_list (demo_kernel heap0)) with (@nil timer_node) in El. symmetry in El. apply app_nil in El as [-> ->]. exact Et.
Defined.

Lemma handle_timer_interrupt_fires_witness : exists (k : kernel allocator) sw k' p q,
  timer_list k = [TimerNode p 500 CB_wakeup 200] /\ handle_timer_interrupt k = Some (sw, k') /\
  exists k1 m1, schedule k1 = Some (sw, k') /\ timer_list k1 = [] /\ hw_timer k1 = TIMER_OFF /\
    q <> 0 /\ task_queue k1 = [TaskNode q CB_wakeup 200 10] /\ queues_ok k1 (delete p m1).
Proof.
  destruct demo_sleeper as (k & m & p & Hq & Ho & Eq & Er & El & Hn & _).
  assert (Hs : sched_ok k [200; 300]) by (apply (only_queues_sched (demo_kernel heap0)); [exact Ho | apply demo_kernel_ok]).
  destruct (handle_timer_interrupt_fires k m [200; 300] Hq Hs) as (fired & rest & lost & k1 & m1 & sw & k' & E & Es & El' & [_ Hr] & _ & Hq1 & Ha1 & Et1 & Hfs).
  rewrite El in El'. destruct fired as [| x [| y l]]; [| |destruct l; discriminate].
  - exfalso. cbn in El'. subst rest. rewrite Er in Hr. cbn in Hr. lia.
  - injection El' as <- E'. destruct rest; [| discriminate].
    destruct (demo_fires _ _ _ _ _ _ _ _ Hfs Eq Hn) as (_ & t & s & Ht & Eq1 & Em1).
    exists k, sw, k', p, t. split; [exact El |]. split; [exact E |]. exists k1, (<[t := (s, 1)]> m). split; [exact Es |]. split; [exact Et1 |].
    split; [unfold armed in Ha1; rewrite Et1 in Ha1; exact Ha1 |]. split; [exact Ht |]. split; [exact Eq1 |]. rewrite <- Em1. exact Hq1.
Defined.

Lemma run_tasks_in_order_witness : exists k k' p m',
  task_queue k = [TaskNode p CB_wakeup 200 10] /\ run_tasks 1 demo_call 100 k = Some k' /\ task_queue k' = [] /\
  is_runnable (threads k') 200 = true /\ queues_ok k' m' /\ m' !! p = None.
Proof.
  destruct demo_task as (k & m & p & Hq & Ha & Ho & Eq).
  assert (Hth : threads k = threads (demo_kernel heap0)) by (rewrite Ho; reflexivity).
  assert (Hk : Forall (kernel_task k) (task_queue k)).
  { rewrite Eq. constructor; [| constructor]. unfold kernel_task. cbn. rewrite Hth. eexists. reflexivity. }
  assert (Hp : task_priority 100 k = Some (-1)) by (unfold task_priority; rewrite Hth; reflexivity).
  assert (Hcall : Forall (calls_at (run_callback demo_other) demo_call 100) (task_queue k)).
  { rewrite Eq. constructor; [| constructor]. intros k' Hk'. unfold demo_call. rewrite Hk'. reflexivity. }
  destruct (run_tasks_in_order demo_other demo_call k m 100 (-1) Hq Ha Hk Hcall Hp) as (ran & rest & k' & m' & E & Er & _ & Hle & Eq' & Hq' & _ & _ & _ & Hran & Hth').
  exists k, k', p, m'. split; [exact Eq |]. rewrite Eq in E, Er. split; [exact E |].
  destruct rest as [| y rest].
  - rewrite app_nil_r in Er. subst ran. split; [exact Eq' |]. split; [unfold is_runnable; rewrite Hth', Hth; reflexivity |]. split; [exact Hq' |].
    inversion Hran as [| ? ? ? ? ? ? ? ? ? ? _ _ _ Hnil]; subst. inversion Hnil; subst. apply lookup_delete_eq.
  - exfalso. inversion Hle as [| ? ? Hy]. destruct ran as [| z ran]; [injection Er as <- _; cbn in Hy; lia |].
    injection Er as _ Er. destruct ran; discriminate.
Defined.

Lemma sleeping_thread_wakes_witness : exists k p sw k' k2,
  timer_list k = [TimerNode p 500 CB_wakeup 200] /\ handle_timer_interrupt k = Some (sw, k') /\
  run_tasks (length (task_queue k')) (run_callback demo_other) (tp k') k' = Some k2 /\ is_runnable (threads k2) 200 = true.
Proof.
  destruct demo_sleeper as (k & m & p & Hq & Ho & Eq & Er & El & Hn & Hp).
  assert (Hs : sched_ok k [200; 300]) by (apply (only_queues_sched (demo_kernel heap0)); [exact Ho | apply demo_kernel_ok]).
  assert (Hth : threads k = threads (demo_kernel heap0)) by (rewrite Ho; reflexivity).
  destruct (sleeping_thread_wakes demo_other k m [200; 300] (TimerNode p 500 CB_wakeup 200) (demo_thread 1 THREAD_WAITING 300 4096) Hq Hs)
    as (sw & k' & fired & rest & lost & k1 & m1 & E & _ & El' & Hfs & Hw).
  - rewrite Eq. constructor.
  - rewrite El. constructor; [| constructor]. unfold kernel_timer. cbn. rewrite Hth. eexists. reflexivity.
  - rewrite El. by left.
  - reflexivity.
  - cbn. rewrite Hth. reflexivity.
  - reflexivity.
  - intros i Hi. rewrite Er in Hi. cbn. lia.
  - assert (Hl : lost = []).
    { rewrite El in El'. destruct fired as [| x [| y l]]; [inversion Hfs; reflexivity | | destruct l; discriminate].
      injection El' as <- _. exact (proj1 (demo_fires _ _ _ _ _ _ _ _ Hfs Eq Hn)). }
    destruct (Hw ltac:(rewrite Hl; apply not_elem_of_nil) (-1) (Hp sw k' E) ltac:(lia)) as (k2 & E2 & Hrun).
    exists k, p, sw, k', k2. split; [exact El |]. split; [exact E |]. split; [exact E2 | exact Hrun].
Defined.
