(* ===== verification/Thread.v ===== *)
(** * Threads: creation, exit and the zombie killer of [src/thread.c]

    [reap] is the body of [kill_zombies] that releases what a dead thread
    holds; the loop around it walks the run queue once. *)

From S2P Require Import Prelude Config Heap VfsData Tmpfs Ramfs Vfs Vma Mmu Kernel Sched.

(** The addresses of the code the kernel stores in a thread. *)
Class KernelText := {
  kernel_thread_wrapper : Z;
  idle_entry : Z;
  ret_from_exception : Z;
}.

Definition zombie (st : THREAD_STATUS) : bool :=
  bool_decide (st = THREAD_TERMINATED) || bool_decide (st = THREAD_ABORTED).

Definition REGS : nat := 35.  (* struct pt_regs *)
Definition NR_SIGNALS : nat := 32.

(** [fdt[i]->ref_count++] for every open descriptor. *)
Fixpoint share_files (fds : list Z) (v : vfs) : option vfs :=
  match fds with
  | [] => Some v
  | f :: fds =>
      v ← (if f =? 0 then Some v
           else fl ← files v !! f; Some (put_file f (set_ref_count (i32 (ref_count fl + 1)) fl) v));
      share_files fds v
  end.

Section Thread.
Context {H : Type} {HO : HeapOps H} {KT : KernelText}.
Notation kernel := (kernel H).

(** ** Creation *)

(** The root directory, NULL when nothing is mounted. *)
Definition root_vnode (v : vfs) : option Z :=
  if rootfs v =? 0 then Some 0 else m ← mounts v !! rootfs v; Some (m_root m).

Definition thread_create (threadfn : Z) (k : kernel) : option (Z * kernel) :=
  '(p, k) ← kalloc SIZEOF_THREAD k;
  if p =? 0 then Some (0, k) else
  let pid := nr_threads k in
  let k := set_nr_threads (i32 (nr_threads k + 1)) k in
  '(stack, k) ← kalloc KERNEL_STACK_SIZE k;
  '(cwd, root, fds, v) ←
    (if tp k =? 0 then root ← root_vnode (k_vfs k); Some (root, root, replicate NR_FD 0, k_vfs k)
     else c ← threads k !! tp k; v ← share_files (t_fdt c) (k_vfs k); Some (t_cwd c, t_root c, t_fdt c, v));
  let t := Thread (Context_ kernel_thread_wrapper (stack ⊞ KERNEL_STACK_SIZE) (replicate 12 0)) pid THREAD_READY 0 0 stack 0 0
             0 (-1) (-1) 0 threadfn (kernel_pgd k) [] (replicate NR_SIGNALS 0) 0 0 (replicate REGS 0) 0 0 cwd root fds in
  k ← enqueue p (put_thread p t (set_k_vfs v k));
  Some (p, k).

(** The code writes through the answer of [thread_create] unchecked. *)
Definition init_thread_system (k : kernel) : option kernel :=
  '(p, k) ← thread_create idle_entry k;
  k ← upd_thread p (set_t_status THREAD_RUNNING) k;
  Some (set_tp p k).

(** Maps for the current thread, with the user bit. *)
Definition map_pages (va size pa prot : Z) (k : kernel) : option kernel :=
  if tp k =? 0 then Some k else
  t ← threads k !! tp k;
  if t_pgd t =? 0 then Some k else
  vm ← map_pages_at (t_pgd t) va pa size (Z.lor prot PTE_U) (as_vm k); Some (with_vm k vm).

(** ** Exit *)

(** The parent that waits for this thread, or for any, is made ready. *)
Definition wake_parent (target : Z) (k : kernel) : option kernel :=
  t ← threads k !! target;
  if t_parent t =? 0 then Some k else
  p ← threads k !! t_parent t;
  if bool_decide (t_status p = THREAD_WAITING) && ((t_waiting_pid p =? t_pid t) || (t_waiting_pid p =? -1))
  then upd_thread (t_parent t) (fun p => set_t_waiting_pid (-1) (set_t_status THREAD_READY p)) k
  else Some k.

Definition thread_exit (k : kernel) : option (bool * kernel) :=
  let target := tp k in
  k ← (if target =? 0 then Some k
       else k ← upd_thread target (set_t_status THREAD_TERMINATED) k; wake_parent target k);
  schedule k.

(** What a new thread runs: its entry function, then [thread_exit]. *)
Definition run_thread (call : Z -> kernel -> option kernel) (k : kernel) : option (bool * kernel) :=
  k ← (if tp k =? 0 then Some k
       else t ← threads k !! tp k; if t_entry_func t =? 0 then Some k else call (t_entry_func t) k);
  thread_exit k.

(** ** The zombie killer *)

(** One descriptor of the loop that closes them. *)
Definition close_fd (t i : Z) (k : kernel) : option kernel :=
  th ← threads k !! t;
  fd ← t_fdt th !! Z.to_nat i;
  if fd =? 0 then Some k else
  '(_, s) ← vfs_close fd (as_fs k);
  upd_thread t (fun th => set_t_fdt (<[Z.to_nat i := 0]> (t_fdt th)) th) (with_fs k s).

Definition close_fds (t : Z) (k : kernel) : option kernel := for_range NR_FD 0 (close_fd t) k.

Fixpoint free_vmas (vs : list vm_area) (k : kernel) : option kernel :=
  match vs with [] => Some k | v :: vs => k ← kfree (va_node v) k; free_vmas vs k end.

(** [if (p) free(p)] *)
Definition kfree_opt (p : Z) (k : kernel) : option kernel := if p =? 0 then Some k else kfree p k.

Definition free_thread_pgd (t : thread) (k : kernel) : option kernel :=
  if negb (t_pgd t =? 0) && negb (t_pgd t =? kernel_pgd k)
  then vm ← free_pgd (t_pgd t) (as_vm k); Some (with_vm k vm)
  else Some k.

Definition reap (to_free : Z) (k : kernel) : option kernel :=
  k ← close_fds to_free k;
  t ← threads k !! to_free;
  k ← kfree_opt (t_kernel_stack t) k;
  k ← kfree_opt (t_user_stack t) k;
  k ← free_thread_pgd t k;
  k ← free_vmas (t_vmas t) k;
  k ← kfree to_free k;
  Some (set_threads (delete to_free (threads k)) k).

(** [while (tail->next != run_queue) tail = tail->next;] *)
Fixpoint find_tail (fuel : nat) (tail rq : Z) (ths : gmap Z thread) : option Z :=
  t ← ths !! tail;
  if t_next t =? rq then Some tail
  else match fuel with O => None | S fuel => find_tail fuel (t_next t) rq ths end.

(** Takes [curr] out of the queue; the new [curr] is what its [next] says after that. *)
Definition unlink (curr prev : Z) (k : kernel) : option (Z * kernel) :=
  c ← threads k !! curr;
  k ← (if t_next c =? curr then Some (set_run_queue 0 k)
       else k ← upd_thread prev (set_t_next (t_next c)) k;
            Some (if curr =? run_queue k then set_run_queue (t_next c) k else k));
  c ← threads k !! curr;
  Some (t_next c, k).

Fixpoint reap_loop (count : nat) (curr prev : Z) (k : kernel) : option kernel :=
  match count with
  | O => Some k
  | S count =>
      if run_queue k =? 0 then Some k else
      c ← threads k !! curr;
      if zombie (t_status c) then
        '(nxt, k) ← unlink curr prev k;
        k ← reap curr k;
        if run_queue k =? 0 then Some k
        else if nxt =? run_queue k then Some k else reap_loop count nxt prev k
      else if t_next c =? run_queue k then Some k else reap_loop count (t_next c) curr k
  end.

Definition kill_zombies (k : kernel) : option kernel :=
  if run_queue k =? 0 then Some k else
  tail ← find_tail (ring_fuel (threads k)) (run_queue k) (run_queue k) (threads k);
  reap_loop (Z.to_nat (nr_threads k)) (run_queue k) tail k.

(** One round of the endless loop of [idle]. *)
Definition idle_round (k : kernel) : option (bool * kernel) := k ← kill_zombies k; schedule k.

End Thread.
