(* ===== verification/Syscall.v ===== *)
(** * The system calls: [src/syscall.c]

    One definition per call and their dispatch in [handle_syscall].  A call that
    reschedules answers [Switch]: another thread runs, and the call returns the
    value when its thread is scheduled again. *)

From S2P Require Import Prelude Config Heap CString VfsData Tmpfs Ramfs Vfs Cpio Vma Mmu Kernel Sched Timer Thread.

(** [long] from a register. *)
Definition i64 (z : Z) : Z := (z + 2 ^ 63) mod 2 ^ 64 - 2 ^ 63.

(** The registers of [struct pt_regs], by index. *)
Definition reg_ra : Z := 0.
Definition reg_sp : Z := 1.
Definition reg_tp : Z := 3.
Definition reg_a (i : Z) : Z := 9 + i.
Definition reg_epc : Z := 31.
Definition reg_cause : Z := 33.
Definition reg_badaddr : Z := 34.

Inductive result := Ret (v : Z) | Switch (v : Z).

(** The memory of the user as the kernel's loads and stores see it with [SUM]
    set: a string, [n] bytes, and a store. *)
Class UserMem (H : Type) := {
  user_string : Z -> kernel H -> option (list Z);
  user_bytes : Z -> Z -> kernel H -> option (list Z);
  user_store : Z -> list Z -> kernel H -> option (kernel H);
}.

(** The initial ram disk: where [get_initrd_start] finds it, its bytes and a
    bound on the number of its files. *)
Class Initrd := { initrd_start : Z; initrd_bytes : list Z; initrd_files : nat }.

(** What [video_bmp_display] does. *)
Class Display (D : Type) := { bmp_display : list Z -> Z -> Z -> D -> option D }.

Section Syscall.
Context {H : Type} {HO : HeapOps H} {HC : Clock} {KT : KernelText} {UM : UserMem H} {RD : Initrd}.
Context {D : Type} {IO : DevIO D} {DI : Display D}.
Notation kernel := (kernel H).

(** ** Registers and the current thread *)

Definition get_reg (regs i : Z) (k : kernel) : option Z := k_mem k !! word regs i.
Definition set_reg (regs i v : Z) (k : kernel) : kernel := set_k_mem (<[word regs i := v]> (k_mem k)) k.

Definition current (k : kernel) : option thread := threads k !! tp k.
Definition upd_current (f : thread -> thread) (k : kernel) : option kernel := upd_thread (tp k) f k.

Definition resched (v : Z) (k : kernel) : option (result * kernel) :=
  '(sw, k) ← schedule k; Some (if (sw : bool) then Switch v else Ret v, k).

(** The loop over the run queue that looks for a pid. *)
Fixpoint find_pid (fuel : nat) (node rq pid : Z) (ths : gmap Z thread) : option (option Z) :=
  t ← ths !! node;
  if t_pid t =? pid then Some (Some node)
  else if t_next t =? rq then Some None
  else match fuel with O => None | S fuel => find_pid fuel (t_next t) rq pid ths end.

Definition lookup_pid (pid : Z) (k : kernel) : option (option Z) :=
  if run_queue k =? 0 then Some None
  else find_pid (ring_fuel (threads k)) (run_queue k) (run_queue k) pid (threads k).

(** ** Processes *)

Definition sys_getpid (k : kernel) : option Z := t_pid <$> current k.

(** The queue is not empty: a thread calls. *)
Definition sys_waitpid (pid : Z) (k : kernel) : option (result * kernel) :=
  found ← find_pid (ring_fuel (threads k)) (run_queue k) (run_queue k) pid (threads k);
  match found with
  | None => Some (Ret (-1), k)
  | Some target =>
      t ← threads k !! target;
      if zombie (t_status t) then Some (Ret pid, k) else
      k ← upd_current (fun t => set_t_waiting_pid (i32 pid) (set_t_status THREAD_WAITING t)) k;
      resched pid k
  end.

Definition sys_exit (k : kernel) : option (result * kernel) :=
  k ← close_fds (tp k) k;
  '(sw, k) ← thread_exit k; Some (if (sw : bool) then Switch (-1) else Ret (-1), k).

(** The end of a process on behalf of another one, or of itself. *)
Definition abort_thread (target : Z) (k : kernel) : option (result * kernel) :=
  k ← upd_thread target (set_t_status THREAD_ABORTED) k;
  k ← wake_parent target k;
  if target =? tp k then resched 0 k else Some (Ret 0, k).

Definition sys_stop (pid : Z) (k : kernel) : option (result * kernel) :=
  if pid <=? 0 then Some (Ret (-1), k) else
  target ← lookup_pid pid k;
  match target with
  | None => Some (Ret (-1), k)
  | Some target => t ← threads k !! target; if zombie (t_status t) then Some (Ret (-1), k) else abort_thread target k
  end.

Definition sys_kill (pid signum : Z) (k : kernel) : option (result * kernel) :=
  if (signum <? 0) || (32 <=? signum) || (pid <=? 0) then Some (Ret (-1), k) else
  target ← lookup_pid pid k;
  match target with
  | None => Some (Ret (-1), k)
  | Some target =>
      t ← threads k !! target;
      if zombie (t_status t) then Some (Ret (-1), k) else
      handler ← t_signal_handler t !! Z.to_nat signum;
      if negb (handler =? 0) then
        k ← upd_thread target (fun t => set_t_sigpending (Z.lor (t_sigpending t) (u32 (Z.shiftl 1 signum))) t) k;
        Some (Ret 0, k)
      else abort_thread target k
  end.

Definition sys_usleep (usec : Z) (k : kernel) : option (result * kernel) :=
  '(v, sw, k) ← thread_sleep usec k; Some (if (sw : bool) then Switch v else Ret v, k).

(** ** Signals *)

Definition sys_signal (signum handler : Z) (k : kernel) : option (Z * kernel) :=
  if (signum <? 0) || (32 <=? signum) then Some (-1, k) else
  k ← upd_current (fun t => set_t_signal_handler (<[Z.to_nat signum := handler]> (t_signal_handler t)) t) k;
  Some (0, k).

(** [*regs = saved] *)
Fixpoint store_regs (regs : Z) (vs : list Z) (k : kernel) : kernel :=
  match vs with [] => k | v :: vs => store_regs (regs + 8) vs (set_reg regs 0 v k) end.

(** Gives back the page, the mapping and the area of the signal stack. *)
Definition free_signal_stack (k : kernel) : option kernel :=
  t ← current k;
  if t_stack_page t =? 0 then Some k else
  k ← kfree (t_stack_page t) k;
  k ← upd_current (set_t_stack_page 0) k;
  let vaddr := t_stack_vaddr t in
  '(pte, vm) ← pagewalk (t_pgd t) vaddr false (as_vm k);
  let k := with_vm k (store_pte pte 0 vm) in
  let '(node, vmas) := remove_vma vaddr (t_vmas t) in
  k ← match node with Some n => kfree n k | None => Some k end;
  upd_current (fun t => set_t_stack_vaddr 0 (set_t_vmas vmas t)) k.

Definition sys_sigreturn (regs : Z) (k : kernel) : option kernel :=
  k ← free_signal_stack k;
  t ← current k;
  upd_current (set_t_handling 0) (store_regs regs (t_saved_regs t) k).

(** ** Memory *)

(** The page table bits for the protection of an area: W implies R. *)
Definition vma_pte_prot (prot : Z) : Z :=
  let p := flags [PTE_V; PTE_U; PTE_A; PTE_D] in
  let p := if has prot PROT_READ then Z.lor p PTE_R else p in
  let p := if has prot PROT_WRITE then Z.lor p (Z.lor PTE_W PTE_R) else p in
  if has prot PROT_EXEC then Z.lor p PTE_X else p.

(** A zeroed page mapped at [a]; false when there is none. *)
Definition map_new_page (pgd a prot : Z) (k : kernel) : option (bool * kernel) :=
  '(pg, vm) ← new_page (as_vm k);
  match pg with
  | None => Some (false, with_vm k vm)
  | Some pg => vm ← map_pages_at pgd a (pg ⊟ PAGE_OFFSET) PAGE_SIZE prot vm; Some (true, with_vm k vm)
  end.

(** The loop of [MAP_POPULATE]. *)
Fixpoint populate (fuel : nat) (pgd a end_ prot : Z) (k : kernel) : option (bool * kernel) :=
  if a <? end_ then
    match fuel with
    | O => None
    | S fuel =>
        '(ok, k) ← map_new_page pgd a prot k;
        if (ok : bool) then populate fuel pgd (a ⊞ PAGE_SIZE) end_ prot k else Some (false, k)
    end
  else Some (true, k).

Definition sys_mmap (addr len prot flags : Z) (k : kernel) : option (Z * kernel) :=
  t ← current k;
  let len' := Z.land (len ⊞ PAGE_SIZE ⊟ 1) (u64 (Z.lnot (PAGE_SIZE - 1))) in
  if len' =? 0 then Some (-1, k) else
  '(node, k) ← kalloc SIZEOF_VM_AREA k;
  '(start, vmas) ← sys_mmap_place node addr len (u64 prot) (u64 flags) (t_vmas t);
  k ← upd_current (set_t_vmas vmas) k;
  if has (u64 flags) MAP_POPULATE then
    '(ok, k) ← populate (Z.to_nat (len' / PAGE_SIZE)) (t_pgd t) start (start ⊞ len') (vma_pte_prot (u64 prot)) k;
    Some (if (ok : bool) then start else -1, k)
  else Some (start, k).

(** ** exec *)

(** The file [off], [size] of the ram disk becomes the program of the current
    thread: new areas, to be paged in on demand, and a table with the kernel
    half alone.  Its address is answered. *)
Definition load_program (off size : Z) (k : kernel) : option (Z * kernel) :=
  t ← current k;
  k ← free_vmas (t_vmas t) k;
  '(new_pgd, vm) ← new_page (as_vm k);
  new_pgd ← new_pgd;
  vm ← copy_kernel_half (kernel_pgd k) new_pgd vm;
  '(node1, k) ← kalloc SIZEOF_VM_AREA (with_vm k vm);
  '(node2, k) ← kalloc SIZEOF_VM_AREA k;
  vmas ← exec_vmas node1 node2 (initrd_start ⊞ off) (u64 size);
  k ← upd_current (fun t => set_t_vmas vmas (set_t_pgd new_pgd t)) k;
  Some (new_pgd, k).

Definition sys_exec (path regs : Z) (k : kernel) : option (Z * kernel) :=
  filename ← user_string path k;
  if initrd_start =? 0 then None else
  r ← initrd_get_file initrd_files initrd_bytes (cstr filename []);
  match r with
  | None => Some (-1, k)
  | Some (off, size) =>
      t ← current k;
      '(new_pgd, k) ← load_program off size k;
      let k := set_satp (MAKE_SATP (new_pgd ⊟ PAGE_OFFSET)) k in
      k ← free_thread_pgd t k;
      Some (0, set_reg regs reg_sp USER_TOP (set_reg regs reg_epc (u64 (- 4)) k))
  end.

(** ** fork *)

(** The nodes [copy_vma_list] allocates, up to the first failure. *)
Fixpoint vma_nodes (n : nat) (k : kernel) : option (list Z * kernel) :=
  match n with
  | O => Some ([], k)
  | S n =>
      '(p, k) ← kalloc SIZEOF_VM_AREA k;
      if p =? 0 then Some ([0], k) else '(ps, k) ← vma_nodes n k; Some (p :: ps, k)
  end.

(** The address space of the child: NULL inside when there is no memory. *)
Definition fork_pgd (parent : thread) (k : kernel) : option (option Z * kernel) :=
  if negb (t_pgd parent =? 0) && negb (t_pgd parent =? kernel_pgd k)
  then '(p, vm) ← copy_pgd (t_pgd parent) (as_vm k); Some (p, with_vm k vm)
  else Some (Some (kernel_pgd k), k).

(** The registers of the child on its copy of the kernel stack. *)
Definition fork_regs (child_regs child : Z) (k : kernel) : option kernel :=
  epc ← get_reg child_regs reg_epc k;
  Some (set_reg child_regs reg_epc (epc ⊞ 4) (set_reg child_regs reg_tp child (set_reg child_regs (reg_a 0) 0 k))).

(** [memcpy(child, parent, sizeof(thread))] and the fields that differ. *)
Definition fork_thread (parent : thread) (parent_p pid stack pgd child_regs : Z) (vmas : list vm_area) : thread :=
  Thread (Context_ ret_from_exception child_regs (s_regs (t_context parent))) pid THREAD_READY
    (t_kernel_sp parent) (t_user_sp parent) stack (t_user_stack parent) (t_next parent) parent_p
    (t_waiting_pid parent) (t_priority parent) (t_arg parent) (t_entry_func parent) pgd vmas
    (t_signal_handler parent) 0 0 (t_saved_regs parent) 0 0 (t_cwd parent) (t_root parent) (t_fdt parent).

Definition sys_fork (regs : Z) (k : kernel) : option (Z * kernel) :=
  let parent := tp k in
  '(child, k) ← kalloc SIZEOF_THREAD k;
  if child =? 0 then Some (-1, k) else
  p ← threads k !! parent;
  let pid := nr_threads k in
  let k := set_nr_threads (i32 (nr_threads k + 1)) k in
  '(stack, k) ← kalloc KERNEL_STACK_SIZE k;
  if stack =? 0 then k ← kfree child k; Some (-1, k) else
  let k := set_k_mem (clone_words 1024 stack (t_kernel_stack p) (k_mem k)) k in
  '(pgd, k) ← fork_pgd p k;
  match pgd with
  | None => k ← kfree stack k; k ← kfree child k; Some (-1, k)
  | Some pgd =>
      '(nodes, k) ← vma_nodes (length (t_vmas p)) k;
      v ← share_files (t_fdt p) (k_vfs k);
      let k := set_k_vfs v k in
      let child_regs := regs ⊞ (stack ⊟ t_kernel_stack p) in
      k ← fork_regs child_regs child k;
      let t := fork_thread p parent pid stack pgd child_regs (copy_vma_list nodes (t_vmas p)) in
      k ← enqueue child (put_thread child t k);
      Some (pid, k)
  end.

(** ** Files *)

(** [fd < 0 || fd >= 16 || !fdt[fd]]: None inside. *)
Definition get_fd (fd : Z) (k : kernel) : option (option Z) :=
  if (fd <? 0) || (16 <=? fd) then Some None else
  t ← current k;
  f ← t_fdt t !! Z.to_nat fd;
  Some (if f =? 0 then None else Some f).

(** The first empty descriptor. *)
Fixpoint free_fd (i : nat) (fds : list Z) : option nat :=
  match fds with [] => None | f :: fds => if f =? 0 then Some i else free_fd (S i) fds end.

Definition set_fd (i : nat) (f : Z) (k : kernel) : option kernel :=
  upd_current (fun t => set_t_fdt (<[i := f]> (t_fdt t)) t) k.

(** The calls below take the strings and buffers of the user; the kernel makes the
    same calls with its own. *)
Definition open_path (path : list Z) (flags : Z) (k : kernel) : option (Z * kernel) :=
  t ← current k;
  '(res, f, s) ← vfs_open (t_cwd t) path flags (as_fs k);
  let k := with_fs k s in
  if negb (res =? 0) then Some (-1, k) else
  match free_fd 0 (t_fdt t) with
  | Some i => k ← set_fd i f k; Some (Z.of_nat i, k)
  | None => '(_, s) ← vfs_close f (as_fs k); Some (-1, with_fs k s)
  end.

Definition sys_open (pathname flags : Z) (k : kernel) : option (Z * kernel) :=
  path ← user_string pathname k; open_path path flags k.

Definition sys_close (fd : Z) (k : kernel) : option (Z * kernel) :=
  f ← get_fd fd k;
  match f with
  | None => Some (-1, k)
  | Some f => '(_, s) ← vfs_close f (as_fs k); k ← set_fd (Z.to_nat fd) 0 (with_fs k s); Some (0, k)
  end.

Definition read_fd (fd count : Z) (k : kernel) (d : D) : option (Z * list Z * kernel * D) :=
  f ← get_fd fd k;
  match f with
  | None => Some (-1, [], k, d)
  | Some f => '(r, bs, s, d) ← vfs_read initrd_bytes f count (as_fs k) d; Some (r, bs, with_fs k s, d)
  end.

(** A descriptor that is not open leaves the buffer alone. *)
Definition sys_read (fd buf count : Z) (k : kernel) (d : D) : option (Z * kernel * D) :=
  '(r, bs, k, d) ← read_fd fd count k d;
  match bs with [] => Some (r, k, d) | _ => k ← user_store buf bs k; Some (r, k, d) end.

Definition sys_write (fd buf count : Z) (k : kernel) (d : D) : option (Z * kernel * D) :=
  f ← get_fd fd k;
  match f with
  | None => Some (-1, k, d)
  | Some f =>
      bs ← user_bytes buf count k;
      '(r, s, d) ← vfs_write f bs count (as_fs k) d; Some (r, with_fs k s, d)
  end.

Definition sys_lseek64 (fd offset whence : Z) (k : kernel) : option (Z * kernel) :=
  f ← get_fd fd k;
  match f with
  | None => Some (-1, k)
  | Some f => '(r, s) ← vfs_lseek64 f offset whence (as_fs k); Some (r, with_fs k s)
  end.

Definition sys_ioctl (fd request arg : Z) (k : kernel) (d : D) : option (Z * kernel) :=
  f ← get_fd fd k;
  match f with
  | None => Some (-1, k)
  | Some f => '(r, bs) ← vfs_ioctl f request (as_fs k) d; k ← user_store arg bs k; Some (r, k)
  end.

Definition sys_mkdir (pathname : Z) (k : kernel) : option (Z * kernel) :=
  path ← user_string pathname k;
  t ← current k;
  '(r, s) ← vfs_mkdir (t_cwd t) path (as_fs k); Some (r, with_fs k s).

Definition sys_mount (target filesystem : Z) (k : kernel) : option (Z * kernel) :=
  tgt ← user_string target k;
  fs ← user_string filesystem k;
  t ← current k;
  '(r, s) ← vfs_mount initrd_files (Some initrd_bytes) (t_cwd t) tgt fs (as_fs k); Some (r, with_fs k s).

Definition chdir_path (p : list Z) (k : kernel) : option (Z * kernel) :=
  t ← current k;
  '(node, s) ← vfs_lookup (t_cwd t) p (as_fs k);
  let k := with_fs k s in
  match node with
  | Some node => k ← upd_current (set_t_cwd node) k; Some (0, k)
  | None => Some (-1, k)
  end.

Definition sys_chdir (path : Z) (k : kernel) : option (Z * kernel) := p ← user_string path k; chdir_path p k.

(** ** The console and the screen *)

(** The loops over [read_count] and [write_count]: every character is waited for. *)
Fixpoint uart_read_loop (n : nat) (buf : Z) (k : kernel) (d : D) : option (kernel * D) :=
  match n with
  | O => Some (k, d)
  | S n => '(c, d) ← wait_char dev_patience d; k ← user_store buf [c] k; uart_read_loop n (buf ⊞ 1) k d
  end.

Definition sys_uart_read (buf count : Z) (k : kernel) (d : D) : option (Z * kernel * D) :=
  if count <=? 0 then Some (0, k, d) else
  '(k, d) ← uart_read_loop (Z.to_nat count) buf k d; Some (count, k, d).

Definition sys_uart_write (buf count : Z) (k : kernel) (d : D) : option (Z * kernel * D) :=
  if count <=? 0 then Some (0, k, d) else
  bs ← user_bytes buf count k; d ← put_all bs d; Some (count, k, d).

Definition sys_display (image width height : Z) (k : kernel) (d : D) : option D :=
  bs ← user_bytes image (4 * width * height) k; bmp_display bs width height d.

(** ** Dispatch *)

Definition just (k : kernel) (d : D) (r : option (Z * kernel)) : option (result * kernel * D) :=
  '(v, k) ← r; Some (Ret v, k, d).
Definition just_d (r : option (Z * kernel * D)) : option (result * kernel * D) := '(v, k, d) ← r; Some (Ret v, k, d).
Definition may_switch (d : D) (r : option (result * kernel)) : option (result * kernel * D) := '(v, k) ← r; Some (v, k, d).

Definition syscall (num : Z) (regs a0 a1 a2 a3 : Z) (k : kernel) (d : D) : option (result * kernel * D) :=
  match num with
  | 0 => v ← sys_getpid k; Some (Ret v, k, d)
  | 1 => just_d (sys_uart_read a0 (i64 a1) k d)
  | 2 => just_d (sys_uart_write a0 (i64 a1) k d)
  | 3 => just k d (sys_exec a0 regs k)
  | 4 => just k d (sys_fork regs k)
  | 5 => may_switch d (sys_waitpid (i64 a0) k)
  | 6 => may_switch d (sys_exit k)
  | 7 => may_switch d (sys_stop (i64 a0) k)
  | 8 => d ← sys_display a0 (u32 a1) (u32 a2) k d; Some (Ret 0, k, d)
  | 9 => may_switch d (sys_usleep (u32 a0) k)
  | 10 => just k d (sys_signal (i32 a0) a1 k)
  | 12 => may_switch d (sys_kill (i32 a0) (i32 a1) k)
  | 13 => just k d (sys_mmap a0 a1 (i32 a2) (i32 a3) k)
  | 14 => just k d (sys_open a0 (i32 a1) k)
  | 15 => just k d (sys_close (i32 a0) k)
  | 16 => just_d (sys_read (i32 a0) a1 a2 k d)
  | 17 => just_d (sys_write (i32 a0) a1 a2 k d)
  | 18 => just k d (sys_mkdir a0 k)
  | 19 => just k d (sys_mount a1 a2 k)
  | 20 => just k d (sys_chdir a0 k)
  | 21 => just k d (sys_lseek64 (i32 a0) (i64 a1) (i32 a2) k)
  | 22 => just k d (sys_ioctl (i32 a0) a1 a2 k d)
  | _ => Some (Ret (-1), k, d)
  end.

(** The end of [handle_syscall], when the call returns. *)
Definition finish_syscall (regs v : Z) (k : kernel) : option kernel :=
  epc ← get_reg regs reg_epc (set_reg regs (reg_a 0) (u64 v) k);
  Some (set_reg regs reg_epc (epc ⊞ 4) (set_reg regs (reg_a 0) (u64 v) k)).

(** [Some v]: the thread was switched away from and [finish_syscall] with [v]
    is what it does first when it runs again. *)
Definition handle_syscall (regs : Z) (k : kernel) (d : D) : option (option Z * kernel * D) :=
  num ← get_reg regs (reg_a 7) k;
  a0 ← get_reg regs (reg_a 0) k;
  a1 ← get_reg regs (reg_a 1) k;
  a2 ← get_reg regs (reg_a 2) k;
  a3 ← get_reg regs (reg_a 3) k;
  if num =? 11 then k ← sys_sigreturn regs k; Some (None, k, d) else
  '(r, k, d) ← syscall num regs a0 a1 a2 a3 k d;
  match r with
  | Ret v => k ← finish_syscall regs v k; Some (None, k, d)
  | Switch v => Some (Some v, k, d)
  end.

End Syscall.
