(* ===== verification/Exception.v ===== *)
(** * Traps: [src/exception.c]

    Page faults (demand paging and copy-on-write), delivery of signals, the
    dispatch of [do_trap], and [exec].  Where the code switches to another
    thread, what is left of the trap is a [pending] for when it runs again. *)

From S2P Require Import Prelude Config Heap CString VfsData Tmpfs Ramfs Vfs Cpio Vma Mmu Kernel Sched Timer Thread Syscall.

(** The code between [sigreturn_stub] and [sigreturn_stub_end]. *)
Class Trampoline := { sigreturn_stub : list Z }.

(** What an external interrupt does: the PLIC and the UART. *)
Class ExternalInterrupts (H D : Type) := { external_interrupt : kernel H -> D -> option (kernel H * D) }.

Inductive pending := After_syscall (v : Z) | After_interrupt | After_kill.

Section Exception.
Context {H : Type} {HO : HeapOps H} {HC : Clock} {KT : KernelText} {UM : UserMem H} {RD : Initrd} {TR : Trampoline}.
Context {D : Type} {IO : DevIO D} {DI : Display D} {XI : ExternalInterrupts H D}.
Notation kernel := (kernel H).

(** ** Page faults *)

Fixpoint find_area (badaddr : Z) (vmas : list vm_area) : option vm_area :=
  match vmas with
  | [] => None
  | v :: vmas => if (va_start v <=? badaddr) && (badaddr <? va_end v) then Some v else find_area badaddr vmas
  end.

(** The entry of a store to a page mapped read-only, if it is one. *)
Definition cow_entry (t : thread) (cause badaddr prot : Z) (k : kernel) : option (option (Z * Z)) :=
  if (cause =? 15) && has prot PROT_WRITE then
    '(pte, vm) ← pagewalk (t_pgd t) badaddr false (as_vm k);
    match pte with
    | None => Some None
    | Some slot => w ← mem vm !! slot; Some (if has w PTE_V && negb (has w PTE_W) then Some (slot, w) else None)
    end
  else Some None.

(** The page is copied when it is shared, and made writable. *)
Definition cow_fault (slot w : Z) (k : kernel) : option kernel :=
  let old_page := pte_page w in
  refs ← h_get_ref old_page (k_heap k);
  if 1 <? refs then
    '(new_page, k) ← kalloc PAGE_SIZE k;
    if new_page =? 0 then Some k else
    let m := clone_words 512 new_page old_page (k_mem k) in
    let m := <[slot := Z.lor (Z.lor (((new_page ⊟ PAGE_OFFSET) ⋙ 12) ⋘ 10) (Z.land w 0x3FF)) PTE_W]> m in
    kfree old_page (set_k_mem m k)
  else Some (set_k_mem (<[slot := Z.lor w PTE_W]> (k_mem k)) k).

Definition permission_ok (cause prot : Z) : bool :=
  negb ((cause =? 12) && negb (has prot PROT_EXEC)) && negb ((cause =? 13) && negb (has prot PROT_READ)) &&
  negb ((cause =? 15) && negb (has prot PROT_WRITE)).

Definition page_base (a : Z) : Z := Z.land a (u64 (Z.lnot (PAGE_SIZE - 1))).

(** The bytes of the file behind the page, from the ram disk. *)
Definition file_bytes (v : vm_area) (badaddr : Z) : option (list Z) :=
  if va_file_data v =? 0 then Some [] else
  let off := page_base badaddr ⊟ va_start v in
  if off <? va_file_size v then
    let size := va_file_size v ⊟ off in
    let size := if PAGE_SIZE <? size then PAGE_SIZE else size in
    slice initrd_bytes (va_file_data v ⊞ off ⊟ initrd_start) size
  else Some [].

(** A zeroed page with the data of the file, mapped; false when there is none. *)
Definition demand_page (t : thread) (v : vm_area) (badaddr : Z) (k : kernel) : option (bool * kernel) :=
  '(pg, vm) ← new_page (as_vm k);
  match pg with
  | None => Some (false, with_vm k vm)
  | Some pg =>
      bs ← file_bytes v badaddr;
      m ← store_bytes pg bs (mem vm);
      vm ← map_pages_at (t_pgd t) (page_base badaddr) (pg ⊟ PAGE_OFFSET) PAGE_SIZE (vma_pte_prot (va_prot v)) (set_mem m vm);
      Some (true, with_vm k vm)
  end.

(** Whether the fault was handled. *)
Definition page_fault (cause badaddr : Z) (k : kernel) : option (bool * kernel) :=
  t ← current k;
  match find_area badaddr (t_vmas t) with
  | None => Some (false, k)
  | Some v =>
      cow ← cow_entry t cause badaddr (va_prot v) k;
      match cow with
      | Some (slot, w) => k ← cow_fault slot w k; Some (true, k)
      | None => if permission_ok cause (va_prot v) then demand_page t v badaddr k else Some (false, k)
      end
  end.

(** ** Signals *)

Fixpoint load_regs (n : nat) (regs : Z) (k : kernel) : option (list Z) :=
  match n with O => Some [] | S n => v ← get_reg regs 0 k; vs ← load_regs n (regs + 8) k; Some (v :: vs) end.

(** The first pending signal, from [i] on. *)
Fixpoint first_signal (n : nat) (i pending : Z) : option Z :=
  match n with
  | O => None
  | S n => if has pending (u32 (Z.shiftl 1 i)) then Some i else first_signal n (i + 1) pending
  end.

Definition signal_pte_prot : Z := flags [PTE_V; PTE_U; PTE_R; PTE_W; PTE_X; PTE_A; PTE_D].

(** The handler of signal [i] is entered on a stack of its own, whose last bytes
    are the trampoline. *)
Definition deliver_signal (i regs : Z) (k : kernel) : option kernel :=
  saved ← load_regs REGS regs k;
  k ← upd_current (fun t => set_t_saved_regs saved (set_t_handling 1
        (set_t_sigpending (Z.land (t_sigpending t) (Z.lxor (2 ^ 32 - 1) (u32 (Z.shiftl 1 i)))) t))) k;
  '(pg, vm) ← new_page (as_vm k);
  sig_phys ← pg;
  let k := with_vm k vm in
  t ← current k;
  vaddr ← find_free_vma_region (t_vmas t) 4096;
  '(node, k) ← kalloc SIZEOF_VM_AREA k;
  '(_, vmas) ← add_vma node vaddr 4096 (Z.lor (Z.lor PROT_READ PROT_WRITE) PROT_EXEC) MAP_ANONYMOUS (t_vmas t);
  k ← upd_current (fun t => set_t_stack_page sig_phys (set_t_stack_vaddr vaddr (set_t_vmas vmas t))) k;
  vm ← map_pages_at (t_pgd t) vaddr (sig_phys ⊟ PAGE_OFFSET) 4096 signal_pte_prot (as_vm k);
  let stub_size := Z.of_nat (length sigreturn_stub) in
  m ← store_bytes (sig_phys ⊞ 4096 ⊟ stub_size) sigreturn_stub (mem vm);
  let k := with_vm k (set_mem m vm) in
  handler ← t_signal_handler t !! Z.to_nat i;
  let trampoline := vaddr ⊞ 4096 ⊟ stub_size in
  Some (set_reg regs reg_epc handler (set_reg regs reg_sp trampoline (set_reg regs reg_ra trampoline k))).

Definition check_signals (regs : Z) (k : kernel) : option kernel :=
  if tp k =? 0 then Some k else
  t ← current k;
  if (t_sigpending t =? 0) || negb (t_handling t =? 0) then Some k else
  match first_signal NR_SIGNALS 0 (t_sigpending t) with
  | None => Some k
  | Some i => deliver_signal i regs k
  end.

(** ** The trap *)

Definition INTERRUPT : Z := 2 ^ 63.

(** The end of [do_trap] after an interrupt: the tasks and the signals. *)
Definition finish_interrupt (fuel : nat) (other : Z -> Z -> kernel -> option kernel) (regs : Z) (k : kernel) : option kernel :=
  k ← run_tasks fuel (run_callback other) (tp k) k;
  check_signals regs k.

(** What is left of the trap once its thread runs again. *)
Definition resume_trap (fuel : nat) (other : Z -> Z -> kernel -> option kernel) (regs : Z) (p : pending) (k : kernel) : option kernel :=
  match p with
  | After_syscall v => k ← finish_syscall regs v k; check_signals regs k
  | After_interrupt => finish_interrupt fuel other regs k
  | After_kill => Some k
  end.

Definition do_trap (fuel : nat) (other : Z -> Z -> kernel -> option kernel) (regs : Z) (k : kernel) (d : D) :
    option (option pending * kernel * D) :=
  cause ← get_reg regs reg_cause k;
  if has cause INTERRUPT then
    let irq := Z.land cause (INTERRUPT - 1) in
    if irq =? 5 then
      '(sw, k) ← handle_timer_interrupt k;
      if (sw : bool) then Some (Some After_interrupt, k, d) else k ← finish_interrupt fuel other regs k; Some (None, k, d)
    else
      '(k, d) ← (if irq =? 9 then external_interrupt k d else Some (k, d));
      k ← finish_interrupt fuel other regs k; Some (None, k, d)
  else if cause =? 8 then
    '(p, k, d) ← handle_syscall regs k d;
    match p with
    | Some v => Some (Some (After_syscall v), k, d)
    | None => k ← check_signals regs k; Some (None, k, d)
    end
  else if (cause =? 12) || (cause =? 13) || (cause =? 15) then
    badaddr ← get_reg regs reg_badaddr k;
    '(handled, k) ← page_fault cause badaddr k;
    if (handled : bool) then Some (None, k, d) else
    '(sw, k) ← thread_exit k; Some (if (sw : bool) then Some After_kill else None, k, d)
  else
    '(sw, k) ← thread_exit k;
    if (sw : bool) then Some (Some After_interrupt, k, d) else k ← finish_interrupt fuel other regs k; Some (None, k, d).

(** ** exec *)

Inductive exec_result := ExecFailed | UserMode (epc sp : Z).

(** Enters the program in user mode; the address space the thread had is not freed. *)
Definition exec (filename : list Z) (k : kernel) : option (exec_result * kernel) :=
  r ← initrd_get_file initrd_files initrd_bytes (cstr filename []);
  match r with
  | None => Some (ExecFailed, k)
  | Some (off, size) =>
      '(new_pgd, k) ← load_program off size k;
      Some (UserMode 0 USER_TOP, set_satp (MAKE_SATP (new_pgd ⊟ PAGE_OFFSET)) k)
  end.

End Exception.
