(* ===== verification/ThreadProps.v ===== *)
(** * Properties of exit and of waiting *)

From S2P Require Import Prelude Config Heap VfsData Vma Mmu Kernel Sched SchedProps Timer Thread Syscall.

Section Exit.
Context {H : Type} {HO : HeapOps H} {KT : KernelText}.
Notation kernel := (kernel H).
Implicit Types (k : kernel).

(** ** Waking the parent *)

(** The parent waits for the process [pid], or for any. *)
Definition waits_for (pid : Z) (p : thread) : bool :=
  bool_decide (t_status p = THREAD_WAITING) && ((t_waiting_pid p =? pid) || (t_waiting_pid p =? -1)).

Definition wake (p : thread) : thread := set_t_waiting_pid (-1) (set_t_status THREAD_READY p).

(** The thread at [x] once the thread at [c], which is [t], died as [st]. *)
Definition died (st : THREAD_STATUS) (c : Z) (t : thread) (x : Z) (u : thread) : thread :=
  if decide (x = c) then set_t_status st u
  else if decide (x = t_parent t /\ waits_for (t_pid t) u = true) then wake u else u.

(** The parent field is NULL or points to another live thread. *)
Definition parent_ok k (c : Z) (t : thread) : Prop :=
  t_parent t = 0 \/ (t_parent t <> c /\ is_Some (threads k !! t_parent t)).

Lemma upd_lookup k p t f : threads k !! p = Some t -> upd_thread p f k = Some (set_threads (<[p := f t]> (threads k)) k).
Proof. intros E. unfold upd_thread. by rewrite E. Qed.

Lemma die_spec st k c t : threads k !! c = Some t -> 0 <> c -> parent_ok k c t -> zombie st = true -> threads k !! 0 = None ->
  exists ths, (k1 ← upd_thread c (set_t_status st) k; wake_parent c k1) = Some (set_threads ths k) /\
    forall x, ths !! x = died st c t x <$> threads k !! x.
Proof.
  intros Ht Hc Hpar Hst H0. rewrite (upd_lookup k c t _ Ht). cbn [mbind option_bind]. unfold wake_parent. cbn [threads set_threads].
  rewrite lookup_insert_eq. cbn [mbind option_bind t_parent set_t_status t_pid].
  assert (Hid : forall x, <[c := set_t_status st t]> (threads k) !! x =
    (fun u => if decide (x = c) then set_t_status st u else u) <$> threads k !! x).
  { intros x. destruct (decide (x = c)) as [-> | Hx]; [by rewrite lookup_insert_eq, Ht |].
    rewrite lookup_insert_ne by done. by destruct (threads k !! x). }
  destruct (Z.eqb_spec (t_parent t) 0) as [Ep | Ep].
  - eexists. split; [reflexivity |]. intros x. rewrite Hid. unfold died.
    destruct (threads k !! x) as [u |] eqn:Eu; [| done]. simpl. f_equal. case_decide; [done |].
    rewrite decide_False; [done |]. intros [-> _]. rewrite Ep in Eu. congruence.
  - destruct Hpar as [? | [Hpc [p Hp]]]; [done |]. rewrite lookup_insert_ne, Hp by done. cbn [mbind option_bind].
    fold (waits_for (t_pid t) p). destruct (waits_for (t_pid t) p) eqn:Ew.
    + unfold upd_thread. cbn [threads set_threads]. rewrite lookup_insert_ne, Hp by done. cbn [mbind option_bind].
      eexists. split; [reflexivity |]. intros x. unfold died. destruct (decide (x = t_parent t)) as [-> | Hx].
      * rewrite lookup_insert_eq, Hp. simpl. rewrite decide_False, decide_True; done.
      * rewrite lookup_insert_ne, Hid by done. destruct (threads k !! x); [| done]. simpl. case_decide; [done |].
        by rewrite decide_False by tauto.
    + eexists. split; [reflexivity |]. intros x. rewrite Hid. unfold died. destruct (threads k !! x) as [u |] eqn:Eu; [| done]. simpl.
      f_equal. case_decide; [done |]. rewrite decide_False; [done |]. intros [-> Hw]. congruence.
Qed.

Lemma died_fields st c t x u : t_next (died st c t x u) = t_next u /\ t_pid (died st c t x u) = t_pid u /\ t_pgd (died st c t x u) = t_pgd u.
Proof. unfold died, wake. by repeat case_decide. Qed.

(** Changing statuses without making a thread run keeps the queue well-formed. *)
Lemma sched_ok_map k xs ths f : sched_ok k xs -> (forall x, ths !! x = f x <$> threads k !! x) ->
  (forall x t, t_next (f x t) = t_next t /\ t_pid (f x t) = t_pid t /\ t_pgd (f x t) = t_pgd t) ->
  (forall x t, t_status (f x t) = THREAD_RUNNING -> t_status t = THREAD_RUNNING) ->
  sched_ok (set_threads ths k) xs.
Proof.
  intros [Hnz (Hnd & Hne & Hp) Hq Hid Hrun Hsatp] Hths Hf Hst. split; cbn; try done.
  - split_and!; [done | done |]. eapply path_ext; [| exact Hp]. intros a t _ Ha. exists (f a t). rewrite Hths, Ha. split; [done | apply Hf].
  - destruct Hid as (i & t & Hi & Ht & Hpid). exists i, (f i t). rewrite Hths, Ht. split_and!; [done | done |].
    destruct (Hf i t) as (_ & -> & _). done.
  - intros x t Hx Ht Hs. rewrite Hths in Ht. destruct (threads k !! x) as [u |] eqn:Eu; [| done]. injection Ht as <-.
    apply (Hrun x u); [done | done | by eapply Hst].
  - intros t Ht. rewrite Hths in Ht. destruct (threads k !! tp k) as [u |] eqn:Eu; [| done]. injection Ht as <-.
    unfold pgd_of. cbn. destruct (Hf (tp k) u) as (_ & _ & ->). by apply Hsatp.
Qed.

Lemma sched_ok_died k xs ths st c t : sched_ok k xs -> zombie st = true -> (forall x, ths !! x = died st c t x <$> threads k !! x) ->
  sched_ok (set_threads ths k) xs.
Proof.
  intros Hok Hst Hths. eapply sched_ok_map; [done | exact Hths | apply died_fields |].
  intros x u. unfold died, wake. repeat case_decide; cbn; try done. by intros ->.
Qed.

(** ** Exit *)

Lemma thread_exit_spec k xs t : sched_ok k xs -> threads k !! tp k = Some t -> t_pid t <> 0 ->
  parent_ok k (tp k) t -> threads k !! 0 = None ->
  exists k' nxt xs', thread_exit k = Some (true, k') /\ tp k' = nxt /\ nxt ∈ xs /\ sched_ok k' xs' /\ nxt :: xs' ≡ₚ tp k :: xs /\
    forall x u, threads k !! x = Some u -> exists u', threads k' !! x = Some u' /\
      (x = nxt -> t_status u' = THREAD_RUNNING) /\
      (x <> nxt -> t_status u' = t_status (died THREAD_TERMINATED (tp k) t x u) /\
                   t_waiting_pid u' = t_waiting_pid (died THREAD_TERMINATED (tp k) t x u)).
Proof.
  intros Hok Ht Hpid Hpar H0. unfold thread_exit.
  assert (Hc : 0 <> tp k) by (intros E; rewrite <- E in Ht; congruence). destruct (Z.eqb_spec (tp k) 0); [done |].
  destruct (die_spec THREAD_TERMINATED k (tp k) t Ht Hc Hpar eq_refl H0) as (ths & -> & Hths). cbn [mbind option_bind].
  set (k1 := set_threads ths k).
  assert (Hok1 : sched_ok k1 xs) by (by apply (sched_ok_died k xs ths THREAD_TERMINATED (tp k) t)).
  destruct (schedule_spec k1 xs Hok1) as (sw & k' & nxt & xs' & -> & Hn & Hin & Htp & Hsw & Hok' & Hperm & _ & Hth & _).
  assert (Hne : nxt <> tp k).
  { intros ->. unfold next_thread in Hn. destruct (first_runnable (threads k1) (xs ++ [tp k1])) as [x |] eqn:Ef.
    - subst x. apply first_runnable_elem in Ef as (_ & Hr & _). unfold is_runnable in Hr. cbn [k1 threads set_threads tp] in Hr.
      rewrite Hths, Ht in Hr. cbn in Hr. unfold died in Hr. rewrite decide_True in Hr by done. done.
    - destruct Hn as (_ & u & Hu & Hp). cbn [k1 threads set_threads tp] in Hu. rewrite Hths, Ht in Hu. injection Hu as <-.
      destruct (died_fields THREAD_TERMINATED (tp k) t (tp k) t) as (_ & E & _). congruence. }
  exists k', nxt, xs'. split_and!; try done.
  - f_equal. f_equal. by apply Hsw.
  - cbn [k1 tp set_threads] in Hin. apply elem_of_cons in Hin as [? | ?]; [congruence | done].
  - intros x u Hu. exists (rescheduled k1 nxt x (died THREAD_TERMINATED (tp k) t x u)).
    rewrite Hth. cbn [k1 threads set_threads]. rewrite Hths, Hu. split; [done |]. split.
    + intros Ex. unfold rescheduled. rewrite (decide_True (P := x = nxt)) by exact Ex. case_decide; reflexivity.
    + intros Hx. unfold rescheduled. rewrite (decide_False (P := x = nxt)) by done. cbn [k1 tp set_threads].
      rewrite (decide_False (P := x = tp k /\ t_status _ = THREAD_RUNNING)).
      * by case_decide.
      * intros [-> Hs]. unfold died in Hs. rewrite decide_True in Hs by done. done.
Qed.

(** ** Waiting *)

(** The first thread of a list with a given pid. *)
Fixpoint first_pid (ths : gmap Z thread) (pid : Z) (xs : list Z) : option Z :=
  match xs with
  | [] => None
  | x :: xs => if bool_decide (t_pid <$> ths !! x = Some pid) then Some x else first_pid ths pid xs
  end.

Lemma find_pid_spec fuel pid ths x xs h : path ths x (x :: xs) h -> h ∉ xs -> (length xs <= fuel)%nat ->
  find_pid fuel x h pid ths = Some (first_pid ths pid (x :: xs)).
Proof.
  revert x xs. induction fuel as [| fuel IH]; intros x xs (_ & t & Ht & Hp) Hh Hf; simpl;
    rewrite Ht; cbn [mbind option_bind fmap option_fmap option_map]; destruct (Z.eqb_spec (t_pid t) pid) as [E | E];
    try (by rewrite bool_decide_true by congruence);
    rewrite bool_decide_false by congruence.
  - destruct xs; [| simpl in Hf; lia]. simpl in Hp. by rewrite Hp, Z.eqb_refl.
  - destruct xs as [| y ys]; [simpl in Hp; by rewrite Hp, Z.eqb_refl |]. pose proof Hp as [Ey _].
    destruct (Z.eqb_spec (t_next t) h); [set_solver |]. rewrite Ey in *. apply (IH y ys Hp); [set_solver | simpl in Hf; lia].
Qed.

Lemma first_pid_elem ths pid xs x : first_pid ths pid xs = Some x -> x ∈ xs /\ exists t, ths !! x = Some t /\ t_pid t = pid.
Proof.
  induction xs as [| y ys IH]; [done |]. cbn [first_pid]. case_bool_decide as E.
  - intros [= <-]. split; [by left |]. destruct (ths !! y) as [t |]; [| done]. injection E as E. by exists t.
  - intros (? & ?)%IH. split; [by right | done].
Qed.

(** The queue from its head. *)
Lemma queue_ring k xs : sched_ok k xs -> exists ys, ring (threads k) (run_queue k) (run_queue k :: ys) /\ tp k :: xs ≡ₚ run_queue k :: ys.
Proof. intros []. by apply (ring_from _ (tp k)). Qed.

Lemma find_pid_queue k xs pid ys : sched_ok k xs -> ring (threads k) (run_queue k) (run_queue k :: ys) ->
  find_pid (ring_fuel (threads k)) (run_queue k) (run_queue k) pid (threads k) = Some (first_pid (threads k) pid (run_queue k :: ys)).
Proof.
  intros Hok Hr. pose proof Hr as (Hnd & _ & Hp). apply NoDup_cons in Hnd as [Hn _]. apply find_pid_spec; [done | done |].
  pose proof (ring_length _ _ _ Hr). simpl in *. lia.
Qed.

Definition wait_for (pid : Z) (t : thread) : thread := set_t_waiting_pid (i32 pid) (set_t_status THREAD_WAITING t).

Lemma sys_waitpid_spec k xs ys t pid : sched_ok k xs -> threads k !! tp k = Some t ->
  ring (threads k) (run_queue k) (run_queue k :: ys) ->
  match first_pid (threads k) pid (run_queue k :: ys) with
  | None => sys_waitpid pid k = Some (Ret (-1), k)
  | Some c => exists u, threads k !! c = Some u /\
      if zombie (t_status u) then sys_waitpid pid k = Some (Ret pid, k)
      else exists sw k' k1 xs', sys_waitpid pid k = Some (if (sw : bool) then Switch pid else Ret pid, k') /\
        k1 = put_thread (tp k) (wait_for pid t) k /\ schedule k1 = Some (sw, k') /\ sched_ok k1 xs /\ sched_ok k' xs' /\
        (sw = true -> exists t', threads k' !! tp k = Some t' /\ t_status t' = THREAD_WAITING /\ t_waiting_pid t' = i32 pid)
  end.
Proof.
  intros Hok Ht Hr. unfold sys_waitpid. rewrite (find_pid_queue k xs pid ys Hok Hr). cbn [mbind option_bind].
  destruct (first_pid (threads k) pid (run_queue k :: ys)) as [c |] eqn:Ef; [| done].
  apply first_pid_elem in Ef as (_ & u & Hu & _). exists u. split; [done |]. rewrite Hu. cbn [mbind option_bind].
  destruct (zombie (t_status u)); [done |]. unfold upd_current. rewrite (upd_lookup _ _ t _ Ht). cbn [mbind option_bind].
  set (k1 := set_threads _ k).
  assert (Hths : forall x, threads k1 !! x = (fun v => if decide (x = tp k) then wait_for pid v else v) <$> threads k !! x).
  { intros x. cbn. destruct (decide (x = tp k)) as [-> | Hx]; [by rewrite lookup_insert_eq, Ht |].
    rewrite lookup_insert_ne by done. by destruct (threads k !! x). }
  assert (Hok1 : sched_ok k1 xs).
  { eapply (sched_ok_map k xs (threads k1) (fun x v => if decide (x = tp k) then wait_for pid v else v)); try done.
    - intros x v. by case_decide.
    - intros x v. by case_decide. }
  destruct (schedule_spec k1 xs Hok1) as (sw & k' & nxt & xs' & Es & _ & _ & Htp & Hsw & Hok' & _ & _ & Hth & _).
  exists sw, k', k1, xs'. unfold resched. rewrite Es. cbn [mbind option_bind]. split_and!; try done. intros ->.
  assert (Hne : nxt <> tp k1) by (by apply Hsw). rewrite Hth, Hths, Ht. cbn [fmap option_fmap option_map].
  eexists. split; [reflexivity |]. rewrite decide_True by done. unfold rescheduled.
  rewrite (decide_False (P := tp k = nxt)) by (intros <-; by apply Hne).
  rewrite (decide_False (P := tp k = tp k1 /\ t_status (wait_for pid t) = THREAD_RUNNING)) by (intros [_ Hx]; discriminate Hx).
  by case_decide.
Qed.

(** ** The properties *)

(** C17: thread_exit ends the current thread: it becomes a zombie, another thread
    of the queue runs, a parent that waits for this process or for any is made
    ready, and no other thread changes. *)
Theorem thread_exit_wakes_parent k xs t : sched_ok k xs -> threads k !! tp k = Some t -> t_pid t <> 0 ->
  parent_ok k (tp k) t -> threads k !! 0 = None ->
  exists k' nxt xs', thread_exit k = Some (true, k') /\ tp k' = nxt /\ nxt ∈ xs /\ sched_ok k' xs' /\ nxt :: xs' ≡ₚ tp k :: xs /\
    forall x u, threads k !! x = Some u -> exists u', threads k' !! x = Some u' /\
      (x = nxt -> t_status u' = THREAD_RUNNING) /\
      (x <> nxt -> t_status u' = t_status (died THREAD_TERMINATED (tp k) t x u) /\
                   t_waiting_pid u' = t_waiting_pid (died THREAD_TERMINATED (tp k) t x u)).
Proof. apply thread_exit_spec. Qed.

(** Sys_waitpid answers -1 when no thread of the queue has the pid, the pid at
    once when that thread is a zombie, and else puts the caller to wait for it
    and switches to another thread. *)
Theorem sys_waitpid_waits k xs ys t pid : sched_ok k xs -> threads k !! tp k = Some t ->
  ring (threads k) (run_queue k) (run_queue k :: ys) ->
  match first_pid (threads k) pid (run_queue k :: ys) with
  | None => sys_waitpid pid k = Some (Ret (-1), k)
  | Some c => exists u, threads k !! c = Some u /\
      if zombie (t_status u) then sys_waitpid pid k = Some (Ret pid, k)
      else exists sw k' k1 xs', sys_waitpid pid k = Some (if (sw : bool) then Switch pid else Ret pid, k') /\
        k1 = put_thread (tp k) (wait_for pid t) k /\ schedule k1 = Some (sw, k') /\ sched_ok k1 xs /\ sched_ok k' xs' /\
        (sw = true -> exists t', threads k' !! tp k = Some t' /\ t_status t' = THREAD_WAITING /\ t_waiting_pid t' = i32 pid)
  end.
Proof. apply sys_waitpid_spec. Qed.

End Exit.

(** ** Witnesses *)

#[local] Instance no_heap : HeapOps unit := {
  h_allocate _ _ := Some (0, tt); h_free _ _ := Some tt; h_inc_ref _ _ := None; h_get_ref _ := fun _ => None;
}.

(** Thread 300, of pid 2, runs; its parent 200, of pid 1, waits for it; 100 is idle. *)
Definition family : kernel unit :=
  Kernel tt ∅ vfs0 (list_to_map [(100, demo_thread 0 THREAD_READY 200 4096);
      (200, set_t_waiting_pid 2 (demo_thread 1 THREAD_WAITING 300 4096));
      (300, set_t_parent 200 (demo_thread 2 THREAD_RUNNING 100 4096))])
    100 3 300 (Context_ 7 7 []) (MAKE_SATP (4096 ⊟ PAGE_OFFSET)) 4096 [] [] (2 ^ 64 - 1) 0 10000000 (-1).

Lemma family_ok : sched_ok family [100; 200].
Proof.
  split.
  - set_solver.
  - split_and!; [repeat constructor; set_solver | done |]. repeat (split; [reflexivity |]; eexists; split; [reflexivity |]). reflexivity.
  - right. by left.
  - exists 100, (demo_thread 0 THREAD_READY 200 4096). split_and!; [right; by left | reflexivity | reflexivity].
  - intros x t Hx. rewrite !elem_of_cons in Hx. destruct Hx as [-> | [-> | [-> | []%elem_of_nil]]]; [done | |]; intros [= <-]; discriminate.
  - intros t [= <-]. reflexivity.
Qed.

Lemma thread_exit_wakes_parent_witness : exists k' u', thread_exit family = Some (true, k') /\ tp k' = 100 /\
  threads k' !! 200 = Some u' /\ t_status u' = THREAD_READY /\ t_waiting_pid u' = -1.
Proof.
  destruct (thread_exit_wakes_parent family [100; 200] (set_t_parent 200 (demo_thread 2 THREAD_RUNNING 100 4096)) family_ok)
    as (k' & nxt & xs' & E & Ht & _ & _ & _ & Hth); [reflexivity | discriminate | right; split; [discriminate | by eexists] | reflexivity |].
  assert (Hn : nxt = 100).
  { assert (Ec : (tp ∘ snd <$> thread_exit family) = Some 100) by reflexivity. rewrite E in Ec. cbn in Ec. congruence. }
  destruct (Hth 200 _ eq_refl) as (u' & Hu & _ & Hs). exists k', u'. subst nxt.
  destruct Hs as [Hs Hw]; [rewrite Hn; discriminate |]. split_and!; [exact E | exact Hn | exact Hu | exact Hs | exact Hw].
Defined.

Lemma sys_waitpid_waits_witness : sys_waitpid 9 family = Some (Ret (-1), family) /\
  exists sw k', sys_waitpid 1 family = Some (if (sw : bool) then Switch 1 else Ret 1, k').
Proof.
  assert (Hr : ring (threads family) (run_queue family) (run_queue family :: [200; 300])).
  { split_and!; [repeat constructor; set_solver | done |]. repeat (split; [reflexivity |]; eexists; split; [reflexivity |]). reflexivity. }
  split.
  - exact (sys_waitpid_waits family [100; 200] [200; 300] (set_t_parent 200 (demo_thread 2 THREAD_RUNNING 100 4096)) 9 family_ok eq_refl Hr).
  - destruct (sys_waitpid_waits family [100; 200] [200; 300] (set_t_parent 200 (demo_thread 2 THREAD_RUNNING 100 4096)) 1 family_ok eq_refl Hr)
      as (u & Hu & Hz). injection Hu as <-. destruct Hz as (sw & k' & _ & _ & E & _). exists sw, k'. exact E.
Defined.
