(* ===== verification/FaultProps.v ===== *)
(** * Properties of page faults: copy-on-write and demand paging *)

From S2P Require Import Prelude Config Heap CString VfsData Tmpfs Ramfs Vfs Cpio Vma Mmu MmuProofs MmuProps Kernel Sched SchedProps Timer Thread Syscall Exception ThreadProps.

Section Fault.
Context {H : Type} {HO : HeapOps H} {HS : HeapSpec H} {RD : Initrd}.
Notation kernel := (kernel H).
Implicit Types (k : kernel) (mm : gmap Z (Z * Z)) (T : tables).

(** ** Copy-on-write *)

(** The entry of [badaddr] now says [pg] with [W] set, the others are as before. *)
Definition made_writable k k' (t : thread) T (badaddr pg : Z) : Prop :=
  let w := pte_of (k_mem k) T badaddr in let w' := pte_of (k_mem k') T badaddr in
  pt_ok (k_mem k') (t_pgd t) T /\ pte_page w' = pg /\ Z.land w' 1023 = Z.lor (Z.land w 1023) PTE_W /\
  forall va, 0 <= va -> vpn va <> vpn badaddr -> pte_of (k_mem k') T va = pte_of (k_mem k) T va.

(** A store fault on a valid read-only page of a writable area. *)
Record cow_case k (t : thread) mm T (v : vm_area) (badaddr n c : Z) : Prop := {
  cc_current : current k = Some t;
  cc_owns : owns (k_heap k) mm;
  cc_tables : pt_ok (k_mem k) (t_pgd t) T;
  cc_live : tables_live T mm;
  cc_addr : 0 <= badaddr;
  cc_area : find_area badaddr (t_vmas t) = Some v;
  cc_prot : has (va_prot v) PROT_WRITE = true;
  cc_range : 0 <= pte_of (k_mem k) T badaddr < 2 ^ 64;
  cc_valid : has (pte_of (k_mem k) T badaddr) PTE_V = true;
  cc_readonly : has (pte_of (k_mem k) T badaddr) PTE_W = false;
  cc_page : mm !! pte_page (pte_of (k_mem k) T badaddr) = Some (n, c);
  cc_size : PAGE_SIZE <= n;
  cc_not_table p q : T !! p = Some q -> q <> pte_page (pte_of (k_mem k) T badaddr);
}.

Lemma has_lor_eq w : Z.land (Z.lor w PTE_W) 1023 = Z.lor (Z.land w 1023) PTE_W.
Proof. rewrite Z.land_lor_distr_l. done. Qed.

Lemma pte_page_lor w f : 0 <= w -> 0 <= f < 1024 -> pte_page (Z.lor w f) = pte_page w.
Proof.
  intros Hw Hf. unfold pte_page. rewrite Z.shiftr_lor. rewrite (Z.shiftr_div_pow2 f) by lia.
  rewrite (Z.div_small f) by (change (2 ^ 10) with 1024; lia). by rewrite Z.lor_0_r.
Qed.

(** The entry written for the copy. *)
Definition copied_pte (new w : Z) : Z := Z.lor (Z.lor (((new ⊟ PAGE_OFFSET) ⋙ 12) ⋘ 10) (Z.land w 0x3FF)) PTE_W.

Lemma copied_pte_spec new w : (PAGE_SIZE | new) -> 0 <= new < 2 ^ 64 -> 0 <= w ->
  pte_page (copied_pte new w) = new /\ Z.land (copied_pte new w) 1023 = Z.lor (Z.land w 1023) PTE_W.
Proof.
  intros [q Eq] Hn Hw. rewrite PAGE_SIZE_val in Eq. pose proof (u64_range (new - PAGE_OFFSET)) as Hr. unfold copied_pte.
  set (x := (new ⊟ PAGE_OFFSET) / 4096).
  assert (E : ((new ⊟ PAGE_OFFSET) ⋙ 12) ⋘ 10 = x * 2 ^ 10).
  { rewrite Z.shiftr_div_pow2, Z.shiftl_mul_pow2 by lia. change (2 ^ 12) with 4096. apply u64_small. subst x. change (2 ^ 10) with 1024. dlia. }
  rewrite E, <- Z.lor_assoc. set (f := Z.lor (Z.land w 1023) PTE_W).
  assert (Hf : 0 <= f < 1024).
  { subst f. change 1023 with (2 ^ 10 - 1). rewrite land_mask by lia. split; [apply Z.lor_nonneg; split; [apply Z.mod_pos_bound; lia | done] |].
    pose proof (Z.mod_pos_bound w (2 ^ 10)). assert (Hl : Z.land (Z.lor (w mod 2 ^ 10) PTE_W) (2 ^ 10 - 1) = Z.lor (w mod 2 ^ 10) PTE_W).
    { rewrite land_mask by lia. rewrite <- land_mask by lia. rewrite Z.land_lor_distr_l, !land_mask by lia. by rewrite Z.mod_mod by lia. }
    rewrite <- Hl, land_mask by lia. apply Z.mod_pos_bound. lia. }
  rewrite lor_low by (lia || done). change (x * 2 ^ 10 + f) with (entry x f). split.
  - rewrite pte_page_entry by (subst x; dlia). subst x.
    replace ((new ⊟ PAGE_OFFSET) / 4096 * 4096) with (new ⊟ PAGE_OFFSET) by (unfold u64, PAGE_OFFSET in *; dlia).
    unfold u64. rewrite Zplus_mod_idemp_l. rewrite Z.mod_small; lia.
  - unfold entry. change 1023 with (2 ^ 10 - 1). rewrite land_mask by lia. change (2 ^ 10) with 1024.
    rewrite Z.add_comm, Z_mod_plus_full. by rewrite Z.mod_small.
Qed.

Lemma page_fault_cow k t mm T v badaddr n c : cow_case k t mm T v badaddr n c ->
  exists pt, T !! [vpn2 badaddr; vpn1 badaddr] = Some pt /\
    page_fault 15 badaddr k = (k' ← cow_fault (word pt (vpn0 badaddr)) (pte_of (k_mem k) T badaddr) k; Some (true, k')).
Proof.
  intros []. unfold page_fault. rewrite cc_current0. cbn [mbind option_bind]. rewrite cc_area0. unfold cow_entry. rewrite cc_prot0. cbn [Z.eqb andb].
  rewrite (pagewalk_find _ _ T) by done. cbn [mbind option_bind fmap option_fmap option_map as_vm mem].
  unfold pte_of in cc_valid0. destruct (T !! [vpn2 badaddr; vpn1 badaddr]) as [pt |] eqn:E; [| done]. cbn [fmap option_fmap option_map].
  exists pt. split; [done |].
  destruct (pt_leaf _ _ _ cc_tables0 _ pt (vpn0 badaddr) E eq_refl) as [w Hw]; [by apply vpn_range |].
  assert (Ew : pte_of (k_mem k) T badaddr = w) by (unfold pte_of; by rewrite E, Hw).
  rewrite Hw. cbn [mbind option_bind]. rewrite Ew in *. rewrite Hw in cc_valid0. cbn [default] in cc_valid0. unfold default, id in cc_valid0.
  by rewrite cc_valid0, cc_readonly0.
Qed.

(** The store into the entry of [badaddr]. *)
Lemma made_writable_store k k' t T badaddr pg m1 w' pt : pt_ok m1 (t_pgd t) T -> 0 <= badaddr ->
  (forall va, 0 <= va -> pte_of m1 T va = pte_of (k_mem k) T va) ->
  T !! [vpn2 badaddr; vpn1 badaddr] = Some pt -> k_mem k' = <[word pt (vpn0 badaddr) := w']> m1 ->
  pte_page w' = pg -> Z.land w' 1023 = Z.lor (Z.land (pte_of (k_mem k) T badaddr) 1023) PTE_W ->
  made_writable k k' t T badaddr pg.
Proof.
  intros Hok Hb Hpte Hpt Em Hpg Hl. destruct (store_leaf_ok (t_pgd t) m1 T badaddr pt w' Hok Hpt Hb) as (Hok' & Hat & Hout).
  unfold made_writable. rewrite Em, Hat. split_and!; try done. intros va Hva Hne. rewrite Hout by done. by apply Hpte.
Qed.

Lemma cow_fault_owner k t mm T v badaddr n : cow_case k t mm T v badaddr n 1 ->
  exists k', page_fault 15 badaddr k = Some (true, k') /\ k_heap k' = k_heap k /\
    made_writable k k' t T badaddr (pte_page (pte_of (k_mem k) T badaddr)) /\
    forall a, off_tables T a -> k_mem k' !! a = k_mem k !! a.
Proof.
  intros Hc. destruct (page_fault_cow _ _ _ _ _ _ _ _ Hc) as (pt & Ept & ->). destruct Hc. unfold cow_fault.
  rewrite (owns_get_ref _ _ _ _ _ cc_owns0 cc_page0 cc_size0). cbn [mbind option_bind Z.ltb Z.compare].
  eexists. split; [reflexivity |]. split; [done |]. split.
  - eapply made_writable_store; [exact cc_tables0 | done | done | exact Ept | reflexivity | |].
    + apply pte_page_lor; [lia | done].
    + apply has_lor_eq.
  - intros a Ha. cbn. apply lookup_insert_ne. intros <-. destruct (vpn_range badaddr cc_addr0) as (_ & _ & ?).
    apply (Ha _ _ Ept). unfold word. rewrite PAGE_SIZE_val. lia.
Qed.

Lemma cow_fault_shared k t mm T v badaddr n c : cow_case k t mm T v badaddr n c -> 1 < c ->
  let old := pte_page (pte_of (k_mem k) T badaddr) in
  page_fault 15 badaddr k = Some (true, k) /\ h_allocate PAGE_SIZE (k_heap k) = Some (0, k_heap k) \/
  exists k' new n', page_fault 15 badaddr k = Some (true, k') /\ mm !! new = None /\ PAGE_SIZE <= n' /\
    owns (k_heap k') (<[old := (n, c - 1)]> (<[new := (n', 1)]> mm)) /\
    made_writable k k' t T badaddr new /\
    (forall i, 0 <= i < 512 -> k_mem k' !! word new i = k_mem k !! word old i) /\
    (forall a, off_tables T a -> ~ new <= a < new + PAGE_SIZE -> k_mem k' !! a = k_mem k !! a).
Proof.
  intros Hc Hc1. destruct (page_fault_cow _ _ _ _ _ _ _ _ Hc) as (pt & Ept & ->). destruct Hc. unfold cow_fault. set (w := pte_of (k_mem k) T badaddr) in *.
  rewrite (owns_get_ref _ _ _ _ _ cc_owns0 cc_page0 cc_size0). cbn [mbind option_bind].
  destruct (Z.ltb_spec 1 c); [| lia]. unfold kalloc.
  destruct (owns_allocate _ _ PAGE_SIZE cc_owns0) as [E | (new & h & n' & E & Hn' & Hnew & Ho')]; [done | |]; rewrite E; cbn [mbind option_bind].
  { left. split; [by destruct k | reflexivity]. }
  right. assert (Hne : new <> pte_page w) by (intros ->; congruence).
  destruct (owns_bounds _ _ new n' 1 Ho') as (Hnew0 & Hnew1 & Hend & _ & Hal); [by rewrite lookup_insert_eq |].
  destruct (Z.eqb_spec new 0); [lia |]. unfold kfree. cbn [k_heap set_k_mem set_k_heap k_mem].
  destruct (owns_unshare _ _ (pte_page w) n c Ho') as (h' & E' & Ho''); [by rewrite lookup_insert_ne | done |]. rewrite E'. cbn [mbind option_bind].
  assert (Hl' : tables_live T (<[new := (n', 1)]> mm)).
  { intros p q Hq. destruct (cc_live0 p q Hq) as (x & y & Hxy & ?). exists x, y. rewrite lookup_insert_ne by congruence. done. }
  assert (Hoff : forall a, new <= a < new + PAGE_SIZE -> off_tables T a).
  { intros a Ha. eapply (object_off_tables _ _ T new n' 1 Ho' Hl'); [by rewrite lookup_insert_eq | | lia].
    intros q p Hq ->. destruct (cc_live0 p new Hq) as (x & y & Hxy & _). congruence. }
  assert (Hapart : new + PAGE_SIZE <= pte_page w \/ pte_page w + PAGE_SIZE <= new).
  { destruct (owns_apart _ _ new n' 1 (pte_page w) n c Ho') as [? | ?]; [by rewrite lookup_insert_eq | by rewrite lookup_insert_ne | done | lia]. }
  assert (Hcl : forall a, ~ new <= a < new + PAGE_SIZE -> clone_words 512 new (pte_page w) (k_mem k) !! a = k_mem k !! a).
  { intros a Ha. apply clone_words_out. intros i Hi ->. apply Ha. unfold word. rewrite PAGE_SIZE_val. lia. }
  destruct (pt_ok_frame (k_mem k) (clone_words 512 new (pte_page w) (k_mem k)) (t_pgd t) T cc_tables0) as [Hok1 Hpte1].
  { intros p q i Hq Hi. apply Hcl. intros Hin. apply (Hoff _ Hin p q Hq). unfold word. rewrite PAGE_SIZE_val. lia. }
  assert (Hslot : forall a, off_tables T a -> a <> word pt (vpn0 badaddr)).
  { intros a Ha ->. destruct (vpn_range badaddr cc_addr0) as (_ & _ & ?). apply (Ha _ _ Ept). unfold word. rewrite PAGE_SIZE_val. lia. }
  destruct (copied_pte_spec new w) as [Epg Efl]; [apply Hal; exact Hn' | lia | exact (proj1 cc_range0) |].
  eexists _, new, n'. split; [reflexivity |]. split; [exact Hnew |]. split; [exact Hn' |]. split; [exact Ho'' |]. split_and!.
  - eapply made_writable_store; [exact Hok1 | done | exact Hpte1 | exact Ept | reflexivity | exact Epg | exact Efl].
  - intros i Hi. cbn -[clone_words]. rewrite lookup_insert_ne by (apply not_eq_sym, Hslot, Hoff; unfold word; rewrite PAGE_SIZE_val; lia).
    apply clone_words_in; rewrite ?PAGE_SIZE_val in *; lia.
  - intros a Ha Hna. cbn -[clone_words]. rewrite lookup_insert_ne by (apply not_eq_sym; by apply Hslot). by apply Hcl.
Qed.

(** ** Demand paging *)

Definition access_fault (cause : Z) : Prop := cause = 12 \/ cause = 13 \/ cause = 15.

Lemma page_base_spec a : 0 <= a < 2 ^ 64 -> page_base a = a - a mod 4096.
Proof.
  intros Ha. unfold page_base. rewrite PAGE_SIZE_val. change (4096 - 1) with (2 ^ 12 - 1). change 4096 with (2 ^ 12).
  by apply land_lnot_mask.
Qed.

Lemma vma_prot_ok cause prot : access_fault cause -> permission_ok cause prot = true ->
  0 <= vma_pte_prot prot < 1024 /\ has (vma_pte_prot prot) PTE_V = true /\ has (vma_pte_prot prot) PTE_U = true /\
  is_leaf (vma_pte_prot prot) = true /\ (cause = 12 -> has (vma_pte_prot prot) PTE_X = true) /\
  (cause = 13 -> has (vma_pte_prot prot) PTE_R = true) /\ (cause = 15 -> has (vma_pte_prot prot) PTE_W = true).
Proof.
  unfold permission_ok, vma_pte_prot. intros [-> | [-> | ->]]; cbn [Z.eqb Pos.eqb andb negb];
    destruct (has prot PROT_EXEC), (has prot PROT_READ), (has prot PROT_WRITE); intros E; try discriminate E;
    (split; [vm_compute; split; congruence |]); by split_and!.
Qed.

Lemma slice_length bs off len l : slice bs off len = Some l -> Z.of_nat (length l) = len.
Proof.
  unfold slice. destruct (Z.ltb_spec off 0), (Z.ltb_spec len 0), (Z.ltb_spec (Z.of_nat (length bs)) (off + len)); try done.
  intros [= <-]. rewrite length_take, length_drop. lia.
Qed.

Lemma file_bytes_length v a bs : file_bytes v a = Some bs -> Z.of_nat (length bs) <= PAGE_SIZE.
Proof.
  unfold file_bytes. destruct (_ =? 0); [intros [= <-]; done |]. destruct (Z.ltb_spec (page_base a ⊟ va_start v) (va_file_size v)); [| intros [= <-]; done].
  intros E%slice_length. rewrite E. destruct (Z.ltb_spec PAGE_SIZE (va_file_size v ⊟ (page_base a ⊟ va_start v))); lia.
Qed.

(** The page at [pg] holds [bs] and then zeros. *)
Definition page_holds (m : gmap Z Z) (pg : Z) (bs : list Z) : Prop :=
  forall i, 0 <= i < PAGE_SIZE -> load_byte (pg + i) m = Some (Z.land (default 0 (bs !! Z.to_nat i)) 255).

Lemma filled_page pg bs m : (PAGE_SIZE | pg) -> Z.of_nat (length bs) <= PAGE_SIZE ->
  exists m', store_bytes pg bs (zero_page pg m) = Some m' /\ page_holds m' pg bs /\ forall x, ~ pg <= x < pg + PAGE_SIZE -> m' !! x = m !! x.
Proof.
  intros Hd Hlen. assert (H8 : (8 | pg)) by (eapply Z.divide_trans; [| exact Hd]; by exists 512).
  assert (Hin : forall b, pg <= b < pg + PAGE_SIZE -> exists i, 0 <= i < 512 /\ b - b mod 8 = word pg i).
  { intros b Hb. destruct H8 as [q ->]. rewrite PAGE_SIZE_val in Hb. exists ((b - q * 8) / 8). unfold word. split; dlia. }
  destruct (store_bytes_spec bs pg (zero_page pg m)) as (m' & E & Hb & Hx).
  { intros x Hx. destruct (Hin x) as (i & Hi & ->); [lia |]. rewrite zero_page_in by done. by eexists. }
  exists m'. split_and!; [done | |].
  - intros i Hi. rewrite Hb. replace (pg + i - pg) with i by lia. destruct (Z.leb_spec pg (pg + i)); [| lia].
    destruct (bs !! Z.to_nat i); [done |]. by rewrite zero_page_bytes.
  - intros x Hne. rewrite Hx; [by apply zero_page_out |]. intros b Hb' ->. destruct (Hin b) as (i & Hi & Ei); [lia |].
    apply Hne. rewrite Ei. unfold word. rewrite PAGE_SIZE_val. lia.
Qed.

(** A load, store or fetch the area permits, of an address that is not mapped. *)
Record demand_case k (t : thread) mm T (v : vm_area) (cause badaddr : Z) (bs : list Z) : Prop := {
  dc_current : current k = Some t;
  dc_owns : owns (k_heap k) mm;
  dc_high p h : h_allocate PAGE_SIZE (k_heap k) = Some (p, h) -> p = 0 \/ PAGE_OFFSET <= p;
  dc_tables : pt_ok (k_mem k) (t_pgd t) T;
  dc_live : tables_live T mm;
  dc_addr : 0 <= badaddr < 2 ^ 38 - PAGE_SIZE;
  dc_cause : access_fault cause;
  dc_area : find_area badaddr (t_vmas t) = Some v;
  dc_prot : permission_ok cause (va_prot v) = true;
  dc_unmapped : has (pte_of (k_mem k) T badaddr) PTE_V = false;
  dc_file : file_bytes v badaddr = Some bs;
}.

Lemma demand_entry k t mm T v cause badaddr bs : demand_case k t mm T v cause badaddr bs ->
  page_fault cause badaddr k = demand_page t v badaddr k.
Proof.
  intros []. unfold page_fault. rewrite dc_current0. cbn [mbind option_bind]. rewrite dc_area0, dc_prot0.
  assert (E : cow_entry t cause badaddr (va_prot v) k = Some None); [| by rewrite E].
  unfold cow_entry. destruct ((cause =? 15) && has (va_prot v) PROT_WRITE); [| done].
  rewrite (pagewalk_find _ _ T) by (done || lia). cbn [mbind option_bind fmap option_fmap option_map as_vm mem].
  unfold pte_of in dc_unmapped0. destruct (T !! [vpn2 badaddr; vpn1 badaddr]) as [pt |] eqn:E; cbn [fmap option_fmap option_map]; [| done].
  destruct (pt_leaf _ _ _ dc_tables0 _ pt (vpn0 badaddr) E eq_refl) as [w Hw]; [apply vpn_range; lia |].
  rewrite Hw in *. cbn [mbind option_bind]. cbn [default] in dc_unmapped0. unfold default, id in dc_unmapped0. by rewrite dc_unmapped0.
Qed.

Lemma demand_page_spec k t mm T v cause badaddr bs : demand_case k t mm T v cause badaddr bs ->
  page_fault cause badaddr k = Some (false, k) /\ h_allocate PAGE_SIZE (k_heap k) = Some (0, k_heap k) \/
  exists vm' pg n mm' T', page_fault cause badaddr k = Some (true, with_vm k vm') /\
    mm !! pg = None /\ mm' !! pg = Some (n, 1) /\ PAGE_SIZE <= n /\ mm ⊆ mm' /\ owns (heap vm') mm' /\
    pt_ok (mem vm') (t_pgd t) T' /\ tables_live T' mm' /\ T ⊆ T' /\ page_holds (mem vm') pg bs /\
    (forall x, page_base badaddr <= x < page_base badaddr + PAGE_SIZE ->
       sv39 (mem vm') (t_pgd t) x = Some (pg - PAGE_OFFSET + (x - page_base badaddr), vma_pte_prot (va_prot v)) \/
       (sv39 (mem vm') (t_pgd t) x = None /\ T !! [vpn2 x; vpn1 x] = None /\ no_page (heap vm'))) /\
    (forall x, canonical x -> ~ page_base badaddr <= x < page_base badaddr + PAGE_SIZE ->
       sv39 (mem vm') (t_pgd t) x = sv39 (k_mem k) (t_pgd t) x).
Proof.
  intros Hc. rewrite (demand_entry _ _ _ _ _ _ _ _ Hc). destruct Hc. unfold demand_page.
  destruct (new_page_ok (as_vm k) mm dc_owns0) as [E | (pg & vm1 & n & E & Ho1 & Hnew & Hn & Hd & Hp0 & Hend & Em)].
  { left. rewrite E. cbn [mbind option_bind]. split; [by destruct k |]. unfold new_page in E.
    destruct (h_allocate PAGE_SIZE (heap (as_vm k))) as [[p h] |] eqn:Ea; [| discriminate E]. cbn [mbind option_bind] in E.
    destruct (Z.eqb_spec p 0) as [-> | _]; [| discriminate E]. injection E as Eh. cbn in Ea. by rewrite Ea, Eh. }
  right. assert (Hhigh : PAGE_OFFSET <= pg).
  { unfold new_page in E. destruct (h_allocate PAGE_SIZE (heap (as_vm k))) as [[p h] |] eqn:Ea; [| discriminate E]. cbn [mbind option_bind] in E.
    destruct (Z.eqb_spec p 0); [discriminate E |]. injection E as -> _. destruct (dc_high0 _ _ Ea); [lia | done]. }
  rewrite E, dc_file0. cbn [mbind option_bind]. rewrite Em. destruct (filled_page pg bs (mem (as_vm k)) Hd) as (m' & Es & Hh & Hout); [by eapply file_bytes_length |].
  rewrite Es. cbn [mbind option_bind].
  assert (Hfar : forall q p, T !! p = Some q -> q + PAGE_SIZE <= pg \/ pg + PAGE_SIZE <= q).
  { intros q p Hq. destruct (dc_live0 p q Hq) as (x & y & Hxy & Hx).
    destruct (owns_apart _ _ q x y pg n 1 Ho1) as [-> | ?]; [rewrite lookup_insert_ne by congruence; done | by rewrite lookup_insert_eq | congruence | lia]. }
  destruct (pt_ok_frame (k_mem k) m' (t_pgd t) T dc_tables0) as [Hok1 Hpte1].
  { intros p q i Hq Hi. rewrite Hout; [done |]. destruct (Hfar q p Hq); unfold word; rewrite PAGE_SIZE_val in *; lia. }
  assert (Hl1 : tables_live T (<[pg := (n, 1)]> mm)).
  { intros p q Hq. destruct (dc_live0 p q Hq) as (x & y & Hxy & ?). exists x, y. rewrite lookup_insert_ne by congruence. done. }
  pose proof (page_base_spec badaddr) as Epb. rewrite PAGE_SIZE_val in dc_addr0. specialize (Epb ltac:(lia)). set (b := page_base badaddr) in *.
  assert (Hb : (PAGE_SIZE | b) /\ 0 <= b /\ b <= badaddr) by (split; [exists (badaddr / 4096); rewrite PAGE_SIZE_val |]; dlia).
  destruct Hb as (Hdb & Hb0 & Hbb). assert (Hoff : PAGE_OFFSET = 2 ^ 64 - 2 ^ 38) by reflexivity.
  destruct (vma_prot_ok cause (va_prot v) dc_cause0 dc_prot0) as (Hr & Hv & _ & Hlf & _).
  assert (Hpa : pg ⊟ PAGE_OFFSET = pg - PAGE_OFFSET) by (apply u64_small; rewrite PAGE_SIZE_val in *; lia). rewrite Hpa.
  destruct (map_pages_at_lemma (t_pgd t) (set_mem m' vm1) (<[pg := (n, 1)]> mm) T b (pg - PAGE_OFFSET) PAGE_SIZE (vma_pte_prot (va_prot v)))
    as (vm' & T' & mm' & -> & Ho' & Hok' & Hl' & HT & HM & Hfresh & Hfr & _ & Hin & Hout'); try assumption; try exact (Z.divide_refl _); try (rewrite PAGE_SIZE_val in *; lia).
  { intros x Hx. left. rewrite PAGE_SIZE_val in Hx. lia. }
  { apply Z.divide_sub_r; [done |]. by exists (PAGE_OFFSET / 4096). }
  cbn [mbind option_bind]. assert (Hpg : mm' !! pg = Some (n, 1)) by (eapply lookup_weaken; [apply lookup_insert_eq | exact HM]).
  exists vm', pg, n, mm', T'. split; [done |]. split; [done |]. split; [done |]. split; [done |].
  split; [etrans; [by apply insert_subseteq | exact HM] |]. split; [done |]. split; [done |]. split; [done |]. split; [done |]. split; [| split; [exact Hin |]].
  - assert (Hoffp : forall a, pg <= a < pg + n -> off_tables T' a).
    { eapply object_off_tables; [exact Ho' | exact Hl' | exact Hpg |]. intros q p Hq ->. destruct (Hfresh p pg Hq) as [Hq' | Hq'].
      - destruct (dc_live0 p pg Hq') as (x & y & Hxy & _). congruence.
      - by rewrite lookup_insert_eq in Hq'. }
    intros i Hi. rewrite <- Hh by done. unfold load_byte. rewrite Hfr; [done |]. apply Hoffp.
    destruct Hd as [q ->]. rewrite PAGE_SIZE_val in *. dlia.
  - intros x Hx Hnx. rewrite Hout' by done. change (mem (set_mem m' vm1)) with m'. pose proof (canonical_nonneg x Hx). by rewrite (sv39_pte_of _ _ T x Hok1), (sv39_pte_of _ _ T x dc_tables0), Hpte1.
Qed.

(** ** Illegal accesses *)

(** No area holds the address, or its protection forbids the access. *)
Definition illegal (t : thread) (cause badaddr : Z) : Prop :=
  match find_area badaddr (t_vmas t) with Some v => permission_ok cause (va_prot v) = false | None => True end.

Lemma page_fault_illegal k t cause badaddr : current k = Some t -> access_fault cause -> illegal t cause badaddr ->
  page_fault cause badaddr k = Some (false, k).
Proof.
  intros Ht Hc Hi. unfold page_fault. rewrite Ht. cbn [mbind option_bind]. unfold illegal in Hi.
  destruct (find_area badaddr (t_vmas t)) as [v |]; [| done].
  assert (E : cow_entry t cause badaddr (va_prot v) k = Some None); [| by rewrite E, Hi].
  unfold cow_entry. destruct (Z.eqb_spec cause 15) as [-> |]; [| done]. unfold permission_ok in Hi. cbn [Z.eqb Pos.eqb andb negb] in Hi.
  by destruct (has (va_prot v) PROT_WRITE).
Qed.

(** ** The properties *)

(** C7: a store to a read-only page of a writable area is copy-on-write: the
    only owner gets its page writable, a sharer gets a fresh page with the same
    words and one reference less to the old one (or, out of memory,
    nothing: the store faults again); no other page, entry or word changes. *)
Theorem cow_fault_copies k t mm T v badaddr n c : cow_case k t mm T v badaddr n c ->
  let old := pte_page (pte_of (k_mem k) T badaddr) in
  exists k', page_fault 15 badaddr k = Some (true, k') /\
    ((c = 1 /\ k_heap k' = k_heap k /\ made_writable k k' t T badaddr old /\
        (forall a, off_tables T a -> k_mem k' !! a = k_mem k !! a)) \/
     (1 < c /\ k' = k /\ h_allocate PAGE_SIZE (k_heap k) = Some (0, k_heap k)) \/
     (1 < c /\ exists new n', mm !! new = None /\ PAGE_SIZE <= n' /\
        owns (k_heap k') (<[old := (n, c - 1)]> (<[new := (n', 1)]> mm)) /\
        made_writable k k' t T badaddr new /\
        (forall i, 0 <= i < 512 -> k_mem k' !! word new i = k_mem k !! word old i) /\
        (forall a, off_tables T a -> ~ new <= a < new + PAGE_SIZE -> k_mem k' !! a = k_mem k !! a))).
Proof.
  intros Hc old. destruct (owns_bounds _ _ _ n c (cc_owns _ _ _ _ _ _ _ _ Hc) (cc_page _ _ _ _ _ _ _ _ Hc)) as (_ & _ & _ & Hc1 & _).
  destruct (decide (c = 1)) as [-> | Hne].
  - destruct (cow_fault_owner _ _ _ _ _ _ _ Hc) as (k' & E & Hw). exists k'. split; [exact E | left]. split; [reflexivity | exact Hw].
  - destruct (cow_fault_shared _ _ _ _ _ _ _ _ Hc ltac:(lia)) as [[E Hn] | (k' & new & n' & E & Hw)].
    + exists k. split; [exact E | right; left]. split; [lia | by split].
    + exists k'. split; [exact E | right; right]. split; [lia |]. by exists new, n'.
Qed.

(** C8: a permitted access to an address that is not mapped is served on demand:
    the page of the address is mapped, with the area's permissions, to a fresh
    page that holds the bytes of the file and then zeros; every other address
    translates as before.  The fault is refused only when the allocator has no
    page to give, and the page stays unmapped only when none is left for its
    table. *)
Theorem demand_fault_maps k t mm T v cause badaddr bs : demand_case k t mm T v cause badaddr bs ->
  page_fault cause badaddr k = Some (false, k) /\ h_allocate PAGE_SIZE (k_heap k) = Some (0, k_heap k) \/
  exists vm' pg n mm' T', page_fault cause badaddr k = Some (true, with_vm k vm') /\
    mm !! pg = None /\ mm' !! pg = Some (n, 1) /\ PAGE_SIZE <= n /\ mm ⊆ mm' /\ owns (heap vm') mm' /\
    pt_ok (mem vm') (t_pgd t) T' /\ tables_live T' mm' /\ T ⊆ T' /\ page_holds (mem vm') pg bs /\
    (forall x, page_base badaddr <= x < page_base badaddr + PAGE_SIZE ->
       sv39 (mem vm') (t_pgd t) x = Some (pg - PAGE_OFFSET + (x - page_base badaddr), vma_pte_prot (va_prot v)) \/
       (sv39 (mem vm') (t_pgd t) x = None /\ T !! [vpn2 x; vpn1 x] = None /\ no_page (heap vm'))) /\
    (forall x, canonical x -> ~ page_base badaddr <= x < page_base badaddr + PAGE_SIZE ->
       sv39 (mem vm') (t_pgd t) x = sv39 (k_mem k) (t_pgd t) x).
Proof. apply demand_page_spec. Qed.

End Fault.

Section Trap.
Context {H : Type} {HO : HeapOps H} {HC : Clock} {KT : KernelText} {UM : UserMem H} {RD : Initrd} {TR : Trampoline}.
Context {D : Type} {IO : DevIO D} {DI : Display D} {XI : ExternalInterrupts H D}.
Notation kernel := (kernel H).

Lemma do_trap_illegal fuel other regs k d t xs cause badaddr : sched_ok k xs -> threads k !! tp k = Some t -> t_pid t <> 0 ->
  parent_ok k (tp k) t -> threads k !! 0 = None ->
  get_reg regs reg_cause k = Some cause -> get_reg regs reg_badaddr k = Some badaddr -> access_fault cause -> illegal t cause badaddr ->
  exists k' xs' t', do_trap fuel other regs k d = Some (Some After_kill, k', d) /\ tp k' ∈ xs /\ sched_ok k' xs' /\
    threads k' !! tp k = Some t' /\ t_status t' = THREAD_TERMINATED.
Proof.
  intros Hok Ht Hpid Hpar H0 Hcause Hbad Ha Hi. unfold do_trap. rewrite Hcause. cbn [mbind option_bind].
  assert (E : has cause INTERRUPT = false /\ (cause =? 8) = false /\ ((cause =? 12) || (cause =? 13) || (cause =? 15)) = true).
  { destruct Ha as [-> | [-> | ->]]; by split_and!. }
  destruct E as (-> & -> & ->). rewrite Hbad. cbn [mbind option_bind].
  rewrite (page_fault_illegal k t) by done. cbn [mbind option_bind].
  destruct (thread_exit_spec k xs t Hok Ht Hpid Hpar H0) as (k' & nxt & xs' & -> & Etp & Hin & Hok' & _ & Hth). cbn [mbind option_bind].
  destruct (Hth (tp k) t Ht) as (t' & Ht' & _ & Hs). assert (Hne : tp k <> nxt).
  { intros E. destruct (so_ring _ _ Hok) as (Hnd & _). apply NoDup_cons in Hnd as [Hn _]. apply Hn. by rewrite E. }
  destruct (Hs Hne) as [Hst _]. exists k', xs', t'. rewrite Etp. split_and!; try done. rewrite Hst. unfold died.
  by rewrite decide_True.
Qed.

(** C20: an access outside of the areas of a thread, or against the protection of
    its area, ends the thread: the trap leaves it terminated and another thread
    of the queue runs. *)
Theorem illegal_access_kills fuel other regs k d t xs cause badaddr : sched_ok k xs -> threads k !! tp k = Some t -> t_pid t <> 0 ->
  parent_ok k (tp k) t -> threads k !! 0 = None ->
  get_reg regs reg_cause k = Some cause -> get_reg regs reg_badaddr k = Some badaddr -> access_fault cause -> illegal t cause badaddr ->
  exists k' xs' t', do_trap fuel other regs k d = Some (Some After_kill, k', d) /\ tp k' ∈ xs /\ sched_ok k' xs' /\
    threads k' !! tp k = Some t' /\ t_status t' = THREAD_TERMINATED.
Proof. apply do_trap_illegal. Qed.

End Trap.

(** ** Witnesses *)

(** A heap of blocks of two pages that has six to give. *)
Definition BLOCK : Z := 0x2000.
#[local] Notation pages := (gmap Z (Z * Z)).
Definition spares : list Z := [0xffffffc08000a000; 0xffffffc08000c000; 0xffffffc08000e000; 0xffffffc080010000; 0xffffffc080012000; 0xffffffc080014000].
Definition spare_of (h : pages) : option Z := head (filter (fun p => h !! p = None) spares).

#[local] Instance pages_ops : HeapOps pages := {
  h_allocate sz h := match spare_of h with
    | Some p => if sz <=? BLOCK then Some (p, <[p := (BLOCK, 1)]> h) else Some (0, h)
    | None => Some (0, h)
    end;
  h_free p h := match h !! p with
    | Some (n, c) => Some (if c =? 1 then delete p h else <[p := (n, c - 1)]> h)
    | None => Some h
    end;
  h_inc_ref p h := match h !! p with Some (n, c) => Some (<[p := (n, c + 1)]> h) | None => Some h end;
  h_get_ref p h := snd <$> h !! p;
}.

Definition a_page (p : Z) (o : Z * Z) : Prop := fst o = BLOCK /\ 1 <= snd o /\ (BLOCK | p) /\ 0 < p /\ p + BLOCK <= 2 ^ 64.
Definition pages_owns (h m : pages) : Prop := h = m /\ map_Forall a_page m.

Lemma pages_recount (m : pages) p n c c' : map_Forall a_page m -> m !! p = Some (n, c) -> 1 <= c' -> map_Forall a_page (<[p := (n, c')]> m).
Proof. intros Hm Hp Hc. apply map_Forall_insert_2; [| done]. destruct (Hm _ _ Hp) as (? & _ & ?). by split. Qed.

#[local] Program Instance pages_spec : HeapSpec pages := { owns := pages_owns }.
Next Obligation.
  intros h m sz [-> Hm] Hsz. cbn. destruct (spare_of m) as [p |] eqn:Ep; [| by left]. destruct (Z.leb_spec sz BLOCK); [right | by left].
  apply head_Some_elem_of, list_elem_of_filter in Ep as [Hn Hp].
  exists p, (<[p := (BLOCK, 1)]> m), BLOCK. split_and!; try done. split; [done |]. apply map_Forall_insert_2; [| done].
  unfold spares in Hp. rewrite !elem_of_cons in Hp. destruct Hp as [-> | [-> | [-> | [-> | [-> | [-> | []%elem_of_nil]]]]]]; (split_and!; [done | done | | done | done]);
    apply Z.mod_divide; done.
Qed.
Next Obligation. intros h m p n [-> Hm] Hp. cbn. rewrite Hp. eexists. split; [done |]. split; [done |]. by apply map_Forall_delete. Qed.
Next Obligation.
  intros h m p n c [-> Hm] Hp Hc. cbn. rewrite Hp. destruct (Z.eqb_spec c 1); [lia |]. eexists. split; [done |]. split; [done |].
  apply (pages_recount m p n c); [done | done | lia].
Qed.
Next Obligation. intros h m p [-> Hm] _ Hp. cbn. by rewrite Hp. Qed.
Next Obligation.
  intros h m p n c [-> Hm] Hp _. cbn. rewrite Hp. eexists. split; [done |]. split; [done |].
  apply (pages_recount m p n c); [done | done |]. destruct (Hm _ _ Hp) as (_ & Hc & _). cbn [snd] in Hc. lia.
Qed.
Next Obligation. intros h m p n c [-> Hm] Hp _. cbn. by rewrite Hp. Qed.
Next Obligation.
  intros h m p n c [-> Hm] Hp. destruct (Hm _ _ Hp) as (En & ? & ? & ? & ?). cbn in *. subst n. unfold BLOCK in *. split_and!; [lia .. |].
  intros _. rewrite PAGE_SIZE_val. apply Z.divide_trans with 0x2000; [by exists 2 | done].
Qed.
Next Obligation.
  intros h m p n c p' n' c' [-> Hm] Hp Hp'. destruct (Hm _ _ Hp) as (En & _ & [q Eq] & _). destruct (Hm _ _ Hp') as (En' & _ & [q' Eq'] & _).
  cbn in *. subst. unfold BLOCK. lia.
Qed.

#[local] Instance toy_disk : Initrd := { initrd_start := 0xffffffc084000000; initrd_bytes := [1; 2; 3]; initrd_files := 0%nat }.

Definition toy_root : Z := 0xffffffc080002000.
Definition toy_pmd : Z := 0xffffffc080004000.
Definition toy_pt : Z := 0xffffffc080006000.
Definition toy_page : Z := 0xffffffc080008000.
Definition toy_tables : gmap (list Z) Z := <[[0; 0] := toy_pt]> (<[[0] := toy_pmd]> {[ [] := toy_root ]}).
Definition toy_leaf : Z := leaf_pte (toy_page ⊟ PAGE_OFFSET) (flags [PTE_V; PTE_U; PTE_R; PTE_A; PTE_D]).

(** One page is mapped, read-only, at 0x5000. *)
Definition toy_mem : gmap Z Z :=
  <[word toy_pt 5 := toy_leaf]> (<[word toy_pmd 0 := table_pte toy_pt]> (zero_page toy_pt
    (<[word toy_root 0 := table_pte toy_pmd]> (zero_page toy_pmd (zero_page toy_root ∅))))).

Definition toy_owned (c : Z) : pages :=
  <[toy_page := (BLOCK, c)]> (<[toy_pt := (BLOCK, 1)]> (<[toy_pmd := (BLOCK, 1)]> {[ toy_root := (BLOCK, 1) ]})).

Definition toy_area : vm_area := VmArea 0x9000 0x4000 0x8000 (Z.lor PROT_READ PROT_WRITE) 0 0xffffffc084000000 3.
Definition toy_thread : thread := set_t_vmas [toy_area] (demo_thread 1 THREAD_RUNNING 200 toy_root).

Definition toy_kernel (c : Z) : kernel pages :=
  Kernel (toy_owned c) toy_mem vfs0 {[ 200 := toy_thread ]} 200 2 200 (Context_ 7 7 []) (MAKE_SATP (toy_root ⊟ PAGE_OFFSET)) toy_root [] [] (2 ^ 64 - 1) 0 10000000 (-1).

Lemma toy_blocks p : p ∈ [toy_root; toy_pmd; toy_pt; toy_page] -> (BLOCK | p) /\ 0 < p /\ p + BLOCK <= 2 ^ 64.
Proof.
  rewrite !elem_of_cons. intros [-> | [-> | [-> | [-> | []%elem_of_nil]]]];
    (split; [apply Z.mod_divide; [discriminate | reflexivity] | split; [reflexivity | vm_compute; congruence]]).
Qed.

Lemma toy_pages p : p ∈ [toy_root; toy_pmd; toy_pt; toy_page] -> (PAGE_SIZE | p) /\ 0 < p /\ p + PAGE_SIZE <= 2 ^ 64.
Proof.
  intros Hp. destruct (toy_blocks p Hp) as (Hd & ? & ?). unfold BLOCK in *. rewrite PAGE_SIZE_val. split_and!; [| done | lia].
  apply Z.divide_trans with 0x2000; [by exists 2 | done].
Qed.

Lemma toy_tables_ok : pt_ok toy_mem toy_root toy_tables /\ pte_of toy_mem toy_tables 0x5000 = toy_leaf /\ pte_of toy_mem toy_tables 0x4010 = 0.
Proof.
  destruct (toy_pages toy_root) as (H1 & H2 & H3); [by left |].
  assert (Hpmd := toy_pages toy_pmd ltac:(right; by left)). assert (Hpt := toy_pages toy_pt ltac:(right; right; by left)).
  destruct (fresh_pgd_ok ∅ toy_root H1 H2 H3) as [Hok0 Hz0].
  assert (Hf1 : forall p q, ({[ [] := toy_root ]} : gmap (list Z) Z) !! p = Some q -> toy_pmd + PAGE_SIZE <= q \/ q + PAGE_SIZE <= toy_pmd).
  { intros p q [<- <-]%lookup_singleton_Some. right. vm_compute. congruence. }
  assert (Hok1 := new_table_ok _ _ _ [] toy_root 0 toy_pmd Hok0 eq_refl ltac:(lia) ltac:(simpl; lia) eq_refl Hpmd Hf1).
  assert (Hz1 := new_table_pte _ _ _ [] toy_root 0 toy_pmd Hok0 eq_refl ltac:(lia) ltac:(simpl; lia) eq_refl Hpmd Hf1).
  assert (Hf2 : forall p q, (<[[] ++ [0] := toy_pmd]> {[ [] := toy_root ]} : gmap (list Z) Z) !! p = Some q -> toy_pt + PAGE_SIZE <= q \/ q + PAGE_SIZE <= toy_pt).
  { intros p q [[<- <-] | [_ [<- <-]%lookup_singleton_Some]]%lookup_insert_Some; right; vm_compute; congruence. }
  assert (Hok2 := new_table_ok _ _ _ [0] toy_pmd 0 toy_pt Hok1 eq_refl ltac:(lia) ltac:(simpl; lia) eq_refl Hpt Hf2).
  assert (Hz2 := new_table_pte _ _ _ [0] toy_pmd 0 toy_pt Hok1 eq_refl ltac:(lia) ltac:(simpl; lia) eq_refl Hpt Hf2).
  destruct (store_leaf_ok _ _ _ 0x5000 toy_pt toy_leaf Hok2 eq_refl ltac:(lia)) as (Hok3 & Hat & Hout).
  split; [exact Hok3 | split; [exact Hat |]]. etrans; [apply (Hout 0x4010); [lia | discriminate] |].
  rewrite Hz2, Hz1 by lia. apply Hz0.
Qed.

Lemma toy_cases p q : toy_tables !! p = Some q -> q = toy_root \/ q = toy_pmd \/ q = toy_pt.
Proof.
  unfold toy_tables. intros [[_ <-] | [_ [[_ <-] | [_ [_ <-]%lookup_singleton_Some]]%lookup_insert_Some]]%lookup_insert_Some; tauto.
Qed.

Lemma toy_live c p q : toy_tables !! p = Some q -> exists n k, toy_owned c !! q = Some (n, k) /\ PAGE_SIZE <= n.
Proof.
  intros [-> | [-> | ->]]%toy_cases; exists BLOCK, 1; done.
Qed.

Lemma toy_owns c : 1 <= c -> owns (toy_owned c) (toy_owned c).
Proof.
  intros Hc. split; [reflexivity |]. unfold toy_owned. intros p [n x] Hx. cut (p ∈ [toy_root; toy_pmd; toy_pt; toy_page] /\ n = BLOCK /\ 1 <= x).
  { intros (Hp & -> & Hx1). destruct (toy_blocks p Hp) as (? & ? & ?). by split. }
  apply lookup_insert_Some in Hx as [[<- [= <- <-]] | [_ [[<- [= <- <-]] | [_ [[<- [= <- <-]] | [_ [<- [= <- <-]]%lookup_singleton_Some]]%lookup_insert_Some]]%lookup_insert_Some]];
    (split; [rewrite !elem_of_cons; tauto | split; [reflexivity | lia]]).
Qed.

Lemma toy_cow c : 1 <= c -> cow_case (toy_kernel c) toy_thread (toy_owned c) toy_tables toy_area 0x5000 BLOCK c.
Proof.
  intros Hc. destruct toy_tables_ok as (Hok & Hat & _). split.
  - reflexivity.
  - by apply toy_owns.
  - exact Hok.
  - intros p q. apply toy_live.
  - lia.
  - reflexivity.
  - reflexivity.
  - change (k_mem (toy_kernel c)) with toy_mem. rewrite Hat. vm_compute. split; congruence.
  - change (k_mem (toy_kernel c)) with toy_mem. by rewrite Hat.
  - change (k_mem (toy_kernel c)) with toy_mem. by rewrite Hat.
  - change (k_mem (toy_kernel c)) with toy_mem. by rewrite Hat.
  - done.
  - change (k_mem (toy_kernel c)) with toy_mem. rewrite Hat.
    intros p q [-> | [-> | ->]]%toy_cases; vm_compute; congruence.
Qed.

Lemma cow_fault_copies_witness :
  (exists k', page_fault 15 0x5000 (toy_kernel 1) = Some (true, k') /\ has (pte_of (k_mem k') toy_tables 0x5000) PTE_W = true) /\
  (exists k' new, page_fault 15 0x5000 (toy_kernel 2) = Some (true, k') /\ toy_owned 2 !! new = None /\
    pte_page (pte_of (k_mem k') toy_tables 0x5000) = new).
Proof.
  split.
  - destruct (cow_fault_copies (toy_kernel 1) toy_thread (toy_owned 1) toy_tables toy_area 0x5000 BLOCK 1 (toy_cow 1 ltac:(lia)))
      as (k' & E & [(_ & _ & (_ & _ & Hf & _) & _) | [[? _] | [? _]]]); [| lia | lia].
    exists k'. split; [exact E |]. unfold has in *.
    replace (Z.land (pte_of (k_mem k') toy_tables 0x5000) PTE_W) with (Z.land (Z.land (pte_of (k_mem k') toy_tables 0x5000) 1023) PTE_W)
      by (rewrite <- Z.land_assoc; reflexivity).
    rewrite Hf. change (k_mem (toy_kernel 1)) with toy_mem. rewrite (proj1 (proj2 toy_tables_ok)). reflexivity.
  - destruct (cow_fault_copies (toy_kernel 2) toy_thread (toy_owned 2) toy_tables toy_area 0x5000 BLOCK 2 (toy_cow 2 ltac:(lia)))
      as (k' & E & [(? & _) | [(_ & _ & En) | (_ & new & n' & Hn & _ & _ & (_ & Ep & _) & _)]]); [lia | discriminate En |].
    exists k', new. split; [exact E | split; [exact Hn | exact Ep]].
Defined.

Lemma toy_demand : demand_case (toy_kernel 1) toy_thread (toy_owned 1) toy_tables toy_area 13 0x4010 [1; 2; 3].
Proof.
  destruct toy_tables_ok as (Hok & _ & Hun). split.
  - reflexivity.
  - apply toy_owns. lia.
  - intros p h [= <- _]. right. vm_compute. congruence.
  - exact Hok.
  - intros p q. apply toy_live.
  - vm_compute. split; congruence.
  - right. by left.
  - reflexivity.
  - reflexivity.
  - change (k_mem (toy_kernel 1)) with toy_mem. by rewrite Hun.
  - reflexivity.
Qed.

Lemma demand_fault_maps_witness : exists vm' pg, page_fault 13 0x4010 (toy_kernel 1) = Some (true, with_vm (toy_kernel 1) vm') /\
  load_byte (pg + 1) (mem vm') = Some 2 /\ load_byte (pg + 3) (mem vm') = Some 0 /\
  sv39 (mem vm') toy_root 0x4010 = Some (pg - PAGE_OFFSET + 0x10, flags [PTE_V; PTE_U; PTE_R; PTE_W; PTE_A; PTE_D]).
Proof.
  destruct (demand_fault_maps (toy_kernel 1) toy_thread (toy_owned 1) toy_tables toy_area 13 0x4010 [1; 2; 3] toy_demand)
    as [[_ E] | (vm' & pg & n & mm' & T' & E & _ & _ & _ & _ & _ & _ & _ & _ & Hh & Hin & _)].
  - discriminate E.
  - exists vm', pg. split; [exact E |]. split; [exact (Hh 1 ltac:(rewrite PAGE_SIZE_val; lia)) |]. split; [exact (Hh 3 ltac:(rewrite PAGE_SIZE_val; lia)) |].
    destruct (Hin 0x4010) as [Hx | (_ & Hn & _)]; [vm_compute; split; congruence | | discriminate Hn].
    change (t_pgd toy_thread) with toy_root in Hx. rewrite Hx. reflexivity.
Defined.

(** Thread 300 of [family] reads 0x5000; it has no areas. *)
#[local] Existing Instance no_heap.
#[local] Instance toy_clock : Clock := { time_at i := Z.of_nat i }.
#[local] Instance toy_text : KernelText := { kernel_thread_wrapper := 0; idle_entry := 0; ret_from_exception := 0 }.
#[local] Instance toy_user : UserMem unit := { user_string _ _ := None; user_bytes _ _ _ := None; user_store _ _ _ := None }.
#[local] Instance toy_trampoline : Trampoline := { sigreturn_stub := [] }.
#[local] Instance toy_dev : DevIO unit := { dev_getc _ := None; dev_putc _ _ := None; dev_yield d := d; dev_patience := 0; fb_write _ _ _ := None; fb_info _ := [] }.
#[local] Instance toy_display : Display unit := { bmp_display _ _ _ _ := None }.
#[local] Instance toy_interrupts : ExternalInterrupts unit unit := { external_interrupt _ _ := None }.

Definition toy_frame : Z := 0xffffffc080016000.
Definition faulting_family : kernel unit :=
  set_k_mem (<[word toy_frame reg_cause := 13]> {[ word toy_frame reg_badaddr := 0x5000 ]}) family.

Lemma sched_ok_mem {H} (m : gmap Z Z) (k : kernel H) xs : sched_ok k xs -> sched_ok (set_k_mem m k) xs.
Proof. intros []. by split. Qed.

Lemma illegal_access_kills_witness : exists k' t', do_trap 0 (fun _ _ k => Some k) toy_frame faulting_family tt = Some (Some After_kill, k', tt) /\
  threads k' !! 300 = Some t' /\ t_status t' = THREAD_TERMINATED.
Proof.
  destruct (illegal_access_kills 0 (fun _ _ k => Some k) toy_frame faulting_family tt (set_t_parent 200 (demo_thread 2 THREAD_RUNNING 100 4096)) [100; 200] 13 0x5000)
    as (k' & xs' & t' & E & _ & _ & Ht & Hs).
  - apply sched_ok_mem. exact family_ok.
  - reflexivity.
  - discriminate.
  - right. split; [discriminate | by eexists].
  - reflexivity.
  - reflexivity.
  - reflexivity.
  - right. by left.
  - exact I.
  - exists k', t'. split; [exact E |]. split; [exact Ht | exact Hs].
Defined.
