(* ===== verification/SignalProps.v ===== *)
(** * Properties of signals: delivery and return

    [check_signals] enters the handler of a pending signal on a stack of its
    own; [sys_sigreturn] takes everything back. *)

From S2P Require Import Prelude Config Heap CString VfsData Tmpfs Ramfs Vfs Cpio Vma VmaProps Mmu MmuProofs MmuProps Kernel Sched SchedProps Timer Thread Syscall Exception ThreadProps FaultProps.

Section Signal.
Context {H : Type} {HO : HeapOps H} {HS : HeapSpec H} {RD : Initrd} {TR : Trampoline}.
Notation kernel := (kernel H).
Implicit Types (k : kernel) (mm : gmap Z (Z * Z)) (T : tables).

(** ** Registers *)

Lemma word_first regs : word regs 0 = regs.
Proof. unfold word. lia. Qed.

Lemma word_next regs (j : nat) : word (regs + 8) (Z.of_nat j) = word regs (Z.of_nat (S j)).
Proof. unfold word. lia. Qed.

(** The [n] words at [regs] are [vs]. *)
Definition regs_hold (m : gmap Z Z) (n : nat) (regs : Z) (vs : list Z) : Prop :=
  length vs = n /\ forall j : nat, (j < n)%nat -> m !! word regs (Z.of_nat j) = vs !! j.

Lemma load_regs_spec n regs k vs : load_regs n regs k = Some vs <-> regs_hold (k_mem k) n regs vs.
Proof.
  revert regs vs. induction n as [| n IH]; intros regs vs; cbn [load_regs].
  - split; [intros [= <-]; split; [reflexivity | lia] | intros [E _]; by apply nil_length_inv in E as ->].
  - unfold get_reg. rewrite word_first. split.
    + destruct (k_mem k !! regs) as [v |] eqn:Ev; [| discriminate]. cbn [mbind option_bind].
      destruct (load_regs n (regs + 8) k) as [l |] eqn:El; [| discriminate]. cbn [mbind option_bind].
      intros [= <-]. apply IH in El as [Hl Hj]. split; [cbn; lia |]. intros [| j] Hlt.
      * by rewrite word_first.
      * rewrite <- word_next. apply Hj. lia.
    + intros [Hl Hj]. destruct vs as [| v vs]; [discriminate |]. pose proof (Hj 0%nat ltac:(lia)) as Hv.
      rewrite word_first in Hv. rewrite Hv. cbn [lookup list_lookup mbind option_bind].
      assert (El : load_regs n (regs + 8) k = Some vs); [| by rewrite El]. apply IH. split; [cbn in Hl; lia |]. intros j Hlt.
      rewrite word_next. apply (Hj (S j)). lia.
Qed.

Lemma store_regs_spec vs : forall regs k, exists m, store_regs regs vs k = set_k_mem m k /\
  (forall j : nat, (j < length vs)%nat -> m !! word regs (Z.of_nat j) = vs !! j) /\
  (forall x, (forall j : nat, (j < length vs)%nat -> x <> word regs (Z.of_nat j)) -> m !! x = k_mem k !! x).
Proof.
  induction vs as [| v vs IH]; intros regs k; cbn [store_regs length].
  - exists (k_mem k). split_and!; [by destruct k | lia | done].
  - unfold set_reg. rewrite word_first.
    destruct (IH (regs + 8) (set_k_mem (<[regs := v]> (k_mem k)) k)) as (m & -> & Hin & Hout). exists m. split_and!; [done | |].
    + intros [| j] Hj; cbn [lookup list_lookup].
      * rewrite word_first, Hout by (intros i _; unfold word; lia). apply lookup_insert_eq.
      * rewrite <- word_next. apply Hin. lia.
    + intros x Hx. rewrite Hout; [cbn; apply lookup_insert_ne; intros <-; apply (Hx 0%nat); [lia | by rewrite word_first] |].
      intros i Hi ->. apply (Hx (S i)); [lia | apply word_next].
Qed.

(** ** A new page leaves the tables alone *)

Lemma page_frame h mm T m m' pgd pg n : owns h (<[pg := (n, 1)]> mm) -> mm !! pg = None -> PAGE_SIZE <= n -> pt_ok m pgd T -> tables_live T mm ->
  (forall x, ~ pg <= x < pg + PAGE_SIZE -> m' !! x = m !! x) ->
  pt_ok m' pgd T /\ (forall va, 0 <= va -> pte_of m' T va = pte_of m T va) /\ tables_live T (<[pg := (n, 1)]> mm).
Proof.
  intros Ho Hnew Hn Hok Hl Hout.
  assert (Hfar : forall q p, T !! p = Some q -> q + PAGE_SIZE <= pg \/ pg + PAGE_SIZE <= q).
  { intros q p Hq. destruct (Hl p q Hq) as (x & y & Hxy & Hx).
    destruct (owns_apart _ _ q x y pg n 1 Ho) as [-> | ?]; [rewrite lookup_insert_ne by congruence; done | by rewrite lookup_insert_eq | congruence | lia]. }
  destruct (pt_ok_frame m m' pgd T Hok) as [Hok' Hpte].
  { intros p q i Hq Hi. rewrite Hout; [done |]. destruct (Hfar q p Hq); unfold word; rewrite PAGE_SIZE_val in *; lia. }
  split_and!; [done | done |]. intros p q Hq. destruct (Hl p q Hq) as (x & y & Hxy & ?). exists x, y. rewrite lookup_insert_ne by congruence. done.
Qed.

(** Writes outside of the tables. *)
Lemma write_frame m m' pgd T : pt_ok m pgd T -> (forall x, ~ off_tables T x -> m' !! x = m !! x) ->
  pt_ok m' pgd T /\ forall va, 0 <= va -> pte_of m' T va = pte_of m T va.
Proof.
  intros Hok Hm. apply pt_ok_frame; [done |]. intros p q i Hq Hi. apply Hm. intros Ho. apply (Ho p q Hq). unfold word. rewrite PAGE_SIZE_val. lia.
Qed.
(** ** Return from a handler *)

(** The frame [regs] of the trap lies outside of the tables. *)
Definition frame_ok T (regs : Z) : Prop := forall j : nat, (j < REGS)%nat -> off_tables T (word regs (Z.of_nat j)).

(** The current thread [t] is in a handler: its context is [saved], the stack is
    the page [pg], mapped at [va], its area is [nd], the others are [vmas]. *)
Record in_handler k (t : thread) mm T (regs : Z) (saved : list Z) (pg va nd : Z) (vmas : list vm_area) : Prop := {
  ih_current : current k = Some t;
  ih_saved : t_saved_regs t = saved;
  ih_length : length saved = REGS;
  ih_page : t_stack_page t = pg;
  ih_vaddr : t_stack_vaddr t = va;
  ih_range : 0 <= va /\ (PAGE_SIZE | va) /\ va + PAGE_SIZE <= USER_TOP;
  ih_vmas : remove_vma va (t_vmas t) = (Some nd, vmas);
  ih_owns : owns (k_heap k) mm;
  ih_page_live : exists n, mm !! pg = Some (n, 1);
  ih_node_live : exists n, mm !! nd = Some (n, 1);
  ih_apart : pg <> nd;
  ih_tables : pt_ok (k_mem k) (t_pgd t) T;
  ih_frame : frame_ok T regs;
}.

(** The thread after the return. *)
Definition returned (vmas : list vm_area) (t : thread) : thread :=
  set_t_handling 0 (set_t_stack_vaddr 0 (set_t_vmas vmas (set_t_stack_page 0 t))).

Lemma clear_entry k pgd T va : pt_ok (k_mem k) pgd T -> 0 <= va ->
  exists vm : memory H, (fun '(pte, vm) => store_pte pte 0 vm) <$> pagewalk pgd va false (as_vm k) = Some vm /\ heap vm = k_heap k /\ pt_ok (mem vm) pgd T /\
    pte_of (mem vm) T va = 0 /\ (forall x, 0 <= x -> vpn x <> vpn va -> pte_of (mem vm) T x = pte_of (k_mem k) T x) /\
    forall a, off_tables T a -> mem vm !! a = k_mem k !! a.
Proof.
  intros Hok Hva. rewrite (pagewalk_find _ _ T) by done. cbn [fmap option_fmap option_map].
  destruct (T !! [vpn2 va; vpn1 va]) as [pt |] eqn:E; eexists; (split; [reflexivity |]); cbn [store_pte set_mem as_vm mem heap fmap option_fmap option_map].
  - destruct (store_leaf_ok pgd (k_mem k) T va pt 0 Hok E Hva) as (Hok' & Hat & Hout). split_and!; try done.
    intros a Ha. apply lookup_insert_ne. intros <-. destruct (vpn_range va Hva) as (_ & _ & ?).
    apply (Ha _ _ E). unfold word. rewrite PAGE_SIZE_val. lia.
  - split_and!; try done. unfold pte_of. by rewrite E.
Qed.

Lemma kfree_heap p k h : h_free p (k_heap k) = Some h -> kfree p k = Some (set_k_heap h k).
Proof. intros E. unfold kfree. by rewrite E. Qed.

Lemma free_signal_stack_spec k t mm T regs saved pg va nd vmas : in_handler k t mm T regs saved pg va nd vmas ->
  exists h (vm : memory H), free_signal_stack k = Some (put_thread (tp k) (set_t_stack_vaddr 0 (set_t_vmas vmas (set_t_stack_page 0 t))) (set_k_mem (mem vm) (set_k_heap h k))) /\
    owns h (delete nd (delete pg mm)) /\ pt_ok (mem vm) (t_pgd t) T /\
    pte_of (mem vm) T va = 0 /\ (forall x, 0 <= x -> vpn x <> vpn va -> pte_of (mem vm) T x = pte_of (k_mem k) T x) /\
    forall a, off_tables T a -> mem vm !! a = k_mem k !! a.
Proof.
  intros []. destruct ih_page_live0 as [n Hpg], ih_node_live0 as [nn Hnd]. destruct (owns_bounds _ _ _ _ _ ih_owns0 Hpg) as (Hp0 & _).
  unfold free_signal_stack, upd_current. rewrite ih_current0. cbn [mbind option_bind]. rewrite ih_page0. destruct (Z.eqb_spec pg 0); [lia |].
  destruct (owns_free _ _ _ _ ih_owns0 Hpg) as (h1 & E1 & Ho1). rewrite (kfree_heap _ _ _ E1). cbn [mbind option_bind].
  rewrite (upd_lookup _ _ t) by exact ih_current0. cbn [mbind option_bind]. rewrite ih_vaddr0.
  set (k2 := set_threads _ _). destruct (clear_entry k2 (t_pgd t) T va ih_tables0 ltac:(lia)) as (vm & E & Hh & Hw).
  destruct (pagewalk (t_pgd t) va false (as_vm k2)) as [[pte vm2] |]; [| discriminate E]. cbn [fmap option_fmap option_map] in E. injection E as E.
  cbn [mbind option_bind]. rewrite E, ih_vmas0. destruct (owns_free h1 (delete pg mm) nd nn Ho1) as (h2 & E2 & Ho2); [by rewrite lookup_delete_ne |].
  rewrite (kfree_heap nd _ h2) by (cbn; rewrite Hh; exact E2). cbn [mbind option_bind].
  exists h2, vm. split; [| by split].
  rewrite (upd_lookup _ _ (set_t_stack_page 0 t)) by apply lookup_insert_eq. f_equal. unfold put_thread, set_threads. cbn. by rewrite insert_insert_eq.
Qed.

Lemma sys_sigreturn_spec k t mm T regs saved pg va nd vmas : in_handler k t mm T regs saved pg va nd vmas ->
  exists k', sys_sigreturn regs k = Some k' /\ load_regs REGS regs k' = Some saved /\
    threads k' = <[tp k := returned vmas t]> (threads k) /\ tp k' = tp k /\
    owns (k_heap k') (delete nd (delete pg mm)) /\ pt_ok (k_mem k') (t_pgd t) T /\
    (forall x, va <= x < va + PAGE_SIZE -> sv39 (k_mem k') (t_pgd t) x = None) /\
    (forall x, canonical x -> ~ va <= x < va + PAGE_SIZE -> sv39 (k_mem k') (t_pgd t) x = sv39 (k_mem k) (t_pgd t) x).
Proof.
  intros Hc. destruct (free_signal_stack_spec _ _ _ _ _ _ _ _ _ _ Hc) as (h & vm & E & Ho & Hok & Hat & Hout & _). destruct Hc.
  unfold sys_sigreturn, upd_current. rewrite E. cbn [mbind option_bind]. set (t1 := set_t_stack_vaddr _ _) in *. set (k1 := put_thread _ _ _) in *.
  assert (E1 : current k1 = Some t1) by apply lookup_insert_eq. rewrite E1. cbn [mbind option_bind].
  change (t_saved_regs t1) with (t_saved_regs t). rewrite ih_saved0. destruct (store_regs_spec saved regs k1) as (m & -> & Hin & Hx).
  rewrite (upd_lookup _ _ t1) by exact E1. eexists. split; [reflexivity |].
  destruct (write_frame (mem vm) m (t_pgd t) T Hok) as [Hok' Hpte].
  { intros x Hno. apply Hx. rewrite ih_length0. intros j Hj ->. by apply Hno, ih_frame0. }
  assert (Hs : forall x, 0 <= x -> sv39 m (t_pgd t) x = decode (pte_of (mem vm) T x) x).
  { intros x Hx0. by rewrite (sv39_pte_of _ _ T), Hpte. }
  destruct ih_range0 as (Hva & [q Eq] & Htop). unfold USER_TOP in Htop. rewrite PAGE_SIZE_val in *.
  split_and!; [| | done | done | done | |].
  - apply load_regs_spec. split; [done |]. intros j Hj. apply Hin. by rewrite ih_length0.
  - cbn. by rewrite insert_insert_eq.
  - intros x Hr. cbn. rewrite Hs by lia. rewrite (pte_of_vpn _ _ x va), Hat; [apply decode_0 | lia | done |]. unfold vpn. f_equal. dlia.
  - intros x Hc Hr. cbn. pose proof (canonical_nonneg x Hc) as Hx0. rewrite Hs, (sv39_pte_of _ _ T), Hout; try done.
    intros Ev. apply canonical_vpn in Ev; [dlia | done | left; lia].
Qed.

(** ** Delivery *)

(** The current thread [t] has the pending signal [i] to take, the frame is in a
    live object, there is room for the stack in the address space, and memory
    for it in the heap. *)
Record signal_case k (t : thread) mm T (i regs frame n c pg : Z) (h1 : H) (nd : Z) (h2 : H) (saved : list Z) : Prop := {
  sg_current : current k = Some t;
  sg_not_idle : tp k <> 0;
  sg_not_handling : t_handling t = 0;
  sg_first : first_signal NR_SIGNALS 0 (t_sigpending t) = Some i;
  sg_handlers : length (t_signal_handler t) = NR_SIGNALS;
  sg_owns : owns (k_heap k) mm;
  sg_tables : pt_ok (k_mem k) (t_pgd t) T;
  sg_live : tables_live T mm;
  sg_vmas : vmas_ok (t_vmas t);
  sg_ends v : v ∈ t_vmas t -> va_end v <= USER_TOP /\ (PAGE_SIZE | va_end v);
  sg_room : exists a, VMA_SEARCH_BASE <= a /\ a + PAGE_SIZE <= USER_TOP /\ clear_of a PAGE_SIZE (t_vmas t);
  sg_frame : mm !! frame = Some (n, c);
  sg_frame_in : frame <= regs /\ regs + 8 * Z.of_nat REGS <= frame + n;
  sg_frame_apart p q : T !! p = Some q -> q <> frame;
  sg_regs : regs_hold (k_mem k) REGS regs saved;
  sg_stub : 0 < Z.of_nat (length sigreturn_stub) <= PAGE_SIZE;
  sg_stack_page : h_allocate PAGE_SIZE (k_heap k) = Some (pg, h1) /\ PAGE_OFFSET <= pg;
  sg_stack_node : h_allocate SIZEOF_VM_AREA h1 = Some (nd, h2) /\ nd <> 0;
}.

Lemma first_signal_range n : forall i pending j, first_signal n i pending = Some j -> i <= j < i + Z.of_nat n /\ has pending (u32 (Z.shiftl 1 j)) = true.
Proof.
  induction n as [| n IH]; intros i pending j; cbn [first_signal]; [discriminate |].
  destruct (has pending (u32 (Z.shiftl 1 i))) eqn:E; [intros [= <-]; split; [lia | exact E] |]. intros [? ?]%IH. split; [lia | done].
Qed.

(** The thread when it enters the handler of [i]. *)
Definition entered (i : Z) (saved : list Z) (pg va : Z) (vmas : list vm_area) (t : thread) : thread :=
  set_t_stack_page pg (set_t_stack_vaddr va (set_t_vmas vmas (set_t_saved_regs saved (set_t_handling 1
    (set_t_sigpending (Z.land (t_sigpending t) (Z.lxor (2 ^ 32 - 1) (u32 (Z.shiftl 1 i)))) t))))).

Definition trampoline_at (va : Z) : Z := va + PAGE_SIZE - Z.of_nat (length sigreturn_stub).

(** The place of the stack. *)
Lemma stack_region (vmas : list vm_area) : vmas_ok vmas -> (forall v, v ∈ vmas -> va_end v <= USER_TOP /\ (PAGE_SIZE | va_end v)) ->
  (exists a, VMA_SEARCH_BASE <= a /\ a + PAGE_SIZE <= USER_TOP /\ clear_of a PAGE_SIZE vmas) ->
  exists va, find_free_vma_region vmas 4096 = Some va /\ 0 <= va /\ (PAGE_SIZE | va) /\ va + PAGE_SIZE <= USER_TOP /\ clear_of va PAGE_SIZE vmas.
Proof.
  intros Hok He (a & Ha & Hat & Hcl). unfold find_free_vma_region. rewrite PAGE_SIZE_val in *. unfold VMA_SEARCH_BASE, USER_TOP in *.
  destruct (find_free_loop_spec (length vmas) 0x10000000 4096 vmas 0x4000000000) as (va & E & Hr & Hc & Hor & Hmin); try done; try lia.
  { intros v Hv. apply (He v Hv). }
  { unfold ahead. apply length_filter. }
  exists va. split_and!; [done | lia | | | done].
  - destruct Hor as [-> | (v & Hv & ->)]; [by exists 0x10000 | rewrite <- PAGE_SIZE_val; apply (He v Hv)].
  - specialize (Hmin a ltac:(lia) Hcl). lia.
Qed.

(** The page at [pg] has the trampoline in its last bytes. *)
Definition holds_stub (m : gmap Z Z) (pg : Z) : Prop :=
  forall (j : nat) c, sigreturn_stub !! j = Some c -> load_byte (trampoline_at pg + Z.of_nat j) m = Some (Z.land c 255).

Lemma store_stub m pg : (PAGE_SIZE | pg) -> 0 < pg -> pg + PAGE_SIZE <= 2 ^ 64 -> 0 < Z.of_nat (length sigreturn_stub) <= PAGE_SIZE ->
  (forall j, 0 <= j < 512 -> is_Some (m !! word pg j)) ->
  exists m', store_bytes (pg ⊞ 4096 ⊟ Z.of_nat (length sigreturn_stub)) sigreturn_stub m = Some m' /\ holds_stub m' pg /\
    forall x, ~ pg <= x < pg + PAGE_SIZE -> m' !! x = m !! x.
Proof.
  intros [q Eq] H0 He Hs Hm. unfold holds_stub, trampoline_at. rewrite PAGE_SIZE_val in *.
  replace (pg ⊞ 4096 ⊟ Z.of_nat (length sigreturn_stub)) with (pg + 4096 - Z.of_nat (length sigreturn_stub))
    by (unfold u64; rewrite Zminus_mod_idemp_l, Z.mod_small by lia; reflexivity).
  set (s := Z.of_nat (length sigreturn_stub)) in *.
  assert (Hw : forall b, pg + 4096 - s <= b < pg + 4096 - s + s -> exists j, 0 <= j < 512 /\ b - b mod 8 = word pg j).
  { intros b Hb. exists ((b - pg) / 8). unfold word. split; dlia. }
  destruct (store_bytes_spec sigreturn_stub (pg + 4096 - s) m) as (m' & E & Hb & Hx).
  { intros x Hx. destruct (Hw x Hx) as (j & Hj & ->). by apply Hm. }
  exists m'. split_and!; [done | |].
  - intros j c Hc. rewrite Hb. replace (Z.to_nat _) with j by lia. rewrite Hc. by destruct (Z.leb_spec (pg + 4096 - s) (pg + 4096 - s + Z.of_nat j)); [| lia].
  - intros x Hne. apply Hx. intros b Hb'. destruct (Hw b Hb') as (j & Hj & ->). intros ->. apply Hne. unfold word. lia.
Qed.

Lemma fresh_apart T mm T' p n c : fresh_tables T mm T' -> mm !! p = Some (n, c) -> (forall x q, T !! x = Some q -> q <> p) ->
  forall q x, T' !! x = Some q -> q <> p.
Proof. intros Hf Hp Hne q x Hq ->. destruct (Hf x p Hq) as [Hq' | Hq']; [by eapply Hne | congruence]. Qed.

(** The stack page is mapped and gets the trampoline. *)
Lemma stack_mapped h m pgd mm T pg n va : owns h mm -> pt_ok m pgd T -> tables_live T mm ->
  mm !! pg = Some (n, 1) -> PAGE_SIZE <= n -> PAGE_OFFSET <= pg -> (forall x q, T !! x = Some q -> q <> pg) ->
  (forall j, 0 <= j < 512 -> is_Some (m !! word pg j)) ->
  0 <= va -> (PAGE_SIZE | va) -> va + PAGE_SIZE <= USER_TOP -> 0 < Z.of_nat (length sigreturn_stub) <= PAGE_SIZE ->
  exists vm m' T' mm', map_pages_at pgd va (pg ⊟ PAGE_OFFSET) 4096 signal_pte_prot (Memory h m) = Some vm /\
    store_bytes (pg ⊞ 4096 ⊟ Z.of_nat (length sigreturn_stub)) sigreturn_stub (mem vm) = Some m' /\
    owns (heap vm) mm' /\ pt_ok m' pgd T' /\ tables_live T' mm' /\ T ⊆ T' /\ mm ⊆ mm' /\ fresh_tables T mm T' /\ holds_stub m' pg /\
    (forall a, off_tables T' a -> ~ pg <= a < pg + PAGE_SIZE -> m' !! a = m !! a) /\
    (forall x, va <= x < va + PAGE_SIZE ->
       sv39 m' pgd x = Some (pg - PAGE_OFFSET + (x - va), signal_pte_prot) \/ (sv39 m' pgd x = None /\ no_page (heap vm))) /\
    (forall x, canonical x -> ~ va <= x < va + PAGE_SIZE -> sv39 m' pgd x = sv39 m pgd x).
Proof.
  intros Ho Hok Hl Hpg Hn Hhigh Hne Hw Hva Hd Htop Hs.
  destruct (owns_bounds _ _ _ _ _ Ho Hpg) as (Hp0 & _ & Hend & _ & Hal). specialize (Hal Hn).
  assert (Hoff : PAGE_OFFSET = 2 ^ 64 - 2 ^ 38) by reflexivity. assert (HT : USER_TOP = 2 ^ 38) by reflexivity.
  assert (Hpa : pg ⊟ PAGE_OFFSET = pg - PAGE_OFFSET) by (apply u64_small; rewrite PAGE_SIZE_val in *; lia). rewrite Hpa.
  destruct (map_pages_at_lemma pgd (Memory h m) mm T va (pg - PAGE_OFFSET) PAGE_SIZE signal_pte_prot)
    as (vm & T' & mm' & E & Ho' & Hok' & Hl' & HTT & HM & Hf & Hfr & _ & Hin & Hout); try assumption; try exact (Z.divide_refl _); try (rewrite PAGE_SIZE_val in *; lia);
    [intros x Hx; left; rewrite PAGE_SIZE_val in *; lia | apply Z.divide_sub_r; [done |]; by exists (PAGE_OFFSET / 4096) | vm_compute; split; congruence | done | done |].
  rewrite <- PAGE_SIZE_val, E. pose proof (fresh_apart _ _ _ _ _ _ Hf Hpg Hne) as Hne'.
  assert (Hoffp : forall a, pg <= a < pg + n -> off_tables T' a).
  { eapply object_off_tables; [exact Ho' | exact Hl' | by eapply lookup_weaken | done]. }
  destruct (store_stub (mem vm) pg Hal Hp0 ltac:(lia) Hs) as (m' & Es & Hh & Hx).
  { intros j Hj. rewrite Hfr; [by apply Hw | apply Hoffp]. unfold word. rewrite PAGE_SIZE_val in *. lia. }
  destruct (write_frame (mem vm) m' pgd T' Hok') as [Hok2 Hpte].
  { intros x Hno. apply Hx. intros ?. apply Hno, Hoffp. lia. }
  assert (Hsv : forall x, 0 <= x -> sv39 m' pgd x = sv39 (mem vm) pgd x).
  { intros x Hx0. by rewrite (sv39_pte_of _ _ T' x Hok2), (sv39_pte_of _ _ T' x Hok'), Hpte. }
  exists vm, m', T', mm'. rewrite PAGE_SIZE_val. split_and!; try done.
  - intros a Ha Hna. by rewrite Hx, Hfr.
  - intros x Hr. rewrite Hsv by lia. destruct (Hin x) as [-> | (-> & _ & Hno)]; [by rewrite PAGE_SIZE_val | by left | by right].
  - intros x Hc Hr. rewrite Hsv by (by apply canonical_nonneg). by apply Hout; rewrite ?PAGE_SIZE_val.
Qed.

(** What the handler finds: the registers of the frame that the kernel sets, the
    others as the program left them, the stack and its trampoline. *)
Record handler_entry k k1 (t : thread) (i regs pg va : Z) : Prop := {
  he_epc : get_reg regs reg_epc k1 = t_signal_handler t !! Z.to_nat i;
  he_sp : get_reg regs reg_sp k1 = Some (trampoline_at va);
  he_ra : get_reg regs reg_ra k1 = Some (trampoline_at va);
  he_others (j : nat) : (j < REGS)%nat -> Z.of_nat j <> reg_epc -> Z.of_nat j <> reg_sp -> Z.of_nat j <> reg_ra ->
    get_reg regs (Z.of_nat j) k1 = get_reg regs (Z.of_nat j) k;
  he_stub : holds_stub (k_mem k1) pg;
  he_stack x : va <= x < va + PAGE_SIZE ->
    sv39 (k_mem k1) (t_pgd t) x = Some (pg - PAGE_OFFSET + (x - va), signal_pte_prot) \/
    (sv39 (k_mem k1) (t_pgd t) x = None /\ no_page (k_heap k1));
  he_rest x : canonical x -> ~ va <= x < va + PAGE_SIZE -> sv39 (k_mem k1) (t_pgd t) x = sv39 (k_mem k) (t_pgd t) x;
}.

Lemma holds_stub_frame m m' pg : (PAGE_SIZE | pg) -> holds_stub m pg -> 0 < Z.of_nat (length sigreturn_stub) <= PAGE_SIZE ->
  (forall x, pg <= x < pg + PAGE_SIZE -> m' !! x = m !! x) -> holds_stub m' pg.
Proof.
  intros [q Eq] Hs Hlen Hm j c Hc. rewrite <- (Hs j c Hc). unfold load_byte, trampoline_at in *. apply lookup_lt_Some in Hc. rewrite PAGE_SIZE_val in *.
  rewrite Hm; [done |]. dlia.
Qed.

(** The registers of the handler. *)
Lemma set_frame m pgd T regs a b c : pt_ok m pgd T -> frame_ok T regs ->
  let m' := <[word regs reg_epc := a]> (<[word regs reg_sp := b]> (<[word regs reg_ra := c]> m)) in
  m' !! word regs reg_epc = Some a /\ m' !! word regs reg_sp = Some b /\ m' !! word regs reg_ra = Some c /\
  (forall x, x <> word regs reg_epc -> x <> word regs reg_sp -> x <> word regs reg_ra -> m' !! x = m !! x) /\
  pt_ok m' pgd T /\ (forall x, 0 <= x -> sv39 m' pgd x = sv39 m pgd x).
Proof.
  intros Hok Hf m'. assert (Hx : forall x, x <> word regs reg_epc -> x <> word regs reg_sp -> x <> word regs reg_ra -> m' !! x = m !! x).
  { intros x H1 H2 H3. subst m'. by rewrite !lookup_insert_ne by done. }
  assert (Hd : word regs reg_epc <> word regs reg_sp /\ word regs reg_epc <> word regs reg_ra /\ word regs reg_sp <> word regs reg_ra)
    by (unfold word, reg_epc, reg_sp, reg_ra; lia).
  destruct Hd as (H1 & H2 & H3). destruct (write_frame m m' pgd T Hok) as [Hok' Hpte].
  { intros x Hno. apply Hx; intros ->; apply Hno; [apply (Hf 31%nat) | apply (Hf 1%nat) | apply (Hf 0%nat)]; unfold REGS; lia. }
  split_and!; [| | | exact Hx | exact Hok' |].
  - subst m'. by rewrite lookup_insert_eq.
  - subst m'. by rewrite lookup_insert_ne, lookup_insert_eq.
  - subst m'. by rewrite 2!lookup_insert_ne, lookup_insert_eq by congruence.
  - intros x Hx0. by rewrite (sv39_pte_of _ _ T x Hok'), (sv39_pte_of _ _ T x Hok), Hpte.
Qed.

(** The two allocations. *)
Lemma stack_memory k t mm T i regs frame n c pg h1 nd h2 saved : signal_case k t mm T i regs frame n c pg h1 nd h2 saved ->
  exists np nn, new_page (as_vm k) = Some (Some pg, Memory h1 (zero_page pg (k_mem k))) /\
    let mm1 := <[nd := (nn, 1)]> (<[pg := (np, 1)]> mm) in
    owns h2 mm1 /\ PAGE_SIZE <= np /\ mm !! pg = None /\ mm !! nd = None /\ pg <> nd /\ tables_live T mm1 /\
    pt_ok (zero_page pg (k_mem k)) (t_pgd t) T /\ (forall va, 0 <= va -> sv39 (zero_page pg (k_mem k)) (t_pgd t) va = sv39 (k_mem k) (t_pgd t) va) /\
    (forall x, frame <= x < frame + n -> ~ pg <= x < pg + PAGE_SIZE).
Proof.
  intros []. destruct sg_stack_page0 as [Ea Hhigh], sg_stack_node0 as [En Hnd]. unfold PAGE_OFFSET in Hhigh.
  destruct (owns_allocate _ _ PAGE_SIZE sg_owns0) as [E | (p & h' & np & E & Hnp & Hp & Ho1)]; [done | rewrite E in Ea; injection Ea as <- _; lia |].
  rewrite E in Ea. injection Ea as -> ->.
  destruct (owns_allocate h1 _ SIZEOF_VM_AREA Ho1) as [E' | (p & h' & nn & E' & Hnn & Hp' & Ho2)]; [by vm_compute | rewrite E' in En; injection En as <- _; lia |].
  rewrite E' in En. injection En as -> ->. apply lookup_insert_None in Hp' as [Hnd' Hne].
  destruct (page_frame h1 mm T (k_mem k) (zero_page pg (k_mem k)) (t_pgd t) pg np) as (Hok & Hpte & Hl); try assumption; [intros x Hx; by apply zero_page_out |].
  exists np, nn. split; [unfold new_page; cbn [as_vm heap]; rewrite E; cbn [mbind option_bind]; by destruct (Z.eqb_spec pg 0); [lia |] |]. split_and!; try done.
  - intros p q Hq. destruct (Hl p q Hq) as (x & y & Hxy & ?). exists x, y. rewrite lookup_insert_ne; [done |]. intros <-.
    destruct (sg_live0 p nd Hq) as (? & ? & ? & _). congruence.
  - intros va Hva. by rewrite (sv39_pte_of _ _ T va Hok), (sv39_pte_of _ _ T va sg_tables0), Hpte.
  - intros x Hx Hin. destruct (owns_apart _ _ frame n c pg np 1 Ho1) as [-> | ?]; [rewrite lookup_insert_ne by congruence; done | by rewrite lookup_insert_eq | congruence | lia].
Qed.

(** The steps of the delivery, once the memory is known. *)
Lemma deliver_steps k (t : thread) i regs saved pg m1 h1 va nd h2 v vmas vm m2 handler :
  current k = Some t -> load_regs REGS regs k = Some saved -> new_page (as_vm k) = Some (Some pg, Memory h1 m1) ->
  find_free_vma_region (t_vmas t) 4096 = Some va -> h_allocate SIZEOF_VM_AREA h1 = Some (nd, h2) ->
  add_vma nd va 4096 (Z.lor (Z.lor PROT_READ PROT_WRITE) PROT_EXEC) MAP_ANONYMOUS (t_vmas t) = Some (v, vmas) ->
  map_pages_at (t_pgd t) va (pg ⊟ PAGE_OFFSET) 4096 signal_pte_prot (Memory h2 m1) = Some vm ->
  store_bytes (pg ⊞ 4096 ⊟ Z.of_nat (length sigreturn_stub)) sigreturn_stub (mem vm) = Some m2 ->
  t_signal_handler t !! Z.to_nat i = Some handler ->
  let tr := va ⊞ 4096 ⊟ Z.of_nat (length sigreturn_stub) in
  deliver_signal i regs k = Some (put_thread (tp k) (entered i saved pg va vmas t)
    (set_k_mem (<[word regs reg_epc := handler]> (<[word regs reg_sp := tr]> (<[word regs reg_ra := tr]> m2))) (set_k_heap (heap vm) k))).
Proof.
  intros Ht El En Ev Ea Eadd Em Es Eh tr. unfold deliver_signal, upd_current. rewrite El. cbn [mbind option_bind].
  rewrite (upd_lookup _ _ t) by exact Ht. cbn [mbind option_bind]. set (t1 := set_t_saved_regs _ _).
  change (as_vm (set_threads (<[tp k := t1]> (threads k)) k)) with (as_vm k). rewrite En. cbn [mbind option_bind].
  set (k1 := with_vm _ _). assert (Ht1 : current k1 = Some t1) by apply lookup_insert_eq. rewrite Ht1. cbn [mbind option_bind].
  change (t_vmas t1) with (t_vmas t). rewrite Ev. cbn [mbind option_bind]. unfold kalloc. change (k_heap k1) with h1. rewrite Ea. cbn [mbind option_bind].
  rewrite Eadd. cbn [mbind option_bind]. rewrite (upd_lookup _ _ t1) by exact Ht1. cbn [mbind option_bind].
  change (t_pgd t1) with (t_pgd t). change (t_signal_handler t1) with (t_signal_handler t).
  match goal with |- context [as_vm ?x] => change (as_vm x) with (Memory h2 m1) end. rewrite Em. cbn [mbind option_bind].
  rewrite Es. cbn [mbind option_bind]. rewrite Eh. cbn [mbind option_bind]. f_equal. subst k1.
  cbv [put_thread with_vm set_reg set_k_mem set_k_heap set_threads k_heap k_mem k_vfs threads run_queue nr_threads tp cpu satp kernel_pgd timer_list
    task_queue hw_timer reads time_freq fallback_priority heap mem set_mem].
  by rewrite insert_insert_eq.
Qed.

Lemma signal_delivered k t mm T i regs frame n c pg h1 nd h2 saved : signal_case k t mm T i regs frame n c pg h1 nd h2 saved ->
  exists k1 va vmas mm1 T1, check_signals regs k = Some k1 /\ clear_of va PAGE_SIZE (t_vmas t) /\
    threads k1 = <[tp k := entered i saved pg va vmas t]> (threads k) /\ tp k1 = tp k /\
    in_handler k1 (entered i saved pg va vmas t) mm1 T1 regs saved pg va nd (t_vmas t) /\
    T ⊆ T1 /\ mm ⊆ delete nd (delete pg mm1) /\ handler_entry k k1 t i regs pg va.
Proof.
  intros Hc. destruct (stack_memory _ _ _ _ _ _ _ _ _ _ _ _ _ _ Hc) as (np & nn & Enew & Ho1 & Hnp & Hpg & Hnd & Hne & Hl1 & Hok1 & Hsv1 & Hfar). destruct Hc.
  destruct sg_stack_page0 as [_ Hhigh], sg_stack_node0 as [Enode Hnd0].
  set (mm1 := <[nd := (nn, 1)]> _) in *.
  destruct (stack_region _ sg_vmas0 sg_ends0 sg_room0) as (va & Eva & Hva0 & Hvad & Hvat & Hcl).
  assert (HT : USER_TOP = 2 ^ 38) by reflexivity.
  destruct (remove_add_vma nd va 4096 (Z.lor (Z.lor PROT_READ PROT_WRITE) PROT_EXEC) MAP_ANONYMOUS (t_vmas t)) as (v & vmas & Eadd & Erem);
    [done | done | done | done | rewrite PAGE_SIZE_val in *; lia | by rewrite PAGE_SIZE_val in Hcl |].
  assert (Hmpg : mm1 !! pg = Some (np, 1)) by (subst mm1; by rewrite lookup_insert_ne, lookup_insert_eq by done).
  assert (Hmfr : mm1 !! frame = Some (n, c)) by (subst mm1; rewrite !lookup_insert_ne by congruence; done).
  assert (Hnot : forall x q, T !! x = Some q -> q <> pg) by (intros x q Hq ->; destruct (sg_live0 x pg Hq) as (? & ? & ? & _); congruence).
  destruct (stack_mapped h2 (zero_page pg (k_mem k)) (t_pgd t) mm1 T pg np va) as (vm & m2 & T1 & mm2 & Em & Es & Ho2 & Hok2 & Hl2 & HTT & HM & Hf & Hstub & Hfr & Hin & Hout);
    try assumption; [intros j Hj; rewrite zero_page_in by done; by eexists |].
  assert (Hframe : frame_ok T1 regs).
  { intros j Hj. eapply (object_off_tables _ _ T1 frame n c Ho2 Hl2); [by eapply lookup_weaken | by eapply fresh_apart | unfold word, REGS in *; lia]. }
  destruct (lookup_lt_is_Some_2 (t_signal_handler t) (Z.to_nat i)) as [handler Eh].
  { rewrite sg_handlers0. apply first_signal_range in sg_first0 as [? _]. unfold NR_SIGNALS in *. lia. }
  assert (Etr : va ⊞ 4096 ⊟ Z.of_nat (length sigreturn_stub) = trampoline_at va).
  { unfold trampoline_at. rewrite PAGE_SIZE_val in *. rewrite (u64_small (va + 4096)), u64_small by lia. done. }
  pose proof (deliver_steps k t i regs saved pg _ h1 va nd h2 v vmas vm m2 handler sg_current0 (proj2 (load_regs_spec _ _ _ _) sg_regs0) Enew Eva Enode Eadd Em Es Eh) as Ed.
  rewrite Etr in Ed. cbv zeta in Ed.
  destruct (set_frame m2 (t_pgd t) T1 regs handler (trampoline_at va) (trampoline_at va) Hok2 Hframe) as (He & Hs & Hr & Hrest & Hok3 & Hsv3).
  set (m3 := <[word regs reg_epc := handler]> _) in *. set (k1 := put_thread _ _ _) in Ed.
  exists k1, va, vmas, mm2, T1. split_and!; [| done | done | done | | done | |].
  - unfold check_signals. destruct (Z.eqb_spec (tp k) 0); [done |]. rewrite sg_current0. cbn [mbind option_bind]. rewrite sg_not_handling0.
    destruct (Z.eqb_spec (t_sigpending t) 0) as [E0 | _]; [rewrite E0 in sg_first0; apply first_signal_range in sg_first0 as [_ Hb]; discriminate Hb |].
    cbn [Z.eqb negb orb]. by rewrite sg_first0.
  - split; try done.
    + apply lookup_insert_eq.
    + apply sg_regs0.
    + exists np. by eapply lookup_weaken.
    + exists nn. eapply lookup_weaken; [apply lookup_insert_eq | exact HM].
  - apply map_subseteq_spec. intros x y Hx. rewrite !lookup_delete_ne by congruence. eapply lookup_weaken; [| exact HM]. subst mm1. by rewrite !lookup_insert_ne by congruence.
  - assert (Hreg : forall j : nat, (j < REGS)%nat -> ~ pg <= word regs (Z.of_nat j) < pg + PAGE_SIZE) by (intros j Hj; apply Hfar; unfold word, REGS in *; lia).
    split.
    + rewrite Eh. exact He.
    + exact Hs.
    + exact Hr.
    + intros j Hj H1 H2 H3. unfold get_reg. change (k_mem k1) with m3. rewrite Hrest by (intros ?%word_inj; done).
      rewrite Hfr by auto. by rewrite zero_page_out by auto.
    + apply (holds_stub_frame m2); [by apply (owns_bounds _ _ pg np 1 Ho1 Hmpg) | done | done |]. intros x Hx. apply Hrest; intros ->;
        [apply (Hreg 31%nat) | apply (Hreg 1%nat) | apply (Hreg 0%nat)]; (unfold REGS; lia) || exact Hx.
    + intros x Hx. change (k_mem k1) with m3. assert (Hx0 : 0 <= x) by lia. rewrite Hsv3 by done. by apply Hin.
    + intros x Hx Hr'. change (k_mem k1) with m3. pose proof (canonical_nonneg x Hx). rewrite Hsv3, Hout by done. by apply Hsv1.
Qed.

(** C21: a pending signal enters its handler with a stack of its own, which is
    mapped (unless no page is left for a table of it), holds the trampoline and
    meets no area of the thread; the other registers and translations stay.  Whatever the handler does to memory outside of the
    tables and the kernel's records, [sys_sigreturn] then restores every register
    of the frame, and takes the stack, its area and its mapping back. *)
Theorem signal_round_trip k t mm T i regs frame n c pg h1 nd h2 saved : signal_case k t mm T i regs frame n c pg h1 nd h2 saved ->
  exists k1 va vmas mm1 T1, check_signals regs k = Some k1 /\ clear_of va PAGE_SIZE (t_vmas t) /\
    threads k1 = <[tp k := entered i saved pg va vmas t]> (threads k) /\ tp k1 = tp k /\
    in_handler k1 (entered i saved pg va vmas t) mm1 T1 regs saved pg va nd (t_vmas t) /\
    T ⊆ T1 /\ mm ⊆ delete nd (delete pg mm1) /\ handler_entry k k1 t i regs pg va /\
    forall k2 t2 mm2 T2 vmas2, in_handler k2 t2 mm2 T2 regs saved pg va nd vmas2 ->
      exists k3, sys_sigreturn regs k2 = Some k3 /\ load_regs REGS regs k3 = load_regs REGS regs k /\
        threads k3 = <[tp k2 := returned vmas2 t2]> (threads k2) /\ owns (k_heap k3) (delete nd (delete pg mm2)) /\ pt_ok (k_mem k3) (t_pgd t2) T2 /\
        (forall x, va <= x < va + PAGE_SIZE -> sv39 (k_mem k3) (t_pgd t2) x = None) /\
        (forall x, canonical x -> ~ va <= x < va + PAGE_SIZE -> sv39 (k_mem k3) (t_pgd t2) x = sv39 (k_mem k2) (t_pgd t2) x).
Proof.
  intros Hc. destruct (signal_delivered _ _ _ _ _ _ _ _ _ _ _ _ _ _ Hc) as (k1 & va & vmas & mm1 & T1 & E & Hcl & Hth & Htp & Hin & HT & HM & He).
  exists k1, va, vmas, mm1, T1. split_and!; try done. intros k2 t2 mm2 T2 vmas2 Hin2.
  destruct (sys_sigreturn_spec _ _ _ _ _ _ _ _ _ _ Hin2) as (k3 & E3 & Hregs & Hth3 & _ & Ho & Hok & Hun & Hrest).
  exists k3. split_and!; try done. rewrite Hregs. symmetry. apply load_regs_spec, Hc.
Qed.

End Signal.

(** ** Witness *)

#[local] Existing Instances pages_ops pages_spec toy_disk.
#[local] Instance ecall_stub : Trampoline := { sigreturn_stub := [0x93; 0x08; 0xb0; 0; 0x73; 0; 0; 0] }.

(** The thread of [FaultProps] with a pending signal 3 and a handler for it. *)
Definition alarmed : thread := set_t_sigpending 8 (set_t_signal_handler (<[3%nat := 0x4100]> (replicate NR_SIGNALS 0)) toy_thread).
Definition alarm_owned : gmap Z (Z * Z) := <[toy_frame := (BLOCK, 1)]> (toy_owned 1).
Definition alarm_kernel : kernel (gmap Z (Z * Z)) :=
  Kernel alarm_owned (zero_page toy_frame toy_mem) vfs0 {[ 200 := alarmed ]} 200 2 200 (Context_ 7 7 []) (MAKE_SATP (toy_root ⊟ PAGE_OFFSET)) toy_root [] [] (2 ^ 64 - 1) 0 10000000 (-1).

Lemma alarm_owns : owns alarm_owned alarm_owned.
Proof.
  destruct (toy_owns 1 ltac:(lia)) as [_ Hm]. split; [reflexivity |]. apply map_Forall_insert_2; [| exact Hm].
  split; [reflexivity |]. split; [cbn; lia |]. split; [apply Z.mod_divide; [discriminate | reflexivity] |]. split; [reflexivity | vm_compute; congruence].
Qed.

Lemma alarm_case : exists pg h1 nd h2,
  signal_case alarm_kernel alarmed alarm_owned toy_tables 3 toy_frame toy_frame BLOCK 1 pg h1 nd h2 (replicate REGS 0).
Proof.
  destruct toy_tables_ok as (Hok & _ & _). destruct (pt_ok_frame toy_mem (zero_page toy_frame toy_mem) toy_root toy_tables Hok) as [Hok' _].
  { intros p q j Hq Hj. apply zero_page_out. apply toy_cases in Hq as [-> | [-> | ->]]; unfold word, toy_frame, toy_root, toy_pmd, toy_pt; rewrite PAGE_SIZE_val; lia. }
  eexists _, _, _, _. split.
  - reflexivity.
  - discriminate.
  - reflexivity.
  - reflexivity.
  - reflexivity.
  - exact alarm_owns.
  - exact Hok'.
  - intros p q Hq. destruct (toy_live 1 p q Hq) as (x & y & Hxy & Hx). exists x, y. split; [| exact Hx].
    unfold alarm_owned. rewrite lookup_insert_ne; [exact Hxy |]. apply toy_cases in Hq as [-> | [-> | ->]]; discriminate.
  - cbv. split; [congruence |]. split; [split; reflexivity | exact I].
  - intros v [-> | []%elem_of_nil]%elem_of_cons. split; [vm_compute; congruence | by exists 8].
  - exists VMA_SEARCH_BASE. split; [lia |]. split; [vm_compute; congruence |]. intros v [-> | []%elem_of_nil]%elem_of_cons. right. vm_compute. congruence.
  - reflexivity.
  - vm_compute. split; congruence.
  - intros p q [-> | [-> | ->]]%toy_cases; discriminate.
  - split; [reflexivity |]. intros j Hj. rewrite lookup_replicate_2 by exact Hj. apply zero_page_in. unfold REGS in Hj. lia.
  - vm_compute. split; congruence.
  - split; [reflexivity | vm_compute; congruence].
  - split; [reflexivity | discriminate].
Qed.

(** A page is left after the delivery. *)
Lemma alarm_pages k1 : check_signals toy_frame alarm_kernel = Some k1 -> ~ no_page (k_heap k1).
Proof.
  assert (E : (fun k => default 0 (fst <$> h_allocate PAGE_SIZE (k_heap k)) =? 0) <$> check_signals toy_frame alarm_kernel = Some false)
    by (vm_compute; reflexivity).
  intros E1 En. rewrite E1 in E. cbn [fmap option_fmap option_map] in E. unfold no_page in En. rewrite En in E. discriminate E.
Qed.

Lemma signal_round_trip_witness : exists k1 k3 pg va, check_signals toy_frame alarm_kernel = Some k1 /\ get_reg toy_frame reg_epc k1 = Some 0x4100 /\
  get_reg toy_frame reg_ra k1 = Some (trampoline_at va) /\ holds_stub (k_mem k1) pg /\
  sv39 (k_mem k1) toy_root (va + 0xff8) = Some (pg - PAGE_OFFSET + 0xff8, signal_pte_prot) /\
  sys_sigreturn toy_frame k1 = Some k3 /\ load_regs REGS toy_frame k3 = Some (replicate REGS 0).
Proof.
  destruct alarm_case as (pg & h1 & nd & h2 & Hc).
  destruct (signal_round_trip _ _ _ _ _ _ _ _ _ _ _ _ _ _ Hc) as (k1 & va & vmas & mm1 & T1 & E & _ & _ & _ & Hin & _ & _ & He & Hret).
  destruct (Hret _ _ _ _ _ Hin) as (k3 & E3 & Hr & _). exists k1, k3, pg, va. split; [exact E |]. split; [exact (he_epc _ _ _ _ _ _ _ He) |].
  split; [exact (he_ra _ _ _ _ _ _ _ He) |]. split; [exact (he_stub _ _ _ _ _ _ _ He) |]. split.
  { destruct (he_stack _ _ _ _ _ _ _ He (va + 0xff8)) as [Hs | [_ Hno]]; [rewrite PAGE_SIZE_val; lia | | destruct (alarm_pages k1 E Hno)].
    change (t_pgd alarmed) with toy_root in Hs. rewrite Hs. do 2 f_equal. lia. }
  split; [exact E3 |]. rewrite Hr. exact (proj2 (load_regs_spec _ _ _ _) (sg_regs _ _ _ _ _ _ _ _ _ _ _ _ _ _ Hc)).
Defined.
