(* ===== verification/ForkProps.v ===== *)
(** * Properties of [sys_fork]: a new thread with a copy of the address space *)

From S2P Require Import Prelude Config Heap CString VfsData Tmpfs Ramfs Vfs Cpio Vma Mmu MmuProofs MmuProps PgdProps PgdCopy Kernel Sched SchedProps Timer Thread Syscall Exception ThreadProps FaultProps SignalProps.

(** ** The queue *)

Section Queue.
Context {H : Type}.
Notation kernel := (kernel H).
Implicit Types (k : kernel).

(** Only the [next] field may differ. *)
Definition linked (t t' : thread) : Prop := t' = set_t_next (t_next t') t.

Lemma linked_refl t : linked t t.
Proof. by destruct t. Qed.

Lemma linked_set n t : linked t (set_t_next n t).
Proof. done. Qed.

Lemma enqueue_ring ths q qt t th ys : ring ths q (q :: ys) -> ths !! q = Some qt -> ths !! t = Some th -> t ∉ q :: ys ->
  ring (<[t := set_t_next (t_next qt) th]> (<[q := set_t_next t qt]> ths)) q (q :: t :: ys).
Proof.
  intros (Hnd & _ & Hp) Hq Ht Hnt. apply NoDup_cons in Hnd as [Hqy Hnd]. apply not_elem_of_cons in Hnt as [Htq Hty].
  destruct Hp as (_ & u & Hu & Hp). rewrite Hq in Hu. injection Hu as <-.
  split_and!; [| done |].
  - apply NoDup_cons. split; [set_solver |]. by apply NoDup_cons.
  - cbn [path]. split; [done |]. exists (set_t_next t qt). rewrite lookup_insert_ne, lookup_insert_eq by done. split; [done |].
    split; [done |]. exists (set_t_next (t_next qt) th). rewrite lookup_insert_eq. split; [done |].
    eapply path_ext; [| exact Hp]. intros a ta Ha Hta. exists ta. rewrite !lookup_insert_ne by (intros <-; done). done.
Qed.

Lemma enqueue_ok k xs t th : sched_ok k xs -> threads k !! t = Some th -> t ∉ tp k :: xs -> t <> 0 -> t_status th <> THREAD_RUNNING ->
  exists ths xs', enqueue t k = Some (set_threads ths k) /\ sched_ok (set_threads ths k) xs' /\ xs' ≡ₚ t :: xs /\
    (forall x, threads k !! x = None -> ths !! x = None) /\
    (forall x u, threads k !! x = Some u -> exists u', ths !! x = Some u' /\ linked u u').
Proof.
  intros [Hnz Hr Hq Hid Hrun Hsatp] Ht Hnt Ht0 Hst. set (q := run_queue k) in *.
  destruct (ring_from _ _ _ _ Hr Hq) as (ys & Hrq & Hperm).
  destruct (path_elem _ _ _ _ q (proj2 (proj2 Hrq))) as [qt Hqt]; [by left |].
  assert (Hnt' : t ∉ q :: ys) by (by rewrite <- Hperm).
  pose proof (enqueue_ring _ _ _ _ _ _ Hrq Hqt Ht Hnt') as Hrq'. set (ths := <[t := _]> _) in *.
  assert (Hlook : forall x u, threads k !! x = Some u -> exists u', ths !! x = Some u' /\ linked u u').
  { intros x u Hx. subst ths. destruct (decide (x = t)) as [-> | Hxt]; [rewrite lookup_insert_eq; eexists; split; [done |]; replace u with th by congruence; apply linked_set |].
    rewrite lookup_insert_ne by done. destruct (decide (x = q)) as [-> | Hxq].
    - rewrite lookup_insert_eq. eexists. split; [done |]. replace u with qt by congruence. apply linked_set.
    - rewrite lookup_insert_ne by done. exists u. split; [done | apply linked_refl]. }
  assert (Hback : forall x u', ths !! x = Some u' -> exists u, threads k !! x = Some u /\ linked u u').
  { intros x u' Hx. destruct (threads k !! x) as [u |] eqn:E; [destruct (Hlook x u E) as (u2 & E2 & Hl); exists u; split; [done | congruence] |].
    exfalso. subst ths. rewrite lookup_insert_ne, lookup_insert_ne in Hx by congruence. congruence. }
  assert (Htp : tp k ∈ q :: t :: ys) by (assert (tp k ∈ q :: ys) by (rewrite <- Hperm; by left); set_solver).
  destruct (ring_from _ _ _ _ Hrq' Htp) as (xs' & Hr' & Hperm').
  assert (Hxs : xs' ≡ₚ t :: xs).
  { apply (Permutation_cons_inv (a := tp k)). rewrite <- Hperm'. rewrite (Permutation_swap t q ys), <- Hperm. apply Permutation_swap. }
  exists ths, xs'. split_and!; [| | done | | exact Hlook].
  - unfold enqueue. fold q. destruct (Z.eqb_spec q 0) as [E | _]; [rewrite E in Hq; done |]. rewrite Hqt. cbn [mbind option_bind].
    rewrite (upd_lookup _ _ qt) by done. cbn [mbind option_bind].
    rewrite (upd_lookup _ _ th) by (cbn [threads set_threads]; rewrite lookup_insert_ne by set_solver; done). done.
  - split; cbn [threads set_threads tp run_queue satp].
    + apply not_elem_of_cons in Hnz as [? ?]. rewrite Hxs. set_solver.
    + exact Hr'.
    + fold q. rewrite Hxs. set_solver.
    + destruct Hid as (i & ti & Hi & Hti & Hpid). destruct (Hlook i ti Hti) as (u' & Hu' & Hl). exists i, u'.
      split_and!; [rewrite Hxs; set_solver | done |]. by rewrite Hl.
    + intros x u' Hx Hu' Hs. destruct (Hback x u' Hu') as (u & Hu & Hl). rewrite Hl in Hs. cbn in Hs.
      destruct (decide (x = t)) as [-> | Hxt]; [congruence |]. apply (Hrun x u); [rewrite Hxs in Hx; set_solver | done | done].
    + intros u' Hu'. destruct (Hback _ _ Hu') as (u & Hu & Hl). rewrite Hl. unfold pgd_of. cbn. by apply Hsatp.
  - intros x Hx. destruct (ths !! x) as [u' |] eqn:E; [| done]. destruct (Hback x u' E) as (u & Hu & _). congruence.
Qed.

End Queue.

(** ** Pieces of [fork] *)

Section Pieces.
Context {H : Type} {HO : HeapOps H} {HS : HeapSpec H}.
Notation kernel := (kernel H).
Implicit Types (k : kernel) (mm : gmap Z (Z * Z)) (T : tables).

(** The queue is read from few of the fields of the kernel. *)
Lemma sched_ok_same k k' xs : threads k' = threads k -> tp k' = tp k -> run_queue k' = run_queue k -> satp k' = satp k -> kernel_pgd k' = kernel_pgd k ->
  sched_ok k xs -> sched_ok k' xs.
Proof.
  intros Eth Etp Eq Es Ek [? ? ? ? ? Hs]. split; rewrite ?Eth, ?Etp, ?Eq, ?Es; try done. intros t Ht. rewrite (Hs t Ht). unfold pgd_of. by rewrite Ek.
Qed.

(** A thread that is not in the queue. *)
Lemma sched_ok_put k xs t th : sched_ok k xs -> t ∉ tp k :: xs -> sched_ok (put_thread t th k) xs.
Proof.
  intros [Hnz (Hnd & Hne & Hp) Hq Hid Hrun Hs] Hn. assert (Hl : forall x, x ∈ tp k :: xs -> <[t := th]> (threads k) !! x = threads k !! x).
  { intros x Hx. apply lookup_insert_ne. intros <-. done. }
  split; cbn [put_thread threads set_threads tp run_queue satp]; try done.
  - split_and!; [done | done |]. eapply path_ext; [| exact Hp]. intros a ta Ha Hta. exists ta. by rewrite Hl.
  - destruct Hid as (i & ti & Hi & Hti & ?). exists i, ti. by rewrite Hl.
  - intros x u Hx. rewrite Hl by done. by apply Hrun.
  - intros u. rewrite Hl by (by left). apply Hs.
Qed.

(** An address space seen from later states. *)
Lemma source_mono m m' pgd T h h' mm mm' : source m pgd T h mm -> owns h' mm' -> mm ⊆ mm' ->
  (forall p q i, T !! p = Some q -> 0 <= i < 512 -> m' !! word q i = m !! word q i) ->
  source m' pgd T h' mm' /\ pages m' T USER_PAGES = pages m T USER_PAGES /\ forall va, 0 <= va -> sv39 m' pgd va = sv39 m pgd va.
Proof.
  intros [Ho Hok Hl Hp] Ho' HM Hw. destruct (pt_ok_frame m m' pgd T Hok Hw) as [Hok' Hpte]. split_and!.
  - split; [done | done | |].
    + intros p q Hq. destruct (Hl p q Hq) as (n & c & Hn & Hs). exists n, c. split; [by eapply lookup_weaken | done].
    + intros v Hv. rewrite Hpte by lia. intros Hb. destruct (Hp v Hv Hb) as (Hr & n & c & Hn & Hs). split; [done |]. exists n, c. split; [by eapply lookup_weaken | done].
  - apply flat_ext. intros v Hv. unfold mapped. by rewrite Hpte by lia.
  - intros va Hva. by rewrite (sv39_pte_of _ _ T va Hok'), (sv39_pte_of _ _ T va Hok), Hpte.
Qed.

(** Open files with room in their counts. *)
Definition shareable (fds : list Z) (v : vfs) : Prop :=
  forall f, f ∈ fds -> f <> 0 -> exists fl, files v !! f = Some fl /\ - 2 ^ 31 <= ref_count fl /\ ref_count fl + Z.of_nat (length fds) < 2 ^ 31.

(** Each open file has one more reference for each descriptor. *)
Definition shared_files (fds : list Z) (v v' : vfs) : Prop :=
  v' = set_files (files v') v /\
  forall f, files v' !! f = (fun fl => if decide (f <> 0 /\ f ∈ fds) then set_ref_count (ref_count fl + cnt f fds) fl else fl) <$> files v !! f.

Lemma share_files_spec fds : forall v, shareable fds v -> exists v', share_files fds v = Some v' /\ shared_files fds v v'.
Proof.
  induction fds as [| f fds IH]; intros v Hs; cbn [share_files].
  - exists v. split; [done |]. split; [by destruct v |]. intros f. destruct (files v !! f) as [fl |]; [| done]. cbn.
    rewrite decide_False; [done |]. intros [_ ?%elem_of_nil]. done.
  - set (v1 := if f =? 0 then v else match files v !! f with Some fl => put_file f (set_ref_count (ref_count fl + 1) fl) v | None => v end).
    assert (E1 : (if f =? 0 then Some v else fl ← files v !! f; Some (put_file f (set_ref_count (i32 (ref_count fl + 1)) fl) v)) = Some v1).
    { subst v1. destruct (Z.eqb_spec f 0); [done |]. destruct (Hs f) as (fl & -> & ? & Hb); [by left | done |]. cbn [mbind option_bind].
      rewrite i32_small by (cbn [length] in Hb; lia). done. }
    rewrite E1. cbn [mbind option_bind].
    assert (Hv1 : v1 = set_files (files v1) v /\ forall g, files v1 !! g = (fun fl => if decide (g <> 0 /\ g = f) then set_ref_count (ref_count fl + 1) fl else fl) <$> files v !! g).
    { subst v1. destruct (Z.eqb_spec f 0) as [-> | Hf].
      - split; [by destruct v |]. intros g. destruct (files v !! g); [cbn | done]. rewrite decide_False by tauto. done.
      - destruct (Hs f) as (fl & Efl & _); [by left | done |]. rewrite Efl. split; [done |]. intros g. cbn [put_file files set_files].
        destruct (decide (g = f)) as [-> | Hg]; [rewrite lookup_insert_eq, Efl; cbn; by rewrite decide_True |].
        rewrite lookup_insert_ne by done. destruct (files v !! g); [cbn | done]. rewrite decide_False by tauto. done. }
    destruct Hv1 as [Hset Hlook]. destruct (IH v1) as (v' & E & Hset' & Hlook').
    { intros g Hg Hg0. destruct (Hs g) as (fl & Efl & Hlo & Hhi); [by right | done |]. rewrite Hlook, Efl. cbn [fmap option_fmap option_map length] in *.
      eexists. split; [done |]. case_decide; cbn [ref_count set_ref_count]; lia. }
    exists v'. split; [done |]. split; [rewrite Hset', Hset; by destruct v |]. intros g. rewrite Hlook', Hlook. destruct (files v !! g) as [fl |]; [| done].
    cbn [fmap option_fmap option_map]. f_equal. rewrite cnt_cons. destruct (decide (g = 0)) as [-> | Hg0].
    { rewrite !decide_False by tauto. done. }
    destruct (decide (g = f)) as [-> | Hgf].
    + rewrite (decide_True (P := f <> 0 /\ f = f)), (decide_True (P := f <> 0 /\ f ∈ f :: fds)), (decide_True (P := f = f)) by (split_and?; set_solver).
      destruct (decide (f <> 0 /\ f ∈ fds)) as [Hin | Hnin].
      * unfold set_ref_count. cbn. f_equal. lia.
      * unfold set_ref_count. cbn. f_equal. rewrite cnt_none; [lia |]. intros ?. by apply Hnin.
    + rewrite (decide_False (P := g <> 0 /\ g = f)), (decide_False (P := f = g)) by naive_solver.
      destruct (decide (g <> 0 /\ g ∈ fds)); destruct (decide (g <> 0 /\ g ∈ f :: fds)); [done | set_solver | set_solver | done].
Qed.

(** Areas of a copy: the same places and permissions, in nodes of their own; fewer
    when memory ran out. *)
Definition same_area (v w : vm_area) : Prop := w = VmArea (va_node w) (va_start v) (va_end v) (va_prot v) (va_flags v) (va_file_data v) (va_file_size v).
Definition areas_copied (vs ws : list vm_area) : Prop := exists j, (j <= length vs)%nat /\ Forall2 same_area (take j vs) ws.

Lemma vma_nodes_spec vs : forall k mm, owns (k_heap k) mm -> exists nodes h mm', vma_nodes (length vs) k = Some (nodes, set_k_heap h k) /\
  owns h mm' /\ mm ⊆ mm' /\ areas_copied vs (copy_vma_list nodes vs).
Proof.
  induction vs as [| v vs IH]; intros k mm Ho; cbn [vma_nodes length].
  - exists [], (k_heap k), mm. split_and!; [by destruct k | done | done |]. exists 0%nat. split; [done | by constructor].
  - unfold kalloc. destruct (owns_allocate _ _ SIZEOF_VM_AREA Ho) as [E | (p & h & n & E & _ & Hp & Ho')]; [by vm_compute | |]; rewrite E; cbn [mbind option_bind].
    + exists [0], (k_heap k), mm. split_and!; [by destruct k | done | done |]. exists 0%nat. split; [lia | by constructor].
    + destruct (owns_bounds _ _ p n 1 Ho') as (Hp0 & _); [by rewrite lookup_insert_eq |]. destruct (Z.eqb_spec p 0); [lia |].
      destruct (IH (set_k_heap h k) _ Ho') as (nodes & h' & mm' & -> & Ho2 & HM & j & Hj & Hf). cbn [mbind option_bind].
      exists (p :: nodes), h', mm'. split_and!; [by destruct k | done | etrans; [by apply insert_subseteq | exact HM] |].
      exists (S j). split; [cbn; lia |]. cbn [take copy_vma_list]. destruct (Z.eqb_spec p 0); [lia |]. constructor; [done | exact Hf].
Qed.

(** The frame of the child, from the registers of the parent. *)
Definition child_frame (child : Z) (saved : list Z) : list Z :=
  <[9%nat := 0]> (<[3%nat := child]> (<[31%nat := default 0 (saved !! 31%nat) ⊞ 4]> saved)).

Lemma word_nat_inj b (i j : nat) : word b (Z.of_nat i) = word b (Z.of_nat j) -> i = j.
Proof. unfold word. lia. Qed.

Lemma fork_regs_spec k creg child saved : regs_hold (k_mem k) REGS creg saved -> exists m, fork_regs creg child k = Some (set_k_mem m k) /\
  regs_hold m REGS creg (child_frame child saved) /\
  (forall x, (forall j : nat, (j < REGS)%nat -> x <> word creg (Z.of_nat j)) -> m !! x = k_mem k !! x).
Proof.
  intros [Hl Hj]. unfold REGS in Hl. destruct (lookup_lt_is_Some_2 saved 31) as [epc He]; [lia |].
  unfold fork_regs, get_reg. change (word creg reg_epc) with (word creg (Z.of_nat 31)). rewrite (Hj 31%nat) by (unfold REGS; lia). rewrite He. cbn [mbind option_bind].
  exists (<[word creg (Z.of_nat 31) := epc ⊞ 4]> (<[word creg (Z.of_nat 3) := child]> (<[word creg (Z.of_nat 9) := 0]> (k_mem k)))). split; [done |]. split.
  - split; [unfold child_frame; by rewrite !length_insert |]. intros j Hlt. unfold child_frame. rewrite He. cbn [default].
    destruct (decide (j = 31%nat)) as [-> | H31]; [rewrite lookup_insert_eq, !list_lookup_insert_ne by lia; by rewrite list_lookup_insert_eq by lia |].
    rewrite lookup_insert_ne by (intros ?%word_nat_inj; lia).
    destruct (decide (j = 3%nat)) as [-> | H3]; [rewrite lookup_insert_eq, list_lookup_insert_ne by lia; by rewrite list_lookup_insert_eq by (rewrite length_insert; lia) |].
    rewrite lookup_insert_ne by (intros ?%word_nat_inj; lia).
    destruct (decide (j = 9%nat)) as [-> | H9]; [rewrite lookup_insert_eq; by rewrite list_lookup_insert_eq by (rewrite !length_insert; lia) |].
    rewrite lookup_insert_ne by (intros ?%word_nat_inj; lia). rewrite !list_lookup_insert_ne by lia. by apply Hj.
  - intros x Hx. rewrite !lookup_insert_ne; [done | | |]; intros <-; [apply (Hx 9%nat) | apply (Hx 3%nat) | apply (Hx 31%nat)]; (unfold REGS; lia) || done.
Qed.

(** The copy of the kernel stack. *)
Lemma clone_stack m stack ks regs saved (j0 : Z) : regs_hold m REGS (word ks j0) saved -> 0 <= j0 -> j0 + 35 <= 1024 ->
  stack + KERNEL_STACK_SIZE <= ks \/ ks + KERNEL_STACK_SIZE <= stack -> regs = word stack j0 ->
  regs_hold (clone_words 1024 stack ks m) REGS regs saved /\ (forall x, ~ stack <= x < stack + KERNEL_STACK_SIZE -> clone_words 1024 stack ks m !! x = m !! x).
Proof.
  intros [Hl Hj] H0 H1 Hd ->. unfold KERNEL_STACK_SIZE in *. split.
  - split; [done |]. intros j Hlt. rewrite <- Hj by done. unfold REGS in Hlt.
    replace (word (word stack j0) (Z.of_nat j)) with (word stack (j0 + Z.of_nat j)) by (unfold word; lia).
    replace (word (word ks j0) (Z.of_nat j)) with (word ks (j0 + Z.of_nat j)) by (unfold word; lia). apply clone_words_in; [lia | exact Hd].
  - intros x Hx. apply clone_words_out. intros i Hi ->. apply Hx. unfold word. lia.
Qed.
End Pieces.

#[local] Opaque pages clone_words USER_PAGES.

(** ** [sys_fork] *)

Section Fork.
Context {H : Type} {HO : HeapOps H} {HS : HeapSpec H} {KT : KernelText}.
Notation kernel := (kernel H).
Implicit Types (k : kernel) (mm : gmap Z (Z * Z)) (T : tables).

(** The current thread [p] has an address space and a kernel stack of its own;
    its registers [saved] are in the frame [regs] on that stack. *)
Record fork_case k (xs : list Z) (p : thread) mm T (regs j0 : Z) (saved : list Z) (n c : Z) : Prop := {
  fc_sched : sched_ok k xs;
  fc_parent : threads k !! tp k = Some p;
  fc_pgd : t_pgd p <> 0 /\ t_pgd p <> kernel_pgd k;
  fc_source : source (k_mem k) (t_pgd p) T (k_heap k) mm;
  fc_stack : mm !! t_kernel_stack p = Some (n, c) /\ KERNEL_STACK_SIZE <= n;
  fc_stack_apart q x : T !! q = Some x -> x <> t_kernel_stack p;
  fc_regs : regs = word (t_kernel_stack p) j0 /\ 0 <= j0 /\ j0 + 35 <= 1024;
  fc_saved : regs_hold (k_mem k) REGS regs saved;
  fc_files : shareable (t_fdt p) (k_vfs k);
  fc_threads x u : threads k !! x = Some u -> is_Some (mm !! x);
}.

Definition fork_failed k (p : thread) mm T k' : Prop :=
  owns (k_heap k') mm /\ threads k' = threads k /\ tp k' = tp k /\ run_queue k' = run_queue k /\ k_vfs k' = k_vfs k /\
  undisturbed (k_mem k) (k_mem k') (t_pgd p) T.

(** The new thread [c] at [child]. *)
Record forked k (xs : list Z) (p : thread) mm T (regs : Z) (saved : list Z) k' (child : Z) (c : thread) : Prop := {
  fk_fresh : mm !! child = None /\ threads k !! child = None;
  fk_queue : exists xs', sched_ok k' xs' /\ xs' ≡ₚ child :: xs;
  fk_thread : threads k' !! child = Some c;
  fk_fields : t_pid c = nr_threads k /\ t_status c = THREAD_READY /\ t_parent c = tp k /\ t_sigpending c = 0 /\ t_handling c = 0 /\ t_stack_page c = 0 /\
    t_fdt c = t_fdt p /\ t_cwd c = t_cwd p /\ t_signal_handler c = t_signal_handler p;
  fk_areas : areas_copied (t_vmas p) (t_vmas c);
  fk_context : ra (t_context c) = ret_from_exception /\ load_regs REGS (sp (t_context c)) k' = Some (child_frame child saved);
  fk_parent_regs : load_regs REGS regs k' = Some saved;
  fk_others x u : threads k !! x = Some u -> exists u', threads k' !! x = Some u' /\ linked u u';
  fk_user va : 0 <= va < 2 ^ 38 -> sv39 (k_mem k') (t_pgd p) va = read_only (sv39 (k_mem k) (t_pgd p) va) /\
    sv39 (k_mem k') (t_pgd c) va = read_only (sv39 (k_mem k) (t_pgd p) va);
  fk_kernel va : 2 ^ 64 - 2 ^ 38 <= va < 2 ^ 64 -> sv39 (k_mem k') (t_pgd p) va = sv39 (k_mem k) (t_pgd p) va /\
    sv39 (k_mem k') (t_pgd c) va = sv39 (k_mem k) (t_pgd p) va;
  fk_heap : exists mm', owns (k_heap k') mm' /\ forall q x y, mm !! q = Some (x, y) -> mm' !! q = Some (x, y + cnt q (pages (k_mem k) T USER_PAGES));
  fk_files : shared_files (t_fdt p) (k_vfs k) (k_vfs k');
}.

(** The two allocations and the copy of the stack. *)
Lemma fork_start k xs p mm T regs j0 saved n c child stack h1 h2 nc ns : fork_case k xs p mm T regs j0 saved n c ->
  owns h1 (<[child := (nc, 1)]> mm) -> mm !! child = None -> owns h2 (<[stack := (ns, 1)]> (<[child := (nc, 1)]> mm)) ->
  <[child := (nc, 1)]> mm !! stack = None -> KERNEL_STACK_SIZE <= ns ->
  let mm2 := <[stack := (ns, 1)]> (<[child := (nc, 1)]> mm) in let m1 := clone_words 1024 stack (t_kernel_stack p) (k_mem k) in
  mm ⊆ mm2 /\ source m1 (t_pgd p) T h2 mm2 /\ pages m1 T USER_PAGES = pages (k_mem k) T USER_PAGES /\
  (forall va, 0 <= va -> sv39 m1 (t_pgd p) va = sv39 (k_mem k) (t_pgd p) va) /\
  regs ⊞ (stack ⊟ t_kernel_stack p) = word stack j0 /\ regs_hold m1 REGS (word stack j0) saved /\ regs_hold m1 REGS regs saved /\
  (forall q x, T !! q = Some x -> x <> stack).
Proof.
  intros [] Ho1 Hc Ho2 Hst Hns mm2 m1. destruct fc_stack0 as [Hks Hn], fc_regs0 as (Er & Hj0 & Hj1).
  apply lookup_insert_None in Hst as [Hst Hne].
  assert (HM : mm ⊆ mm2) by (subst mm2; transitivity (<[child := (nc, 1)]> mm); [by apply insert_subseteq | apply insert_subseteq; by rewrite lookup_insert_ne]).
  assert (Hks2 : mm2 !! t_kernel_stack p = Some (n, c)) by (by eapply lookup_weaken).
  assert (Hst2 : mm2 !! stack = Some (ns, 1)) by apply lookup_insert_eq.
  destruct (owns_bounds _ _ _ _ _ Ho2 Hst2) as (Hs0 & _ & Hse & _). destruct (owns_bounds _ _ _ _ _ Ho2 Hks2) as (Hk0 & _ & Hke & _).
  assert (Hd : stack + KERNEL_STACK_SIZE <= t_kernel_stack p \/ t_kernel_stack p + KERNEL_STACK_SIZE <= stack).
  { destruct (owns_apart _ _ _ _ _ _ _ _ Ho2 Hst2 Hks2) as [-> | ?]; [congruence | lia]. }
  unfold KERNEL_STACK_SIZE in *.
  assert (Eregs : regs ⊞ (stack ⊟ t_kernel_stack p) = word stack j0).
  { rewrite Er. unfold u64, word. rewrite Zplus_mod_idemp_r. rewrite Z.mod_small; lia. }
  rewrite Er in fc_saved0. destruct (clone_stack (k_mem k) stack (t_kernel_stack p) (word stack j0) saved j0 fc_saved0 Hj0 Hj1 Hd eq_refl) as [Hcs Hout]. fold m1 in Hcs, Hout.
  unfold KERNEL_STACK_SIZE in Hout.
  assert (Hnot : forall q x, T !! q = Some x -> x <> stack).
  { intros q x Hq ->. destruct (src_live _ _ _ _ _ fc_source0 q stack Hq) as (? & ? & ? & _). congruence. }
  destruct (source_mono (k_mem k) m1 (t_pgd p) T (k_heap k) h2 mm mm2 fc_source0 Ho2 HM) as (Hsrc & Hpg & Hsv).
  { intros q x i Hq Hi. apply Hout. destruct (src_live _ _ _ _ _ fc_source0 q x Hq) as (y & z & Hyz & Hy).
    destruct (owns_apart _ _ x y z stack ns 1 Ho2) as [-> | ?]; [by eapply lookup_weaken | done | by destruct (Hnot q stack Hq) |].
    unfold word. rewrite PAGE_SIZE_val in *. lia. }
  refine (conj HM (conj Hsrc (conj Hpg (conj Hsv (conj Eregs (conj Hcs (conj _ Hnot))))))).
  rewrite Er. destruct fc_saved0 as [Hl Hj]. split; [exact Hl |]. intros j Hlt. rewrite Hout; [by apply Hj |].
  unfold word, REGS in *. lia.
Qed.

Lemma undisturbed_trans m0 m1 m pgd T : pt_ok m0 pgd T -> (forall va, 0 <= va -> sv39 m1 pgd va = sv39 m0 pgd va) -> undisturbed m1 m pgd T -> undisturbed m0 m pgd T.
Proof.
  intros Hok Hsv (Hok' & Hu & Hk). split; [done |]. split; intros va Hva; rewrite <- Hsv by lia; [by apply Hu | by apply Hk].
Qed.

Lemma undisturbed_refl m pgd T : pt_ok m pgd T -> undisturbed m m pgd T.
Proof. intros Hok. split; [done |]. split; [by left | done]. Qed.

(** The queue holds live objects only. *)
Lemma queue_fresh k xs mm child : sched_ok k xs -> (forall x u, threads k !! x = Some u -> is_Some (mm !! x)) -> mm !! child = None ->
  child ∉ tp k :: xs /\ threads k !! child = None.
Proof.
  intros [_ (_ & _ & Hp) _ _ _ _] Hth Hc. assert (Hn : threads k !! child = None).
  { destruct (threads k !! child) as [u |] eqn:E; [| done]. destruct (Hth child u E) as [x Hx]. congruence. }
  split; [| done]. intros Hin. destruct (path_elem _ _ _ _ _ Hp Hin) as [u Hu]. congruence.
Qed.

(** From the copied address space on. *)
Lemma fork_finish k xs p mm T regs j0 saved n c child stack h2 nc ns new vm T' mm' k3 : fork_case k xs p mm T regs j0 saved n c ->
  let mm2 := <[stack := (ns, 1)]> (<[child := (nc, 1)]> mm) in let m1 := clone_words 1024 stack (t_kernel_stack p) (k_mem k) in
  owns h2 mm2 -> mm !! child = None -> mm !! stack = None -> child <> stack -> KERNEL_STACK_SIZE <= ns ->
  (forall q x, T !! q = Some x -> x <> stack) ->
  (forall va, 0 <= va -> sv39 m1 (t_pgd p) va = sv39 (k_mem k) (t_pgd p) va) -> pages m1 T USER_PAGES = pages (k_mem k) T USER_PAGES ->
  regs_hold m1 REGS (word stack j0) saved -> regs_hold m1 REGS regs saved ->
  duplicated m1 (t_pgd p) T mm2 new vm T' mm' ->
  k3 = with_vm (set_nr_threads (i32 (nr_threads k + 1)) k) vm ->
  exists k' cth, ('(nodes, k3) ← vma_nodes (length (t_vmas p)) k3;
      v ← share_files (t_fdt p) (k_vfs k3);
      k4 ← fork_regs (word stack j0) child (set_k_vfs v k3);
      let t := fork_thread p (tp k) (nr_threads k) stack new (word stack j0) (copy_vma_list nodes (t_vmas p)) in
      k5 ← enqueue child (put_thread child t k4);
      Some (nr_threads k, k5)) = Some (nr_threads k, k') /\ forked k xs p mm T regs saved k' child cth.
Proof.
  intros Hfc mm2 m1 Ho2 Hc Hst Hne Hns Hnot Hsv Hpg Hcs Hps Hdu Ek3. pose proof Hfc as []. clearbody m1.
  destruct fc_stack0 as [Hks Hn], fc_regs0 as (Er & Hj0 & Hj1).
  assert (Hst2 : mm2 !! stack = Some (ns, 1)) by apply lookup_insert_eq.
  assert (Hks2 : mm2 !! t_kernel_stack p = Some (n, c)) by (subst mm2; rewrite !lookup_insert_ne by congruence; exact Hks).
  assert (Hoff : forall b y z, mm2 !! b = Some (y, z) -> KERNEL_STACK_SIZE <= y -> (forall q x, T !! q = Some x -> x <> b) ->
    forall j, 0 <= j < 1024 -> off_tables T (word b j) /\ off_tables T' (word b j)).
  { intros b y z Hb Hy Hnb j Hj. pose proof (du_refs _ _ _ _ _ _ _ _ Hdu _ _ _ Hb) as Hb'. destruct (du_live _ _ _ _ _ _ _ _ Hdu) as [Hl Hl'].
    unfold KERNEL_STACK_SIZE in Hy. split.
    - eapply (object_off_tables _ _ T b _ _ (du_owns _ _ _ _ _ _ _ _ Hdu) Hl Hb'); [intros q x Hq; by eapply Hnb | unfold word; lia].
    - eapply (object_off_tables _ _ T' b _ _ (du_owns _ _ _ _ _ _ _ _ Hdu) Hl' Hb'); [| unfold word; lia].
      eapply fresh_apart; [exact (du_new _ _ _ _ _ _ _ _ Hdu) | exact Hb | exact Hnb]. }
  assert (Hframe : forall b y z, mm2 !! b = Some (y, z) -> KERNEL_STACK_SIZE <= y -> (forall q x, T !! q = Some x -> x <> b) ->
    regs_hold m1 REGS (word b j0) saved -> regs_hold (mem vm) REGS (word b j0) saved).
  { intros b y z Hb Hy Hnb [Hl Hj]. split; [exact Hl |]. intros j Hlt. rewrite <- Hj by exact Hlt. unfold REGS in Hlt.
    replace (word (word b j0) (Z.of_nat j)) with (word b (j0 + Z.of_nat j)) by (unfold word; lia).
    destruct (Hoff b y z Hb Hy Hnb (j0 + Z.of_nat j) ltac:(lia)) as [H1 H2]. by apply (du_frame _ _ _ _ _ _ _ _ Hdu). }
  assert (Eh3 : k_heap k3 = heap vm) by (subst k3; reflexivity).
  destruct (vma_nodes_spec (t_vmas p) k3 mm') as (nodes & h4 & mm4 & -> & Ho4 & HM4 & Har); [rewrite Eh3; exact (du_owns _ _ _ _ _ _ _ _ Hdu) |].
  cbn [mbind option_bind]. assert (Ev3 : k_vfs (set_k_heap h4 k3) = k_vfs k) by (subst k3; reflexivity). rewrite Ev3.
  destruct (share_files_spec _ _ fc_files0) as (v' & -> & Hfiles). cbn [mbind option_bind].
  set (k5 := set_k_vfs v' (set_k_heap h4 k3)). assert (Em5 : k_mem k5 = mem vm) by (subst k5 k3; reflexivity).
  destruct (fork_regs_spec k5 (word stack j0) child saved) as (m6 & -> & Hchild & Hout); [rewrite Em5; by eapply (Hframe stack) |].
  cbn [mbind option_bind]. set (k6 := set_k_mem m6 k5). set (t := fork_thread _ _ _ _ _ _ _).
  destruct (queue_fresh k xs mm child fc_sched0 fc_threads0 Hc) as [Hq Hth].
  assert (Hok6 : sched_ok k6 xs) by (apply (sched_ok_same k); [subst k6 k5 k3; reflexivity .. | exact fc_sched0]).
  assert (Etp6 : tp k6 = tp k) by (subst k6 k5 k3; reflexivity). assert (Eth6 : threads k6 = threads k) by (subst k6 k5 k3; reflexivity).
  destruct (owns_bounds _ _ child nc 1 Ho2) as (Hc0 & _); [subst mm2; rewrite lookup_insert_ne by congruence; apply lookup_insert_eq |].
  destruct (enqueue_ok (put_thread child t k6) xs child t) as (ths & xs' & -> & Hok7 & Hxs & _ & Hlook);
    [apply sched_ok_put; [exact Hok6 | by rewrite Etp6] | apply lookup_insert_eq | change (tp (put_thread child t k6)) with (tp k6); by rewrite Etp6 | lia | done |].
  cbn [mbind option_bind]. destruct (Hlook child t) as (cth & Hcth & Hlk); [apply lookup_insert_eq |].
  assert (Hm6 : forall x, (off_tables T x -> False) \/ (off_tables T' x -> False) -> m6 !! x = mem vm !! x).
  { intros x Hx. rewrite <- Em5. apply Hout. intros j Hlt ->. unfold REGS in Hlt.
    destruct (Hoff stack ns 1 Hst2 Hns Hnot (j0 + Z.of_nat j) ltac:(lia)) as [H1 H2].
    replace (word (word stack j0) (Z.of_nat j)) with (word stack (j0 + Z.of_nat j)) in Hx by (unfold word; lia). destruct Hx as [Hx | Hx]; [destruct (Hx H1) | destruct (Hx H2)]. }
  destruct (write_frame (mem vm) m6 (t_pgd p) T (du_parent _ _ _ _ _ _ _ _ Hdu)) as [HokT HpteT]; [intros x Hx; apply Hm6; by left |].
  destruct (write_frame (mem vm) m6 new T' (du_child _ _ _ _ _ _ _ _ Hdu)) as [HokT' HpteT']; [intros x Hx; apply Hm6; by right |].
  assert (Hview : forall va, 0 <= va -> sv39 m6 (t_pgd p) va = sv39 (mem vm) (t_pgd p) va /\ sv39 m6 new va = sv39 (mem vm) new va).
  { intros va Hva. rewrite (sv39_pte_of _ _ T va HokT), (sv39_pte_of _ _ T va (du_parent _ _ _ _ _ _ _ _ Hdu)), HpteT by exact Hva.
    rewrite (sv39_pte_of _ _ T' va HokT'), (sv39_pte_of _ _ T' va (du_child _ _ _ _ _ _ _ _ Hdu)), HpteT' by exact Hva. split; reflexivity. }
  set (kf := set_threads ths _). assert (Emf : k_mem kf = m6) by reflexivity.
  exists kf, cth. split; [reflexivity |]. rewrite Hlk. split; cbn [t_pid t_status t_parent t_sigpending t_handling t_stack_page t_fdt t_cwd t_signal_handler t_vmas t_context t_pgd set_t_next t fork_thread
    ra sp].
  - split; [exact Hc | exact Hth].
  - exists xs'. split; [exact Hok7 | exact Hxs].
  - rewrite Hlk in Hcth. exact Hcth.
  - repeat (split; [reflexivity |]). reflexivity.
  - exact Har.
  - split; [reflexivity |]. apply load_regs_spec. rewrite Emf. exact Hchild.
  - apply load_regs_spec. rewrite Emf. rewrite Er in Hps |- *.
    destruct (Hframe _ _ _ Hks2 Hn fc_stack_apart0 Hps) as [Hl Hj]. split; [exact Hl |]. intros j Hlt. rewrite <- Hj by exact Hlt. rewrite <- Em5. apply Hout.
    intros j' Hlt'. unfold REGS, KERNEL_STACK_SIZE, word in *.
    destruct (owns_apart _ _ _ _ _ _ _ _ Ho2 Hst2 Hks2) as [E | ?]; [congruence | lia].
  - intros x u Hx. apply Hlook. cbn [threads put_thread set_threads]. rewrite lookup_insert_ne by congruence. rewrite Eth6. exact Hx.
  - intros va Hva. rewrite Emf. destruct (Hview va) as [-> ->]; [lia |]. rewrite <- Hsv by lia. exact (du_user _ _ _ _ _ _ _ _ Hdu va Hva).
  - intros va Hva. rewrite Emf. destruct (Hview va) as [-> ->]; [lia |]. rewrite <- Hsv by lia. exact (du_kernel _ _ _ _ _ _ _ _ Hdu va Hva).
  - exists mm4. split; [exact Ho4 |]. intros q x y Hqm. eapply lookup_weaken; [| exact HM4]. rewrite <- Hpg. apply (du_refs _ _ _ _ _ _ _ _ Hdu).
    subst mm2. rewrite !lookup_insert_ne by congruence. exact Hqm.
  - exact Hfiles.
Qed.

(** Giving back what a failed fork holds. *)
Lemma fork_undo h2 mm child stack nc ns k : owns h2 (<[stack := (ns, 1)]> (<[child := (nc, 1)]> mm)) -> mm !! child = None -> mm !! stack = None -> child <> stack ->
  k_heap k = h2 -> exists h1 h, kfree stack k = Some (set_k_heap h1 k) /\ kfree child (set_k_heap h1 k) = Some (set_k_heap h (set_k_heap h1 k)) /\ owns h mm.
Proof.
  intros Ho Hc Hst Hne Eh. destruct (owns_free _ _ stack ns Ho) as (h1 & E1 & Ho1); [apply lookup_insert_eq |].
  rewrite delete_insert_id in Ho1 by (rewrite lookup_insert_ne by congruence; exact Hst).
  destruct (owns_free _ _ child nc Ho1) as (h & E & Ho'); [apply lookup_insert_eq |]. rewrite delete_insert_id in Ho' by exact Hc.
  exists h1, h. split; [apply kfree_heap; rewrite Eh; exact E1 |]. split; [apply kfree_heap; exact E | exact Ho'].
Qed.

Lemma kalloc_heap sz k p h : h_allocate sz (k_heap k) = Some (p, h) -> kalloc sz k = Some (p, set_k_heap h k).
Proof. intros E. unfold kalloc. by rewrite E. Qed.

Lemma sys_fork_spec k xs p mm T regs j0 saved n c : fork_case k xs p mm T regs j0 saved n c ->
  (exists k', sys_fork regs k = Some (-1, k') /\ fork_failed k p mm T k') \/
  exists k' child cth, sys_fork regs k = Some (nr_threads k, k') /\ forked k xs p mm T regs saved k' child cth.
Proof.
  intros Hfc. pose proof Hfc as []. pose proof (src_ok _ _ _ _ _ fc_source0) as Hok. pose proof (src_owns _ _ _ _ _ fc_source0) as Ho.
  unfold sys_fork.
  destruct (owns_allocate _ _ SIZEOF_THREAD Ho) as [E | (child & h1 & nc & E & _ & Hc & Ho1)]; [by vm_compute | |]; rewrite (kalloc_heap _ _ _ _ E); cbn [mbind option_bind].
  { left. eexists. split; [reflexivity |]. split; [exact Ho |]. repeat (split; [reflexivity |]). by apply undisturbed_refl. }
  destruct (owns_bounds _ _ child nc 1 Ho1) as (Hc0 & _); [apply lookup_insert_eq |]. destruct (Z.eqb_spec child 0); [lia |].
  change (threads (set_k_heap h1 k)) with (threads k). rewrite fc_parent0. cbn [mbind option_bind].
  set (k1 := set_nr_threads _ _).
  destruct (owns_allocate _ _ KERNEL_STACK_SIZE Ho1) as [E2 | (stack & h2 & ns & E2 & Hns & Hst & Ho2)]; [by vm_compute | |]; rewrite (kalloc_heap _ k1 _ _ E2); cbn [mbind option_bind Z.eqb].
  { left. destruct (owns_free _ _ child nc Ho1) as (h & Ef & Ho'); [apply lookup_insert_eq |]. rewrite delete_insert_id in Ho' by exact Hc.
    rewrite (kfree_heap child _ h) by exact Ef. cbn [mbind option_bind]. eexists. split; [reflexivity |]. split; [exact Ho' |].
    repeat (split; [reflexivity |]). by apply undisturbed_refl. }
  destruct (owns_bounds _ _ stack ns 1 Ho2) as (Hs0 & _); [apply lookup_insert_eq |]. destruct (Z.eqb_spec stack 0); [lia |].
  destruct (fork_start _ _ _ _ _ _ _ _ _ _ child stack h1 h2 nc ns Hfc Ho1 Hc Ho2 Hst Hns) as (HM & Hsrc & Hpg & Hsv & Ereg & Hcs & Hps & Hnot).
  apply lookup_insert_None in Hst as [Hst Hne].
  unfold fork_pgd. destruct fc_pgd0 as [Hp0 Hpk]. rewrite (proj2 (Z.eqb_neq _ _) Hp0). match goal with |- context [kernel_pgd ?x] => change (kernel_pgd x) with (kernel_pgd k) end. rewrite (proj2 (Z.eqb_neq _ _) Hpk).
  cbn [negb andb]. set (k2 := set_k_mem _ _).
  set (m1 := clone_words 1024 stack (t_kernel_stack p) (k_mem k)) in *.
  change (as_vm k2) with (Memory h2 m1).
  destruct (copy_pgd_spec (t_pgd p) T (Memory h2 m1) _ Hsrc) as [(vm & -> & Hov & Hun) | (new & vm & T' & mm' & -> & Hdu & _)]; cbn [mbind option_bind].
  - left. destruct (fork_undo (heap vm) mm child stack nc ns (with_vm k2 vm) Hov Hc Hst Hne eq_refl) as (h3 & h4 & -> & E4 & Ho4). cbn [mbind option_bind].
    rewrite E4. cbn [mbind option_bind]. eexists. split; [reflexivity |]. split; [exact Ho4 |]. repeat (split; [reflexivity |]).
    eapply undisturbed_trans; [exact Hok | exact Hsv | exact Hun].
  - right. rewrite Ereg.
    destruct (fork_finish k xs p mm T regs j0 saved n c child stack h2 nc ns new vm T' mm' (with_vm k2 vm) Hfc Ho2 Hc Hst Hne Hns Hnot Hsv Hpg Hcs Hps Hdu eq_refl)
      as (k' & cth & E' & Hf).
    exists k', child, cth. split; [exact E' | exact Hf].
Qed.
(** ** The properties *)

(** C6: [copy_pgd] copies an address space: parent and child then translate every
    user address as the parent did, without the write permission, and share the
    kernel's half; each mapped page has one reference more per mapping; no word
    outside of the tables changes.  Out of memory it answers NULL with nothing
    lost, and [free_pgd] of the copy undoes it. *)
Theorem copy_pgd_copies pgd T vm mm : source (mem vm) pgd T (heap vm) mm ->
  (exists vm', copy_pgd pgd vm = Some (None, vm') /\ owns (heap vm') mm /\ undisturbed (mem vm) (mem vm') pgd T) \/
  exists new vm' T' mm', copy_pgd pgd vm = Some (Some new, vm') /\ duplicated (mem vm) pgd T mm new vm' T' mm' /\
    exists vm'', free_pgd new vm' = Some vm'' /\ owns (heap vm'') mm /\ mem vm'' = mem vm'.
Proof. apply copy_pgd_spec. Qed.

(** C5: [sys_fork] answers -1 with nothing lost, or makes a ready thread, next in
    the queue after its head, with the pid answered, a copy of the address
    space, the areas, the open files and the registers of the parent: there
    [a0] is 0 and [epc] is past the call. *)
Theorem sys_fork_forks k xs p mm T regs j0 saved n c : fork_case k xs p mm T regs j0 saved n c ->
  (exists k', sys_fork regs k = Some (-1, k') /\ fork_failed k p mm T k') \/
  exists k' child cth, sys_fork regs k = Some (nr_threads k, k') /\ forked k xs p mm T regs saved k' child cth.
Proof. apply sys_fork_spec. Qed.

End Fork.

(** ** Witnesses *)

#[local] Existing Instances pages_ops pages_spec toy_disk toy_text.

Lemma toy_entries v : 0 <= v < USER_PAGES -> has (pte_of toy_mem toy_tables (v * 4096)) PTE_V = true ->
  v = 5 /\ pte_of toy_mem toy_tables (v * 4096) = toy_leaf.
Proof.
  intros Hv. assert (Hr : 0 <= v < 2 ^ 26) by exact Hv. destruct (vpn_page v) as (E2 & E1 & E0); [lia |]. unfold pte_of.
  destruct (toy_tables !! [vpn2 (v * 4096); vpn1 (v * 4096)]) as [pt |] eqn:E; [| discriminate].
  unfold toy_tables in E. rewrite !lookup_insert_Some, lookup_singleton_Some in E. destruct E as [[[= Ea Eb] <-] | [_ [[[=] _] | [_ [[=] _]]]]].
  rewrite <- Ea in E2. rewrite <- Eb in E1. rewrite E0. set (j := v mod 512).
  assert (Hj : 0 <= j < 512) by (subst j; apply Z.mod_pos_bound; lia).
  assert (Ev : v = j). { subst j. change (2 ^ 18) with 262144 in E2. change (2 ^ 9) with 512 in E1. change (2 ^ 26) with 67108864 in Hr. dlia. }
  unfold toy_mem. destruct (decide (j = 5)) as [E5 | Hne].
  - rewrite E5, lookup_insert_eq. intros _. split; [lia | reflexivity].
  - rewrite lookup_insert_ne by (intros ?%word_inj; lia). rewrite lookup_insert_ne by (unfold word, toy_pmd, toy_pt; lia).
    rewrite zero_page_in by exact Hj. discriminate.
Qed.

Lemma toy_source h mm : owns h mm -> toy_owned 1 ⊆ mm -> source toy_mem toy_root toy_tables h mm.
Proof.
  intros Ho HM. destruct toy_tables_ok as (Hok & _). split; [exact Ho | exact Hok | |].
  - intros p q Hq. destruct (toy_live 1 p q Hq) as (x & y & Hxy & Hx). exists x, y. split; [eapply lookup_weaken; [exact Hxy | exact HM] | exact Hx].
  - intros v Hv Hb. destruct (toy_entries v Hv Hb) as [_ ->]. split; [vm_compute; split; congruence |]. exists BLOCK, 1.
    split; [eapply lookup_weaken; [| exact HM]; vm_compute; reflexivity | vm_compute; congruence].
Qed.

Definition toy_vm : memory (gmap Z (Z * Z)) := Memory (toy_owned 1) toy_mem.

Lemma copy_pgd_copies_witness : exists new vm', copy_pgd toy_root toy_vm = Some (Some new, vm') /\
  sv39 (mem vm') new 0x5010 = read_only (sv39 toy_mem toy_root 0x5010).
Proof.
  destruct (copy_pgd_copies toy_root toy_tables toy_vm (toy_owned 1)) as [(vm' & E & _) | (new & vm' & T' & mm' & E & Hdu & _)].
  - apply toy_source; [apply toy_owns; lia | reflexivity].
  - exfalso. assert (Ec : ((fun '(p, _) => bool_decide (is_Some p)) <$> copy_pgd toy_root toy_vm) = Some true) by (vm_compute; reflexivity). rewrite E in Ec. discriminate Ec.
  - exists new, vm'. split; [exact E |]. exact (proj2 (du_user _ _ _ _ _ _ _ _ Hdu 0x5010 ltac:(lia))).
Defined.

#[local] Transparent pages USER_PAGES.

Lemma toy_pages_list : pages toy_mem toy_tables USER_PAGES = [toy_page].
Proof.
  assert (Hm : forall v, 0 <= v < USER_PAGES -> v <> 5 -> mapped toy_mem toy_tables v = []).
  { intros v Hv Hne. unfold mapped. cbv zeta. destruct (has (pte_of toy_mem toy_tables (v * 4096)) PTE_V) eqn:E; [| reflexivity].
    destruct (toy_entries v Hv E) as [E5 _]. destruct (Hne E5). }
  rewrite (pages_skip _ _ 6 USER_PAGES); [| unfold USER_PAGES; lia | intros v Hv; apply Hm; lia].
  change 6 with (5 + 1). rewrite pages_S by lia. rewrite (pages_skip _ _ 0 5); [| lia | intros v Hv; apply Hm; unfold USER_PAGES; lia].
  change (pages toy_mem toy_tables 0) with (@nil Z). cbn [app]. unfold mapped. cbv zeta. destruct toy_tables_ok as (_ & E & _).
  change (5 * 4096) with 0x5000. rewrite E. reflexivity.
Qed.

Lemma toy_user_tables : user_tables toy_tables = [toy_pt; toy_pmd; toy_root].
Proof. vm_compute. reflexivity. Qed.

#[local] Opaque pages USER_PAGES.

Lemma toy_owned_cases c p x : toy_owned c !! p = Some x -> (p = toy_page /\ x = (BLOCK, c)) \/ (p ∈ [toy_pt; toy_pmd; toy_root] /\ x = (BLOCK, 1)).
Proof.
  unfold toy_owned. rewrite !lookup_insert_Some, lookup_singleton_Some, !elem_of_cons.
  intros [[<- <-] | [_ [[<- <-] | [_ [[<- <-] | [_ [<- <-]]]]]]]; [by left | right; split; [tauto | reflexivity] ..].
Qed.

(** Thread [mother] of pid 1 forks; [idler] is idle. *)
Definition mother : Z := 0xffffffc080018000.
Definition idler : Z := 0xffffffc08001a000.
Definition mother_thread : thread :=
  Thread (Context_ 1 1 []) 1 THREAD_RUNNING 0 0 toy_frame 0 idler 0 (-1) (-1) 0 0 toy_root [toy_area] (replicate 32 0) 0 0 [] 0 0 0 0 (replicate NR_FD 0).
Definition fork_owned : gmap Z (Z * Z) := <[idler := (BLOCK, 1)]> (<[mother := (BLOCK, 1)]> (<[toy_frame := (BLOCK, 1)]> (toy_owned 1))).
Definition fork_kernel : kernel (gmap Z (Z * Z)) :=
  Kernel fork_owned (zero_page toy_frame toy_mem) vfs0 (<[mother := mother_thread]> {[ idler := demo_thread 0 THREAD_READY mother 4096 ]}) idler 2 mother
    (Context_ 7 7 []) (MAKE_SATP (toy_root ⊟ PAGE_OFFSET)) 4096 [] [] (2 ^ 64 - 1) 0 10000000 (-1).

Lemma fork_owns : owns fork_owned fork_owned.
Proof.
  destruct (toy_owns 1 ltac:(lia)) as [_ Hm]. split; [reflexivity |].
  assert (Hb : forall b, b mod BLOCK = 0 -> 0 < b -> b + BLOCK <= 2 ^ 64 -> a_page b (BLOCK, 1)).
  { intros b Hd H0 He. split; [reflexivity |]. split; [cbn; lia |]. split; [by apply Z.mod_divide | by split]. }
  unfold fork_owned. do 3 (apply map_Forall_insert_2; [apply Hb; vm_compute; congruence |]). exact Hm.
Qed.

Lemma fork_ring : sched_ok fork_kernel [idler].
Proof.
  split.
  - cbn [fork_kernel tp]. rewrite !not_elem_of_cons. split_and!; [discriminate | discriminate | apply not_elem_of_nil].
  - split_and!; [| done |].
    + apply NoDup_cons. split; [rewrite list_elem_of_singleton; discriminate | apply NoDup_singleton].
    + split; [reflexivity |]. exists mother_thread. split; [reflexivity |]. split; [reflexivity |]. eexists. split; reflexivity.
  - right. by left.
  - exists idler, (demo_thread 0 THREAD_READY mother 4096). split_and!; [right; by left | reflexivity | reflexivity].
  - intros x t Hx. rewrite !elem_of_cons in Hx. destruct Hx as [-> | [-> | []%elem_of_nil]]; [done |]. intros [= <-]. discriminate.
  - intros t [= <-]. reflexivity.
Qed.

Lemma fork_toy : fork_case fork_kernel [idler] mother_thread fork_owned toy_tables toy_frame 0 (replicate REGS 0) BLOCK 1.
Proof.
  assert (HM : toy_owned 1 ⊆ fork_owned).
  { apply map_subseteq_spec. intros p x Hp. unfold fork_owned. apply toy_owned_cases in Hp as Hc.
    rewrite !lookup_insert_ne; [exact Hp | ..]; intros <-; destruct Hc as [[E _] | [Hc _]]; try discriminate E; rewrite !elem_of_cons in Hc;
      destruct Hc as [E | [E | [E | []%elem_of_nil]]]; discriminate E. }
  split.
  - exact fork_ring.
  - reflexivity.
  - split; discriminate.
  - change (k_mem fork_kernel) with (zero_page toy_frame toy_mem).
    destruct (source_mono toy_mem (zero_page toy_frame toy_mem) toy_root toy_tables (toy_owned 1) fork_owned (toy_owned 1) fork_owned) as [Hs _];
      [apply toy_source; [apply toy_owns; lia | reflexivity] | exact fork_owns | exact HM | | exact Hs].
    intros p q j Hq Hj. apply zero_page_out. apply toy_cases in Hq as [-> | [-> | ->]]; unfold word, toy_frame, toy_root, toy_pmd, toy_pt; rewrite PAGE_SIZE_val; lia.
  - split; [reflexivity | vm_compute; congruence].
  - intros q x [-> | [-> | ->]]%toy_cases; discriminate.
  - split; [reflexivity | lia].
  - split; [reflexivity |]. intros j Hj. rewrite lookup_replicate_2 by exact Hj. apply zero_page_in. unfold REGS in Hj. lia.
  - intros f Hf Hf0. change (t_fdt mother_thread) with (replicate NR_FD 0) in Hf. apply elem_of_replicate in Hf as [E _]. destruct (Hf0 E).
  - intros x u Hx. change (threads fork_kernel) with (<[mother := mother_thread]> {[ idler := demo_thread 0 THREAD_READY mother 4096 ]} : gmap Z thread) in Hx.
    apply lookup_insert_Some in Hx as [[<- _] | [_ [<- _]%lookup_singleton_Some]]; by eexists.
Qed.

Lemma sys_fork_forks_witness : exists k' child c, sys_fork toy_frame fork_kernel = Some (2, k') /\ threads k' !! child = Some c /\ t_parent c = mother /\
  load_regs REGS (sp (t_context c)) k' = Some (child_frame child (replicate REGS 0)).
Proof.
  destruct (sys_fork_forks _ _ _ _ _ _ _ _ _ _ fork_toy) as [(k' & E & _) | (k' & child & c & E & Hf)].
  - exfalso. assert (Ec : (fst <$> sys_fork toy_frame fork_kernel) = Some 2) by (vm_compute; reflexivity). rewrite E in Ec. discriminate Ec.
  - exists k', child, c. split; [exact E |]. split; [exact (fk_thread _ _ _ _ _ _ _ _ _ _ Hf) |].
    split; [exact (proj1 (proj2 (proj2 (fk_fields _ _ _ _ _ _ _ _ _ _ Hf)))) | exact (proj2 (fk_context _ _ _ _ _ _ _ _ _ _ Hf))].
Defined.
