(* ===== verification/ReapProps.v ===== *)
(** * Properties of the zombie killer

    One pass of [kill_zombies] takes the dead threads out of the queue and gives
    back everything they held; the threads that are left keep their order. *)

From S2P Require Import Prelude Config Heap CString VfsData Tmpfs Ramfs Vfs Vma Mmu MmuProofs PgdProps PgdCopy Kernel Sched SchedProps Timer Thread ThreadProps FaultProps SignalProps ForkProps.

(** ** Closing descriptors *)

(** The files [fs] after the descriptors [fds] are closed, and the files that had no
    other reference. *)
Fixpoint close_list (fds : list Z) (fs : gmap Z file) : option (list Z * gmap Z file) :=
  match fds with
  | [] => Some ([], fs)
  | f :: fds =>
      if f =? 0 then close_list fds fs else
      fl ← fs !! f;
      if 1 <? ref_count fl then close_list fds (<[f := set_ref_count (ref_count fl - 1) fl]> fs)
      else '(l, fs) ← close_list fds (delete f fs); Some (f :: l, fs)
  end.

(** Each file counts at least the descriptors that name it. *)
Definition closable (fds : list Z) (fs : gmap Z file) : Prop :=
  forall f, f ∈ fds -> f <> 0 -> exists fl, fs !! f = Some fl /\ cnt f fds <= ref_count fl < 2 ^ 31.

Definition closed_file (fds : list Z) (f : Z) (fl : file) : option file :=
  if decide (f <> 0 /\ f ∈ fds) then if ref_count fl <=? cnt f fds then None else Some (set_ref_count (ref_count fl - cnt f fds) fl) else Some fl.

Lemma closed_file_nil f fl : closed_file [] f fl = Some fl.
Proof. unfold closed_file. by rewrite decide_False by (intros [_ []%elem_of_nil]). Qed.

(** Each file loses a reference for each descriptor, and is given up with the last. *)
Lemma close_list_spec fds : forall fs, closable fds fs -> exists l fs', close_list fds fs = Some (l, fs') /\
  (forall f, fs' !! f = fs !! f ≫= closed_file fds f) /\
  forall f, cnt f l = match fs !! f with Some fl => if decide (f <> 0 /\ f ∈ fds /\ ref_count fl = cnt f fds) then 1 else 0 | None => 0 end.
Proof.
  induction fds as [| f fds IH]; intros fs Hc; cbn [close_list].
  - exists [], fs. split; [done |]. split; intros f; (destruct (fs !! f) as [fl |]; [cbn | done]).
    + by rewrite closed_file_nil.
    + by rewrite decide_False by (intros (_ & []%elem_of_nil & _)).
  - destruct (Z.eqb_spec f 0) as [-> | Hf].
    { destruct (IH fs) as (l & fs' & E & Hfs & Hl).
      { intros g Hg Hg0. destruct (Hc g) as (fl & Efl & Hb); [by right | done |]. rewrite cnt_cons, decide_False in Hb by congruence. by exists fl. }
      exists l, fs'. split; [done |]. split; intros g; rewrite ?Hfs, ?Hl; (destruct (fs !! g) as [fl |]; [cbn | done]).
      - unfold closed_file. rewrite cnt_cons. destruct (decide (g = 0)) as [-> | Hg]; [by rewrite !decide_False by tauto |].
        rewrite (decide_False (P := 0 = g)) by congruence. rewrite (decide_ext (g <> 0 /\ g ∈ 0 :: fds) (g <> 0 /\ g ∈ fds)) by set_solver. done.
      - rewrite cnt_cons. destruct (decide (g = 0)) as [-> | Hg]; [by rewrite !decide_False by tauto |].
        rewrite (decide_False (P := 0 = g)) by congruence. apply decide_ext. set_solver. }
    destruct (Hc f) as (fl & Efl & Hb); [by left | done |]. rewrite Efl. cbn [mbind option_bind].
    rewrite cnt_cons, decide_True in Hb by done. pose proof (cnt_nonneg f fds) as Hn.
    set (fs1 := if 1 <? ref_count fl then <[f := set_ref_count (ref_count fl - 1) fl]> fs else delete f fs).
    assert (Hne : forall g, g <> f -> fs1 !! g = fs !! g) by (intros g ?; subst fs1; destruct (1 <? _); [by rewrite lookup_insert_ne | by rewrite lookup_delete_ne]).
    assert (He : fs1 !! f = if 1 <? ref_count fl then Some (set_ref_count (ref_count fl - 1) fl) else None)
      by (subst fs1; destruct (1 <? _); [by rewrite lookup_insert_eq | by rewrite lookup_delete_eq]).
    destruct (IH fs1) as (l & fs' & E & Hfs & Hl).
    { intros g Hg Hg0. destruct (decide (g = f)) as [-> | Hgf].
      - apply cnt_elem in Hg. rewrite He. destruct (Z.ltb_spec 1 (ref_count fl)); [| lia]. eexists. split; [done |]. cbn. lia.
      - rewrite Hne by done. destruct (Hc g) as (flg & Eg & Hbg); [by right | done |]. rewrite cnt_cons, decide_False in Hbg by congruence. by exists flg. }
    exists (if 1 <? ref_count fl then l else f :: l), fs'. split.
    { subst fs1. destruct (1 <? ref_count fl); rewrite E; done. }
    split; intros g.
    + rewrite Hfs. destruct (decide (g = f)) as [-> | Hgf].
      * rewrite He, Efl. cbn. unfold closed_file at 2. rewrite decide_True by (split; [done | by left]). rewrite cnt_cons, decide_True by done.
        destruct (Z.ltb_spec 1 (ref_count fl)).
        -- cbn. unfold closed_file. cbn. destruct (decide (f <> 0 /\ f ∈ fds)) as [[_ Hin] | Hni].
           ++ destruct (Z.leb_spec (ref_count fl - 1) (cnt f fds)), (Z.leb_spec (ref_count fl) (1 + cnt f fds)); try lia; [done |].
              f_equal. destruct fl; unfold set_ref_count; cbn. f_equal. lia.
           ++ rewrite (cnt_none f fds) by tauto. destruct (Z.leb_spec (ref_count fl) (1 + 0)); [lia |]. f_equal; f_equal; lia.
        -- cbn. destruct (Z.leb_spec (ref_count fl) (1 + cnt f fds)); [done | lia].
      * rewrite Hne by done. destruct (fs !! g) as [flg |]; [cbn | done]. unfold closed_file. rewrite cnt_cons, (decide_False (P := f = g)) by congruence.
        rewrite (decide_ext (g <> 0 /\ g ∈ f :: fds) (g <> 0 /\ g ∈ fds)) by set_solver. done.
    + destruct (decide (g = f)) as [-> | Hgf].
      * rewrite Efl. assert (Ec : forall l', cnt f (f :: l') = 1 + cnt f l') by (intros l'; by rewrite cnt_cons, decide_True).
        destruct (Z.ltb_spec 1 (ref_count fl)).
        -- rewrite Hl, He. destruct (Z.ltb_spec 1 (ref_count fl)); [| lia]. cbn. apply decide_ext. rewrite Ec. split.
           ++ intros (? & ? & ?). split_and!; [done | by left | lia].
           ++ intros (? & _ & ?). split_and!; [done | apply cnt_elem; lia | lia].
        -- rewrite Ec, Hl, He. destruct (Z.ltb_spec 1 (ref_count fl)); [lia |].
           rewrite decide_True; [done |]. rewrite Ec. split_and!; [done | by left | lia].
      * assert (El : cnt g (if 1 <? ref_count fl then l else f :: l) = cnt g l) by (destruct (1 <? _); [done |]; by rewrite cnt_cons, decide_False by congruence).
        rewrite El, Hl, Hne by done. destruct (fs !! g) as [flg |]; [| done].
        assert (Ec : cnt g (f :: fds) = cnt g fds) by (by rewrite cnt_cons, decide_False by congruence). apply decide_ext. rewrite Ec. set_solver.
Qed.

Section Reap.
Context {H : Type} {HO : HeapOps H} {HS : HeapSpec H} {KT : KernelText}.
Notation kernel := (kernel H).
Implicit Types (k : kernel) (mm : gmap Z (Z * Z)).

(** The state after descriptors of the thread [t] were closed. *)
Definition closed_kernel k (t : Z) (th : thread) (h : H) (fs : gmap Z file) : kernel :=
  set_threads (<[t := th]> (threads k)) (set_k_vfs (set_files fs (k_vfs k)) (set_k_heap h k)).

Lemma closed_kernel_id k t th : threads k !! t = Some th -> closed_kernel k t th (k_heap k) (files (k_vfs k)) = k.
Proof. intros Ht. unfold closed_kernel. rewrite insert_id by done. destruct k as [? ? v]. by destruct v. Qed.

Lemma closed_kernel_twice k t th1 h1 fs1 th2 h2 fs2 : closed_kernel (closed_kernel k t th1 h1 fs1) t th2 h2 fs2 = closed_kernel k t th2 h2 fs2.
Proof. unfold closed_kernel. cbn. by rewrite insert_insert_eq. Qed.

Lemma close_fd_spec t i k th f : threads k !! t = Some th -> 0 <= i -> t_fdt th !! Z.to_nat i = Some f ->
  close_fd t i k = if f =? 0 then Some k else
    fl ← files (k_vfs k) !! f;
    let th' := set_t_fdt (<[Z.to_nat i := 0]> (t_fdt th)) th in
    let fl' := set_ref_count (i32 (ref_count fl - 1)) fl in
    if 0 <? i32 (ref_count fl - 1) then Some (closed_kernel k t th' (k_heap k) (<[f := fl']> (files (k_vfs k))))
    else h ← h_free f (k_heap k); Some (closed_kernel k t th' h (delete f (files (k_vfs k)))).
Proof.
  intros Ht Hi Hf. unfold close_fd. rewrite Ht. cbn [mbind option_bind]. rewrite Hf. cbn [mbind option_bind]. destruct (f =? 0); [done |].
  unfold vfs_close. cbn [as_fs vst]. destruct (files (k_vfs k) !! f) as [fl |]; [| done]. cbn [mbind option_bind ref_count set_ref_count].
  destruct (0 <? i32 (ref_count fl - 1)).
  - cbn [mbind option_bind]. unfold upd_thread. cbn [with_fs threads set_k_vfs set_k_heap]. rewrite Ht. reflexivity.
  - unfold free_object_at. cbn [on_vst vheap as_fs]. destruct (h_free f (k_heap k)) as [h |]; [| done]. cbn [mbind option_bind].
    unfold upd_thread. cbn [with_fs threads set_k_vfs set_k_heap]. rewrite Ht. cbn [mbind option_bind].
    unfold closed_kernel, put_thread, with_fs, on_vst. cbn. by rewrite delete_insert_eq.
Qed.

Lemma close_fds_loop t n : forall i k th l fs', threads k !! t = Some th -> length (t_fdt th) = (i + n)%nat ->
  close_list (drop i (t_fdt th)) (files (k_vfs k)) = Some (l, fs') -> closable (drop i (t_fdt th)) (files (k_vfs k)) ->
  for_range n (Z.of_nat i) (close_fd t) k =
    (h ← free_all l (k_heap k); Some (closed_kernel k t (set_t_fdt (take i (t_fdt th) ++ replicate n 0) th) h fs')).
Proof.
  induction n as [| n IH]; intros i k th l fs' Ht Hlen E Hc; cbn [for_range].
  - rewrite drop_ge in E by lia. injection E as <- <-. cbn [free_all mbind option_bind replicate]. rewrite app_nil_r, take_ge by lia.
    f_equal. symmetry. etrans; [| by apply (closed_kernel_id k t th)]. f_equal. by destruct th.
  - destruct (lookup_lt_is_Some_2 (t_fdt th) i) as [f Hf]; [lia |]. rewrite (drop_S _ f) in E, Hc by done.
    rewrite (close_fd_spec t (Z.of_nat i) k th f) by (done || lia || by rewrite Nat2Z.id). rewrite Nat2Z.id.
    assert (Hi : Z.of_nat i + 1 = Z.of_nat (S i)) by lia. rewrite Hi. cbn [close_list] in E.
    assert (Hzero : take (S i) (<[i := 0]> (t_fdt th)) ++ replicate n 0 = take i (t_fdt th) ++ replicate (S n) 0).
    { rewrite (take_S_r _ _ 0) by (apply list_lookup_insert_eq; lia). rewrite take_insert_ge by lia. by rewrite <- app_assoc. }
    destruct (Z.eqb_spec f 0) as [E0 | Hf0].
    { rewrite E0 in Hf, Hc. cbn [mbind option_bind]. rewrite (IH (S i) k th l fs' Ht); [| lia | done |].
      - rewrite list_insert_id in Hzero by done. by rewrite Hzero.
      - intros g Hg Hg0. destruct (Hc g) as (fl & Efl & Hb); [by right | done |]. rewrite cnt_cons, decide_False in Hb by congruence. by exists fl. }
    destruct (Hc f) as (fl & Efl & Hb); [by left | done |]. rewrite Efl in E |- *. cbn [mbind option_bind] in E |- *.
    rewrite cnt_cons, decide_True in Hb by done. pose proof (cnt_nonneg f (drop (S i) (t_fdt th))) as Hn. rewrite i32_small by lia.
    set (th1 := set_t_fdt (<[i := 0]> (t_fdt th)) th).
    assert (Hstep : forall h fs l' , close_list (drop (S i) (t_fdt th)) fs = Some (l', fs') -> closable (drop (S i) (t_fdt th)) fs ->
      for_range n (Z.of_nat (S i)) (close_fd t) (closed_kernel k t th1 h fs) =
        (h' ← free_all l' h; Some (closed_kernel k t (set_t_fdt (take i (t_fdt th) ++ replicate (S n) 0) th) h' fs'))).
    { intros h fs l' E' Hc'. assert (Ed : drop (S i) (t_fdt th1) = drop (S i) (t_fdt th)) by (unfold th1; cbn; rewrite drop_insert_lt; [done | lia]).
      rewrite (IH (S i) (closed_kernel k t th1 h fs) th1 l' fs'); [| apply lookup_insert_eq | unfold th1; cbn; rewrite length_insert; lia | by rewrite Ed | by rewrite Ed].
      cbn [k_heap closed_kernel set_threads set_k_vfs set_k_heap]. unfold th1. cbn [t_fdt set_t_fdt]. rewrite Hzero.
      destruct (free_all l' h); [| done]. cbn [mbind option_bind]. by rewrite closed_kernel_twice. }
    assert (Hrest : forall fs, (forall g, g <> f -> fs !! g = files (k_vfs k) !! g) -> (f ∈ drop (S i) (t_fdt th) -> exists fl', fs !! f = Some fl' /\ cnt f (drop (S i) (t_fdt th)) <= ref_count fl' < 2 ^ 31) ->
      closable (drop (S i) (t_fdt th)) fs).
    { intros fs Hne Hfs g Hg Hg0. destruct (decide (g = f)) as [-> | Hgf]; [by apply Hfs |]. rewrite Hne by done.
      destruct (Hc g) as (flg & Eg & Hbg); [by right | done |]. rewrite cnt_cons, decide_False in Hbg by congruence. by exists flg. }
    destruct (Z.ltb_spec 1 (ref_count fl)), (Z.ltb_spec 0 (ref_count fl - 1)); try lia; cbn [mbind option_bind].
    + apply Hstep; [done |]. apply Hrest; [intros g ?; by rewrite lookup_insert_ne |]. intros _. rewrite lookup_insert_eq. eexists. split; [done |]. cbn. lia.
    + destruct (close_list (drop (S i) (t_fdt th)) (delete f (files (k_vfs k)))) as [[l1 fs1] |] eqn:E1; [| done]. cbn in E. injection E as <- <-.
      cbn [free_all]. destruct (h_free f (k_heap k)) as [h1 |]; [| done]. cbn [mbind option_bind].
      apply Hstep; [done |]. apply Hrest; [intros g ?; by rewrite lookup_delete_ne |]. intros Hin%cnt_elem. lia.
Qed.

Lemma close_fds_spec t k th l fs' : threads k !! t = Some th -> length (t_fdt th) = NR_FD ->
  close_list (t_fdt th) (files (k_vfs k)) = Some (l, fs') -> closable (t_fdt th) (files (k_vfs k)) ->
  close_fds t k = (h ← free_all l (k_heap k); Some (closed_kernel k t (set_t_fdt (replicate NR_FD 0) th) h fs')).
Proof. intros Ht Hl E Hc. exact (close_fds_loop t NR_FD 0 k th l fs' Ht Hl E Hc). Qed.

(** ** One thread *)

(** The page table of the thread is its own. *)
Definition owns_pgd k (th : thread) : bool := negb (t_pgd th =? 0) && negb (t_pgd th =? kernel_pgd k).

(** What [kill_zombies] gives back for the thread at [t], besides its files: the
    stacks, the pages and the tables of its address space, its areas and itself. *)
Definition thread_objects k (T : tables) (t : Z) (th : thread) : list Z :=
  (if t_kernel_stack th =? 0 then [] else [t_kernel_stack th]) ++ (if t_user_stack th =? 0 then [] else [t_user_stack th]) ++
  (if owns_pgd k th then pages (k_mem k) T USER_PAGES ++ user_tables T else []) ++ (va_node <$> t_vmas th) ++ [t].

(** The same in the order in which it is freed. *)
Definition freed_objects k (T : tables) (t : Z) (th : thread) : list Z :=
  (if t_kernel_stack th =? 0 then [] else [t_kernel_stack th]) ++ (if t_user_stack th =? 0 then [] else [t_user_stack th]) ++
  (if owns_pgd k th then footprint (k_mem k) (t_pgd th) T else []) ++ (va_node <$> t_vmas th) ++ [t].

Definition pgd_ok k (T : tables) (th : thread) : Prop := owns_pgd k th = true -> pt_ok (k_mem k) (t_pgd th) T.

Lemma freed_objects_cnt k T t th p : pgd_ok k T th -> cnt p (freed_objects k T t th) = cnt p (thread_objects k T t th).
Proof.
  intros Hp. unfold freed_objects, thread_objects, pgd_ok in *. rewrite !cnt_app. destruct (owns_pgd k th); [| reflexivity].
  rewrite (footprint_cnt _ _ _ p (Hp eq_refl)), cnt_app. reflexivity.
Qed.

Definition free_step (l : list Z) k : option kernel := h ← free_all l (k_heap k); Some (set_k_heap h k).

Lemma free_step_app l l' k : free_step (l ++ l') k = (k ← free_step l k; free_step l' k).
Proof. unfold free_step. rewrite free_all_app. destruct (free_all l (k_heap k)) as [h |]; [| done]. cbn. by destruct (free_all l' h). Qed.

Lemma kfree_opt_step p k : kfree_opt p k = free_step (if p =? 0 then [] else [p]) k.
Proof.
  unfold kfree_opt, free_step. destruct (p =? 0); cbn [free_all mbind option_bind]; [by destruct k |]. unfold kfree. by destruct (h_free p (k_heap k)).
Qed.

Lemma free_vmas_step vs : forall k, free_vmas vs k = free_step (va_node <$> vs) k.
Proof.
  induction vs as [| v vs IH]; intros k; cbn [free_vmas fmap list_fmap]; [unfold free_step; cbn; by destruct k |].
  unfold kfree, free_step. cbn [free_all]. destruct (h_free (va_node v) (k_heap k)) as [h |]; [| done]. cbn [mbind option_bind]. rewrite IH. unfold free_step.
  cbn [k_heap set_k_heap]. by destruct (free_all (va_node <$> vs) h).
Qed.

Lemma free_thread_pgd_step T th k : pgd_ok k T th ->
  free_thread_pgd th k = free_step (if owns_pgd k th then footprint (k_mem k) (t_pgd th) T else []) k.
Proof.
  intros Hp. unfold pgd_ok, free_thread_pgd, owns_pgd in *. destruct (negb (t_pgd th =? 0) && negb (t_pgd th =? kernel_pgd k)).
  - rewrite (free_pgd_release (k_mem k) (t_pgd th) T (as_vm k) (Hp eq_refl) eq_refl). unfold release_in, free_step. cbn [heap as_vm].
    generalize (footprint (k_mem k) (t_pgd th) T) as l. intros l. destruct (free_all l (k_heap k)); [| reflexivity]. by destruct k.
  - unfold free_step. cbn [free_all mbind option_bind]. by destruct k.
Qed.

(** The state of a pass that started in [k0]. *)
Definition swept (k0 : kernel) (ths : gmap Z thread) (rq : Z) (h : H) (fs : gmap Z file) : kernel :=
  set_run_queue rq (set_threads ths (set_k_vfs (set_files fs (k_vfs k0)) (set_k_heap h k0))).

Lemma reap_spec k0 T ths rq h fs t th l fs' : ths !! t = Some th -> length (t_fdt th) = NR_FD -> pgd_ok k0 T th ->
  closable (t_fdt th) fs -> close_list (t_fdt th) fs = Some (l, fs') ->
  reap t (swept k0 ths rq h fs) = (h' ← free_all (l ++ freed_objects k0 T t th) h; Some (swept k0 (delete t ths) rq h' fs')).
Proof.
  intros Ht Hl Hp Hc E. unfold reap. rewrite (close_fds_spec t (swept k0 ths rq h fs) th l fs' Ht Hl E Hc). change (k_heap (swept k0 ths rq h fs)) with h.
  rewrite free_all_app. destruct (free_all l h) as [h1 |]; [| done]. cbn [mbind option_bind].
  set (th' := set_t_fdt (replicate NR_FD 0) th). set (k1 := closed_kernel _ _ _ _ _).
  assert (Ht1 : threads k1 !! t = Some th') by apply lookup_insert_eq. rewrite Ht1. cbn [mbind option_bind].
  assert (Hk : forall h2, set_k_heap h2 k1 = swept k0 (<[t := th']> ths) rq h2 fs') by done.
  assert (E2 : (k ← kfree_opt (t_kernel_stack th') k1; k ← kfree_opt (t_user_stack th') k; k ← free_thread_pgd th' k; k ← free_vmas (t_vmas th') k; kfree t k) =
    free_step (freed_objects k0 T t th) k1).
  { unfold freed_objects. rewrite kfree_opt_step, free_step_app. unfold th'. cbn [t_kernel_stack t_user_stack t_vmas set_t_fdt].
    destruct (free_step _ k1) as [k2 |] eqn:E1; [| done]. cbn [mbind option_bind]. rewrite kfree_opt_step, free_step_app.
    destruct (free_step _ k2) as [k3 |] eqn:E2; [| done]. cbn [mbind option_bind].
    assert (Hk3 : k_mem k3 = k_mem k0 /\ kernel_pgd k3 = kernel_pgd k0).
    { unfold free_step in E1, E2. destruct (free_all _ (k_heap k1)); [| done]. injection E1 as <-. destruct (free_all _ _); [| done]. by injection E2 as <-. }
    assert (Ho : owns_pgd k3 (set_t_fdt (replicate NR_FD 0) th) = owns_pgd k0 th) by (unfold owns_pgd; cbn [t_pgd set_t_fdt]; by rewrite (proj2 Hk3)).
    rewrite free_step_app, (free_thread_pgd_step T); [| unfold pgd_ok; rewrite Ho, (proj1 Hk3); exact Hp]. rewrite Ho, (proj1 Hk3). cbn [t_pgd set_t_fdt].
    destruct (free_step _ k3) as [k4 |]; [| done]. cbn [mbind option_bind]. rewrite free_vmas_step, free_step_app. destruct (free_step _ k4) as [k5 |]; [| done]. cbn [mbind option_bind].
    unfold kfree, free_step. cbn [free_all]. by destruct (h_free t (k_heap k5)). }
  transitivity (k ← (k ← kfree_opt (t_kernel_stack th') k1; k ← kfree_opt (t_user_stack th') k; k ← free_thread_pgd th' k; k ← free_vmas (t_vmas th') k; kfree t k);
    Some (set_threads (delete t (threads k)) k)).
  { destruct (kfree_opt _ k1) as [k2 |]; [| done]. cbn [mbind option_bind]. destruct (kfree_opt _ k2) as [k3 |]; [| done]. cbn [mbind option_bind].
    destruct (free_thread_pgd _ k3) as [k4 |]; [| done]. cbn [mbind option_bind]. by destruct (free_vmas _ k4). }
  rewrite E2. unfold free_step. change (k_heap k1) with h1. destruct (free_all _ h1) as [h2 |]; [| done]. cbn [mbind option_bind].
  rewrite Hk. unfold swept. cbn. by rewrite delete_insert_eq.
Qed.

(** ** The queue *)

Lemma find_tail_spec fuel ths x xs h : path ths x (x :: xs) h -> h ∉ xs -> (length xs <= fuel)%nat -> find_tail fuel x h ths = last (x :: xs).
Proof.
  revert x xs. induction fuel as [| fuel IH]; intros x xs (_ & t & Ht & Hp) Hh Hf; cbn [find_tail]; rewrite Ht; cbn [mbind option_bind].
  - destruct xs; [| cbn in Hf; lia]. cbn in Hp. by rewrite Hp, Z.eqb_refl.
  - destruct xs as [| y ys]; [cbn in Hp; by rewrite Hp, Z.eqb_refl |]. pose proof Hp as [Ey _]. destruct (Z.eqb_spec (t_next t) h) as [E | _]; [set_solver |].
    rewrite Ey in *. rewrite (IH y ys Hp); [done | set_solver | cbn in Hf; lia].
Qed.

(** A thread after [p] leaves the ring. *)
Lemma ring_unlink ths q a p pt c ct b : ring ths q (a ++ p :: c :: b) -> ths !! p = Some pt -> ths !! c = Some ct ->
  ring (delete c (<[p := set_t_next (t_next ct) pt]> ths)) q (a ++ p :: b).
Proof.
  intros (Hnd & _ & Hp) Hpt Hct. apply path_app in Hp as (x & Ha & (-> & t & Ht & <- & u & Hu & Hb)).
  rewrite Hpt in Ht. injection Ht as <-. rewrite Hct in Hu. injection Hu as <-.
  apply NoDup_app in Hnd as (Hna & Hd & Hnb). apply NoDup_cons in Hnb as [Hpc Hnb]. apply NoDup_cons in Hnb as [Hcb Hnb].
  split_and!; [| by destruct a |].
  - apply NoDup_app. split; [done |]. split; [set_solver |]. apply NoDup_cons. split; [set_solver | done].
  - assert (He : forall l, p ∉ l -> t_next pt ∉ l -> forall z y, path ths z l y -> path (delete (t_next pt) (<[p := set_t_next (t_next ct) pt]> ths)) z l y).
    { intros l Hpl Hcl z y. apply path_ext. intros w tw Hw Htw. exists tw. rewrite lookup_delete_ne, lookup_insert_ne by congruence. done. }
    apply path_app. exists p. split; [apply He; [set_solver .. | done] |]. split; [done |]. exists (set_t_next (t_next ct) pt).
    rewrite lookup_delete_ne, lookup_insert_eq by set_solver. split; [done |]. apply He; [set_solver .. | done].
Qed.

(** ** A pass *)

Section Pass.
Context (k0 : kernel) (T : Z -> tables).

(** The thread was dead when the pass started. *)
Definition dead (x : Z) : bool := match threads k0 !! x with Some t => zombie (t_status t) | None => false end.

Definition fds_of (x : Z) : list Z := match threads k0 !! x with Some t => t_fdt t | None => [] end.
Definition objects_of (x : Z) : list Z := match threads k0 !! x with Some t => thread_objects k0 (T x) x t | None => [] end.
Definition freed_of (x : Z) : list Z := match threads k0 !! x with Some t => freed_objects k0 (T x) x t | None => [] end.

Definition reapable (x : Z) : Prop := forall t, threads k0 !! x = Some t -> length (t_fdt t) = NR_FD /\ pgd_ok k0 (T x) t.

(** What is freed for the threads [zs], in order, and the files after that. *)
Fixpoint freed_list (zs : list Z) (fs : gmap Z file) : option (list Z * gmap Z file) :=
  match zs with
  | [] => Some ([], fs)
  | z :: zs =>
      '(l, fs) ← close_list (fds_of z) fs;
      '(l', fs) ← freed_list zs fs;
      Some (l ++ freed_of z ++ l', fs)
  end.

Lemma closable_app a b fs l fs1 : closable (a ++ b) fs -> close_list a fs = Some (l, fs1) -> closable a fs /\ closable b fs1.
Proof.
  intros Hc E. assert (Ha : closable a fs).
  { intros f Hf Hf0. destruct (Hc f) as (fl & Efl & Hb); [set_solver | done |]. rewrite cnt_app in Hb. pose proof (cnt_nonneg f b). exists fl. split; [done | lia]. }
  split; [done |]. destruct (close_list_spec a fs Ha) as (l' & fs' & E' & Hfs & _). rewrite E in E'. injection E' as <- <-.
  intros f Hf Hf0. destruct (Hc f) as (fl & Efl & Hb); [set_solver | done |]. rewrite cnt_app in Hb. pose proof (cnt_nonneg f a). rewrite Hfs, Efl. cbn. unfold closed_file.
  apply cnt_elem in Hf. case_decide as Hd.
  - destruct (Z.leb_spec (ref_count fl) (cnt f a)); [lia |]. eexists. split; [done |]. cbn. lia.
  - exists fl. split; [done |]. lia.
Qed.

Lemma close_list_app a b fs l fs1 : close_list a fs = Some (l, fs1) -> close_list (a ++ b) fs = ('(l', fs2) ← close_list b fs1; Some (l ++ l', fs2)).
Proof.
  revert fs l. induction a as [| f a IH]; intros fs l; cbn [close_list app].
  - intros [= <- <-]. by destruct (close_list b fs) as [[] |].
  - destruct (f =? 0); [apply IH |]. destruct (fs !! f) as [fl |]; [| done]. cbn [mbind option_bind]. destruct (1 <? ref_count fl); [apply IH |].
    destruct (close_list a (delete f fs)) as [[l1 fs'] |] eqn:E; [| done]. cbn. intros [= <- <-]. rewrite (IH _ _ E). by destruct (close_list b fs') as [[] |].
Qed.

(** All the files and objects of the threads, as far as counts go. *)
Lemma freed_list_spec zs : forall fs lc fs', closable (zs ≫= fds_of) fs -> close_list (zs ≫= fds_of) fs = Some (lc, fs') -> (forall z, z ∈ zs -> reapable z) ->
  exists L, freed_list zs fs = Some (L, fs') /\ forall p, cnt p L = cnt p (lc ++ (zs ≫= objects_of)).
Proof.
  induction zs as [| z zs IH]; intros fs lc fs' Hc E Hr; cbn [freed_list].
  - cbn in E. injection E as <- <-. by exists [].
  - rewrite bind_cons in Hc, E. destruct (close_list_spec (fds_of z) fs) as (l1 & fs1 & E1 & _).
    { intros f Hf Hf0. destruct (Hc f) as (fl & Efl & Hb); [set_solver | done |]. rewrite cnt_app in Hb. pose proof (cnt_nonneg f (zs ≫= fds_of)). exists fl. split; [done | lia]. }
    rewrite (close_list_app _ _ _ _ _ E1) in E. rewrite E1. cbn [mbind option_bind].
    destruct (closable_app _ _ _ _ _ Hc E1) as [_ Hc1]. destruct (close_list (zs ≫= fds_of) fs1) as [[l2 fs2] |] eqn:E2; [| done]. cbn in E. injection E as <- <-.
    destruct (IH fs1 l2 fs2 Hc1 E2) as (L & EL & HL); [intros x Hx; apply Hr; by right |]. rewrite EL. cbn [mbind option_bind].
    eexists. split; [reflexivity |]. intros p. rewrite bind_cons, !cnt_app, HL, cnt_app.
    assert (Eo : cnt p (freed_of z) = cnt p (objects_of z)); [| lia]. unfold freed_of, objects_of. destruct (threads k0 !! z) as [t |] eqn:Et; [| done].
    apply freed_objects_cnt. apply (Hr z ltac:(by left) t Et).
Qed.

Lemma linked_trans t t' t'' : linked t t' -> linked t' t'' -> linked t t''.
Proof. unfold linked. intros -> ->. by destruct t. Qed.

(** The threads [zs] are gone, those that are left have the fields they had. *)
Definition without (zs : list Z) (ths ths' : gmap Z thread) : Prop :=
  forall x, (x ∈ zs -> ths' !! x = None) /\
    (x ∉ zs -> match ths !! x with Some u => exists u', ths' !! x = Some u' /\ linked u u' | None => ths' !! x = None end).

Lemma without_nil ths : without [] ths ths.
Proof. intros x. split; [by intros ?%elem_of_nil |]. intros _. destruct (ths !! x) as [u |]; [| done]. exists u. split; [done | apply linked_refl]. Qed.

Lemma without_app zs zs' ths ths1 ths2 : without zs ths ths1 -> without zs' ths1 ths2 -> without (zs ++ zs') ths ths2.
Proof.
  intros H1 H2 x. destruct (H1 x) as [A1 B1], (H2 x) as [A2 B2]. split.
  - intros [Hx | Hx]%elem_of_app; [| by apply A2]. destruct (decide (x ∈ zs')) as [Hx' | Hx']; [by apply A2 |]. specialize (B2 Hx'). by rewrite (A1 Hx) in B2.
  - intros Hx. specialize (B1 ltac:(set_solver)). specialize (B2 ltac:(set_solver)). destruct (ths !! x) as [u |].
    + destruct B1 as (u1 & E1 & L1). rewrite E1 in B2. destruct B2 as (u2 & E2 & L2). exists u2. split; [done | by eapply linked_trans].
    + by rewrite B1 in B2.
Qed.

Lemma without_unlink ths p pt c ct : ths !! p = Some pt -> p <> c ->
  without [c] ths (delete c (<[p := set_t_next (t_next ct) pt]> ths)).
Proof.
  intros Hp Hpc x. split; [intros ->%list_elem_of_singleton; apply lookup_delete_eq |]. rewrite list_elem_of_singleton. intros Hx. rewrite lookup_delete_ne by done.
  destruct (decide (x = p)) as [-> | Hxp]; [rewrite lookup_insert_eq, Hp; by eexists |]. rewrite lookup_insert_ne by done.
  destruct (ths !! x) as [u |]; [| done]. exists u. split; [done | apply linked_refl].
Qed.

(** The threads are those of the start but for [next]. *)
Definition same_threads (ths : gmap Z thread) : Prop := forall x u, ths !! x = Some u -> exists u0, threads k0 !! x = Some u0 /\ linked u0 u.

Lemma same_without zs ths ths' : same_threads ths -> without zs ths ths' -> same_threads ths'.
Proof.
  intros Hs Hw x u Hx. destruct (Hw x) as [A B]. destruct (decide (x ∈ zs)) as [Hz | Hz]; [rewrite (A Hz) in Hx; done |]. specialize (B Hz).
  destruct (ths !! x) as [v |] eqn:E; [| by rewrite B in Hx]. destruct B as (v' & E' & L). rewrite E' in Hx. injection Hx as ->.
  destruct (Hs x v E) as (u0 & Hu0 & L0). exists u0. split; [done | by eapply linked_trans].
Qed.

Lemma same_dead ths x u : same_threads ths -> ths !! x = Some u -> zombie (t_status u) = dead x.
Proof. intros Hs Hx. destruct (Hs x u Hx) as (u0 & Hu0 & ->). unfold dead. by rewrite Hu0. Qed.

Lemma ring_not_head ths q a p b x : ring ths q (a ++ p :: b) -> x ∈ b -> x <> q.
Proof.
  intros (Hnd & _ & Hp) Hx ->. apply NoDup_app in Hnd as (_ & Hd & Hnb). apply NoDup_cons in Hnb as [Hpb _].
  destruct a as [| y a]; destruct Hp as [<- _]; [done |]. apply (Hd q); [by left | by right].
Qed.

(** One dead thread that is not the head of the queue. *)
Lemma reap_step ths rq h fs a p pt c ct b l fs1 : ring ths rq (a ++ p :: c :: b) -> ths !! p = Some pt -> ths !! c = Some ct ->
  same_threads ths -> reapable c -> closable (fds_of c) fs -> close_list (fds_of c) fs = Some (l, fs1) ->
  (nk ← unlink c p (swept k0 ths rq h fs); k ← reap c (snd nk); Some (fst nk, k)) =
    (h1 ← free_all (l ++ freed_of c) h; Some (t_next ct, swept k0 (delete c (<[p := set_t_next (t_next ct) pt]> ths)) rq h1 fs1)).
Proof.
  intros Hr Hpt Hct Hs Hreap Hc E. pose proof Hr as (Hnd & _ & Hp). apply path_app in Hp as (x & Ha & (Ex & t & Ht & _)). subst x.
  apply NoDup_app in Hnd as (_ & Hd & Hnb). apply NoDup_cons in Hnb as [Hpc Hnb]. apply NoDup_cons in Hnb as [Hcb _].
  assert (Hne : p <> c) by (intros ->; apply Hpc; by left).
  assert (Hcq : c <> rq). { intros ->. destruct a as [| y a]; [cbn in Ha; by subst p |]. destruct Ha as [-> _]. apply (Hd y); [by left | right; by left]. }
  assert (Hnc : t_next ct <> c).
  { intros En. pose proof (proj2 (proj2 Hr)) as Hq. apply path_app in Hq as (y & _ & (<- & ty & Hty & Ey & u & Hu & Hb)). rewrite Ey, Hct in Hu. injection Hu as <-.
    rewrite En in Hb. destruct b as [| z b]; [cbn in Hb; congruence |]. destruct Hb as [<- _]. apply Hcb. by left. }
  unfold unlink. cbn [threads swept set_run_queue set_threads]. rewrite Hct. cbn [mbind option_bind]. destruct (Z.eqb_spec (t_next ct) c); [done |].
  unfold upd_thread. cbn [threads swept set_run_queue set_threads]. rewrite Hpt. cbn [mbind option_bind put_thread run_queue swept set_run_queue set_threads].
  destruct (Z.eqb_spec c rq); [done |]. cbn [mbind option_bind threads set_threads]. change (threads (put_thread p (set_t_next (t_next ct) pt) (swept k0 ths rq h fs))) with (<[p := set_t_next (t_next ct) pt]> ths). rewrite lookup_insert_ne, Hct by done. cbn [mbind option_bind fst snd].
  destruct (Hs c ct Hct) as (c0 & Hc0 & L). destruct (Hreap c0 Hc0) as [Hlen Hpgd]. unfold fds_of, freed_of in *. rewrite Hc0 in *.
  match goal with |- context [reap c ?x] => change x with (swept k0 (<[p := set_t_next (t_next ct) pt]> ths) rq h fs) end.
  assert (Ef : freed_objects k0 (T c) c ct = freed_objects k0 (T c) c c0) by (rewrite L; reflexivity).
  assert (Ed : t_fdt ct = t_fdt c0) by (rewrite L; reflexivity).
  rewrite (reap_spec k0 (T c) _ rq h fs c ct l fs1); [| by rewrite lookup_insert_ne | by rewrite Ed | rewrite L; exact Hpgd | by rewrite Ed | by rewrite Ed].
  rewrite Ef. by destruct (free_all _ h).
Qed.

Lemma unlink_reap {A} c p k (f : Z -> kernel -> option A) :
  ('(nxt, k) ← unlink c p k; k ← reap c k; f nxt k) = ('(nxt, k) ← (nk ← unlink c p k; k ← reap c (snd nk); Some (fst nk, k)); f nxt k).
Proof. destruct (unlink c p k) as [[nxt k1] |]; [| reflexivity]. cbn [mbind option_bind fst snd]. by destruct (reap c k1). Qed.

Definition zombies (xs : list Z) : list Z := filter (fun x => dead x = true) xs.
Definition living (xs : list Z) : list Z := filter (fun x => dead x = false) xs.

Lemma zombies_cons x xs : zombies (x :: xs) = if dead x then x :: zombies xs else zombies xs.
Proof. unfold zombies. rewrite filter_cons. destruct (decide (dead x = true)) as [E | E%not_true_is_false]; by rewrite E. Qed.
Lemma living_cons x xs : living (x :: xs) = if dead x then living xs else x :: living xs.
Proof. unfold living. rewrite filter_cons. destruct (decide (dead x = false)) as [E | E%not_false_is_true]; by rewrite E. Qed.
Lemma living_app xs ys : living (xs ++ ys) = living xs ++ living ys.
Proof. apply filter_app. Qed.

(** What a pass over [xs] frees, and the heap and the files after it. *)
Record sweeps (zs : list Z) (h : H) (fs : gmap Z file) (h' : H) (fs' : gmap Z file) : Prop := {
  sw_reapable z : z ∈ zs -> reapable z;
  sw_closable : closable (zs ≫= fds_of) fs;
  sw_freed : exists L, freed_list zs fs = Some (L, fs') /\ free_all L h = Some h';
}.

Lemma sweeps_cons z zs h fs h' fs' : sweeps (z :: zs) h fs h' fs' -> exists l fs1 h1, close_list (fds_of z) fs = Some (l, fs1) /\
  closable (fds_of z) fs /\ free_all (l ++ freed_of z) h = Some h1 /\ sweeps zs h1 fs1 h' fs'.
Proof.
  intros [Hr Hc (L & E & Ef)]. cbn [freed_list] in E. destruct (close_list (fds_of z) fs) as [[l fs1] |] eqn:E1; [| done]. cbn [mbind option_bind] in E.
  destruct (freed_list zs fs1) as [[L1 fs2] |] eqn:E2; [| done]. cbn in E. injection E as <- <-. rewrite app_assoc, free_all_app in Ef.
  destruct (free_all (l ++ freed_of z) h) as [h1 |] eqn:E3; [| done]. cbn [mbind option_bind] in Ef. exists l, fs1, h1.
  rewrite bind_cons in Hc. destruct (closable_app _ _ _ _ _ Hc E1) as [Hc1 Hc2]. split_and!; [done | done | done |].
  split; [intros x Hx; apply Hr; by right | done | by exists L1].
Qed.

(** The pass from the second thread of the queue on. *)
Lemma reap_loop_spec rq h' fs' : rq <> 0 -> forall todo c count a p ths h fs, ring ths rq (a ++ p :: c :: todo) -> (length (c :: todo) <= count)%nat ->
  same_threads ths -> sweeps (zombies (c :: todo)) h fs h' fs' ->
  exists ths', reap_loop count c p (swept k0 ths rq h fs) = Some (swept k0 ths' rq h' fs') /\
    ring ths' rq (a ++ p :: living (c :: todo)) /\ without (zombies (c :: todo)) ths ths'.
Proof.
  intros Hrq. induction todo as [| d todo IH]; intros c [| count] a p ths h fs Hr Hlen Hs Hsw; try (cbn in Hlen; lia); cbn [reap_loop];
    change (run_queue (swept k0 ths rq h fs)) with rq; destruct (Z.eqb_spec rq 0); try done; cbn [threads swept set_run_queue set_threads];
    pose proof Hr as (Hnd & _ & (x & _ & (Ex & pt & Hpt & Ec & ct & Hct & Hnext))%path_app); subst x; rewrite Ec in Hct; rewrite Hct; cbn [mbind option_bind];
    rewrite (same_dead ths c ct Hs Hct), zombies_cons, living_cons in *; destruct (dead c) eqn:Hdead.
  - destruct (sweeps_cons _ _ _ _ _ _ Hsw) as (l & fs1 & h1 & E1 & Hc1 & Ef & [_ _ (L & EL & Eh)]). cbn in EL. injection EL as <- <-. cbn in Eh. injection Eh as <-.
    change (zombies []) with (@nil Z) in *. change (living []) with (@nil Z).
    exists (delete c (<[p := set_t_next (t_next ct) pt]> ths)). split_and!.
    + rewrite unlink_reap, (reap_step ths rq h fs a p pt c ct [] l fs1 Hr Hpt Hct Hs); [| apply (sw_reapable _ _ _ _ _ Hsw); by left | done | done].
      rewrite Ef. cbn [mbind option_bind]. change (run_queue (swept _ _ _ _ _)) with rq. destruct (Z.eqb_spec rq 0); [done |].
      cbn in Hnext. by rewrite Hnext, Z.eqb_refl.
    + by apply ring_unlink.
    + apply without_unlink; [done |]. intros ->. apply NoDup_app in Hnd as (_ & _ & Hnd). apply NoDup_cons in Hnd as [Hnd _]. apply Hnd. by left.
  - change (zombies []) with (@nil Z) in *. change (living []) with (@nil Z). destruct Hsw as [_ _ (L & EL & Eh)]. cbn in EL. injection EL as <- <-. cbn in Eh. injection Eh as <-.
    exists ths. split_and!; [| done | apply without_nil]. cbn in Hnext. by rewrite Hnext, Z.eqb_refl.
  - destruct (sweeps_cons _ _ _ _ _ _ Hsw) as (l & fs1 & h1 & E1 & Hc1 & Ef & Hsw1).
    assert (Hpc : p <> c). { intros ->. apply NoDup_app in Hnd as (_ & _ & Hnd). apply NoDup_cons in Hnd as [Hnd _]. apply Hnd. by left. }
    set (ths1 := delete c (<[p := set_t_next (t_next ct) pt]> ths)).
    assert (Hr1 : ring ths1 rq (a ++ p :: d :: todo)) by (by apply ring_unlink).
    assert (Hw1 : without [c] ths ths1) by (by apply without_unlink).
    destruct (IH d count a p ths1 h1 fs1 Hr1) as (ths' & E' & Hr' & Hw'); [cbn in Hlen |- *; lia | by eapply same_without | done |].
    exists ths'. split_and!; [| done | exact (without_app [c] _ _ _ _ Hw1 Hw')].
    rewrite unlink_reap, (reap_step ths rq h fs a p pt c ct (d :: todo) l fs1 Hr Hpt Hct Hs); [| apply (sw_reapable _ _ _ _ _ Hsw); by left | done | done].
    rewrite Ef. cbn [mbind option_bind]. change (run_queue (swept _ _ _ _ _)) with rq. destruct (Z.eqb_spec rq 0); [done |].
    destruct Hnext as [Ed _]. destruct (Z.eqb_spec (t_next ct) rq) as [E |]; [| rewrite <- Ed in E'; exact E'].
    destruct (ring_not_head ths rq a p (c :: d :: todo) d Hr); [right; by left | congruence].
  - destruct Hnext as [Ed Hnext]. 
    destruct (IH d count (a ++ [p]) c ths h fs) as (ths' & E' & Hr' & Hw'); [by rewrite <- app_assoc | cbn in Hlen |- *; lia | done | done |].
    exists ths'. split_and!; [| by rewrite <- app_assoc in Hr' | done]. rewrite Ed. destruct (Z.eqb_spec d rq) as [E |]; [| done].
    destruct (ring_not_head ths rq a p (c :: d :: todo) d Hr); [right; by left | congruence].
Qed.

(** The head of the queue is dead: the next thread becomes the head. *)
Lemma reap_head h' fs' q y ys p count : q <> 0 -> 0 ∉ y :: ys -> ring (threads k0) q (q :: y :: ys) -> last (y :: ys) = Some p -> dead q = true -> run_queue k0 = q ->
  sweeps [q] (k_heap k0) (files (k_vfs k0)) h' fs' ->
  exists ths', reap_loop (S count) q p k0 = Some (swept k0 ths' y h' fs') /\ ring ths' y (y :: ys) /\ without [q] (threads k0) ths'.
Proof.
  intros Hq Hny Hr Hlast Hdead Hrq Hsw. destruct (sweeps_cons _ _ _ _ _ _ Hsw) as (l & fs1 & h1 & E1 & Hc1 & Ef & [_ _ (L & EL & Eh)]).
  cbn in EL. injection EL as <- <-. cbn in Eh. injection Eh as <-.
  destruct (proj1 (last_Some _ _) Hlast) as (a & Ea).
  assert (Hr2 : ring (threads k0) y (a ++ [p] ++ [q])).
  { rewrite app_assoc, <- Ea. exact (ring_rotate _ _ [q] ys y Hr). }
  pose proof Hr as (Hnd & _ & (_ & ct & Hct & <- & _)). pose proof Hr2 as (Hnd2 & _ & (x & _ & (Ex & pt & Hpt & _))%path_app). subst x.
  assert (Hpq : p <> q). { intros ->. apply NoDup_app in Hnd2 as (_ & _ & Hn). apply NoDup_cons in Hn as [Hn _]. apply Hn. by left. }
  assert (Hyq : t_next ct <> q) by (intros E; apply NoDup_cons in Hnd as [Hn _]; apply Hn; rewrite E; by left).
  exists (delete q (<[p := set_t_next (t_next ct) pt]> (threads k0))). split_and!.
  - cbn [reap_loop]. rewrite Hrq. destruct (Z.eqb_spec q 0); [done |]. rewrite Hct. cbn [mbind option_bind].
    assert (Hz : zombie (t_status ct) = true) by (unfold dead in Hdead; by rewrite Hct in Hdead). rewrite Hz.
    unfold unlink. rewrite Hct. cbn [mbind option_bind]. destruct (Z.eqb_spec (t_next ct) q); [done |].
    unfold upd_thread. rewrite Hpt. cbn [mbind option_bind].
    change (run_queue (put_thread p (set_t_next (t_next ct) pt) k0)) with (run_queue k0). rewrite Hrq, Z.eqb_refl.
    change (threads (set_run_queue (t_next ct) (put_thread p (set_t_next (t_next ct) pt) k0))) with (<[p := set_t_next (t_next ct) pt]> (threads k0)).
    rewrite lookup_insert_ne, Hct by done. cbn [mbind option_bind].
    assert (Ek : set_run_queue (t_next ct) (put_thread p (set_t_next (t_next ct) pt) k0) = swept k0 (<[p := set_t_next (t_next ct) pt]> (threads k0)) (t_next ct) (k_heap k0) (files (k_vfs k0)))
      by (destruct k0 as [? ? v]; by destruct v).
    rewrite Ek. destruct (sw_reapable _ _ _ _ _ Hsw q ltac:(by left) ct Hct) as [Hlen Hpgd]. unfold fds_of, freed_of in *. rewrite Hct in *.
    rewrite (reap_spec k0 (T q) _ _ _ _ q ct l fs1); [| by rewrite lookup_insert_ne | done | exact Hpgd | done | done]. rewrite Ef. cbn [mbind option_bind].
    change (run_queue (swept _ _ _ _ _)) with (t_next ct). rewrite Z.eqb_refl. destruct (Z.eqb_spec (t_next ct) 0) as [E0 |]; [| done].
    exfalso. apply Hny. rewrite E0. by left.
  - rewrite Ea. exact (ring_unlink _ _ a p pt q ct [] Hr2 Hpt Hct).
  - by apply without_unlink.
Qed.

(** The threads that a pass removes, the queue being [q :: ys] from its head: a dead
    head alone, or every dead thread. *)
Definition doomed (q : Z) (ys : list Z) : list Z := if dead q then [q] else zombies ys.

Lemma doomed_dead q ys z : z ∈ doomed q ys -> dead z = true /\ z ∈ q :: ys.
Proof.
  unfold doomed. destruct (dead q) eqn:E; [intros ->%list_elem_of_singleton; split; [done | by left] |].
  intros [Hz Hy]%list_elem_of_filter. split; [done | by right].
Qed.

(** A pass that terminates with a ring from the head. *)
Lemma kill_zombies_ring q ys h' fs' : q <> 0 -> 0 ∉ ys -> ring (threads k0) q (q :: ys) -> run_queue k0 = q -> (dead q = true -> ys <> []) ->
  Z.of_nat (length (q :: ys)) <= nr_threads k0 -> sweeps (doomed q ys) (k_heap k0) (files (k_vfs k0)) h' fs' ->
  exists ths' q' ys', kill_zombies k0 = Some (swept k0 ths' q' h' fs') /\ q' :: ys' = (if dead q then ys else q :: living ys) /\
    ring ths' q' (q' :: ys') /\ without (doomed q ys) (threads k0) ths'.
Proof.
  intros Hq Hny Hr Hrq Hys Hlen Hsw. pose proof Hr as (Hnd & _ & Hp). pose proof (ring_length _ _ _ Hr) as Hfuel. cbn [length] in Hfuel, Hlen.
  apply NoDup_cons in Hnd as [Hqy _].
  assert (Ecount : exists n, Z.to_nat (nr_threads k0) = S n /\ (length ys <= n)%nat) by (exists (pred (Z.to_nat (nr_threads k0))); lia).
  destruct Ecount as (n & Ecount & Hn).
  assert (Ekz : kill_zombies k0 = (tail ← last (q :: ys); reap_loop (S n) q tail k0)).
  { unfold kill_zombies. rewrite Hrq. destruct (Z.eqb_spec q 0); [done |]. rewrite (find_tail_spec _ _ _ _ _ Hp Hqy) by lia. by rewrite Ecount. }
  rewrite Ekz. unfold doomed in *. destruct (dead q) eqn:Hdead.
  - destruct ys as [| y ys]; [by destruct (Hys eq_refl) |]. cbn [last]. destruct (last (y :: ys)) as [p |] eqn:Hlast; [| by apply last_None in Hlast].
    destruct (reap_head h' fs' q y ys p n Hq Hny Hr Hlast Hdead Hrq Hsw) as (ths' & E & Hr' & Hw). exists ths', y, ys.
    split_and!; [| done | done | done]. cbn [mbind option_bind]. exact E.
  - destruct (last (q :: ys)) as [tail |] eqn:Hlast; [| by apply last_None in Hlast]. cbn [mbind option_bind reap_loop].
    destruct Hp as (_ & ct & Hct & Hnext). rewrite Hrq. destruct (Z.eqb_spec q 0); [done |]. rewrite Hct. cbn [mbind option_bind].
    assert (Hz : zombie (t_status ct) = false) by (unfold dead in Hdead; by rewrite Hct in Hdead). rewrite Hz.
    assert (Ek : k0 = swept k0 (threads k0) q (k_heap k0) (files (k_vfs k0))) by (rewrite <- Hrq; destruct k0 as [? ? v]; by destruct v).
    destruct ys as [| y ys].
    + cbn in Hnext. rewrite Hnext, Z.eqb_refl. destruct Hsw as [_ _ (L & EL & Eh)]. cbn in EL. injection EL as <- <-. cbn in Eh. injection Eh as <-.
      exists (threads k0), q, []. split_and!; [by rewrite <- Ek | done | done | apply without_nil].
    + pose proof Hnext as [Ey _]. rewrite Ey. destruct (Z.eqb_spec y q) as [-> |]; [destruct Hqy; by left |].
      destruct (reap_loop_spec q h' fs' Hq ys y n [] q (threads k0) (k_heap k0) (files (k_vfs k0)) Hr) as (ths' & E & Hr' & Hw); [done | | done |].
      { intros x u Hx. exists u. split; [done | apply linked_refl]. }
      exists ths', q, (living (y :: ys)). split_and!; [| done | done | done]. rewrite Ek at 1. exact E.
Qed.

End Pass.

(** The idle thread runs; [a] and [b] are the threads before and after the head [q]
    of the queue, read from the running thread. *)
Record kill_case k (T : Z -> tables) (xs : list Z) (q : Z) (a b : list Z) mm (lc : list Z) (fs' : gmap Z file) mm' : Prop := {
  kc_sched : sched_ok k xs;
  kc_idle : exists t, threads k !! tp k = Some t /\ t_pid t = 0 /\ zombie (t_status t) = false;
  kc_queue : run_queue k = q /\ tp k :: xs = a ++ q :: b;
  kc_count : Z.of_nat (length (tp k :: xs)) <= nr_threads k;
  kc_reapable z : z ∈ doomed k q (b ++ a) -> reapable k T z;
  kc_closable : closable (doomed k q (b ++ a) ≫= fds_of k) (files (k_vfs k));
  kc_files : close_list (doomed k q (b ++ a) ≫= fds_of k) (files (k_vfs k)) = Some (lc, fs');
  kc_owns : owns (k_heap k) mm;
  kc_counted : counted (lc ++ (doomed k q (b ++ a) ≫= objects_of k T)) mm;
  kc_released : released (lc ++ (doomed k q (b ++ a) ≫= objects_of k T)) mm mm';
}.

(** After the pass. *)
Record killed k (zs xs : list Z) (fs' : gmap Z file) mm' k' : Prop := {
  kl_sched : sched_ok k' (filter (fun x => x ∉ zs) xs);
  kl_threads : without zs (threads k) (threads k');
  kl_heap : owns (k_heap k') mm';
  kl_frame : k' = swept k (threads k') (run_queue k') (k_heap k') fs';
}.

Lemma sched_ok_swept k xs zs ths' q' h fs xs' t0 : sched_ok k xs -> threads k !! tp k = Some t0 -> t_pid t0 = 0 -> tp k ∉ zs -> without zs (threads k) ths' ->
  ring ths' (tp k) (tp k :: xs') -> (forall x, x ∈ xs' -> x ∈ xs) -> q' ∈ tp k :: xs' -> sched_ok (swept k ths' q' h fs) xs'.
Proof.
  intros [Hnz Hr Hq Hid Hrun Hsatp] Ht0 Hpid Htp Hw Hr' Hsub Hq'.
  assert (Hback : forall x u, ths' !! x = Some u -> exists u0, threads k !! x = Some u0 /\ linked u0 u).
  { apply (same_without k zs (threads k)); [| done]. intros x u Hx. exists u. split; [done | apply linked_refl]. }
  split; cbn [threads tp run_queue satp swept set_run_queue set_threads set_k_vfs set_k_heap]; [set_solver | done | done | | |].
  - destruct (Hw (tp k)) as [_ B]. specialize (B Htp). rewrite Ht0 in B. destruct B as (u & Hu & L). exists (tp k), u. split_and!; [by left | done |]. by rewrite L.
  - intros x u Hx Hu Hst. destruct (Hback x u Hu) as (u0 & Hu0 & L). apply (Hrun x u0); [set_solver | done |]. rewrite L in Hst. exact Hst.
  - intros u Hu. destruct (Hback _ u Hu) as (u0 & Hu0 & L). rewrite (Hsatp u0 Hu0), L. reflexivity.
Qed.

Lemma filter_elem_ext (P Q : Z -> Prop) `{!forall x, Decision (P x)} `{!forall x, Decision (Q x)} (l : list Z) : (forall x, x ∈ l -> P x <-> Q x) -> filter P l = filter Q l.
Proof.
  induction l as [| x l IH]; intros Hl; [done |]. rewrite !filter_cons, IH by (intros y Hy; apply Hl; by right).
  specialize (Hl x ltac:(by left)). repeat case_decide; tauto || done.
Qed.

Lemma filter_all (P : Z -> Prop) `{!forall x, Decision (P x)} (l : list Z) : (forall x, x ∈ l -> P x) -> filter P l = l.
Proof.
  induction l as [| x l IH]; intros Hl; [done |]. rewrite filter_cons_True by (apply Hl; by left). f_equal. apply IH. intros y Hy. apply Hl. by right.
Qed.

Lemma kept_living k q ys xs : (forall x, x ∈ xs -> x ∈ q :: ys) ->
  filter (fun x => x ∉ doomed k q ys) xs = if dead k q then filter (fun x => x <> q) xs else living k xs.
Proof.
  intros Hsub. unfold doomed. destruct (dead k q) eqn:E; apply filter_elem_ext; intros x Hx; [by rewrite list_elem_of_singleton |].
  unfold zombies. rewrite list_elem_of_filter. specialize (Hsub x Hx). apply elem_of_cons in Hsub as [-> | Hsub]; [rewrite E; naive_solver |].
  destruct (dead k x); naive_solver.
Qed.

Lemma kill_zombies_spec k T xs q a b mm lc fs' mm' : kill_case k T xs q a b mm lc fs' mm' ->
  exists k', kill_zombies k = Some k' /\ killed k (doomed k q (b ++ a)) xs fs' mm' k'.
Proof.
  intros [Hs (t0 & Ht0 & Hpid & Hlive) [Hq Hab] Hcount Hreap Hcl Hfiles Ho Hcnt Hrel].
  assert (Htp : dead k (tp k) = false) by (unfold dead; by rewrite Ht0).
  destruct (freed_list_spec k T _ _ _ _ Hcl Hfiles Hreap) as (L & EL & HL).
  destruct (free_all_ok L (k_heap k) mm mm' Ho) as (h' & Eh & Ho').
  { apply (counted_ext (lc ++ (doomed k q (b ++ a) ≫= objects_of k T))); [intros p; symmetry; apply HL | done]. }
  { apply (released_ext (lc ++ (doomed k q (b ++ a) ≫= objects_of k T))); [intros p; symmetry; apply HL | done]. }
  pose proof (so_ring _ _ Hs) as Hr. rewrite Hab in Hr. apply ring_rotate in Hr. pose proof (so_nonnull _ _ Hs) as Hnz. rewrite Hab in Hnz.
  assert (Hnd : NoDup (tp k :: xs)) by apply (so_ring _ _ Hs).
  destruct (kill_zombies_ring k T q (b ++ a) h' fs') as (ths' & q' & ys' & E & Eys & Hr' & Hw); [set_solver | set_solver | done | done | | | by split; [| | exists L] |].
  { intros Hd Hnil. apply app_nil in Hnil as [-> ->]. cbn in Hab. injection Hab as E _. rewrite E in Htp. congruence. }
  { rewrite Hab, length_app in Hcount. cbn [length] in Hcount |- *. rewrite length_app. lia. }
  exists (swept k ths' q' h' fs'). split; [done |].
  assert (Hnot : tp k ∉ doomed k q (b ++ a)) by (intros [Hd _]%doomed_dead; congruence).
  assert (Hring : ring ths' (tp k) (tp k :: filter (fun x => x ∉ doomed k q (b ++ a)) xs) /\ q' ∈ tp k :: filter (fun x => x ∉ doomed k q (b ++ a)) xs).
  { rewrite (kept_living k q (b ++ a) xs).
    2:{ intros x Hx. assert (Hx' : x ∈ a ++ q :: b) by (rewrite <- Hab; by right). set_solver. }
    destruct a as [| a0 a]; injection Hab as <- ->.
    - rewrite Htp in Eys |- *. injection Eys as -> ->. rewrite app_nil_r in Hr'. split; [exact Hr' | by left].
    - destruct (dead k q) eqn:Hdead.
      + apply NoDup_cons in Hnd as [_ Hnd]. apply NoDup_app in Hnd as (_ & Hd & Hnd). apply NoDup_cons in Hnd as [Hqb _].
        assert (Ef : filter (fun x => x <> q) (a ++ q :: b) = a ++ b).
        { rewrite filter_app, filter_cons_False by tauto. rewrite !(filter_all (fun x => x <> q)); [done | set_solver | set_solver]. }
        rewrite Ef. assert (Hin : q' ∈ b ++ tp k :: a) by (rewrite <- Eys; by left). rewrite Eys in Hr'.
        split; [exact (ring_rotate _ _ b a (tp k) Hr') | set_solver].
      + rewrite Eys, living_app, living_cons, Htp in Hr'. injection Eys as -> ->. rewrite living_app, living_cons, Hdead.
        split; [exact (ring_rotate _ _ (q :: living k b) (living k a) (tp k) Hr') | set_solver]. }
  destruct Hring as [Hring Hq']. split; [| done | done | done].
  apply (sched_ok_swept k xs (doomed k q (b ++ a)) ths' q' h' fs' _ t0); try done. intros x Hx. by apply list_elem_of_filter in Hx as [_ ?].
Qed.

End Reap.

Section Theorem_.
Context {H : Type} {HO : HeapOps H} {HS : HeapSpec H} {KT : KernelText}.

(** C18: a pass of the zombie killer ends with the dead threads out of the queue (only the
    head of the queue when that is dead), the others in their order, and everything
    the dead ones held given back: a reference of each of their open files, their stacks,
    the pages and tables of their address spaces, their areas and their records. *)
Theorem kill_zombies_reaps (k : kernel H) T xs q a b mm lc fs' mm' : kill_case k T xs q a b mm lc fs' mm' ->
  exists k', kill_zombies k = Some k' /\ killed k (doomed k q (b ++ a)) xs fs' mm' k' /\
    (forall f, files (k_vfs k') !! f = files (k_vfs k) !! f ≫= closed_file (doomed k q (b ++ a) ≫= fds_of k) f).
Proof.
  intros Hk. destruct (kill_zombies_spec k T xs q a b mm lc fs' mm' Hk) as (k' & E & Hk'). exists k'. split; [done |]. split; [done |].
  destruct (close_list_spec _ _ (kc_closable _ _ _ _ _ _ _ _ _ _ Hk)) as (l & fs & E' & Hfs & _). rewrite (kc_files _ _ _ _ _ _ _ _ _ _ Hk) in E'.
  injection E' as <- <-. intros f. rewrite <- Hfs, (kl_frame _ _ _ _ _ _ Hk'). done.
Qed.

(** A pass over a queue without dead threads changes nothing. *)
Lemma kill_zombies_clean (k : kernel H) xs t0 : sched_ok k xs -> threads k !! tp k = Some t0 -> t_pid t0 = 0 ->
  (forall x t, x ∈ tp k :: xs -> threads k !! x = Some t -> zombie (t_status t) = false) -> Z.of_nat (length (tp k :: xs)) <= nr_threads k ->
  (exists mm, owns (k_heap k) mm) -> exists k', kill_zombies k = Some k' /\ sched_ok k' xs /\ without [] (threads k) (threads k') /\
    k' = swept k (threads k') (run_queue k') (k_heap k') (files (k_vfs k)).
Proof.
  intros Hs Ht0 Hpid Hz Hl (mm & Ho). destruct (list_elem_of_split _ _ (so_queue _ _ Hs)) as (a & b & Hab).
  assert (Hdead : forall x, x ∈ tp k :: xs -> dead k x = false).
  { intros x Hx. unfold dead. destruct (threads k !! x) as [t |] eqn:E; [by apply (Hz x) | done]. }
  assert (Hnone : doomed k (run_queue k) (b ++ a) = []).
  { unfold doomed. rewrite (Hdead _ (so_queue _ _ Hs)). unfold zombies. rewrite (filter_elem_ext _ (fun _ => False)).
    - induction (b ++ a) as [| x l IH]; [done |]. by rewrite filter_cons_False by tauto.
    - intros x Hx. rewrite Hdead; [done |]. rewrite Hab. set_solver. }
  destruct (kill_zombies_spec k (fun _ => ∅) xs (run_queue k) a b mm [] (files (k_vfs k)) mm) as (k' & E & [Hs' Hw Ho' Ek]).
  - split; try done; [by exists t0; split_and!; [done | done | apply (Hz (tp k)); [by left | done]] | ..]; rewrite Hnone; try done.
    + by intros z ?%elem_of_nil.
    + by intros f ?%elem_of_nil.
    + by intros f ?%elem_of_nil.
    + intros p. destruct (mm !! p) as [[n c] |] eqn:Ep; [| done]. destruct (owns_bounds _ _ _ _ _ Ho Ep) as (_ & _ & _ & Hc & _). cbn.
      change (cnt p []) with 0. destruct (Z.leb_spec c 0); [lia |]. do 2 f_equal. lia.
  - rewrite Hnone in Hs', Hw. exists k'. split; [done |]. rewrite filter_all in Hs' by (intros x _ ?%elem_of_nil; done).
    by split_and!.
Qed.

End Theorem_.

(** ** A concrete pass *)

#[local] Existing Instances pages_ops pages_spec toy_text.

(** [idler] is idle; [mother] is dead and holds a stack, an address space and an open file. *)
Definition grave_file : Z := 0xffffffc08001c000.
Definition dead_mother : thread := set_t_fdt (<[3%nat := grave_file]> (replicate NR_FD 0)) (set_t_vmas [] (set_t_status THREAD_TERMINATED mother_thread)).
Definition grave_owned : gmap Z (Z * Z) := <[grave_file := (BLOCK, 1)]> fork_owned.
Definition grave_kernel : kernel (gmap Z (Z * Z)) :=
  Kernel grave_owned toy_mem (put_file grave_file (File 0 0 tmpfs_ops 0 1) vfs0) (<[mother := dead_mother]> {[ idler := demo_thread 0 THREAD_RUNNING mother 4096 ]}) idler 2 idler
    (Context_ 7 7 []) (MAKE_SATP (4096 ⊟ PAGE_OFFSET)) 4096 [] [] (2 ^ 64 - 1) 0 10000000 (-1).

Lemma grave_owns : owns grave_owned grave_owned.
Proof.
  destruct fork_owns as [_ Hm]. split; [reflexivity |]. unfold grave_owned. apply map_Forall_insert_2; [| exact Hm].
  split; [reflexivity |]. split; [cbn; lia |]. split; [by apply Z.mod_divide | by split].
Qed.

Lemma grave_ring : sched_ok grave_kernel [mother].
Proof.
  split.
  - cbn [grave_kernel tp]. rewrite !not_elem_of_cons. split_and!; [discriminate | discriminate | apply not_elem_of_nil].
  - split_and!; [| done |].
    + apply NoDup_cons. split; [rewrite list_elem_of_singleton; discriminate | apply NoDup_singleton].
    + split; [reflexivity |]. eexists. split; [reflexivity |]. split; [reflexivity |]. eexists. split; reflexivity.
  - by left.
  - exists idler, (demo_thread 0 THREAD_RUNNING mother 4096). split_and!; [by left | reflexivity | reflexivity].
  - intros x t Hx. rewrite !elem_of_cons in Hx. destruct Hx as [-> | [-> | []%elem_of_nil]]; [done |]. intros [= <-]. discriminate.
  - intros t [= <-]. reflexivity.
Qed.

Definition grave_objects : list Z := [grave_file; toy_frame; toy_page; toy_pt; toy_pmd; toy_root; mother].

Lemma mother_objects : objects_of grave_kernel (fun _ => toy_tables) mother = [toy_frame; toy_page; toy_pt; toy_pmd; toy_root; mother].
Proof.
  unfold objects_of. change (threads grave_kernel !! mother) with (Some dead_mother). unfold thread_objects. change (k_mem grave_kernel) with toy_mem.
  rewrite toy_pages_list, toy_user_tables. reflexivity.
Qed.

Lemma grave_cases p x : grave_owned !! p = Some x -> (p = idler /\ x = (BLOCK, 1)) \/ (p ∈ grave_objects /\ x = (BLOCK, 1)).
Proof.
  unfold grave_owned, fork_owned. rewrite !lookup_insert_Some. unfold grave_objects. rewrite !elem_of_cons.
  intros [[<- <-] | (_ & [[<- <-] | (_ & [[<- <-] | (_ & [[<- <-] | (_ & [[-> ->] | [Hp ->]]%toy_owned_cases)])])])]; [tauto .. |].
  rewrite !elem_of_cons in Hp. tauto.
Qed.

Lemma grave_case : kill_case grave_kernel (fun _ => toy_tables) [mother] idler [] [mother] grave_owned [grave_file] ∅ {[ idler := (BLOCK, 1) ]}.
Proof.
  assert (Ed : doomed grave_kernel idler ([mother] ++ []) = [mother]) by (vm_compute; reflexivity).
  assert (Ef : [mother] ≫= fds_of grave_kernel = <[3%nat := grave_file]> (replicate NR_FD 0)) by (vm_compute; reflexivity).
  assert (Eo : [grave_file] ++ ([mother] ≫= objects_of grave_kernel (fun _ => toy_tables)) = grave_objects).
  { unfold mbind, list_bind. rewrite mother_objects. reflexivity. }
  split; rewrite ?Ed, ?Ef, ?Eo.
  - exact grave_ring.
  - eexists. split; [reflexivity | split; reflexivity].
  - split; reflexivity.
  - cbn. lia.
  - intros z ->%list_elem_of_singleton t [= <-]. split; [reflexivity | intros _; exact (proj1 toy_tables_ok)].
  - intros f Hf Hf0. apply list_elem_of_lookup in Hf as [i Hi]. destruct (decide (i = 3%nat)) as [-> | Hne].
    + injection Hi as <-. eexists. split; [reflexivity |]. vm_compute. split; [discriminate | reflexivity].
    + rewrite list_lookup_insert_ne in Hi by congruence. apply lookup_replicate in Hi as [E _]. destruct (Hf0 E).
  - vm_compute. reflexivity.
  - exact grave_owns.
  - unfold grave_objects. intros p Hp. rewrite !elem_of_cons in Hp.
    destruct Hp as [-> | [-> | [-> | [-> | [-> | [-> | [-> | []%elem_of_nil]]]]]]]; exists BLOCK, 1; (split; [reflexivity | vm_compute; congruence]).
  - intros p. destruct (grave_owned !! p) as [x |] eqn:Ep.
    + apply grave_cases in Ep as [[-> ->] | [Hp ->]]; [reflexivity |].
      unfold grave_objects in Hp. rewrite !elem_of_cons in Hp. destruct Hp as [-> | [-> | [-> | [-> | [-> | [-> | [-> | []%elem_of_nil]]]]]]]; reflexivity.
    + apply lookup_singleton_None. intros <-. discriminate Ep.
Qed.

Lemma kill_zombies_reaps_witness : exists k', kill_zombies grave_kernel = Some k' /\ owns (k_heap k') ({[ idler := (BLOCK, 1) ]} : gmap Z (Z * Z)) /\ threads k' !! mother = None.
Proof.
  destruct (kill_zombies_reaps grave_kernel (fun _ => toy_tables) [mother] idler [] [mother] grave_owned [grave_file] ∅ {[ idler := (BLOCK, 1) ]} grave_case) as (k' & E & Hk & _).
  exists k'. split; [exact E |]. split; [exact (kl_heap _ _ _ _ _ _ Hk) |].
  apply (kl_threads _ _ _ _ _ _ Hk mother). vm_compute. left.
Defined.
