(* ===== verification/FdProps.v ===== *)
(** * The types of descriptors

    A descriptor of a thread is NULL or the address of an open file, and a file
    counts the descriptors that name it: [fds_ok].  Opening, closing, inheriting and
    the closing of all descriptors of a thread keep that, so that no call goes
    through a descriptor to a file that was freed, and no file is lost. *)

From S2P Require Import Prelude Config Heap CString VfsData Tmpfs Ramfs Vfs Vma Mmu MmuProofs PgdProps PgdCopy Kernel Sched SchedProps Timer Thread ThreadProps FaultProps SignalProps Syscall ForkProps ReapProps.
#[local] Open Scope Z_scope.

(** ** Counting descriptors *)

Lemma cnt_insert f (l : list Z) i x y : l !! i = Some y ->
  cnt f (<[i := x]> l) = cnt f l - (if decide (y = f) then 1 else 0) + (if decide (x = f) then 1 else 0).
Proof.
  intros Hy. pose proof (lookup_lt_Some _ _ _ Hy). rewrite insert_take_drop by done.
  rewrite <- (take_drop_middle l i y Hy) at 3. rewrite !cnt_app, !cnt_cons. lia.
Qed.

Lemma cnt_le_length f l : cnt f l <= Z.of_nat (length l).
Proof. induction l as [| g l IH]; [done |]. rewrite cnt_cons. cbn [length]. case_decide; lia. Qed.

(** The descriptors of all threads that name [f]. *)
Definition fd_refs (ths : gmap Z thread) (f : Z) : Z := map_fold (fun _ th n => cnt f (t_fdt th) + n) 0 ths.

Lemma fd_refs_insert ths t th f : ths !! t = None -> fd_refs (<[t := th]> ths) f = cnt f (t_fdt th) + fd_refs ths f.
Proof. intros Ht. unfold fd_refs. rewrite map_fold_insert_L; [done | intros; lia | done]. Qed.

Lemma fd_refs_delete ths t th f : ths !! t = Some th -> fd_refs ths f = cnt f (t_fdt th) + fd_refs (delete t ths) f.
Proof. intros Ht. unfold fd_refs. rewrite (map_fold_delete_L _ _ t th); [done | intros; lia | done]. Qed.

Lemma fd_refs_update ths t th th' f : ths !! t = Some th ->
  fd_refs (<[t := th']> ths) f = fd_refs ths f - cnt f (t_fdt th) + cnt f (t_fdt th').
Proof.
  intros Ht. rewrite (fd_refs_delete ths t th f Ht), (fd_refs_delete (<[t := th']> ths) t th') by apply lookup_insert_eq.
  rewrite delete_insert_eq. lia.
Qed.

Lemma fd_refs_nonneg ths f : 0 <= fd_refs ths f.
Proof.
  induction ths as [| t th ths Ht IH] using map_ind; [done |]. rewrite fd_refs_insert by done. pose proof (cnt_nonneg f (t_fdt th)). lia.
Qed.

Lemma fd_refs_ge ths t th f : ths !! t = Some th -> cnt f (t_fdt th) <= fd_refs ths f.
Proof. intros Ht. rewrite (fd_refs_delete _ _ _ _ Ht). pose proof (fd_refs_nonneg (delete t ths) f). lia. Qed.

Lemma fd_refs_le ths f : (forall t th, ths !! t = Some th -> length (t_fdt th) = NR_FD) -> fd_refs ths f <= 16 * Z.of_nat (size ths).
Proof.
  induction ths as [| t th ths Ht IH] using map_ind; intros Hl; [done |]. rewrite fd_refs_insert, map_size_insert_None by done.
  pose proof (cnt_le_length f (t_fdt th)) as Hc. rewrite (Hl t th) in Hc by apply lookup_insert_eq. unfold NR_FD in Hc.
  assert (fd_refs ths f <= 16 * Z.of_nat (size ths)).
  { apply IH. intros u uh Hu. apply (Hl u). rewrite lookup_insert_ne; [done |]. intros ->. congruence. }
  lia.
Qed.

(** ** The invariant *)

(** More threads than this do not fit in memory. *)
Definition MAX_THREADS : Z := 2 ^ 26.

Definition refs_of (fl : option file) : Z := match fl with Some fl => ref_count fl | None => 0 end.

Section Descriptors.
Context {H : Type} {HO : HeapOps H} {HS : HeapSpec H}.
Notation kernel := (kernel H).
Implicit Types (k : kernel) (mm : gmap Z (Z * Z)).

(** Every thread has its descriptors; a file counts those that name it, at least
    one, and is an object of its own. *)
Record fds_ok k mm : Prop := {
  fo_length : forall t th, threads k !! t = Some th -> length (t_fdt th) = NR_FD;
  fo_count : forall f, f <> 0 -> refs_of (files (k_vfs k) !! f) = fd_refs (threads k) f;
  fo_live : forall f fl, files (k_vfs k) !! f = Some fl -> f <> 0 /\ 1 <= ref_count fl /\ exists n, mm !! f = Some (n, 1);
  fo_room : Z.of_nat (size (threads k)) < MAX_THREADS;
  fo_owns : owns (k_heap k) mm;
}.

Lemma fds_ok_open k mm t th f : fds_ok k mm -> threads k !! t = Some th -> f ∈ t_fdt th -> f <> 0 -> exists fl, files (k_vfs k) !! f = Some fl.
Proof.
  intros Hok Ht Hf H0. pose proof (fo_count _ _ Hok f H0) as Hc. pose proof (fd_refs_ge _ _ _ f Ht) as Hge. apply cnt_elem in Hf.
  destruct (files (k_vfs k) !! f) as [fl |]; [by exists fl |]. cbn in Hc. lia.
Qed.

Lemma fds_ok_bounds k mm f fl : fds_ok k mm -> files (k_vfs k) !! f = Some fl -> 1 <= ref_count fl < 2 ^ 30.
Proof.
  intros Hok Hf. destruct (fo_live _ _ Hok f fl Hf) as (H0 & H1 & _). pose proof (fo_count _ _ Hok f H0) as Hc. rewrite Hf in Hc. cbn in Hc.
  pose proof (fd_refs_le (threads k) f (fo_length _ _ Hok)). pose proof (fo_room _ _ Hok). unfold MAX_THREADS in *. lia.
Qed.

(** A thread gets another table of descriptors, and the files change with it. *)
Lemma fds_ok_retable k mm t th th' k' mm' : fds_ok k mm -> threads k !! t = Some th -> threads k' = <[t := th']> (threads k) ->
  length (t_fdt th') = NR_FD -> owns (k_heap k') mm' ->
  (forall f, f <> 0 -> refs_of (files (k_vfs k') !! f) = refs_of (files (k_vfs k) !! f) - cnt f (t_fdt th) + cnt f (t_fdt th')) ->
  (forall f fl, files (k_vfs k') !! f = Some fl -> f <> 0 /\ 1 <= ref_count fl /\ exists n, mm' !! f = Some (n, 1)) -> fds_ok k' mm'.
Proof.
  intros Hok Ht Eth Hl Ho Hc Hlive. split; [| | exact Hlive | | exact Ho].
  - rewrite Eth. intros u uh. destruct (decide (u = t)) as [-> | Hu]; [rewrite lookup_insert_eq; by intros [= <-] |].
    rewrite lookup_insert_ne by done. apply Hok.
  - intros f H0. rewrite Hc, (fo_count _ _ Hok) by done. by rewrite Eth, (fd_refs_update _ _ _ _ _ Ht).
  - rewrite Eth, map_size_insert_Some by (by eexists). apply Hok.
Qed.

(** ** Closing *)

Lemma vfs_close_spec k mm f fl : fds_ok k mm -> files (k_vfs k) !! f = Some fl -> exists s mm', vfs_close f (as_fs k) = Some (0, s) /\
  owns (vheap s) mm' /\ (forall g, refs_of (files (vst s) !! g) = refs_of (files (k_vfs k) !! g) - (if decide (f = g) then 1 else 0)) /\
  (forall g gl, files (vst s) !! g = Some gl -> g <> 0 /\ 1 <= ref_count gl /\ exists n, mm' !! g = Some (n, 1)).
Proof.
  intros Hok Hf. pose proof (fds_ok_bounds _ _ _ _ Hok Hf) as Hb. destruct (fo_live _ _ Hok f fl Hf) as (H0 & H1 & n & Hn).
  unfold vfs_close. cbn [as_fs vst]. rewrite Hf, bind_some. cbn [ref_count set_ref_count]. rewrite i32_small by lia.
  destruct (Z.ltb_spec 0 (ref_count fl - 1)).
  - eexists _, mm. split; [reflexivity |]. split; [apply Hok |]. cbn [vst as_fs on_vst put_file files set_files]. split.
    + intros g. destruct (decide (f = g)) as [<- |]; [rewrite lookup_insert_eq, Hf; done |]. rewrite lookup_insert_ne by done. apply eq_sym, Z.sub_0_r.
    + intros g gl. destruct (decide (f = g)) as [<- |]; [rewrite lookup_insert_eq; intros [= <-]; cbn; split_and!; [done | lia | by exists n] |].
      rewrite lookup_insert_ne by done. apply Hok.
  - destruct (owns_free _ _ _ _ (fo_owns _ _ Hok) Hn) as (h & Eh & Ho). unfold free_object_at. cbn [on_vst vheap as_fs]. rewrite Eh, !bind_some.
    assert (Ec : op_close (f_ops (set_ref_count (ref_count fl - 1) fl)) f = 0) by (by destruct (f_ops (set_ref_count (ref_count fl - 1) fl))).
    rewrite Ec. eexists _, (delete f mm). split; [reflexivity |]. split; [exact Ho |]. cbn [vst as_fs on_vst put_file files set_files]. rewrite delete_insert_eq. split.
    + intros g. destruct (decide (f = g)) as [<- |]; [rewrite lookup_delete_eq, Hf; cbn; lia |]. rewrite lookup_delete_ne by done. lia.
    + intros g gl. destruct (decide (f = g)) as [<- |]; [by rewrite lookup_delete_eq |]. rewrite !lookup_delete_ne by done. apply Hok.
Qed.

(** A descriptor of a thread is closed and cleared. *)
Lemma close_at_spec k mm t th i f : fds_ok k mm -> threads k !! t = Some th -> t_fdt th !! i = Some f -> f <> 0 ->
  exists s k' mm', vfs_close f (as_fs k) = Some (0, s) /\
    upd_thread t (fun th => set_t_fdt (<[i := 0]> (t_fdt th)) th) (with_fs k s) = Some k' /\ fds_ok k' mm' /\
    threads k' = <[t := set_t_fdt (<[i := 0]> (t_fdt th)) th]> (threads k) /\ tp k' = tp k.
Proof.
  intros Hok Ht Hi H0. destruct (fds_ok_open _ _ _ _ _ Hok Ht (list_elem_of_lookup_2 _ _ _ Hi) H0) as [fl Hf].
  destruct (vfs_close_spec k mm f fl Hok Hf) as (s & mm' & E & Ho & Hc & Hl). eexists s, _, mm'. split; [exact E |].
  split; [unfold upd_thread; cbn [with_fs threads set_k_vfs set_k_heap]; rewrite Ht, bind_some; reflexivity |]. split; [| done].
  eapply (fds_ok_retable k mm t th _ _ mm' Hok Ht); [reflexivity | cbn; rewrite length_insert; by eapply Hok | exact Ho | | exact Hl].
  intros g Hg. cbn [k_vfs put_thread set_threads with_fs set_k_vfs]. rewrite Hc. cbn [t_fdt set_t_fdt]. rewrite (cnt_insert g _ i 0 f Hi).
  rewrite (decide_False (P := 0 = g)) by congruence. lia.
Qed.

Definition is_open k (fd : Z) : Prop := 0 <= fd < 16 /\ exists th f, threads k !! tp k = Some th /\ t_fdt th !! Z.to_nat fd = Some f /\ f <> 0.

(** [sys_close] closes an open descriptor, and answers -1 for any other number. *)
Lemma sys_close_spec k mm th fd : fds_ok k mm -> threads k !! tp k = Some th -> exists r k' mm', sys_close fd k = Some (r, k') /\ fds_ok k' mm' /\
  ((r = 0 /\ is_open k fd /\ threads k' = <[tp k := set_t_fdt (<[Z.to_nat fd := 0]> (t_fdt th)) th]> (threads k)) \/ (r = -1 /\ ~ is_open k fd /\ k' = k)).
Proof.
  intros Hok Ht. unfold sys_close, get_fd. destruct (Z.ltb_spec fd 0), (Z.leb_spec 16 fd); cbn [orb]; rewrite ?bind_some;
    try (exists (-1), k, mm; split; [reflexivity |]; split; [done |]; right; split_and!; [done | intros [? _]; lia | done]).
  unfold current. rewrite Ht, bind_some. destruct (lookup_lt_is_Some_2 (t_fdt th) (Z.to_nat fd)) as [f Hf].
  { rewrite (fo_length _ _ Hok _ _ Ht). unfold NR_FD. lia. }
  rewrite Hf, !bind_some. destruct (Z.eqb_spec f 0) as [-> | H0'].
  - exists (-1), k, mm. split; [reflexivity |]. split; [done |]. right. split_and!; [done | | done]. intros (_ & th' & g & E & Eg & Hg). congruence.
  - destruct (close_at_spec k mm (tp k) th _ f Hok Ht Hf H0') as (s & k' & mm' & E & Eu & Hok' & Eth & _). rewrite E, bind_some. cbv beta iota.
    unfold set_fd, upd_current. change (tp (with_fs k s)) with (tp k). rewrite Eu, bind_some. exists 0, k', mm'. split; [reflexivity |]. split; [done |].
    left. split_and!; [done | | exact Eth]. split; [lia |]. by exists th, f.
Qed.

(** The loop over the table of a dead thread. *)
Lemma close_fds_typed k mm t th : fds_ok k mm -> threads k !! t = Some th -> exists k' mm', close_fds t k = Some k' /\ fds_ok k' mm' /\
  threads k' = <[t := set_t_fdt (replicate NR_FD 0) th]> (threads k).
Proof.
  intros Hok Ht.
  destruct (for_range_inv (fun i k1 => exists mm1 fds, fds_ok k1 mm1 /\ threads k1 = <[t := set_t_fdt fds th]> (threads k) /\
      length fds = NR_FD /\ forall j, (j < Z.to_nat i)%nat -> fds !! j = Some 0) NR_FD 0 (close_fd t) k) as (k' & E & mm' & fds & Hok' & Eth & Hl & Hz).
  - exists mm, (t_fdt th). split_and!; [done | | by eapply Hok | intros j; lia]. rewrite insert_id; [done |]. rewrite Ht. f_equal. by destruct th.
  - intros i k1 Hi (mm1 & fds & Hok1 & Eth & Hl & Hz). assert (Ht1 : threads k1 !! t = Some (set_t_fdt fds th)) by (rewrite Eth; apply lookup_insert_eq).
    unfold close_fd. rewrite Ht1, bind_some. cbn [t_fdt set_t_fdt]. destruct (lookup_lt_is_Some_2 fds (Z.to_nat i)) as [f Hf]; [lia |].
    rewrite Hf, bind_some. assert (Hnext : forall g : list Z, (forall j, (j < Z.to_nat i)%nat -> g !! j = Some 0) -> g !! Z.to_nat i = Some 0 -> forall j, (j < Z.to_nat (i + 1))%nat -> g !! j = Some 0).
    { intros g Hg Hgi j Hj. destruct (decide (j = Z.to_nat i)) as [-> |]; [done |]. apply Hg. lia. }
    destruct (Z.eqb_spec f 0) as [-> | H0].
    + exists k1. split; [reflexivity |]. exists mm1, fds. split_and!; try done. by apply Hnext.
    + destruct (close_at_spec k1 mm1 t (set_t_fdt fds th) (Z.to_nat i) f Hok1 Ht1 Hf H0) as (s & k2 & mm2 & E & Eu & Hok2 & Eth2 & _).
      rewrite E, bind_some. cbv beta iota. exists k2. split; [exact Eu |]. exists mm2, (<[Z.to_nat i := 0]> fds). split_and!; [done | | by rewrite length_insert |].
      * rewrite Eth2, Eth, insert_insert_eq. reflexivity.
      * apply Hnext; [| apply list_lookup_insert_eq; lia]. intros j Hj. rewrite list_lookup_insert_ne by lia. by apply Hz.
  - exists k', mm'. split; [exact E |]. split; [done |]. rewrite Eth. do 2 f_equal. apply list_eq. intros j.
    destruct (decide (j < NR_FD)%nat) as [Hj | Hj]; [rewrite lookup_replicate_2 by done; apply Hz; unfold NR_FD in *; lia |].
    rewrite !lookup_ge_None_2 by (rewrite ?length_replicate; lia). done.
Qed.

(** A thread without open descriptors can go. *)
Lemma fds_ok_delete k mm t th : fds_ok k mm -> threads k !! t = Some th -> t_fdt th = replicate NR_FD 0 -> fds_ok (set_threads (delete t (threads k)) k) mm.
Proof.
  intros Hok Ht Ez. split; cbn [threads set_threads k_vfs k_heap].
  - intros u uh [_ Hu]%lookup_delete_Some. by eapply Hok.
  - intros f H0. rewrite (fo_count _ _ Hok) by done. rewrite (fd_refs_delete _ _ _ f Ht), cnt_none; [lia |]. rewrite Ez. intros [-> _]%elem_of_replicate. done.
  - apply Hok.
  - pose proof (fo_room _ _ Hok). rewrite map_size_delete, Ht. cbn. lia.
  - apply Hok.
Qed.

(** ** Inheriting *)

Lemma inherit_spec k mm t th c child : fds_ok k mm -> threads k !! t = Some th -> threads k !! c = None ->
  Z.of_nat (size (threads k)) + 1 < MAX_THREADS -> t_fdt child = t_fdt th ->
  exists v, share_files (t_fdt th) (k_vfs k) = Some v /\ fds_ok (put_thread c child (set_k_vfs v k)) mm.
Proof.
  intros Hok Ht Hc Hroom Efd. pose proof (fo_length _ _ Hok _ _ Ht) as Hl.
  destruct (share_files_spec (t_fdt th) (k_vfs k)) as (v & E & Hset & Hlook).
  { intros f Hf H0. destruct (fds_ok_open _ _ _ _ _ Hok Ht Hf H0) as [fl Hfl]. exists fl. pose proof (fds_ok_bounds _ _ _ _ Hok Hfl). rewrite Hl. unfold NR_FD. split_and!; [done | lia | lia]. }
  exists v. split; [exact E |]. split; cbn [threads put_thread set_threads set_k_vfs k_vfs k_heap].
  - intros u uh. destruct (decide (u = c)) as [-> | Hu]; [rewrite lookup_insert_eq; intros [= <-]; by rewrite Efd |]. rewrite lookup_insert_ne by done. apply Hok.
  - intros f H0. rewrite fd_refs_insert, <- (fo_count _ _ Hok f H0), Efd, Hlook by done. destruct (files (k_vfs k) !! f) as [fl |] eqn:Hfl; cbn [fmap option_fmap option_map refs_of].
    + case_decide as Hd; cbn [ref_count set_ref_count]; [lia |]. rewrite cnt_none; [lia |]. intros ?. by apply Hd.
    + rewrite cnt_none; [done |]. intros Hin. destruct (fds_ok_open _ _ _ _ _ Hok Ht Hin H0) as [fl ?]. congruence.
  - intros f fl'. rewrite Hlook. destruct (files (k_vfs k) !! f) as [fl |] eqn:Hfl; [| done]. cbn [fmap option_fmap option_map]. intros [= <-].
    destruct (fo_live _ _ Hok f fl Hfl) as (H0 & H1 & Hn). split_and!; [done | | done]. pose proof (cnt_nonneg f (t_fdt th)). case_decide; cbn [ref_count set_ref_count]; lia.
  - rewrite map_size_insert_None by done. unfold MAX_THREADS in *. lia.
  - apply Hok.
Qed.

(** ** Opening *)

(** The files are [fs], and what was alive in [mm] is alive. *)
Definition keeps (fs : gmap Z file) mm (s : vstate H) : Prop := files (vst s) = fs /\ exists mm', owns (vheap s) mm' /\ mm ⊆ mm'.

Lemma keeps_on_vst fs mm s g : files (g (vst s)) = files (vst s) -> keeps fs mm s -> keeps fs mm (on_vst g s).
Proof. intros E [Hf Ho]. split; [exact (eq_trans E Hf) | exact Ho]. Qed.

Lemma new_object_spec sz s p s' mm : owns (vheap s) mm -> 0 < sz <= MAX_ALLOC_SIZE -> new_object sz s = Some (p, s') ->
  exists n, mm !! p = None /\ p <> 0 /\ owns (vheap s') (<[p := (n, 1)]> mm) /\ vst s' = vst s.
Proof.
  intros Ho Hsz. unfold new_object. destruct (owns_allocate _ _ sz Ho Hsz) as [-> | (q & h & n & -> & _ & Hq & Ho')]; rewrite bind_some; [done |].
  destruct (Z.eqb_spec q 0); [done |]. intros [= <- <-]. by exists n.
Qed.

Lemma new_object_keeps fs mm sz s p s' : keeps fs mm s -> 0 < sz <= MAX_ALLOC_SIZE -> new_object sz s = Some (p, s') -> keeps fs mm s'.
Proof.
  intros [Hf (mm1 & Ho & Hsub)] Hsz E. destruct (new_object_spec _ _ _ _ _ Ho Hsz E) as (n & Hn & _ & Ho' & Ev). split; [by rewrite Ev |].
  eexists. split; [exact Ho' |]. etrans; [exact Hsub |]. by apply insert_subseteq.
Qed.

Lemma bind_inv {A B} (m : option A) (g : A -> option B) y : m ≫= g = Some y -> exists x, m = Some x /\ g x = Some y.
Proof. destruct m as [x |]; [| done]. intros E. by exists x. Qed.

Lemma devfs_lookup_keeps fs mm dir name s r s' : keeps fs mm s -> devfs_lookup dir name s = Some (r, s') -> keeps fs mm s'.
Proof.
  intros Hk. unfold devfs_lookup, devfs_create_vnode.
  assert (Hnew : forall set_v, (forall v f, files (set_v v f) = files f) -> forall r s',
    ('(v, s) ← ('(v, s) ← new_object SIZEOF_VNODE s; Some (v, on_vst (put_vnode v (Vnode 0 devfs_ops 0 0)) s)); Some (Some v, on_vst (set_v v) s)) = Some (r, s') -> keeps fs mm s').
  { intros set_v Hset r' s1 E. apply bind_inv in E as ([v s2] & E2 & E). apply bind_inv in E2 as ([v' s3] & E3 & E2). injection E2 as <- <-. injection E as <- <-.
    apply keeps_on_vst; [by apply Hset |]. apply keeps_on_vst; [done |]. by apply (new_object_keeps _ _ SIZEOF_VNODE _ _ _ Hk ltac:(by vm_compute) E3). }
  destruct (streq name _); [destruct (_ =? 0); [by apply (Hnew set_uart_vnode) | by intros [= _ <-]] |].
  destruct (streq name _); [destruct (_ =? 0); [by apply (Hnew set_fb_vnode) | by intros [= _ <-]] | by intros [= _ <-]].
Qed.

Lemma op_lookup_keeps fs mm ops dir name s r s' : keeps fs mm s -> op_lookup ops dir name s = Some (r, s') -> keeps fs mm s'.
Proof.
  intros Hk. destruct ops; cbn [op_lookup]; [| | by apply devfs_lookup_keeps].
  - unfold tmpfs_lookup. intros E. apply bind_inv in E as (vn & _ & E). apply bind_inv in E as (d & _ & E). case_decide; [by injection E as _ <- |].
    apply bind_inv in E as (x & _ & E). by injection E as _ <-.
  - unfold ramfs_lookup. intros E. apply bind_inv in E as (vn & _ & E). apply bind_inv in E as (d & _ & E). case_decide; [by injection E as _ <- |].
    apply bind_inv in E as (x & _ & E). by injection E as _ <-.
Qed.

Lemma set_parent_keeps fs mm next node s s' : keeps fs mm s -> set_parent next node s = Some s' -> keeps fs mm s'.
Proof.
  intros Hk E. apply bind_inv in E as (n & _ & E). apply bind_inv in E as (m & _ & E). destruct (_ && _); injection E as <-; [by apply keeps_on_vst | done].
Qed.

Lemma walk_component_keeps fs mm node comp s r s' : keeps fs mm s -> walk_component node comp s = Some (r, s') -> keeps fs mm s'.
Proof.
  intros Hk E. apply bind_inv in E as (n & _ & E). destruct (streq comp _); [by injection E as _ <- |]. destruct (streq comp _); [by injection E as _ <- |].
  destruct (bool_decide _); [| by injection E as _ <-]. apply bind_inv in E as ([[next |] s1] & E1 & E); apply (op_lookup_keeps fs mm) in E1; try done.
  - apply bind_inv in E as (s2 & E2 & E). injection E as _ <-. by apply (set_parent_keeps fs mm) in E2.
  - by injection E as _ <-.
Qed.

Lemma lookup_loop_keeps fs mm fuel : forall node path s r s', keeps fs mm s -> lookup_loop fuel node path s = Some (r, s') -> keeps fs mm s'.
Proof.
  induction fuel as [| fuel IH]; intros node path s r s' Hk; (destruct path as [| c path]; cbn [lookup_loop]; [by intros [= _ <-] |]); [done |].
  intros E. apply bind_inv in E as (n & _ & E). destruct (next_component (c :: path)) as [comp rest]. destruct (_ <=? _); [done |].
  apply bind_inv in E as ([[next |] s1] & E1 & E); apply (walk_component_keeps fs mm) in E1; try done; [by apply IH in E | by injection E as _ <-].
Qed.

Lemma vfs_lookup_keeps fs mm cwd path s r s' : keeps fs mm s -> vfs_lookup cwd path s = Some (r, s') -> keeps fs mm s'.
Proof.
  intros Hk. unfold vfs_lookup. destruct (_ =? 0); [by intros [= _ <-] |]. intros E. apply bind_inv in E as (m & _ & E).
  destruct (match path with [] => _ | _ => _ end) as [node p]. apply bind_inv in E as ([[n |] s1] & E1 & E); apply (lookup_loop_keeps fs mm) in E1; try done.
  - apply bind_inv in E as (x & _ & E). by injection E as _ <-.
  - by injection E as _ <-.
Qed.

Lemma tmpfs_create_vnode_spec ty s v s' mm : owns (vheap s) mm -> tmpfs_create_vnode ty s = Some (v, s') ->
  exists i n1 n2, mm !! v = None /\ <[v := (n1, 1)]> mm !! i = None /\ owns (vheap s') (<[i := (n2, 1)]> (<[v := (n1, 1)]> mm)) /\
    vnodes (vst s') !! v = Some (Vnode 0 tmpfs_ops i 0) /\ files (vst s') = files (vst s).
Proof.
  intros Ho E. apply bind_inv in E as ([v' s1] & E1 & E). apply bind_inv in E as ([i s2] & E2 & E). injection E as <- <-.
  destruct (new_object_spec SIZEOF_VNODE _ _ _ _ Ho ltac:(by vm_compute) E1) as (n1 & Hv & _ & Ho1 & Ev1).
  destruct (new_object_spec SIZEOF_TMPFS_VNODE _ _ _ _ Ho1 ltac:(by vm_compute) E2) as (n2 & Hi & _ & Ho2 & Ev2). exists i, n1, n2.
  split_and!; [done | done | exact Ho2 | |].
  - cbn. by rewrite lookup_insert_eq.
  - cbn. by rewrite Ev2, Ev1.
Qed.

Lemma free_object_at_inv p s s' mm n : owns (vheap s) mm -> mm !! p = Some (n, 1) -> free_object_at p s = Some s' -> owns (vheap s') (delete p mm) /\ vst s' = vst s.
Proof.
  intros Ho Hp E. apply bind_inv in E as (h & Eh & E). injection E as <-. destruct (owns_free _ _ _ _ Ho Hp) as (h' & Eh' & Ho'). split; [| done].
  rewrite Eh in Eh'. injection Eh' as <-. exact Ho'.
Qed.

Lemma tmpfs_add_keeps fs mm ty dir name s r s' : keeps fs mm s -> tmpfs_add ty dir name s = Some (r, s') -> keeps fs mm s'.
Proof.
  intros [Hf (mm1 & Ho & Hsub)] E. apply bind_inv in E as (vn & _ & E). apply bind_inv in E as (d & _ & E). case_decide; [injection E as _ <-; split; [done | by exists mm1] |].
  apply bind_inv in E as ([new s1] & E1 & E). destruct (tmpfs_create_vnode_spec _ _ _ _ _ Ho E1) as (i & n1 & n2 & Hn & Hi & Ho1 & Ev & Ef).
  rewrite Ev, bind_some in E. cbn [v_internal] in E. apply bind_inv in E as (inode & _ & E). apply bind_inv in E as (nm & _ & E).
  apply bind_inv in E as (d' & _ & E). destruct (first_null 0 (t_entry d')) as [j |].
  - injection E as _ <-. split; [cbn; congruence |]. eexists. split; [exact Ho1 |]. etrans; [exact Hsub |]. etrans; by apply insert_subseteq.
  - apply bind_inv in E as (s2 & E2 & E). apply bind_inv in E as (s3 & E3 & E). injection E as _ <-.
    destruct (free_object_at_inv i (on_vst (put_tnode i (set_t_name nm inode)) s1) _ _ n2 Ho1 ltac:(apply lookup_insert_eq) E2) as [Ho2 Ev2]. rewrite delete_insert_id in Ho2 by done.
    destruct (free_object_at_inv _ _ _ _ n1 Ho2 ltac:(apply lookup_insert_eq) E3) as [Ho3 Ev3]. rewrite delete_insert_id in Ho3 by done.
    split; [rewrite Ev3, Ev2; cbn; congruence | by exists mm1].
Qed.

Lemma create_at_keeps fs mm cwd dirname name s r s' : keeps fs mm s -> create_at cwd dirname name op_create s = Some (r, s') -> keeps fs mm s'.
Proof.
  intros Hk E. apply bind_inv in E as ([[dir |] s1] & E1 & E); apply (vfs_lookup_keeps fs mm) in E1; try done; [| by injection E as _ <-].
  apply bind_inv in E as (dn & _ & E). apply bind_inv in E as ([r2 s2] & E2 & E).
  assert (Hk2 : keeps fs mm s2).
  { destruct (v_ops dn); cbn [op_create] in E2; [by apply (tmpfs_add_keeps fs mm) in E2 | by injection E2 as _ <- | done]. }
  destruct r2 as [new |]; [| by injection E as _ <-]. apply bind_inv in E as (n & _ & E). injection E as _ <-. by apply keeps_on_vst.
Qed.

(** [vfs_open] answers a new file of its own, or leaves the files as they were. *)
Lemma vfs_open_spec k mm cwd path flags res f s : fds_ok k mm -> vfs_open cwd path flags (as_fs k) = Some (res, f, s) -> exists mm', mm ⊆ mm' /\
  ((res = -1 /\ f = 0 /\ files (vst s) = files (k_vfs k) /\ owns (vheap s) mm') \/
   (res = 0 /\ f <> 0 /\ exists fl n, mm !! f = None /\ files (k_vfs k) !! f = None /\ files (vst s) = <[f := fl]> (files (k_vfs k)) /\ ref_count fl = 1 /\ f_pos fl = 0 /\
      mm' !! f = Some (n, 1) /\ owns (vheap s) mm')).
Proof.
  intros Hok E. assert (Hk : keeps (files (k_vfs k)) mm (as_fs k)) by (split; [done |]; exists mm; split; [apply Hok | done]).
  apply bind_inv in E as ([r1 s1] & E1 & E). apply (vfs_lookup_keeps _ mm _ _ _ _ _ Hk) in E1. apply bind_inv in E as ([r2 s2] & E2 & E).
  assert (Hk2 : keeps (files (k_vfs k)) mm s2).
  { destruct r1 as [node |]; [by injection E2 as _ <- |]. destruct (negb _); [| by injection E2 as _ <-].
    apply bind_inv in E2 as ([dirname filename] & _ & E2). by eapply create_at_keeps; [| exact E2]. }
  destruct Hk2 as [Hf (mm2 & Ho2 & Hsub)]. destruct r2 as [node |]; [| injection E as <- <- <-; exists mm2; split; [done |]; by left].
  apply bind_inv in E as (n & _ & E). apply bind_inv in E as ([p s3] & E3 & E).
  destruct (new_object_spec SIZEOF_FILE _ _ _ _ Ho2 ltac:(by vm_compute) E3) as (sz & Hp & Hp0 & Ho3 & Ev3). cbv zeta in E. apply bind_inv in E as ([res' s4] & E4 & E). injection E as <- <- <-.
  assert (Hfresh : files (k_vfs k) !! p = None).
  { destruct (files (k_vfs k) !! p) as [gl |] eqn:Hg; [| done]. destruct (fo_live _ _ Hok p gl Hg) as (_ & _ & m & Hm). exfalso.
    eapply lookup_weaken in Hm; [| exact Hsub]. congruence. }
  exists (<[p := (sz, 1)]> mm2). split; [etrans; [exact Hsub | by apply insert_subseteq] |]. right.
  assert (Eo : exists ops, fs_open ops node p (on_vst (put_file p (File node 0 (v_ops n) flags 1)) s3) = Some (res', s4)).
  { destruct (v_ops n); by eexists. }
  destruct Eo as [ops Eo]. unfold fs_open in Eo. cbn [on_vst vst put_file files set_files] in Eo. rewrite lookup_insert_eq, bind_some in Eo. injection Eo as <- <-.
  split; [done |]. split; [done |]. eexists _, sz. split; [by eapply lookup_weaken_None |]. split; [done |]. split; [cbn; by rewrite insert_insert_eq, Ev3, Hf |]. split_and!; [done | done | apply lookup_insert_eq | exact Ho3].
Qed.

Lemma free_fd_spec l : forall i j, free_fd i l = Some j -> (i <= j)%nat /\ l !! (j - i)%nat = Some 0.
Proof.
  induction l as [| f l IH]; intros i j; [done |]. cbn [free_fd]. destruct (Z.eqb_spec f 0) as [-> |].
  - intros [= <-]. by rewrite Nat.sub_diag.
  - intros [? E]%IH. split; [lia |]. by replace (j - i)%nat with (S (j - S i)) by lia.
Qed.

(** The same descriptors over a larger heap. *)
Lemma fds_ok_grow k mm k' mm' : fds_ok k mm -> threads k' = threads k -> files (k_vfs k') = files (k_vfs k) -> mm ⊆ mm' -> owns (k_heap k') mm' -> fds_ok k' mm'.
Proof.
  intros [] Eth Ef Hsub Ho. split; rewrite ?Eth, ?Ef; try done.
  intros f fl Hf. destruct (fo_live0 f fl Hf) as (? & ? & n & Hn). split_and!; try done. exists n. by eapply lookup_weaken.
Qed.

(** [sys_open] makes the first free descriptor name a new file, at its start; when
    it answers -1 the threads and the open files are as they were. *)
Definition opened k (th : thread) (r : Z) k' : Prop :=
  0 <= r < 16 /\ t_fdt th !! Z.to_nat r = Some 0 /\ exists f fl, threads k' = <[tp k := set_t_fdt (<[Z.to_nat r := f]> (t_fdt th)) th]> (threads k) /\
  files (k_vfs k) !! f = None /\ files (k_vfs k') !! f = Some fl /\ f_pos fl = 0.

Lemma open_path_spec k mm th path flags res f s : fds_ok k mm -> threads k !! tp k = Some th -> vfs_open (t_cwd th) path flags (as_fs k) = Some (res, f, s) ->
  exists r k' mm', open_path path flags k = Some (r, k') /\ fds_ok k' mm' /\
    (opened k th r k' \/ (r = -1 /\ threads k' = threads k /\ files (k_vfs k') = files (k_vfs k))).
Proof.
  intros Hok Ht Eo. unfold open_path, current. rewrite Ht, bind_some, Eo, bind_some. cbv beta iota zeta.
  destruct (vfs_open_spec _ _ _ _ _ _ _ _ Hok Eo) as (mm' & Hsub & [(-> & -> & Ef & Ho) | (-> & H0 & fl & n & Hmm & Hnew & Ef & Hr & Hpos & Hn & Ho)]); cbn [Z.eqb negb].
  { exists (-1), (with_fs k s), mm'. split; [done |]. split; [by eapply fds_ok_grow | by right]. }
  destruct (free_fd 0 (t_fdt th)) as [i |] eqn:Ei.
  - destruct (free_fd_spec _ _ _ Ei) as [_ Hi]. rewrite Nat.sub_0_r in Hi. pose proof (lookup_lt_Some _ _ _ Hi) as Hlt. rewrite (fo_length _ _ Hok _ _ Ht) in Hlt.
    unfold set_fd, upd_current, upd_thread. change (tp (with_fs k s)) with (tp k). cbn [with_fs threads set_k_vfs set_k_heap]. rewrite Ht, !bind_some.
    eexists _, _, mm'. split; [reflexivity |]. split.
    + eapply (fds_ok_retable k mm (tp k) th _ _ mm' Hok Ht); [reflexivity | cbn; rewrite length_insert; by eapply Hok | exact Ho | |].
      * intros g Hg. cbn [k_vfs put_thread set_threads with_fs set_k_vfs]. rewrite Ef. cbn [t_fdt set_t_fdt]. rewrite (cnt_insert g _ i f 0 Hi).
        rewrite (decide_False (P := 0 = g)) by congruence. destruct (decide (f = g)) as [<- |]; [rewrite lookup_insert_eq, Hnew; cbn [refs_of]; lia |]. rewrite lookup_insert_ne by done. lia.
      * intros g gl. cbn [k_vfs put_thread set_threads with_fs set_k_vfs]. rewrite Ef. destruct (decide (f = g)) as [<- |].
        -- rewrite lookup_insert_eq. intros [= <-]. split_and!; [done | lia | by exists n].
        -- rewrite lookup_insert_ne by done. intros Hg. destruct (fo_live _ _ Hok g gl Hg) as (? & ? & m & Hm). split_and!; try done. exists m. by eapply lookup_weaken.
    + left. unfold opened. rewrite Nat2Z.id. split; [unfold NR_FD in Hlt; lia |]. split; [done |]. exists f, fl. split_and!; [done | done | | done].
      cbn [k_vfs put_thread set_threads with_fs set_k_vfs]. by rewrite Ef, lookup_insert_eq.
  - unfold vfs_close. cbn [as_fs with_fs k_vfs k_heap set_k_vfs set_k_heap vst]. rewrite Ef, lookup_insert_eq, bind_some, Hr. cbn [ref_count set_ref_count].
    change (0 <? i32 (1 - 1)) with false. cbv iota. destruct (owns_free _ _ _ _ Ho Hn) as (h & Eh & Ho2). unfold free_object_at. cbn [on_vst vheap as_fs with_fs k_heap set_k_vfs set_k_heap]. rewrite Eh, !bind_some.
    eexists _, _, (delete f mm'). split; [reflexivity |].
    match goal with |- fds_ok ?k' _ /\ _ => assert (Hfiles : files (k_vfs k') = files (k_vfs k)) end.
    { cbn [k_vfs with_fs as_fs set_k_vfs set_k_heap on_vst vst vheap put_file files set_files]. rewrite Ef, insert_insert_eq, delete_insert_eq. by apply delete_id. }
    split; [| right; split_and!; [done | done | exact Hfiles]].
    eapply (fds_ok_grow k mm); [done | done | exact Hfiles | | exact Ho2].
    apply map_subseteq_spec. intros p y Hp. rewrite lookup_delete_ne; [by eapply lookup_weaken |]. intros ->. congruence.
Qed.

(** ** The property *)

(** C19: descriptors are well typed: each names an open file, which counts exactly
    the descriptors that name it; opening a file, closing a descriptor, handing the
    descriptors on to a new thread and closing all of a dead one keep that, so
    that a file lives exactly as long as a descriptor names it. *)
Theorem descriptors_typed k mm th : fds_ok k mm -> threads k !! tp k = Some th ->
  (forall t u f, threads k !! t = Some u -> f ∈ t_fdt u -> f <> 0 -> exists fl, files (k_vfs k) !! f = Some fl) /\
  (forall path flags res f s, vfs_open (t_cwd th) path flags (as_fs k) = Some (res, f, s) ->
    exists r k' mm', open_path path flags k = Some (r, k') /\ fds_ok k' mm' /\
      (opened k th r k' \/ (r = -1 /\ threads k' = threads k /\ files (k_vfs k') = files (k_vfs k)))) /\
  (forall fd, exists r k' mm', sys_close fd k = Some (r, k') /\ fds_ok k' mm' /\
    ((r = 0 /\ is_open k fd /\ threads k' = <[tp k := set_t_fdt (<[Z.to_nat fd := 0]> (t_fdt th)) th]> (threads k)) \/ (r = -1 /\ ~ is_open k fd /\ k' = k))) /\
  (forall c child, threads k !! c = None -> Z.of_nat (size (threads k)) + 1 < MAX_THREADS -> t_fdt child = t_fdt th ->
    exists v, share_files (t_fdt th) (k_vfs k) = Some v /\ fds_ok (put_thread c child (set_k_vfs v k)) mm) /\
  (forall t u, threads k !! t = Some u -> exists k' mm', close_fds t k = Some k' /\
    threads k' = <[t := set_t_fdt (replicate NR_FD 0) u]> (threads k) /\ fds_ok k' mm' /\ fds_ok (set_threads (delete t (threads k')) k') mm').
Proof.
  intros Hok Ht. split_and!.
  - intros t u f Hu Hf H0. by eapply fds_ok_open.
  - intros path flags res f s Eo. by eapply open_path_spec.
  - intros fd. by eapply sys_close_spec.
  - intros c child Hc Hroom Efd. by eapply inherit_spec.
  - intros t u Hu. destruct (close_fds_typed k mm t u Hok Hu) as (k' & mm' & E & Hok' & Eth). exists k', mm'. split_and!; [done | done | done |].
    eapply fds_ok_delete; [done | rewrite Eth; apply lookup_insert_eq | done].
Qed.

End Descriptors.

(** ** A concrete state *)

#[local] Existing Instances pages_ops pages_spec toy_text.

Lemma grave_typed : fds_ok grave_kernel grave_owned.
Proof.
  split.
  - intros t th. cbn [threads grave_kernel]. rewrite lookup_insert_Some, lookup_singleton_Some. by intros [[_ <-] | (_ & _ & <-)].
  - intros f H0. cbn [threads k_vfs grave_kernel put_file set_files files vfs0]. rewrite fd_refs_insert by done.
    unfold fd_refs. rewrite map_fold_singleton. rewrite (cnt_none f (t_fdt (demo_thread 0 THREAD_RUNNING mother 4096))) by (intros [? _]%elem_of_replicate; done).
    unfold dead_mother. cbn [t_fdt set_t_fdt]. rewrite (cnt_insert f _ 3 grave_file 0), (cnt_none f (replicate NR_FD 0)), (decide_False (P := 0 = f)) by
      (done || congruence || by intros [? _]%elem_of_replicate).
    destruct (decide (grave_file = f)) as [<- |]; [by rewrite lookup_insert_eq |]. by rewrite lookup_insert_ne.
  - intros f fl. cbn [k_vfs grave_kernel put_file set_files files vfs0]. rewrite lookup_insert_Some. intros [[<- <-] | [_ E]]; [| done].
    split_and!; [done | done |]. exists BLOCK. unfold grave_owned. apply lookup_insert_eq.
  - by vm_compute.
  - exact grave_owns.
Qed.

(** The idle thread has nothing to close; with the dead thread's table its file goes. *)
Lemma descriptors_typed_witness :
  (exists k' mm', sys_close 3 grave_kernel = Some (-1, k') /\ fds_ok k' mm') /\
  exists k' mm', close_fds mother grave_kernel = Some k' /\ fds_ok (set_threads (delete mother (threads k')) k') mm' /\ files (k_vfs k') !! grave_file = None.
Proof.
  set (idle := demo_thread 0 THREAD_RUNNING mother 4096).
  destruct (descriptors_typed grave_kernel grave_owned idle grave_typed eq_refl) as (_ & _ & Hclose & _ & Hall). split.
  - destruct (Hclose 3) as (r & k' & mm' & E & Hok & [(_ & (_ & th & f & Eth & Ef & H0) & _) | (-> & _)]); [| by exists k', mm'].
    exfalso. injection Eth as <-. vm_compute in Ef. injection Ef as <-. by apply H0.
  - destruct (Hall mother dead_mother eq_refl) as (k' & mm' & E & Eth & Hok & Hdel). exists k', mm'. split; [exact E |]. split; [exact Hdel |].
    destruct (files (k_vfs k') !! grave_file) as [fl |] eqn:Ef; [| done]. exfalso.
    pose proof (fo_count _ _ Hok grave_file ltac:(discriminate)) as Hc. rewrite Ef, Eth in Hc. cbn [refs_of] in Hc.
    destruct (fo_live _ _ Hok grave_file fl Ef) as (_ & H1 & _).
    assert (E0 : fd_refs (<[mother := set_t_fdt (replicate NR_FD 0) dead_mother]> (threads grave_kernel)) grave_file = 0) by (vm_compute; reflexivity).
    rewrite E0 in Hc. lia.
Defined.
