(* ===== verification/Sbi.v ===== *)
(** * Calls of the firmware: [lib/sbi.c]

    [sbi_ecall] puts its arguments into the registers [a0] to [a7] and traps; what
    the firmware answers is the class [Firmware]. *)

From S2P Require Import Prelude.

Definition SBI_EXT_BASE : Z := 0x10.

Inductive sbi_ext_base_fid :=
  SBI_EXT_BASE_GET_SPEC_VERSION | SBI_EXT_BASE_GET_IMP_ID | SBI_EXT_BASE_GET_IMP_VERSION | SBI_EXT_BASE_PROBE_EXT |
  SBI_EXT_BASE_GET_MVENDORID | SBI_EXT_BASE_GET_MARCHID | SBI_EXT_BASE_GET_MIMPID.

(** The value of the C [enum]. *)
Definition fid_value (f : sbi_ext_base_fid) : Z :=
  match f with
  | SBI_EXT_BASE_GET_SPEC_VERSION => 0 | SBI_EXT_BASE_GET_IMP_ID => 1 | SBI_EXT_BASE_GET_IMP_VERSION => 2
  | SBI_EXT_BASE_PROBE_EXT => 3 | SBI_EXT_BASE_GET_MVENDORID => 4 | SBI_EXT_BASE_GET_MARCHID => 5 | SBI_EXT_BASE_GET_MIMPID => 6
  end.

(** The registers [a0] to [a7] at the [ecall]. *)
Record ecall_regs := EcallRegs { e_a0 : Z; e_a1 : Z; e_a2 : Z; e_a3 : Z; e_a4 : Z; e_a5 : Z; e_a6 : Z; e_a7 : Z }.

(** The new [a0] and [a1]. *)
Class Firmware (D : Type) := { ecall : ecall_regs -> D -> Z * Z * D }.

Record sbiret := Sbiret { error : Z; value : Z }.

Section Sbi.
Context {D : Type} {FW : Firmware D}.

Definition sbi_ecall (ext fid arg0 arg1 arg2 arg3 arg4 arg5 : Z) (d : D) : sbiret * D :=
  let '(a0, a1, d) := ecall (EcallRegs arg0 arg1 arg2 arg3 arg4 arg5 (u64 fid) (u64 ext)) d in (Sbiret a0 a1, d).

Definition base_call (fid : sbi_ext_base_fid) (arg0 : Z) (d : D) : Z * D :=
  let '(ret, d) := sbi_ecall SBI_EXT_BASE (fid_value fid) arg0 0 0 0 0 0 d in (value ret, d).

Definition sbi_get_spec_version : D -> Z * D := base_call SBI_EXT_BASE_GET_SPEC_VERSION 0.
Definition sbi_probe_extension (extid : Z) : D -> Z * D := base_call SBI_EXT_BASE_PROBE_EXT (u64 extid).
Definition sbi_get_impl_id : D -> Z * D := base_call SBI_EXT_BASE_GET_IMP_ID 0.
Definition sbi_get_impl_version : D -> Z * D := base_call SBI_EXT_BASE_GET_IMP_VERSION 0.

(** The legacy extension 0. *)
Definition sbi_set_timer (stime_value : Z) (d : D) : D := snd (sbi_ecall 0x0 0 stime_value 0 0 0 0 0 d).

End Sbi.
