(* ===== verification/Board.v ===== *)
(** * The devices of the board and the traps they raise

    The serial port, the interrupt controller and the screen together: they are
    what the system calls, the device files and [do_trap] reach through the classes
    [DevIO], [Display] and [ExternalInterrupts]. *)

From Stdlib Require Import String.
From S2P Require Import Prelude Config Heap CString VfsData Tmpfs Vfs Stdio Uart UartProps Plic Video VideoProps Kernel Sched Timer Thread Syscall Exception.
#[local] Open Scope Z_scope.
#[local] Open Scope list_scope.

(** [printf], character by character to [uart_putc]. *)
Definition kprintf {D : Type} {IO : DevIO D} (fmt : list Z) (args : list arg) (d : D) : option D :=
  o ← printf (length fmt) (fmt ++ [0]) args; put_all o d.

(** ** State *)

Record board {dev P F : Type} := Board {
  b_uart : uart dev;
  b_plic : plic P;
  b_video : video F;
  g_uart_irq : Z;
}.
Arguments board : clear implicits.

(** What happens to the devices while the processor waits for an interrupt, and
    while other threads run; the bounds on the loops that wait for them. *)
Class Surroundings (dev P F : Type) := {
  wfi : uart dev -> uart dev;
  elapse : board dev P F -> board dev P F;
  uart_fuel : nat;
  patience : nat;
}.

Section Board.
Context {dev : Type} {DV : Device dev} {P : Type} {PD : PlicDevice P} {F : Type} {FW : FwCfg F} {PF : Platform}.
Context {SU : Surroundings dev P F}.
Notation board := (board dev P F).

Definition set_uart (u : uart dev) (b : board) : board := Board _ _ _ u (b_plic b) (b_video b) (g_uart_irq b).
Definition set_plic (p : plic P) (b : board) : board := Board _ _ _ (b_uart b) p (b_video b) (g_uart_irq b).
Definition set_video (v : video F) (b : board) : board := Board _ _ _ (b_uart b) (b_plic b) v (g_uart_irq b).
Definition set_irq (irq : Z) (b : board) : board := Board _ _ _ (b_uart b) (b_plic b) (b_video b) irq.

(** ** The device files and the screen *)

Definition board_getc (b : board) : option (Z * board) :=
  '(c, u) ← uart_getc_nonblocking uart_fuel (b_uart b); Some (c, set_uart u b).

Definition board_putc (c : Z) (b : board) : option board :=
  u ← uart_putc wfi uart_fuel c (b_uart b); Some (set_uart u b).

(** The write of [devfs_write] at the position [pos] of the frame buffer. *)
Definition board_fb_write (pos : Z) (bs : list Z) (b : board) : option board :=
  v ← fb_copy (video_get_base ⊞ pos) bs (b_video b);
  v ← video_flush (video_get_base ⊞ pos) (Z.of_nat (length bs)) v;
  Some (set_video v b).

#[export] Instance board_io : DevIO board := {
  dev_getc := board_getc;
  dev_putc := board_putc;
  dev_yield := elapse;
  dev_patience := patience;
  fb_write := board_fb_write;
  fb_info _ := video_get_info;
}.

#[export] Instance board_display : Display board := {
  bmp_display image width height b := v ← video_bmp_display image width height (b_video b); Some (set_video v b);
}.

(** ** External interrupts *)

(** A claim that answers 0 is reported and the processor then spins for ever. *)
Definition handle_external_interrupt (b : board) : option board :=
  let '(irq, p) := plic_claim (b_plic b) in
  let b := set_plic p b in
  if irq =? 0 then None else
  if 0 <? irq then
    b ← (if irq =? g_uart_irq b then u ← handle_uart_interrupt uart_fuel (b_uart b); Some (set_uart u b)
         else kprintf (chars "Unknown external interrupt: %d" ++ [13; 10]) [Word irq] b);
    Some (set_plic (plic_complete irq (b_plic b)) b)
  else Some b.

#[export] Instance board_interrupts {H : Type} : ExternalInterrupts H board := {
  external_interrupt k b := b ← handle_external_interrupt b; Some (k, b);
}.

End Board.
