(* ===== verification/BoardProps.v ===== *)
(** * Properties of the board

    An external interrupt is claimed, served and completed; the characters written
    to the console leave in order however long the text; those read from
    [/dev/uart] are the ones received. *)

From Stdlib Require Import String.
From S2P Require Import Prelude Config Heap CString VfsData Tmpfs Vfs Stdio Uart UartProps Plic Video VideoProps Mmu Kernel Sched Timer Thread Syscall Exception Board.
#[local] Open Scope Z_scope.
#[local] Open Scope list_scope.

Section Props.
Context {dev : Type} {DV : Device dev} {DL : DeviceLaws dev} {P : Type} {PD : PlicDevice P} {F : Type} {FW : FwCfg F} {PF : Platform}.
Context {SU : Surroundings dev P F}.
Notation board := (board dev P F).

(** ** Writing *)

(** Interrupts are on, the driver is in its asynchronous mode, and [q] waits to
    be sent. *)
Definition sending (u : uart dev) (q : list Z) : Prop := uart_async u = true /\ sie u = true /\ ring_ok (tx_ring u) q.

(** While the processor waits for an interrupt, characters leave in order. *)
Definition wait_sends : Prop := forall u q, sending u q -> q <> [] ->
  exists q', sending (wfi u) q' /\ sent (device (wfi u)) ++ q' = sent (device u) ++ q /\ (length q' < length q)%nat.

(** What [uart_putc] makes of a character. *)
Definition onlcr (c : Z) : list Z := if c =? 10 then [13; 10] else [c].

Context (Hwait : wait_sends) (Hfuel : (2048 <= uart_fuel)%nat).

Lemma put_char_sends c u q : sending u q ->
  exists u' q', put_char wfi uart_fuel c u = Some u' /\ sending u' q' /\ sent (device u') ++ q' = sent (device u) ++ q ++ [c].
Proof.
  intros (Ha & Hs & Hr). destruct (decide (Z.of_nat (length q) < RINGBUF_SIZE - 1)) as [Hlt | Hge].
  { destruct (put_char_async wfi uart_fuel c u q Ha Hs Hr Hlt Hfuel) as (u' & q' & -> & ? & _ & ? & _ & _ & ? & ?). by exists u', q'. }
  pose proof (ring_bound _ _ Hr) as Hb. assert (Hfull : Z.of_nat (length q) = RINGBUF_SIZE - 1) by lia.
  destruct (Hwait (thri_on u) q) as (q1 & (Ha1 & Hs1 & Hr1) & Hst & Hlen); [done | intros ->; discriminate |].
  assert (Hlt1 : Z.of_nat (length q1) < RINGBUF_SIZE - 1) by lia.
  destruct (put_char_async wfi uart_fuel c (wfi (thri_on u)) q1 Ha1 Hs1 Hr1 Hlt1 Hfuel) as (u' & q' & E & Hr' & _ & Hst' & _ & _ & Hs' & Ha').
  exists u', q'. split_and!; [| done | ].
  - rewrite <- E. unfold put_char, irq_enabled. rewrite Ha, Hs, Ha1, Hs1. cbn [andb]. f_equal.
    destruct uart_fuel as [| n]; [lia |]. cbn [push_tx]. rewrite (ring_push_full _ _ c Hr Hfull). cbn [mbind option_bind Z.eqb negb].
    destruct (ring_push_ok _ _ c Hr1 Hlt1) as (r' & Ep & _). destruct n as [| n]; cbn [push_tx]; rewrite Ep; done.
  - assert (Eth : sent (device (thri_on u)) = sent (device u)) by apply IER_sent. by rewrite Hst', app_assoc, Hst, Eth, <- app_assoc.
Qed.

Lemma uart_putc_sends c u q : sending u q ->
  exists u' q', uart_putc wfi uart_fuel c u = Some u' /\ sending u' q' /\ sent (device u') ++ q' = sent (device u) ++ q ++ onlcr c.
Proof.
  intros Hq. unfold uart_putc, onlcr. destruct (Z.eqb_spec c 10) as [-> |].
  - destruct (put_char_sends 13 u q Hq) as (u1 & q1 & -> & Hq1 & E1). cbn [mbind option_bind].
    destruct (put_char_sends 10 u1 q1 Hq1) as (u2 & q2 & -> & Hq2 & E2). exists u2, q2. split_and!; [done | done |].
    by rewrite E2, app_assoc, E1, <- !app_assoc.
  - cbn [mbind option_bind]. by apply put_char_sends.
Qed.

Lemma put_all_sends bs : forall (b : board) q, sending (b_uart b) q ->
  exists u q', put_all bs b = Some (set_uart u b) /\ sending u q' /\ sent (device u) ++ q' = sent (device (b_uart b)) ++ q ++ (bs ≫= onlcr).
Proof.
  induction bs as [| c bs IH]; intros b q Hq; cbn [put_all].
  { exists (b_uart b), q. destruct b. cbn. by rewrite app_nil_r. }
  cbn [dev_putc board_io]. unfold board_putc. destruct (uart_putc_sends c (b_uart b) q Hq) as (u1 & q1 & -> & Hq1 & E1).
  cbn [mbind option_bind]. destruct (IH (set_uart u1 b) q1 Hq1) as (u2 & q2 & -> & Hq2 & E2).
  exists u2, q2. split_and!; [done | done |]. cbn [b_uart set_uart] in E2. rewrite E2, app_assoc, E1, <- !app_assoc. done.
Qed.

(** C26: a text written to the console by the system call reaches the line, or waits
    in the ring, in order and with nothing lost, whatever its length: newlines
    are preceded by carriage returns. *)
Theorem console_write_in_order {H : Type} {UM : UserMem H} buf count (k : kernel H) (b : board) bs q :
  sending (b_uart b) q -> user_bytes buf count k = Some bs -> 0 < count ->
  exists u q', sys_uart_write buf count k b = Some (count, k, set_uart u b) /\ sending u q' /\
    sent (device u) ++ q' = sent (device (b_uart b)) ++ q ++ (bs ≫= onlcr).
Proof.
  intros Hq Hb Hc. unfold sys_uart_write. destruct (Z.leb_spec count 0); [lia |]. rewrite Hb. cbn [mbind option_bind].
  destruct (put_all_sends bs b q Hq) as (u & q' & -> & Hq' & E). cbn [mbind option_bind]. by exists u, q'.
Qed.

End Props.

(** ** Reading *)

Section Reading.
Context {dev : Type} {DV : Device dev} {P : Type} {PD : PlicDevice P} {F : Type} {FW : FwCfg F} {PF : Platform}.
Context {SU : Surroundings dev P F}.
Notation board := (board dev P F).

(** The characters [q] were received and not yet read. *)
Definition received (b : board) (q : list Z) : Prop :=
  uart_async (b_uart b) = true /\ ring_ok (rx_ring (b_uart b)) q /\ Forall (fun c => 0 <= c < 256) q.

Lemma getc_none (b : board) : received b [] -> board_getc b = Some (-1, b).
Proof.
  intros (Ha & Hr & _). unfold board_getc, uart_getc_nonblocking. rewrite Ha. destruct (ring_pop_ok _ _ Hr) as (r' & -> & _).
  cbn. by destruct b.
Qed.

Lemma getc_some (b : board) c q : received b (c :: q) ->
  exists b', board_getc b = Some (cr_to_nl c, b') /\ received b' q /\ 0 <= cr_to_nl c < 256.
Proof.
  intros (Ha & Hr & Hq). apply list.Forall_cons in Hq as [Hc Hq]. unfold board_getc, uart_getc_nonblocking. rewrite Ha.
  destruct (ring_pop_ok _ _ Hr) as (r' & -> & Hr'). eexists. split; [reflexivity |].
  split; [done | unfold cr_to_nl; destruct (c =? 13); lia].
Qed.

Lemma char_of c : 0 <= c < 256 -> Z.land c 255 = c /\ (c =? -1) = false.
Proof. intros Hc. split; [change 255 with (Z.ones 8); rewrite Z.land_ones by lia; apply Z.mod_small; lia | apply Z.eqb_neq; lia]. Qed.

Lemma read_available_spec n : forall (b : board) q, received b q ->
  exists b', read_available n b = Some (map cr_to_nl (take n q), b') /\ received b' (drop n q).
Proof.
  induction n as [| n IH]; intros b q Hq; cbn [read_available]; [by exists b; destruct q |].
  cbn [dev_getc board_io]. destruct q as [| c q].
  - rewrite getc_none by done. cbn. by exists b.
  - destruct (getc_some b c q Hq) as (b1 & -> & Hq1 & Hc). cbn [mbind option_bind]. destruct (char_of _ Hc) as [-> ->].
    destruct (IH b1 q Hq1) as (b2 & -> & Hq2). by exists b2.
Qed.

(** [n] calls of [schedule] before the first character is there. *)
Inductive arrives : nat -> board -> list Z -> Prop :=
  | Arrived b c q : received b (c :: q) -> arrives 0 b (c :: q)
  | Waits n b q : received b [] -> arrives n (elapse b) q -> arrives (S n) b q.

Lemma wait_char_spec n b q : arrives n b q -> forall fuel, (n <= fuel)%nat ->
  exists c q' b', q = c :: q' /\ wait_char fuel b = Some (cr_to_nl c, b') /\ received b' q'.
Proof.
  induction 1 as [b c q Hq | n b q Hb _ IH]; intros fuel Hf.
  - destruct (getc_some b c q Hq) as (b1 & E & Hq1 & Hc). exists c, q, b1. split_and!; [done | | done].
    destruct fuel; cbn [wait_char dev_getc board_io]; rewrite E; cbn [mbind option_bind]; by destruct (char_of _ Hc) as [-> ->].
  - destruct fuel as [| fuel]; [lia |]. cbn [wait_char dev_getc board_io]. rewrite getc_none by done. cbn [mbind option_bind Z.eqb].
    apply IH. lia.
Qed.

(** C27: a read of [/dev/uart] waits for a character and then answers those that were
    received, in order and at most as many as asked for, carriage returns as
    newlines; what it did not take stays for the next read. *)
Theorem devfs_read_received {H : Type} n f len (s : vstate H) (b : board) q : arrives n b q -> (n <= patience)%nat -> 0 < len < 2 ^ 31 ->
  let bs := map cr_to_nl (take (Z.to_nat len) q) in
  exists b', devfs_read f len s b = Some (Z.of_nat (length bs), bs, s, b') /\ received b' (drop (Z.to_nat len) q).
Proof.
  intros Hq Hn Hl bs. unfold devfs_read. destruct (Z.eqb_spec len 0); [lia |].
  destruct (wait_char_spec n b q Hq patience Hn) as (c & q' & b1 & -> & E & Hq1). cbn [dev_patience board_io]. rewrite E. cbn [mbind option_bind].
  destruct (read_available_spec (Z.to_nat (len - 1)) b1 q' Hq1) as (b2 & -> & Hq2). cbn [mbind option_bind].
  unfold bs. replace (Z.to_nat len) with (S (Z.to_nat (len - 1))) by lia. cbn [take map drop]. exists b2. split; [| done].
  rewrite i32_small; [done |]. cbn [length]. rewrite length_map, length_take. lia.
Qed.

End Reading.

(** ** External interrupts *)

Section Interrupts.
Context {dev : Type} {DV : Device dev} {DL : DeviceLaws dev} {P : Type} {PD : PlicDevice P} {F : Type} {FW : FwCfg F} {PF : Platform}.
Context {SU : Surroundings dev P F}.
Context (base : Z) {PL : PlicLaws P base} (Hbase : 0 < base) (Htop : base + 0x4000000 <= 2 ^ 64).
Context {H : Type} {HO : HeapOps H} {HC : Clock} {KT : KernelText} {UM : UserMem H} {RD : Initrd} {TR : Trampoline}.
Notation board := (board dev P F).

(** The interrupt was claimed, served and completed; nothing else of the
    controller changed. *)
Record served (irq : Z) (irqs : list Z) (b b' : board) : Prop := {
  served_waiting : waiting (regs (b_plic b')) = irqs;
  served_claimed : claimed (regs (b_plic b')) = filter (fun i => i <> irq) (claimed (regs (b_plic b)));
  served_base : plic_base (b_plic b') = base;
  served_video : b_video b' = b_video b;
  served_irq : g_uart_irq b' = g_uart_irq b;
}.

Lemma interrupt_served irq irqs (b : board) u : plic_base (b_plic b) = base -> waiting (regs (b_plic b)) = irq :: irqs ->
  g_uart_irq b = irq -> handle_uart_interrupt uart_fuel (b_uart b) = Some u ->
  exists b', handle_external_interrupt b = Some b' /\ served irq irqs b b' /\ b_uart b' = u.
Proof.
  intros Hb Hw Hirq Hu. unfold handle_external_interrupt.
  destruct (plic_claim_spec base Hbase Htop irq irqs (b_plic b) Hb Hw) as (d & -> & Hi & Hwd & Hcd).
  destruct (Z.eqb_spec irq 0); [lia |]. destruct (Z.ltb_spec 0 irq); [| lia]. cbn [g_uart_irq set_plic b_uart].
  destruct (Z.eqb_spec irq (g_uart_irq b)); [| done]. rewrite Hu. cbn [mbind option_bind b_plic set_uart set_plic].
  destruct (plic_complete_spec base Hbase Htop irq (set_regs d (b_plic b)) Hb Hi) as (d' & -> & Hwd' & Hcd').
  eexists. split; [reflexivity |]. split; [| done]. cbn [regs set_regs b_plic set_plic] in *. split; [exact (eq_trans Hwd' Hwd) | | exact Hb | done | done].
  cbn. rewrite Hcd'. cbn. rewrite Hcd. by rewrite filter_cons_False by tauto.
Qed.

(** C25: an external interrupt of the serial port is claimed, served and completed:
    the characters that had arrived are in the receive ring as far as it has room,
    none that was to be sent is lost, the controller goes on to the next source, and
    the trap ends with the tasks and the signals. *)
Theorem uart_interrupt_served fuel other rg irqs (k : kernel H) (b : board) qr qt :
  get_reg rg reg_cause k = Some (INTERRUPT + 9) ->
  plic_base (b_plic b) = base -> waiting (regs (b_plic b)) = g_uart_irq b :: irqs ->
  ring_ok (rx_ring (b_uart b)) qr -> ring_ok (tx_ring (b_uart b)) qt ->
  (UartProps.pending (device (b_uart b)) + length (incoming (device (b_uart b))) + 2048 < uart_fuel)%nat ->
  exists b' qt', do_trap fuel other rg k b = (k' ← finish_interrupt fuel other rg k; Some (None, k', b')) /\
    served (g_uart_irq b) irqs b b' /\
    UartProps.pending (device (b_uart b')) = O /\ ring_ok (tx_ring (b_uart b')) qt' /\
    sent (device (b_uart b')) ++ qt' = sent (device (b_uart b)) ++ qt /\
    (UartProps.pending (device (b_uart b)) <> O ->
       ring_ok (rx_ring (b_uart b')) (take 2047 (qr ++ incoming (device (b_uart b)))) /\ incoming (device (b_uart b')) = []).
Proof.
  intros Hc Hb Hw Hr Ht Hf. destruct (handle_uart_interrupt_spec uart_fuel (b_uart b) qr qt Hr Ht Hf) as (u & qt' & Eu & Hp & Ht' & Hs & _ & Hin).
  destruct (interrupt_served _ irqs b u Hb Hw eq_refl Eu) as (b' & E & Hsv & <-). exists b', qt'. split_and!; try done.
  unfold do_trap. rewrite Hc. cbn [mbind option_bind].
  change (has (INTERRUPT + 9) INTERRUPT) with true. change (Z.land (INTERRUPT + 9) (INTERRUPT - 1)) with 9. cbv iota. cbn [Z.eqb Pos.eqb].
  cbn [external_interrupt board_interrupts]. rewrite E. reflexivity.
Qed.

(** A claim that answers no source hangs. *)
Lemma no_source_hangs (b : board) : plic_base (b_plic b) = base -> waiting (regs (b_plic b)) = [] -> handle_external_interrupt b = None.
Proof.
  intros Hb Hw. unfold handle_external_interrupt, plic_claim. rewrite Hb. destruct (Z.eqb_spec base 0); [lia |].
  rewrite (PLIC_CLAIM_reg base Hbase Htop). pose proof (claim_none (regs (b_plic b)) Hw) as E. destruct (plic_load _ _) as [v d]. cbn in E. by subst v.
Qed.

End Interrupts.

(** A write to the frame buffer file past its end leaves it. *)
Lemma fb_write_overrun {dev P F : Type} {PF : Platform} pos bs (b : board dev P F) :
  0 <= pos -> pos < FB_SIZE -> FB_SIZE < pos + Z.of_nat (length bs) -> board_fb_write pos bs b = None.
Proof.
  intros Hp Hps Hl. unfold board_fb_write, fb_copy, video_get_base. destruct (FB_BASE_range) as (Hb & Ht). rewrite u64_small by lia.
  destruct (Z.ltb_spec (FB_BASE + pos) FB_BASE); [done |]. cbn [orb]. by destruct (Z.ltb_spec (FB_BASE + FB_SIZE) (FB_BASE + pos + Z.of_nat (length bs))); [| lia].
Qed.

(** ** A concrete board, used by the witnesses *)

Module ToyBoard.
Import UartProps.ToyUart Plic.ToyPlic VideoProps.ToyFwCfg.

Notation board := (board UartProps.ToyUart.toy Plic.ToyPlic.toy fw_state).

#[export] Instance toy_platform : Platform := { board_ := QEMU }.

(** Waiting sends one character; nothing is received meanwhile. *)
Definition toy_wfi (u : uart UartProps.ToyUart.toy) : uart UartProps.ToyUart.toy :=
  match ringbuf_pop (tx_ring u) with
  | Some (Some c, r) => set_device (write_THR c (device u)) (set_tx r u)
  | _ => u
  end.

#[export] Instance toy_surroundings : Surroundings UartProps.ToyUart.toy Plic.ToyPlic.toy fw_state :=
  { wfi := toy_wfi; elapse b := b; uart_fuel := 3000; patience := 0 }.

Lemma toy_wait_sends : wait_sends.
Proof.
  intros u q (Ha & Hs & Hr) Hq. destruct (ring_pop_ok _ _ Hr) as (r & E & Hr'). destruct q as [| c q]; [done |].
  cbn [wfi toy_surroundings]. unfold toy_wfi. rewrite E. exists q. split_and!; [done | | cbn; lia]. cbn. by rewrite <- app_assoc.
Qed.

Definition toy_board (d : UartProps.ToyUart.toy) (qs : list Z) : board :=
  Board _ _ _ (toy_uart d) (Plic_ BASE 0 (Plic.ToyPlic.Toy ∅ qs [])) (Video ∅ toy_state []) 10.

#[local] Instance no_user : UserMem unit := { user_string _ _ := None; user_bytes _ n _ := Some (replicate (Z.to_nat n) 10); user_store _ _ _ := None }.

Definition toy_kernel (m : gmap Z Z) : kernel unit := Kernel tt m vfs0 ∅ 0 0 0 (Context_ 0 0 []) 0 0 [] [] 0 0 1 0.

Lemma console_write_in_order_witness :
  exists u q', sys_uart_write 0 2000 (toy_kernel ∅) (toy_board (UartProps.ToyUart.Toy [62] [] 0) []) =
      Some (2000, toy_kernel ∅, set_uart u (toy_board (UartProps.ToyUart.Toy [62] [] 0) [])) /\
    toy_sent (device u) ++ q' = 62 :: (replicate 2000 10 ≫= onlcr).
Proof.
  destruct (console_write_in_order toy_wait_sends ltac:(cbn; lia) 0 2000 (toy_kernel ∅) (toy_board (UartProps.ToyUart.Toy [62] [] 0) [])
    (replicate 2000 10) []) as (u & q' & E & _ & Es).
  - split; [reflexivity | split; [reflexivity | apply empty_ring_ok]].
  - reflexivity.
  - reflexivity.
  - exists u, q'. split; [exact E | exact Es].
Defined.

Definition typed : board := set_uart (set_rx (Ringbuf ([104; 105; 13] ++ replicate 2045 0) 3 0) (b_uart (toy_board (UartProps.ToyUart.Toy [] [] 0) []))) (toy_board (UartProps.ToyUart.Toy [] [] 0) []).

Lemma typed_received : received typed [104; 105; 13].
Proof.
  split; [reflexivity | split; [| repeat constructor; lia]]. split; [reflexivity | by split | by split | reflexivity |].
  intros [| [| [| i]]] E; [reflexivity.. | cbn in E; lia].
Qed.

Lemma devfs_read_received_witness :
  exists b', devfs_read 0 10 (VState tt vfs0) typed = Some (3, [104; 105; 10], VState tt vfs0, b') /\ received b' [].
Proof. destruct (devfs_read_received 0 0 10 (VState tt vfs0) typed [104; 105; 13]) as (b' & E & Hr);
  [constructor; apply typed_received | apply le_n | split; reflexivity | exists b'; split; [exact E | exact Hr]]. Defined.

#[local] Instance no_heap : HeapOps unit := { h_allocate _ _ := None; h_free _ _ := None; h_inc_ref _ _ := None; h_get_ref _ _ := None }.
#[local] Instance toy_clock : Clock := { time_at i := Z.of_nat i }.
#[local] Instance toy_text : KernelText := { kernel_thread_wrapper := 0; idle_entry := 0; ret_from_exception := 0 }.
#[local] Instance toy_trampoline : Trampoline := { sigreturn_stub := [] }.
#[local] Instance toy_initrd : Initrd := { initrd_start := 0; initrd_bytes := []; initrd_files := 0 }.

Definition trap_frame : Z := 0xffffffc080016000.
Definition interrupted : kernel unit := toy_kernel {[word trap_frame reg_cause := INTERRUPT + 9]}.

Lemma uart_interrupt_served_witness :
  exists b', do_trap 0 (fun _ _ k => Some k) trap_frame interrupted (toy_board (UartProps.ToyUart.Toy [] [72; 105] 1) [10; 33]) = Some (None, interrupted, b') /\
    waiting (regs (b_plic b')) = [33] /\ claimed (regs (b_plic b')) = [] /\ ring_ok (rx_ring (b_uart b')) [72; 105].
Proof.
  destruct (uart_interrupt_served BASE eq_refl ltac:(discriminate) 0 (fun _ _ k => Some k) trap_frame [33] interrupted
    (toy_board (UartProps.ToyUart.Toy [] [72; 105] 1) [10; 33]) [] []) as (b' & qt & E & Hs & _ & _ & _ & Hin).
  - reflexivity.
  - reflexivity.
  - reflexivity.
  - apply empty_ring_ok.
  - apply empty_ring_ok.
  - cbn. lia.
  - exists b'. split; [exact E |]. split; [exact (served_waiting _ _ _ _ _ Hs) |]. split; [exact (served_claimed _ _ _ _ _ Hs) |].
    apply Hin. discriminate.
Defined.

End ToyBoard.
