(* ===== verification/Main.v ===== *)
(** * The shell: [main.c]

    The commands typed on the console and what they do to the kernel.  Strings
    and arguments that the shell puts on the heap are in stores by address, like
    the other objects.  While the shell waits, the other threads are the
    parameter [others]. *)

From Stdlib Require Import String.
From S2P Require Import Prelude Config Heap CString VfsData Tmpfs Ramfs Vfs Cpio Stdio Uart Sbi Vma Mmu Kernel Sched Timer Thread Syscall Exception Board.
#[local] Open Scope Z_scope.
#[local] Open Scope list_scope.

Definition CRLF : list Z := [13; 10].

(** ** Commands *)

Inductive command :=
  | Help | Hello | VfsTest | Info | Ls | Cat (filename : list Z) | CatUsage | Exec (filename : list Z) | ExecUsage
  | SetTimeout (sec : Z) (message : list Z) | SetTimeoutUsage | Signal | Kill (pid : Z) | Unknown.

Fixpoint atoi_loop (str : list Z) (res : Z) : option Z :=
  match str with
  | [] => None
  | c :: str => if is_digit c then atoi_loop str (i32 (i32 (res * 10) + (c - 48))) else Some res
  end.
Definition my_atoi (str : list Z) : option Z := atoi_loop str 0.

(** [while ( *args == ' ') args++;] and the same for digits. *)
Fixpoint skip_spaces (args : list Z) : option (list Z) :=
  match args with [] => None | c :: rest => if c =? 32 then skip_spaces rest else Some args end.
Fixpoint skip_digits (args : list Z) : option (list Z) :=
  match args with [] => None | c :: rest => if is_digit c then skip_digits rest else Some args end.

(** [args] is what follows "setTimeout ". *)
Definition set_timeout_args (args : list Z) : option command :=
  args ← skip_spaces args;
  c ← list.head args;
  if negb (is_digit c) then Some SetTimeoutUsage else
  sec ← my_atoi args;
  args ← skip_digits args;
  args ← skip_spaces args;
  c ← list.head args;
  if c =? 0 then Some SetTimeoutUsage else
  len ← strlen args; Some (SetTimeout sec (take (Z.to_nat len) args)).

(** [strcmp(buffer, s) == 0], [strncmp(buffer, s, n) == 0] of a literal. *)
Definition is_command (buffer : list Z) (s : string) : option bool := z ← strcmp buffer (cstr (chars s) []); Some (z =? 0).
Definition has_prefix (buffer : list Z) (s : string) : option bool :=
  z ← strncmp buffer (cstr (chars s) []) (length (chars s)); Some (z =? 0).

(** [buffer[0] == s[0] && buffer[1] == s[1] ...] *)
Fixpoint starts_with (buffer s : list Z) : option bool :=
  match s with
  | [] => Some true
  | c :: s => b ← list.head buffer; if b =? c then starts_with (list.tail buffer) s else Some false
  end.

(** The string from [n] on. *)
Definition rest_of (buffer : list Z) (n : nat) : option (list Z) :=
  len ← strlen (drop n buffer); Some (take (Z.to_nat len) (drop n buffer)).

(** [buffer] is the line with its NUL. *)
Definition command_of (buffer : list Z) : option command :=
  b ← is_command buffer "help"; if (b : bool) then Some Help else
  b ← is_command buffer "hello"; if (b : bool) then Some Hello else
  b ← is_command buffer "vfs_test"; if (b : bool) then Some VfsTest else
  b ← is_command buffer "info"; if (b : bool) then Some Info else
  b ← is_command buffer "ls"; if (b : bool) then Some Ls else
  b ← starts_with buffer (chars "cat");
  if (b : bool) then
    c ← buffer !! 3%nat;
    if c =? 32 then f ← rest_of buffer 4; Some (Cat f) else Some CatUsage
  else
  b ← starts_with buffer (chars "exec");
  if (b : bool) then
    c ← buffer !! 4%nat;
    if c =? 32 then f ← rest_of buffer 5; Some (Exec f) else Some ExecUsage
  else
  b ← has_prefix buffer "setTimeout ";
  if (b : bool) then set_timeout_args (drop 11 buffer) else
  b ← is_command buffer "signal"; if (b : bool) then Some Signal else
  b ← has_prefix buffer "kill ";
  if (b : bool) then pid ← my_atoi (drop 5 buffer); Some (Kill pid) else Some Unknown.

(** ** State *)

Record timeout_args := TimeoutArgs { message : Z; duration : Z; executed_time : Z }.
Definition SIZEOF_TIMEOUT_ARGS : Z := 24.

(** The strings and the arguments of [setTimeout] on the heap. *)
Record shell := Shell { strings : gmap Z (list Z); timeouts : gmap Z timeout_args }.

Record machine {H D : Type} := Machine { m_shell : shell; m_kernel : kernel H; m_dev : D }.
Arguments machine : clear implicits.

(** The blocking [uart_getc]. *)
Class Console (D : Type) := { con_getc : D -> option (Z * D) }.

(** The addresses of the functions that the shell hands to the kernel. *)
Class MainText := { user_program_loader_entry : Z; timeout_callback_entry : Z; shell_thread_entry : Z }.

(** What the other threads do until this one runs again, and for how many rounds
    the shell waits for a program at most. *)
Class OtherThreads (H D : Type) := { others : machine H D -> option (machine H D); rounds : nat }.

Section Main.
Context {H : Type} {HO : HeapOps H} {HC : Clock} {KT : KernelText} {UM : UserMem H} {RD : Initrd}.
Context {D : Type} {IO : DevIO D} {DI : Display D} {CO : Console D} {SB : Firmware D} {MT : MainText} {OT : OtherThreads H D}.
Notation kernel := (kernel H).
Notation machine := (machine H D).

Definition set_shell (s : shell) (m : machine) : machine := Machine _ _ s (m_kernel m) (m_dev m).
Definition set_kernel (k : kernel) (m : machine) : machine := Machine _ _ (m_shell m) k (m_dev m).
Definition set_dev (d : D) (m : machine) : machine := Machine _ _ (m_shell m) (m_kernel m) d.

Definition put_string_at (p : Z) (s : list Z) (m : machine) : machine :=
  set_shell (Shell (<[p := s]> (strings (m_shell m))) (timeouts (m_shell m))) m.
Definition put_timeout (p : Z) (t : timeout_args) (m : machine) : machine :=
  set_shell (Shell (strings (m_shell m)) (<[p := t]> (timeouts (m_shell m)))) m.

(** [free] of a string or of arguments: what was there is gone. *)
Definition free_at (p : Z) (m : machine) : option machine :=
  k ← kfree p (m_kernel m);
  Some (Machine _ _ (Shell (delete p (strings (m_shell m))) (delete p (timeouts (m_shell m)))) k (m_dev m)).

Definition malloc (sz : Z) (m : machine) : option (Z * machine) :=
  '(p, k) ← kalloc sz (m_kernel m); Some (p, set_kernel k m).

Definition say (fmt : list Z) (args : list arg) (m : machine) : option machine :=
  d ← kprintf fmt args (m_dev m); Some (set_dev d m).
Definition say_line (s : string) (m : machine) : option machine := say (line s) [] m.

(** A string argument. *)
Definition text (s : list Z) : arg := Str (Some (cstr s [])).

(** ** [setTimeout] *)

Definition timeout_text : list Z :=
  CRLF ++ chars "[%lu] setTimeout: %s (Command executed at: %lu, duration: %d seconds)" ++ CRLF ++ chars "# ".

(** The callback of the timer. *)
Definition timeout_callback (arg : Z) (m : machine) : option machine :=
  targs ← timeouts (m_shell m) !! arg;
  '(current_time, k) ← get_time_in_seconds (m_kernel m);
  let m := set_kernel k m in
  msg ← strings (m_shell m) !! message targs;
  m ← say timeout_text [Word current_time; text msg; Word (executed_time targs); Word (duration targs)] m;
  m ← free_at (message targs) m;
  free_at arg m.

Definition set_timeout (sec : Z) (msg : list Z) (m : machine) : option machine :=
  let len := i32 (Z.of_nat (length msg)) in
  '(msg_copy, m) ← malloc (u64 (i32 (len + 1))) m;
  if msg_copy =? 0 then say_line "Failed to allocate memory for setTimeout" m else
  let m := put_string_at msg_copy msg m in
  '(targs, m) ← malloc SIZEOF_TIMEOUT_ARGS m;
  if targs =? 0 then m ← free_at msg_copy m; say_line "Failed to allocate memory for setTimeout arguments" m else
  '(now, k) ← get_time_in_seconds (m_kernel m);
  let m := put_timeout targs (TimeoutArgs msg_copy sec now) (set_kernel k m) in
  k ← add_timer (CB_other timeout_callback_entry) targs sec (m_kernel m);
  Some (set_kernel k m).

(** ** [exec] *)

(** The thread of a program: a failure is the only way back. *)
Definition user_program_loader (m : machine) : option (exec_result * machine) :=
  let k := m_kernel m in
  filename ← (if tp k =? 0 then Some 0 else t ← threads k !! tp k; Some (t_arg t));
  if filename =? 0 then m ← say_line "No program specified for exec wrapper" m; Some (ExecFailed, m) else
  name ← strings (m_shell m) !! filename;
  '(r, k) ← exec name k;
  let m := set_kernel k m in
  match r with
  | ExecFailed =>
      m ← say (chars "Failed to find %s in initramfs" ++ CRLF) [text name] m;
      m ← free_at filename m; Some (ExecFailed, m)
  | UserMode epc sp => Some (UserMode epc sp, m)
  end.

(** [while (t->status is neither TERMINATED nor ABORTED) schedule();] *)
Fixpoint wait_program (fuel : nat) (t : Z) (m : machine) : option machine :=
  th ← threads (m_kernel m) !! t;
  if zombie (t_status th) then Some m else
  match fuel with
  | O => None
  | S fuel =>
      '(sw, k) ← schedule (m_kernel m);
      m ← (if (sw : bool) then others (set_kernel k m) else Some (set_kernel k m));
      wait_program fuel t m
  end.

Definition launched_text : list Z := chars "Launched %s as PID: %d" ++ CRLF.

Definition launch (filename : list Z) (m : machine) : option machine :=
  '(prog, m) ← malloc (Z.of_nat (length filename) + 1) m;
  if prog =? 0 then say_line "Failed to allocate memory for program name" m else
  let m := put_string_at prog filename m in
  '(t, k) ← thread_create user_program_loader_entry (m_kernel m);
  let m := set_kernel k m in
  if t =? 0 then
    m ← free_at prog m;
    name ← strings (m_shell m) !! prog;  (* read after it was freed *)
    say (chars "Failed to create thread for program %s" ++ CRLF) [text name] m
  else
    k ← upd_thread t (set_t_arg prog) (m_kernel m);
    let m := set_kernel k m in
    name ← strings (m_shell m) !! prog;
    th ← threads k !! t;
    m ← say launched_text [text name; Word (t_pid th)] m;
    wait_program rounds t m.

(** ** The other commands *)

Definition say_lines : list string -> machine -> option machine :=
  fix go ls m := match ls with [] => Some m | l :: ls => m ← say_line l m; go ls m end.

Definition help : list string :=
  ["Avalible commands:"; "  help - show all commands."; "  hello - print Hello world."; "  info - print system info.";
   "  vfs_test - run VFS and tmpfs basic tests."; "  ls - list files in initramfs."; "  cat [file] - print file content in initramfs.";
   "  exec [file] - execute user program in U-mode."; "  setTimeout SECONDS MESSAGE - set a timeout with a message.";
   "  signal - register a signal handler."; "  kill [pid] - send SIGTERM to a process."]%string.

(** [uart_hex] of what the firmware answers. *)
Definition say_hex (label : string) (call : D -> Z * D) (m : machine) : option machine :=
  m ← say (chars label) [] m;
  let '(v, d) := call (m_dev m) in
  d ← put_all ([48; 120] ++ hex_digits 16 (u64 v)) d;
  say CRLF [] (set_dev d m).

Definition info (m : machine) : option machine :=
  m ← say_line "System information:" m;
  m ← say_hex "  OpenSBI specification version: " sbi_get_spec_version m;
  m ← say_hex "  Implementation ID: " sbi_get_impl_id m;
  say_hex "  Implementation version: " sbi_get_impl_version m.

(** The characters that the walks over the ram disk hand to [uart_putc]. *)
Definition put_out (o : list Z) (m : machine) : option machine := d ← put_all o (m_dev m); Some (set_dev d m).

Definition ls (m : machine) : option machine :=
  if initrd_start =? 0 then say_line "No initrd found" m else o ← initrd_list initrd_files initrd_bytes; put_out o m.

Definition cat (filename : list Z) (m : machine) : option machine :=
  if initrd_start =? 0 then say_line "No initrd found" m else o ← initrd_cat initrd_files initrd_bytes (cstr filename []); put_out o m.

(** True when the shell's own thread was stopped and does not come back. *)
Definition kill_command (pid : Z) (m : machine) : option (bool * machine) :=
  '(r, k) ← sys_kill pid 15 (m_kernel m);
  let m := set_kernel k m in
  match r with
  | Switch _ => Some (true, m)
  | Ret v =>
      m ← say (chars (if v =? 0 then "Sent SIGTERM to PID %d" else "Failed to send signal to PID %d") ++ CRLF) [Word pid] m;
      Some (false, m)
  end.

(** ** [vfs_test] *)

(** The calls of [src/vfs.c] on behalf of the current thread. *)
Definition on_fs {A : Type} (call : Z -> vstate H -> option (A * vstate H)) (m : machine) : option (A * machine) :=
  t ← current (m_kernel m);
  '(r, s) ← call (t_cwd t) (as_fs (m_kernel m));
  Some (r, set_kernel (with_fs (m_kernel m) s) m).

Definition open_file (path : list Z) (flags : Z) : machine -> option (Z * Z * machine) :=
  on_fs (fun cwd s => '(r, f, s) ← vfs_open cwd path flags s; Some (r, f, s)).
Definition close_file (f : Z) (m : machine) : option machine := '(_, m) ← on_fs (fun _ => vfs_close f) m; Some m.
Definition make_dir (path : list Z) (m : machine) : option machine := '(_, m) ← on_fs (fun cwd => vfs_mkdir cwd path) m; Some m.
Definition find_node (path : list Z) : machine -> option (option Z * machine) := on_fs (fun cwd => vfs_lookup cwd path).
Definition mount_fs (target fs : list Z) (m : machine) : option machine :=
  '(_, m) ← on_fs (fun cwd => vfs_mount initrd_files (Some initrd_bytes) cwd target fs) m; Some m.
Definition write_text (f : Z) (s : string) (m : machine) : option machine :=
  '(_, s, d) ← vfs_write f (chars s) (Z.of_nat (length (chars s))) (as_fs (m_kernel m)) (m_dev m);
  Some (set_dev d (set_kernel (with_fs (m_kernel m) s) m)).

Definition change_dir (path : list Z) (m : machine) : option machine :=
  '(_, k) ← chdir_path path (m_kernel m); Some (set_kernel k m).
Definition open_descriptor (path : list Z) (flags : Z) (m : machine) : option (Z * machine) :=
  '(fd, k) ← open_path path flags (m_kernel m); Some (fd, set_kernel k m).
Definition close_descriptor (fd : Z) (m : machine) : option machine :=
  '(_, k) ← sys_close fd (m_kernel m); Some (set_kernel k m).

(** [char buf[100]], cleared, after a read of [n] bytes. *)
Definition read_buf (fd n : Z) (m : machine) : option (list Z * machine) :=
  '(_, bs, k, d) ← read_fd fd n (m_kernel m) (m_dev m);
  Some (bs ++ replicate (100 - length bs) 0, set_dev d (set_kernel k m)).

(** [res == 0 && target == rootfs->root] *)
Definition is_root (node : option Z) (m : machine) : option bool :=
  match node with
  | None => Some false
  | Some n => root ← root_vnode (k_vfs (m_kernel m)); Some (n =? root)
  end.

Definition say_if (b : bool) (s : string) (m : machine) : option machine := if b then say_line s m else Some m.

(** Its steps 2 to 4: relative paths, the special components, descriptors. *)
Definition vfs_test_paths (m : machine) : option machine :=
  m ← make_dir (chars "/dir1") m;
  m ← change_dir (chars "/dir1") m;
  m ← say_line "2. mkdir /dir1 and chdir to /dir1" m;
  '(res, a, m) ← open_file (chars "relative_file") O_CREAT m;
  m ← (if res =? 0 then
         m ← write_text a "Relative Path Success" m; m ← close_file a m;
         say_line "   Success: Created 'relative_file' inside /dir1 using relative path" m
       else say_line "   Fail: Could not create 'relative_file' using relative path" m);
  '(target, m) ← find_node (chars ".") m;
  m ← say_if (match target with Some _ => true | None => false end) "3. Lookup '.' success" m;
  '(target, m) ← find_node (chars "..") m;
  b ← is_root target m;
  m ← say_if b "   Lookup '..' resolved to root success" m;
  m ← change_dir (chars "/") m;
  '(res, a, m) ← open_file (chars "dir1/../test_file") 0 m;
  m ← (if res =? 0 then m ← say_line "   Lookup 'dir1/../test_file' success" m; close_file a m else Some m);
  '(fd, m) ← open_descriptor (chars "/test_file") 0 m;
  if 0 <=? fd then
    '(buf, m) ← read_buf fd 10 m;
    m ← say (chars "4. sys_open and sys_read success: '%s'" ++ CRLF) [Str (Some buf)] m;
    close_descriptor fd m
  else say_line "4. sys_open failed" m.

(** Its steps 5 and 6: a mount and the ram disk. *)
Definition vfs_test_mounts (m : machine) : option machine :=
  m ← make_dir (chars "/mnt") m;
  m ← mount_fs (chars "/mnt") (chars "tmpfs") m;
  m ← change_dir (chars "/mnt") m;
  '(target, m) ← find_node (chars "..") m;
  b ← is_root target m;
  m ← say_if b "5. Mounted tmpfs at /mnt, '..' from /mnt correctly resolved to root" m;
  m ← say_line "6. Testing /ramfs (Basic Exercise 4)" m;
  '(fd, m) ← open_descriptor (chars "/ramfs/hello.txt") 0 m;
  m ← (if 0 <=? fd then
         '(buf, m) ← read_buf fd 12 m;
         m ← say (chars "   Read /ramfs/hello.txt: '%s'" ++ CRLF) [Str (Some buf)] m;
         close_descriptor fd m
       else say_line "   Could not open /ramfs/hello.txt (might not exist in cpio, but that's okay if lookup works)" m);
  '(fd, m) ← open_descriptor (chars "/ramfs/test_write") O_CREAT m;
  m ← (if 0 <=? fd then
         m ← say_line "   Fail: Should not be able to create file in /ramfs" m; close_descriptor fd m
       else say_line "   Success: Create file in /ramfs failed as expected" m);
  say_line "--- VFS Exercise 3 Test End ---" m.

Definition vfs_test (m : machine) : option machine :=
  m ← say_line "--- VFS Exercise 3 Test Start ---" m;
  '(res, a, m) ← open_file (chars "/test_file") O_CREAT m;
  if negb (res =? 0) then say_line "vfs_open failed" m else
  m ← write_text a "Hello VFS!" m;
  m ← close_file a m;
  m ← say_line "1. Created and wrote to /test_file" m;
  m ← vfs_test_paths m;
  vfs_test_mounts m.

(** ** The shell *)

(** True when the shell does not come back. *)
Definition run_command (c : command) (buffer : list Z) (m : machine) : option (bool * machine) :=
  let stay (r : option machine) : option (bool * machine) := m ← r; Some (false, m) in
  match c with
  | Help => stay (say_lines help m)
  | Hello => stay (say_line "Hello world." m)
  | VfsTest => stay (vfs_test m)
  | Info => stay (info m)
  | Ls => stay (ls m)
  | Cat f => stay (cat f m)
  | CatUsage => stay (say_line "Usage: cat [file]" m)
  | Exec f => stay (if initrd_start =? 0 then say_line "No initrd found" m else launch f m)
  | ExecUsage => stay (say_line "Usage: exec [file]" m)
  | SetTimeout sec msg => stay (set_timeout sec msg m)
  | SetTimeoutUsage => stay (say_line "Usage: setTimeout SECONDS MESSAGE" m)
  | Signal => stay (say_line "signal command is usually for user shell." m)
  | Kill pid => kill_command pid m
  | Unknown =>
      (* the line itself is the format of this printf *)
      stay (m ← say (chars "Unknown command: ") [] m; m ← say buffer [] m;
            say (CRLF ++ chars "Use help to get commands." ++ CRLF) [] m)
  end.

(** [char buffer[256]]: the characters up to a newline, echoed; those that do not
    fit are dropped. *)
Fixpoint read_line (fuel : nat) (buffer : list Z) (m : machine) : option (list Z * machine) :=
  match fuel with
  | O => None
  | S fuel =>
      '(c, d) ← con_getc (m_dev m);
      let m := set_dev d m in
      if (c =? 10) || (c =? 13) then m ← say CRLF [] m; Some (buffer, m)
      else if Z.of_nat (length buffer) <? 255 then
        d ← dev_putc c (m_dev m); read_line fuel (buffer ++ [c]) (set_dev d m)
      else read_line fuel buffer m
  end.

(** One turn of the endless loop of [run_shell]. *)
Definition shell_round (fuel : nat) (m : machine) : option (bool * machine) :=
  m ← say (CRLF ++ chars "# ") [] m;
  '(buffer, m) ← read_line fuel [] m;
  match buffer with
  | [] => Some (false, m)
  | _ => c ← command_of (buffer ++ [0]); run_command c buffer m
  end.

(** [n] turns, or fewer when the shell is stopped. *)
Fixpoint run_shell (n fuel : nat) (m : machine) : option machine :=
  match n with
  | O => Some m
  | S n => '(gone, m) ← shell_round fuel m; if (gone : bool) then Some m else run_shell n fuel m
  end.

(** The shell's thread opens its descriptors first. *)
Definition shell_thread (n fuel : nat) (m : machine) : option machine :=
  '(_, m) ← open_descriptor (chars "/dev/uart") 0 m;
  '(_, m) ← open_descriptor (chars "/dev/uart") 0 m;
  '(_, m) ← open_descriptor (chars "/dev/uart") 0 m;
  t ← current (m_kernel m);
  m ← say (CRLF ++ chars "Starting Shell (PID: %d)..." ++ CRLF) [Word (t_pid t)] m;
  run_shell n fuel m.

End Main.

(** The console of the board. *)
#[export] Instance board_console {dev P F : Type} {DV : Device dev} {SU : Surroundings dev P F} : Console (board dev P F) := {
  con_getc b := '(c, u) ← uart_getc wfi uart_fuel (b_uart b); Some (c, set_uart u b);
}.
