(* ===== verification/MainProps.v ===== *)
(** * Properties of the shell

    The commands are read as they are spelled; [exec] makes a thread that enters
    the program it was given; [setTimeout] prints its message and leaves nothing
    behind. *)

From Stdlib Require Import String.
From S2P Require Import Prelude Config Heap CString VfsData Tmpfs Ramfs Vfs Cpio Stdio StdioProps Uart Sbi Vma Mmu PgdProps Kernel Sched SchedProps Timer TimerProps Thread Syscall Exception ThreadProps FaultProps SignalProps ForkProps Board Main.
#[local] Open Scope Z_scope.
#[local] Open Scope list_scope.

(** ** Numbers *)

Definition is_digits (ds : list Z) : Prop := Forall (fun c => is_digit c = true) ds.
Definition spaces (n : nat) : list Z := replicate n 32.

(** The next character does not satisfy [p]. *)
Definition stops (p : Z -> bool) (s : list Z) : Prop := forall c, list.head s = Some c -> p c = false.

Lemma digit_range c : is_digit c = true -> 48 <= c <= 57.
Proof. unfold is_digit. rewrite andb_true_iff, !Z.leb_le. lia. Qed.

Lemma fold_digits_grows ds : forall acc, is_digits ds -> 0 <= acc -> acc <= fold_left (fun n c => n * 10 + digit_val c) ds acc.
Proof.
  induction ds as [| c ds IH]; intros acc Hd Ha; cbn [fold_left]; [lia |]. apply list.Forall_cons in Hd as [Hc%digit_range Hd].
  unfold digit_val at 2. destruct (Z.leb_spec c 57); [| lia]. etransitivity; [| apply IH; [done | lia]]. lia.
Qed.

Lemma atoi_loop_spec ds rest : stops is_digit rest -> rest <> [] -> forall acc, is_digits ds -> 0 <= acc ->
  fold_left (fun n c => n * 10 + digit_val c) ds acc < 2 ^ 31 ->
  atoi_loop (ds ++ rest) acc = Some (fold_left (fun n c => n * 10 + digit_val c) ds acc).
Proof.
  intros Hs Hr. induction ds as [| c ds IH]; intros acc Hd Ha Hb; cbn [app atoi_loop fold_left] in *.
  - destruct rest as [| c rest]; [done |]. cbn [atoi_loop]. by rewrite (Hs c eq_refl).
  - apply list.Forall_cons in Hd as [Hc Hd]. cbn [fold_left]. rewrite Hc. apply digit_range in Hc.
    assert (Hv : digit_val c = c - 48) by (unfold digit_val; by destruct (Z.leb_spec c 57); [| lia]). rewrite Hv in *.
    pose proof (fold_digits_grows ds (acc * 10 + (c - 48)) Hd ltac:(lia)). unwrap. apply IH; (done || lia).
Qed.

Lemma my_atoi_spec ds rest : is_digits ds -> numeral 10 ds < 2 ^ 31 -> stops is_digit rest -> rest <> [] ->
  my_atoi (ds ++ rest) = Some (numeral 10 ds).
Proof. intros. by apply atoi_loop_spec. Qed.

Lemma skip_spaces_spec n rest : stops (fun c => c =? 32) rest -> rest <> [] -> skip_spaces (spaces n ++ rest) = Some rest.
Proof.
  intros Hs Hr. induction n as [| n IH]; cbn [spaces replicate app skip_spaces]; [| exact IH].
  destruct rest as [| c rest]; [done |]. cbn [skip_spaces]. by rewrite (Hs c eq_refl).
Qed.

Lemma skip_digits_spec ds rest : is_digits ds -> stops is_digit rest -> rest <> [] -> skip_digits (ds ++ rest) = Some rest.
Proof.
  intros Hd Hs Hr. induction Hd as [| c ds Hc _ IH]; cbn [app skip_digits]; [| by rewrite Hc].
  destruct rest as [| c rest]; [done |]. cbn [skip_digits]. by rewrite (Hs c eq_refl).
Qed.

(** ** Commands *)

(** How a command is spelled. *)
Inductive spells : list Z -> command -> Prop :=
  | S_help : spells (chars "help") Help
  | S_hello : spells (chars "hello") Hello
  | S_vfs_test : spells (chars "vfs_test") VfsTest
  | S_info : spells (chars "info") Info
  | S_ls : spells (chars "ls") Ls
  | S_cat f : is_str f -> spells (chars "cat " ++ f) (Cat f)
  | S_cat_usage rest : stops (fun c => c =? 32) rest -> spells (chars "cat" ++ rest) CatUsage
  | S_exec f : is_str f -> spells (chars "exec " ++ f) (Exec f)
  | S_exec_usage rest : stops (fun c => c =? 32) rest -> spells (chars "exec" ++ rest) ExecUsage
  | S_timeout a ds b c msg : is_digits ds -> ds <> [] -> numeral 10 ds < 2 ^ 31 -> is_str (c :: msg) -> c <> 32 -> (b <> O \/ is_digit c = false) ->
      spells (chars "setTimeout " ++ spaces a ++ ds ++ spaces b ++ c :: msg) (SetTimeout (numeral 10 ds) (c :: msg))
  | S_timeout_usage a rest : stops (fun c => (c =? 32) || is_digit c) rest ->
      spells (chars "setTimeout " ++ spaces a ++ rest) SetTimeoutUsage
  | S_signal : spells (chars "signal") Signal
  | S_kill ds rest : is_digits ds -> numeral 10 ds < 2 ^ 31 -> stops is_digit rest ->
      spells (chars "kill " ++ ds ++ rest) (Kill (numeral 10 ds)).

Lemma rest_of_string f n pre : length pre = n -> is_str f -> rest_of (pre ++ f ++ [0]) n = Some f.
Proof.
  intros <- Hf. unfold rest_of. rewrite drop_app_length. change (f ++ [0]) with (cstr f []). rewrite strlen_spec by done.
  cbn [mbind option_bind]. rewrite Nat2Z.id. unfold cstr. by rewrite take_app_length.
Qed.

Lemma stops_nul p s : p 0 = false -> stops p s -> stops p (s ++ [0]).
Proof. intros H0 Hs c. destruct s as [| d s]; cbn; [by intros [= <-] | apply Hs]. Qed.

Lemma set_timeout_args_spec a ds b c msg : is_digits ds -> ds <> [] -> numeral 10 ds < 2 ^ 31 -> is_str (c :: msg) -> c <> 32 ->
  (b <> O \/ is_digit c = false) ->
  set_timeout_args (spaces a ++ ds ++ spaces b ++ cstr (c :: msg) []) = Some (SetTimeout (numeral 10 ds) (c :: msg)).
Proof.
  intros Hd Hne Hb Hm Hc Hsep. unfold set_timeout_args. destruct ds as [| d ds]; [done |]. pose proof Hd as [Hd1 _]%list.Forall_cons.
  rewrite skip_spaces_spec; [| | done]; cycle 1.
  { intros x [= <-]. apply digit_range in Hd1. apply Z.eqb_neq. lia. }
  cbn [mbind option_bind]. cbn [app list.head]. cbn [mbind option_bind]. rewrite Hd1. cbn [negb].
  assert (Hst : stops is_digit (spaces b ++ cstr (c :: msg) [])).
  { intros x. destruct b as [| b]; cbn; [intros [= <-]; by destruct Hsep | by intros [= <-]]. }
  assert (Hnn : spaces b ++ cstr (c :: msg) [] <> []) by (by destruct b).
  change (d :: ds ++ spaces b ++ cstr (c :: msg) []) with ((d :: ds) ++ spaces b ++ cstr (c :: msg) []).
  rewrite my_atoi_spec by done. cbn [mbind option_bind]. rewrite skip_digits_spec by done. cbn [mbind option_bind].
  rewrite skip_spaces_spec; [| | done]; [| intros x [= <-]; by apply Z.eqb_neq].
  cbn [mbind option_bind]. assert (Eh : list.head (cstr (c :: msg) []) = Some c) by done. rewrite Eh. cbn [mbind option_bind].
  apply is_str_cons in Hm as Hm'. destruct (Z.eqb_spec c 0); [by destruct Hm' |]. rewrite strlen_spec by done. cbn [mbind option_bind].
  rewrite Nat2Z.id. do 2 f_equal. exact (take_app_length (c :: msg) [0]).
Qed.

(** The shell reads a line as the command it spells: with the file name, the
    number and the message in it, spaces skipped, and as a request for help where
    an argument is missing. *)
Theorem command_of_spelled s c : spells s c -> command_of (s ++ [0]) = Some c.
Proof.
  intros [| | | | | f Hf | rest Hs | f Hf | rest Hs | a ds b x msg Hd Hne Hb Hm Hx Hsep | a rest Hs | | ds rest Hd Hb Hs]; try reflexivity.
  - transitivity (f ← rest_of (chars "cat " ++ f ++ [0]) 4; Some (Cat f)); [reflexivity |]. by rewrite (rest_of_string f 4).
  - transitivity (c ← list.head (rest ++ [0]); if c =? 32 then f ← rest_of (chars "cat" ++ rest ++ [0]) 4; Some (Cat f) else Some CatUsage).
    { unfold command_of. by destruct rest. }
    apply (stops_nul _ _ eq_refl) in Hs. destruct (rest ++ [0]) as [| y t] eqn:E; [by destruct rest |]. cbn. by rewrite (Hs y eq_refl).
  - transitivity (f ← rest_of (chars "exec " ++ f ++ [0]) 5; Some (Exec f)); [reflexivity |]. by rewrite (rest_of_string f 5).
  - transitivity (c ← list.head (rest ++ [0]); if c =? 32 then f ← rest_of (chars "exec" ++ rest ++ [0]) 5; Some (Exec f) else Some ExecUsage).
    { unfold command_of. by destruct rest. }
    apply (stops_nul _ _ eq_refl) in Hs. destruct (rest ++ [0]) as [| y t] eqn:E; [by destruct rest |]. cbn. by rewrite (Hs y eq_refl).
  - rewrite <- !app_assoc. transitivity (set_timeout_args (spaces a ++ ds ++ spaces b ++ cstr (x :: msg) [])); [reflexivity |].
    by apply set_timeout_args_spec.
  - rewrite <- !app_assoc. transitivity (set_timeout_args (spaces a ++ rest ++ [0])); [reflexivity |]. unfold set_timeout_args.
    apply (stops_nul _ _ eq_refl) in Hs. rewrite skip_spaces_spec; [| | by destruct rest].
    + cbn [mbind option_bind]. destruct (rest ++ [0]) as [| y t] eqn:E; [by destruct rest |]. cbn [list.head mbind option_bind].
      specialize (Hs y eq_refl). apply orb_false_iff in Hs as [_ ->]. done.
    + intros y Hy. by apply Hs, orb_false_iff in Hy as [? _].
  - rewrite <- !app_assoc. transitivity (pid ← my_atoi (ds ++ rest ++ [0]); Some (Kill pid)); [reflexivity |].
    rewrite my_atoi_spec; [done | done | done | by apply stops_nul | by destruct rest].
Qed.

Lemma command_of_spelled_witness :
  command_of (chars "setTimeout  10 tea is ready" ++ [0]) = Some (SetTimeout 10 (chars "tea is ready")).
Proof.
  apply (command_of_spelled (chars "setTimeout  10 tea is ready")).
  apply (S_timeout 1 (chars "10") 1 116 (chars "ea is ready")); [repeat constructor | discriminate | reflexivity | repeat constructor; discriminate | discriminate | left; discriminate].
Defined.

(** A number that does not fit wraps: this kills thread 2. *)
Lemma atoi_wraps : command_of (chars "kill 4294967298" ++ [0]) = Some (Kill 2).
Proof. vm_compute. reflexivity. Qed.

(** ** Creating a thread *)

Section Create.
Context {H : Type} {HO : HeapOps H} {HS : HeapSpec H} {KT : KernelText}.
Notation kernel := (kernel H).
Implicit Types (k : kernel) (mm : gmap Z (Z * Z)).

(** A thread runs, and every thread is a live object of the heap. *)
Record create_case k (xs : list Z) (c : thread) mm : Prop := {
  cc_sched : sched_ok k xs;
  cc_current : threads k !! tp k = Some c;
  cc_owns : owns (k_heap k) mm;
  cc_files : shareable (t_fdt c) (k_vfs k);
  cc_threads x u : threads k !! x = Some u -> is_Some (mm !! x);
}.

(** The new thread [t] at [p]: ready to enter [fn], with the directories and the
    open files of its creator, an empty address space and no signals. *)
Record created k (xs : list Z) (c : thread) mm (fn : Z) k' (p : Z) (t : thread) : Prop := {
  ct_fresh : mm !! p = None /\ threads k !! p = None /\ p <> 0;
  ct_thread : threads k' !! p = Some t;
  ct_queue : exists xs', sched_ok k' xs' /\ xs' ≡ₚ p :: xs;
  ct_run : t_entry_func t = fn /\ t_status t = THREAD_READY /\ t_pid t = nr_threads k /\ t_parent t = 0 /\
    ra (t_context t) = kernel_thread_wrapper /\ sp (t_context t) = t_kernel_stack t ⊞ KERNEL_STACK_SIZE;
  ct_shared : t_fdt t = t_fdt c /\ t_cwd t = t_cwd c /\ t_root t = t_root c;
  ct_empty : t_vmas t = [] /\ t_pgd t = kernel_pgd k /\ t_sigpending t = 0 /\ t_handling t = 0;
  ct_stack : t_kernel_stack t = 0 \/ mm !! t_kernel_stack t = None;
  ct_files : shared_files (t_fdt c) (k_vfs k) (k_vfs k');
  ct_others x u : threads k !! x = Some u -> exists u', threads k' !! x = Some u' /\ linked u u';
  ct_rest : k_mem k' = k_mem k /\ tp k' = tp k /\ nr_threads k' = i32 (nr_threads k + 1) /\ timer_list k' = timer_list k /\
    task_queue k' = task_queue k /\ reads k' = reads k /\ time_freq k' = time_freq k;
  ct_heap : exists mm', owns (k_heap k') mm' /\ mm ⊆ mm' /\ is_Some (mm' !! p);
}.

(** [thread_create] answers NULL with nothing changed when there is no memory, or a thread that is in
    the queue, ready to enter the function it was given, and shares the open files of
    its creator; all other threads keep their places. *)
Lemma thread_create_spec k xs c mm fn : create_case k xs c mm ->
  (thread_create fn k = Some (0, k) /\ h_allocate SIZEOF_THREAD (k_heap k) = Some (0, k_heap k)) \/
  exists k' p t, thread_create fn k = Some (p, k') /\ created k xs c mm fn k' p t.
Proof.
  intros []. assert (Htp : tp k <> 0) by (intros E; apply (so_nonnull _ _ cc_sched0); rewrite E; by left).
  unfold thread_create.
  destruct (owns_allocate _ _ SIZEOF_THREAD cc_owns0) as [E | (p & h1 & n1 & E & _ & Hp & Ho1)]; [by vm_compute | |].
  { left. split; [| exact E]. rewrite (kalloc_heap _ _ _ _ E). by destruct k. }
  rewrite (kalloc_heap _ _ _ _ E). cbn [mbind option_bind].
  destruct (owns_bounds _ _ p n1 1 Ho1) as (Hp0 & _); [by rewrite lookup_insert_eq |]. destruct (Z.eqb_spec p 0); [lia |].
  destruct (queue_fresh k xs mm p cc_sched0 cc_threads0 Hp) as [Hnq Hnt].
  assert (Hst : exists stack h2 mm2, h_allocate KERNEL_STACK_SIZE h1 = Some (stack, h2) /\ owns h2 mm2 /\ <[p := (n1, 1)]> mm ⊆ mm2 /\
    (stack = 0 \/ mm !! stack = None)).
  { destruct (owns_allocate _ _ KERNEL_STACK_SIZE Ho1) as [E2 | (st & h2 & n2 & E2 & _ & Hs & Ho2)]; [by vm_compute | |].
    - exists 0, h1, (<[p := (n1, 1)]> mm). split_and!; [done | done | done | by left].
    - exists st, h2, (<[st := (n2, 1)]> (<[p := (n1, 1)]> mm)). split_and!; [done | done | by apply insert_subseteq | right; by apply lookup_insert_None in Hs as [? _]]. }
  destruct Hst as (stack & h2 & mm2 & E2 & Ho2 & HM & Hs).
  set (k1 := set_nr_threads (i32 (nr_threads k + 1)) (set_k_heap h1 k)).
  match goal with |- context [kalloc KERNEL_STACK_SIZE ?x] => change x with k1 end. rewrite (kalloc_heap _ k1 _ _ E2). cbn [mbind option_bind]. change (tp (set_k_heap h2 k1)) with (tp k). destruct (Z.eqb_spec (tp k) 0); [done |].
  change (threads (set_k_heap h2 k1)) with (threads k). rewrite cc_current0. cbn [mbind option_bind].
  destruct (share_files_spec (t_fdt c) (k_vfs k) cc_files0) as (v & Ev & Hv). change (k_vfs (set_k_heap h2 k1)) with (k_vfs k). rewrite Ev. cbn [mbind option_bind].
  set (k2 := set_k_vfs v (set_k_heap h2 k1)). set (t := Thread _ _ _ _ _ _ _ _ _ _ _ _ _ _ _ _ _ _ _ _ _ _ _ _).
  assert (Hs2 : sched_ok (put_thread p t k2) xs).
  { apply sched_ok_put; [| exact Hnq]. exact (sched_ok_same k k2 xs eq_refl eq_refl eq_refl eq_refl eq_refl cc_sched0). }
  assert (Hpt : threads (put_thread p t k2) !! p = Some t) by apply lookup_insert_eq.
  destruct (enqueue_ok (put_thread p t k2) xs p t Hs2 Hpt Hnq ltac:(lia) ltac:(discriminate)) as (ths & xs' & E3 & Hsk & Hperm & _ & Hl).
  rewrite E3. cbn [mbind option_bind]. right. destruct (Hl p t Hpt) as (t' & Ht' & Hlink).
  exists (set_threads ths (put_thread p t k2)), p, t'. split; [reflexivity |]. rewrite Hlink.
  split; [done | exact (eq_trans Ht' (f_equal Some Hlink)) | by exists xs' | done | done | done | exact Hs | exact Hv | | done | ].
  - intros x u Hx. assert (x <> p) by congruence. apply (Hl x u). cbn [put_thread threads set_threads]. by rewrite lookup_insert_ne.
  - exists mm2. split_and!; [exact Ho2 | etrans; [by apply (insert_subseteq _ p (n1, 1)) | exact HM] |].
    eexists. eapply lookup_weaken; [| exact HM]. apply lookup_insert_eq.
Qed.

End Create.

(** ** Programs *)

Section Shell.
Context {H : Type} {HO : HeapOps H} {HS : HeapSpec H} {HC : Clock} {KT : KernelText} {UM : UserMem H} {RD : Initrd}.
Context {D : Type} {IO : DevIO D} {DI : Display D} {CO : Console D} {SB : Firmware D} {MT : MainText} {OT : OtherThreads H D}.
Notation kernel := (kernel H).
Notation machine := (machine H D).
Implicit Types (k : kernel) (m : machine) (mm : gmap Z (Z * Z)).

Lemma malloc_spec m mm sz : owns (k_heap (m_kernel m)) mm -> 0 < sz <= MAX_ALLOC_SIZE ->
  (malloc sz m = Some (0, m) /\ h_allocate sz (k_heap (m_kernel m)) = Some (0, k_heap (m_kernel m))) \/
  exists p h n, malloc sz m = Some (p, set_kernel (set_k_heap h (m_kernel m)) m) /\ h_allocate sz (k_heap (m_kernel m)) = Some (p, h) /\ p <> 0 /\ sz <= n /\ mm !! p = None /\ owns h (<[p := (n, 1)]> mm).
Proof.
  intros Ho Hsz. unfold malloc. destruct (kalloc_spec (m_kernel m) mm sz Ho Hsz) as [[-> Ea] | (p & h & n & E & ? & ? & ? & ?)].
  - left. split; [| exact Ea]. cbn. by destruct m.
  - right. pose proof (kalloc_answers _ _ _ _ E) as Ea. rewrite E. by exists p, h, n.
Qed.

Lemma free_at_spec p m mm n : owns (k_heap (m_kernel m)) mm -> mm !! p = Some (n, 1) ->
  exists h, free_at p m = Some (Machine _ _ (Shell (delete p (strings (m_shell m))) (delete p (timeouts (m_shell m)))) (set_k_heap h (m_kernel m)) (m_dev m)) /\
    owns h (delete p mm).
Proof.
  intros Ho Hp. destruct (owns_free _ _ _ _ Ho Hp) as (h & E & Ho'). exists h. split; [| done]. unfold free_at. by rewrite (kfree_heap _ _ _ E).
Qed.

(** More heap keeps a case of thread creation. *)
Lemma create_case_heap k xs c mm h mm' : create_case k xs c mm -> owns h mm' -> mm ⊆ mm' -> create_case (set_k_heap h k) xs c mm'.
Proof.
  intros [] Ho HM. split; [| done | done | done |].
  - exact (sched_ok_same k (set_k_heap h k) xs eq_refl eq_refl eq_refl eq_refl eq_refl cc_sched0).
  - intros x u Hx. destruct (cc_threads0 x u Hx) as [y Hy]. exists y. by eapply lookup_weaken.
Qed.

Lemma sched_ok_arg k xs t th arg : sched_ok k xs -> threads k !! t = Some th -> sched_ok (put_thread t (set_t_arg arg th) k) xs.
Proof.
  intros Hs Ht. apply (sched_ok_map k xs _ (fun x u => if decide (x = t) then set_t_arg arg u else u) Hs).
  - intros x. destruct (decide (x = t)) as [-> | Hx]; [by rewrite lookup_insert_eq, Ht |].
    rewrite lookup_insert_ne by done. by destruct (threads k !! x).
  - intros x u. by case_decide.
  - intros x u. by case_decide.
Qed.

(** The thread [t] was made for the file [f]. *)
Record launched m (xs : list Z) mm (f : list Z) m1 (t : Z) (th : thread) : Prop := {
  la_thread : threads (m_kernel m1) !! t = Some th /\ mm !! t = None;
  la_run : t_entry_func th = user_program_loader_entry /\ t_status th = THREAD_READY /\ t_pid th = nr_threads (m_kernel m);
  la_name : strings (m_shell m1) !! t_arg th = Some f /\ t_arg th <> 0 /\ mm !! t_arg th = None;
  la_queue : exists xs', sched_ok (m_kernel m1) xs' /\ xs' ≡ₚ t :: xs;
  la_others x u : threads (m_kernel m) !! x = Some u -> exists u', threads (m_kernel m1) !! x = Some u' /\ linked u u';
  la_rest : m_dev m1 = m_dev m /\ timeouts (m_shell m1) = timeouts (m_shell m) /\
    forall p, p <> t_arg th -> strings (m_shell m1) !! p = strings (m_shell m) !! p;
}.

(** No memory for the name of a program, or none for its thread once the name has its copy. *)
Definition no_name m (f : list Z) : Prop :=
  h_allocate (Z.of_nat (length f) + 1) (k_heap (m_kernel m)) = Some (0, k_heap (m_kernel m)).
Definition no_thread m (f : list Z) k : Prop :=
  exists p h, h_allocate (Z.of_nat (length f) + 1) (k_heap (m_kernel m)) = Some (p, h) /\ k = set_k_heap h (m_kernel m) /\
    h_allocate SIZEOF_THREAD h = Some (0, h).

(** The thread enters the program whose name it finds in its argument. *)
Lemma loader_enters m t th f epc sp k : tp (m_kernel m) = t -> t <> 0 -> threads (m_kernel m) !! t = Some th -> t_arg th <> 0 ->
  strings (m_shell m) !! t_arg th = Some f -> exec f (m_kernel m) = Some (UserMode epc sp, k) ->
  user_program_loader m = Some (UserMode epc sp, set_kernel k m).
Proof.
  intros Ht H0 Hth Ha Hs He. unfold user_program_loader. rewrite Ht. destruct (Z.eqb_spec t 0); [done |]. rewrite Hth. cbn [mbind option_bind].
  destruct (Z.eqb_spec (t_arg th) 0); [done |]. rewrite Hs. cbn [mbind option_bind]. rewrite He. done.
Qed.

Lemma launch_spec m xs c mm f : create_case (m_kernel m) xs c mm -> Z.of_nat (length f) + 1 <= MAX_ALLOC_SIZE ->
  (no_name m f /\ launch f m = say_line "Failed to allocate memory for program name" m) \/
  (exists k, no_thread m f k /\ thread_create user_program_loader_entry k = Some (0, k) /\ launch f m = None) \/
  exists m1 t th, launched m xs mm f m1 t th /\
    launch f m = (m2 ← say launched_text [text f; Word (t_pid th)] m1; wait_program rounds t m2).
Proof.
  intros Hcc Hl. unfold launch. pose proof (cc_owns _ _ _ _ Hcc) as Ho.
  destruct (malloc_spec m mm (Z.of_nat (length f) + 1) Ho ltac:(lia)) as [[-> Ea] | (p & h & n & -> & Ea & Hp0 & _ & Hp & Ho1)]; cbn [mbind option_bind]; [by left | right].
  destruct (Z.eqb_spec p 0); [done |]. set (k1 := set_k_heap h (m_kernel m)).
  assert (Hcc1 : create_case k1 xs c (<[p := (n, 1)]> mm)) by (apply (create_case_heap _ _ _ mm); [done | done | by apply insert_subseteq]).
  change (m_kernel (put_string_at p f (set_kernel k1 m))) with k1.
  destruct (thread_create_spec k1 xs c _ user_program_loader_entry Hcc1) as [[E En] | (k2 & t & th & E & Hct)]; rewrite E; cbn [mbind option_bind].
  - left. exists k1. split; [by exists p, h |]. split; [exact E |]. cbn [Z.eqb]. set (m1 := set_kernel k1 (put_string_at p f (set_kernel k1 m))).
    assert (Hop : <[p := (n, 1)]> mm !! p = Some (n, 1)) by apply lookup_insert_eq.
    destruct (free_at_spec p m1 _ n Ho1 Hop) as (h' & -> & _). cbn [mbind option_bind m_shell strings]. by rewrite lookup_delete_eq.
  - right. destruct (ct_fresh _ _ _ _ _ _ _ _ Hct) as ([Hmt Hpt]%lookup_insert_None & _ & Ht0). destruct (Z.eqb_spec t 0); [done |].
    cbn [m_kernel set_kernel]. pose proof (ct_thread _ _ _ _ _ _ _ _ Hct) as Hth. rewrite (upd_lookup k2 t th) by exact Hth. cbn [mbind option_bind].
    cbn [m_shell set_kernel put_string_at set_shell strings threads set_threads]. rewrite !lookup_insert_eq. cbn [mbind option_bind].
    eexists _, t, (set_t_arg p th). split; [| reflexivity].
    destruct (ct_queue _ _ _ _ _ _ _ _ Hct) as (xs' & Hs & Hperm), (ct_run _ _ _ _ _ _ _ _ Hct) as (Hf & Hst & Hpid & _).
    split; cbn [m_kernel set_kernel m_shell set_shell strings timeouts threads set_threads m_dev].
    + split; [apply lookup_insert_eq | done].
    + by split_and!.
    + split_and!; [apply lookup_insert_eq | done | done].
    + exists xs'. split; [by apply sched_ok_arg | done].
    + intros x u Hx. destruct (ct_others _ _ _ _ _ _ _ _ Hct x u Hx) as (u' & Hu' & Hl').
      exists u'. split; [| done]. rewrite lookup_insert_ne; [done |]. intros <-. destruct (cc_threads _ _ _ _ Hcc t u Hx) as [y Hy]. congruence.
    + split_and!; [done | done |]. intros q Hq. cbn in Hq. exact (lookup_insert_ne _ _ _ _ (not_eq_sym Hq)).
Qed.

(** C23: [exec] of a file makes a thread with a name of its own for the file, ready to run
    the loader, which enters that program; then the shell waits for it.  When there is
    no memory for the name the shell says so; when there is none for the thread it
    reads the name it has just freed. *)
Theorem exec_launches m xs c mm f : create_case (m_kernel m) xs c mm -> Z.of_nat (length f) + 1 <= MAX_ALLOC_SIZE ->
  (no_name m f /\ launch f m = say_line "Failed to allocate memory for program name" m) \/
  (exists k, no_thread m f k /\ thread_create user_program_loader_entry k = Some (0, k) /\ launch f m = None) \/
  exists m1 t th, launched m xs mm f m1 t th /\
    launch f m = (m2 ← say launched_text [text f; Word (t_pid th)] m1; wait_program rounds t m2) /\
    forall m2 epc sp k, tp (m_kernel m2) = t -> threads (m_kernel m2) !! t = Some th -> strings (m_shell m2) !! t_arg th = Some f ->
      exec f (m_kernel m2) = Some (UserMode epc sp, k) -> user_program_loader m2 = Some (UserMode epc sp, set_kernel k m2).
Proof.
  intros Hcc Hl. destruct (launch_spec m xs c mm f Hcc Hl) as [E | [E | (m1 & t & th & Hla & E)]]; [by left | by right; left |].
  right. right. exists m1, t, th. split; [done |]. split; [done |]. intros m2 epc sp k Ht Hth Hn He.
  apply (loader_enters m2 t th f); try done; [| apply (la_name _ _ _ _ _ _ _ Hla)].
  intros ->. destruct (la_queue _ _ _ _ _ _ _ Hla) as (xs' & Hs & Hperm). apply (so_nonnull _ _ Hs). rewrite Hperm. right. by left.
Qed.

(** ** Timeouts *)

(** What the shell keeps is on the heap. *)
Definition shell_ok m mm : Prop :=
  (forall p, is_Some (strings (m_shell m) !! p) -> is_Some (mm !! p)) /\ (forall p, is_Some (timeouts (m_shell m) !! p) -> is_Some (mm !! p)).

Lemma shell_fresh m mm p : shell_ok m mm -> mm !! p = None -> strings (m_shell m) !! p = None /\ timeouts (m_shell m) !! p = None.
Proof. intros [Hs Ht] Hp. split; apply eq_None_not_Some; [intros Hx%Hs | intros Hx%Ht]; rewrite Hp in Hx; by destruct Hx. Qed.

Lemma queues_ok_object k mm h p n : queues_ok k mm -> mm !! p = None -> owns h (<[p := (n, 1)]> mm) -> queues_ok (set_k_heap h k) (<[p := (n, 1)]> mm).
Proof.
  intros [_ Hts Hqs Hnd Hlive] Hp Ho. split; [exact Ho | exact Hts | exact Hqs | exact Hnd |]. intros a Ha. destruct (Hlive a Ha) as [x Hx]. exists x.
  rewrite lookup_insert_ne; [exact Hx |]. intros <-. congruence.
Qed.

(** The message is at [p] and the arguments are at [a], with a timer for them; there
    is none only if the allocator has no memory for its node. *)
Record timeout_set m mm (sec : Z) (msg : list Z) m1 (p a : Z) : Prop := {
  to_fresh : mm !! p = None /\ mm !! a = None /\ p <> a;
  to_shell : m_shell m1 = Shell (<[p := msg]> (strings (m_shell m)))
    (<[a := TimeoutArgs p sec (time_at (reads (m_kernel m)) / time_freq (m_kernel m))]> (timeouts (m_shell m)));
  to_rest : m_dev m1 = m_dev m /\ threads (m_kernel m1) = threads (m_kernel m) /\ task_queue (m_kernel m1) = task_queue (m_kernel m) /\
    time_freq (m_kernel m1) = time_freq (m_kernel m);
  to_timer : (timer_list (m_kernel m1) = timer_list (m_kernel m) /\
      h_allocate SIZEOF_TIMER_NODE (k_heap (m_kernel m1)) = Some (0, k_heap (m_kernel m1))) \/
    exists q l1 l2, timer_list (m_kernel m) = l1 ++ l2 /\
      let expire := time_at (S (reads (m_kernel m))) ⊞ (u64 sec ⊠ time_freq (m_kernel m)) in
      timer_list (m_kernel m1) = l1 ++ TimerNode q expire (CB_other timeout_callback_entry) a :: l2 /\
      Forall (fun x => expire_time x <= expire) l1 /\ Forall (fun x => expire < expire_time x) l2;
  to_queues : armed (m_kernel m1) /\ exists mm', queues_ok (m_kernel m1) mm' /\ mm ⊆ mm' /\
    forall x, x = p \/ x = a -> exists n, mm' !! x = Some (n, 1);
}.

#[local] Opaque kprintf timeout_text.

(** No memory for the message; or none for the arguments once the message has its copy. *)
Definition no_message m (msg : list Z) : Prop :=
  h_allocate (Z.of_nat (length msg) + 1) (k_heap (m_kernel m)) = Some (0, k_heap (m_kernel m)).
Definition no_arguments m (msg : list Z) : Prop :=
  exists p h, h_allocate (Z.of_nat (length msg) + 1) (k_heap (m_kernel m)) = Some (p, h) /\ h_allocate SIZEOF_TIMEOUT_ARGS h = Some (0, h).

(** A step of a command that succeeds, without computing what is said after it. *)
Lemma seconds_spec k : time_freq k <> 0 -> get_time_in_seconds k = Some (time_at (reads k) / time_freq k, set_reads (S (reads k)) k).
Proof. intros Hf. unfold get_time_in_seconds, rdtime. cbn [time_freq set_reads]. by destruct (Z.eqb_spec (time_freq k) 0). Qed.

Lemma timeout_callback_says m p a sec now msg : timeouts (m_shell m) !! a = Some (TimeoutArgs p sec now) ->
  strings (m_shell m) !! p = Some msg -> time_freq (m_kernel m) <> 0 ->
  timeout_callback a m = (m1 ← say timeout_text [Word (time_at (reads (m_kernel m)) / time_freq (m_kernel m)); text msg; Word now; Word sec]
    (set_kernel (set_reads (S (reads (m_kernel m))) (m_kernel m)) m); m2 ← free_at p m1; free_at a m2).
Proof.
  intros Hta Hs Hf. unfold timeout_callback. rewrite Hta, bind_some. cbn [message duration executed_time]. rewrite seconds_spec, bind_some by done.
  cbv beta iota zeta. change (m_shell (set_kernel (set_reads (S (reads (m_kernel m))) (m_kernel m)) m)) with (m_shell m). by rewrite Hs, bind_some.
Qed.

(** The callback says its text and gives back the message and the arguments. *)
Lemma timeout_callback_spec m mm p a sec now msg n n' : timeouts (m_shell m) !! a = Some (TimeoutArgs p sec now) ->
  strings (m_shell m) !! p = Some msg -> owns (k_heap (m_kernel m)) mm -> mm !! p = Some (n, 1) -> mm !! a = Some (n', 1) -> p <> a ->
  time_freq (m_kernel m) <> 0 ->
  exists h, owns h (delete a (delete p mm)) /\
    timeout_callback a m = (d ← kprintf timeout_text [Word (time_at (reads (m_kernel m)) / time_freq (m_kernel m)); text msg; Word now; Word sec] (m_dev m);
      Some (Machine _ _ (Shell (delete a (delete p (strings (m_shell m)))) (delete a (delete p (timeouts (m_shell m)))))
        (set_k_heap h (set_reads (S (reads (m_kernel m))) (m_kernel m))) d)).
Proof.
  intros Hta Hs Ho Hp Ha Hne Hf. destruct (owns_free _ _ _ _ Ho Hp) as (h1 & E1 & Ho1).
  destruct (owns_free h1 (delete p mm) a n' Ho1) as (h2 & E2 & Ho2); [by rewrite lookup_delete_ne |].
  exists h2. split; [done |]. rewrite (timeout_callback_says m p a sec now msg Hta Hs Hf). unfold say.
  destruct (kprintf _ _ _) as [d |]; [| reflexivity]. cbn [mbind option_bind].
  unfold free_at, kfree. cbn [m_kernel set_dev set_kernel set_reads k_heap]. rewrite E1. cbn [mbind option_bind m_kernel set_k_heap k_heap]. rewrite E2. reflexivity.
Qed.

Lemma set_timeout_spec m mm sec msg : queues_ok (m_kernel m) mm -> armed (m_kernel m) -> shell_ok m mm -> time_freq (m_kernel m) <> 0 ->
  Z.of_nat (length msg) + 1 <= MAX_ALLOC_SIZE ->
  (no_message m msg /\ set_timeout sec msg m = say_line "Failed to allocate memory for setTimeout" m) \/
  (no_arguments m msg /\ exists m0, set_timeout sec msg m = say_line "Failed to allocate memory for setTimeout arguments" m0 /\
     m_shell m0 = m_shell m /\ m_dev m0 = m_dev m /\ queues_ok (m_kernel m0) mm /\ only_queues (m_kernel m) (m_kernel m0)) \/
  exists m1 p a, set_timeout sec msg m = Some m1 /\ timeout_set m mm sec msg m1 p a.
Proof.
  intros Hq Ha Hsh Hf Hl. unfold set_timeout. assert (Hmax : MAX_ALLOC_SIZE < 2 ^ 31) by reflexivity.
  rewrite (i32_small (Z.of_nat (length msg))), i32_small, u64_small by lia.
  destruct (malloc_spec m mm (Z.of_nat (length msg) + 1) (qo_owns _ _ Hq) ltac:(lia)) as [[-> Ea] | (p & h & n & -> & Ea & Hp0 & _ & Hp & Ho1)]; cbn [mbind option_bind]; [by left | right].
  destruct (Z.eqb_spec p 0); [done |]. set (k1 := set_k_heap h (m_kernel m)).
  assert (Hq1 : queues_ok k1 (<[p := (n, 1)]> mm)) by by apply queues_ok_object.
  destruct (malloc_spec (put_string_at p msg (set_kernel k1 m)) _ SIZEOF_TIMEOUT_ARGS Ho1 ltac:(by vm_compute)) as [[-> Eb] | (a & h2 & n2 & -> & _ & Ha0 & _ & Hpa & Ho2)];
    cbn [mbind option_bind].
  - left. split; [by exists p, h |]. change (0 =? 0) with true. cbv iota.
    destruct (free_at_spec p (put_string_at p msg (set_kernel k1 m)) _ n Ho1) as (h' & -> & Ho'); [apply lookup_insert_eq |]. cbn [mbind option_bind].
    eexists. split; [reflexivity |]. destruct (shell_fresh m mm p Hsh Hp) as [Es Et].
    cbn [m_shell m_kernel m_dev put_string_at set_shell set_kernel strings timeouts].
    assert (Eh : delete p (<[p := (n, 1)]> mm) = mm) by by apply delete_insert_id. split_and!; [| done | | by destruct (m_kernel m)].
    + rewrite delete_insert_id, (delete_id (timeouts _)) by done. by destruct (m_shell m).
    + rewrite Eh in Ho'. destruct Hq. by split.
  - right. destruct (Z.eqb_spec a 0); [done |]. apply lookup_insert_None in Hpa as [Hma Hpa].
    cbn [m_kernel set_kernel put_string_at set_shell]. unfold get_time_in_seconds, rdtime.
    set (k2 := set_k_heap h2 k1). change (time_freq (set_reads _ _)) with (time_freq (m_kernel m)). change (reads (set_k_heap h2 k1)) with (reads (m_kernel m)).
    destruct (Z.eqb_spec (time_freq (m_kernel m)) 0); [done |]. cbn [mbind option_bind m_kernel set_kernel put_timeout set_shell].
    change (set_k_heap h2 (set_k_heap h (m_kernel m))) with k2. set (k3 := set_reads (S (reads (m_kernel m))) k2).
    assert (Hq2 : queues_ok k2 (<[a := (n2, 1)]> (<[p := (n, 1)]> mm))) by (apply queues_ok_object; [done | by apply lookup_insert_None | done]).
    assert (Hq3 : queues_ok k3 (<[a := (n2, 1)]> (<[p := (n, 1)]> mm))) by (apply (queues_ok_ext k2); done).
    unfold add_timer. match goal with |- context [add_timer_ticks _ _ _ ?x] => change x with k3 end. change (time_freq k3) with (time_freq (m_kernel m)).
    destruct (add_timer_ticks_ok k3 _ (CB_other timeout_callback_entry) a (u64 sec ⊠ time_freq (m_kernel m)) Hq3 Ha)
      as (r & k4 & -> & Hoq & Ha4 & _ & Htq & Hr). cbn [mbind option_bind].
    exists (set_kernel k4 (put_timeout a (TimeoutArgs p sec (time_at (reads (m_kernel m)) / time_freq (m_kernel m))) (put_string_at p msg m))), p, a.
    split; [reflexivity |]. split.
    + by split_and!.
    + reflexivity.
    + split_and!; [reflexivity | by rewrite Hoq | exact Htq | by rewrite Hoq].
    + destruct Hr as [(_ & El & _ & En & Eh) | (_ & q & x & _ & _ & _ & El)]; [left | right].
      * split; [exact El |]. change (m_kernel (set_kernel k4 _)) with k4. rewrite Eh. exact En.
      * destruct (insert_timer_spec (TimerNode q (time_at (S (reads (m_kernel m))) ⊞ (u64 sec ⊠ time_freq (m_kernel m))) (CB_other timeout_callback_entry) a)
          (timer_list (m_kernel m)) (qo_timers _ _ Hq)) as (l1 & l2 & El' & Ei & H1 & H2).
        exists q, l1, l2. split; [exact El' |]. split; [etrans; [exact El | exact Ei] | by split].
    + split; [exact Ha4 |].
      assert (Hsub : mm ⊆ <[a := (n2, 1)]> (<[p := (n, 1)]> mm)).
      { etrans; [by apply (insert_subseteq mm p (n, 1)) | apply insert_subseteq; by apply lookup_insert_None]. }
      assert (Hlive : forall x, x = p \/ x = a -> exists y, <[a := (n2, 1)]> (<[p := (n, 1)]> mm) !! x = Some (y, 1)).
      { intros x [-> | ->]; [exists n; rewrite lookup_insert_ne by done; apply lookup_insert_eq | exists n2; apply lookup_insert_eq]. }
      destruct Hr as [(_ & _ & Hq4 & _) | (_ & q & x & Hqn & _ & Hq4 & _)]; [by eexists |].
      exists (<[q := (x, 1)]> (<[a := (n2, 1)]> (<[p := (n, 1)]> mm))). split_and!; [exact Hq4 | etrans; [exact Hsub | by apply insert_subseteq] |].
      intros y Hy. destruct (Hlive y Hy) as [z Hz]. exists z. rewrite lookup_insert_ne; [exact Hz |]. intros <-. congruence.
Qed.

(** C24: [setTimeout] keeps a copy of the message and sets a timer of that many
    seconds for it, unless there is no memory, when it says so and keeps nothing; when
    the timer fires the callback says the message with the times and leaves the
    shell as it was before.  Each failure is one of the allocator: it has no
    memory for the message, the arguments or the node of the timer. *)
Theorem set_timeout_fires m mm sec msg : queues_ok (m_kernel m) mm -> armed (m_kernel m) -> shell_ok m mm -> time_freq (m_kernel m) <> 0 ->
  Z.of_nat (length msg) + 1 <= MAX_ALLOC_SIZE ->
  (no_message m msg /\ set_timeout sec msg m = say_line "Failed to allocate memory for setTimeout" m) \/
  (no_arguments m msg /\ exists m0, set_timeout sec msg m = say_line "Failed to allocate memory for setTimeout arguments" m0 /\
     m_shell m0 = m_shell m /\ m_dev m0 = m_dev m /\ queues_ok (m_kernel m0) mm /\ only_queues (m_kernel m) (m_kernel m0)) \/
  exists m1 p a, set_timeout sec msg m = Some m1 /\ timeout_set m mm sec msg m1 p a /\
    forall m2 mm2 n n', m_shell m2 = m_shell m1 -> owns (k_heap (m_kernel m2)) mm2 -> mm2 !! p = Some (n, 1) -> mm2 !! a = Some (n', 1) ->
      time_freq (m_kernel m2) <> 0 ->
      exists h, owns h (delete a (delete p mm2)) /\
        timeout_callback a m2 = (d ← kprintf timeout_text [Word (time_at (reads (m_kernel m2)) / time_freq (m_kernel m2)); text msg;
            Word (time_at (reads (m_kernel m)) / time_freq (m_kernel m)); Word sec] (m_dev m2);
          Some (Machine _ _ (m_shell m) (set_k_heap h (set_reads (S (reads (m_kernel m2))) (m_kernel m2))) d)).
Proof.
  intros Hq Ha Hsh Hf Hl. destruct (set_timeout_spec m mm sec msg Hq Ha Hsh Hf Hl) as [E | [E | (m1 & p & a & E & Hto)]]; [by left | by right; left |].
  right. right. exists m1, p, a. split; [done |]. split; [done |]. intros m2 mm2 n n' Em Ho Hp Hpa Hf2.
  destruct (to_fresh _ _ _ _ _ _ _ Hto) as (Hmp & Hma & Hne). pose proof (to_shell _ _ _ _ _ _ _ Hto) as Es.
  destruct (shell_fresh m mm p Hsh Hmp) as [Esp Etp], (shell_fresh m mm a Hsh Hma) as [Esa Eta].
  destruct (timeout_callback_spec m2 mm2 p a sec (time_at (reads (m_kernel m)) / time_freq (m_kernel m)) msg n n') as (h & Ho' & E2); try done.
  - rewrite Em, Es. apply lookup_insert_eq.
  - rewrite Em, Es. apply lookup_insert_eq.
  - exists h. split; [done |]. rewrite E2, Em, Es. cbn [strings timeouts].
    rewrite delete_insert_id, (delete_id (strings _)), delete_insert_ne, (delete_id (timeouts _) p), delete_insert_id by done. by destruct (m_shell m).
Qed.

End Shell.

(** ** A concrete machine, used by the witnesses *)

Module ToyShell.

#[local] Existing Instances pages_ops pages_spec toy_disk toy_text toy_clock.

(** The console collects what it is sent; nothing is typed. *)
#[export] Instance screen_io : DevIO (list Z) :=
  { dev_getc d := Some (-1, d); dev_putc c d := Some (d ++ [c]); dev_yield d := d; dev_patience := 0; fb_write _ _ _ := None; fb_info _ := [] }.
#[export] Instance screen_console : Console (list Z) := { con_getc _ := None }.
#[export] Instance no_display : Display (list Z) := { bmp_display _ _ _ _ := None }.
#[export] Instance no_user {H} : UserMem H := { user_string _ _ := None; user_bytes _ _ _ := None; user_store _ _ _ := None }.
#[export] Instance entries : MainText := { user_program_loader_entry := 4096; timeout_callback_entry := 8192; shell_thread_entry := 12288 }.
#[export] Instance no_firmware : Firmware (list Z) := { ecall _ d := (0, 0, d) }.

Notation machine := (machine (gmap Z (Z * Z)) (list Z)).

(** While the shell waits, every program ends. *)
Definition all_end (m : machine) : option machine :=
  Some (set_kernel (set_threads (set_t_status THREAD_TERMINATED <$> threads (m_kernel m)) (m_kernel m)) m).
#[export] Instance brief : OtherThreads (gmap Z (Z * Z)) (list Z) := { others := all_end; rounds := 1 }.

Definition toy_machine : machine := Machine _ _ (Shell ∅ ∅) fork_kernel [].

Lemma toy_case : create_case fork_kernel [idler] mother_thread fork_owned.
Proof.
  split; [exact (fc_sched _ _ _ _ _ _ _ _ _ _ fork_toy) | reflexivity | exact fork_owns | exact (fc_files _ _ _ _ _ _ _ _ _ _ fork_toy) |
    exact (fc_threads _ _ _ _ _ _ _ _ _ _ fork_toy)].
Qed.

Lemma exec_launches_witness : exists m1 t th, launched toy_machine [idler] fork_owned (chars "prog") m1 t th /\
  (m_dev <$> launch (chars "prog") toy_machine) = Some (chars "Launched prog as PID: 2" ++ CRLF).
Proof.
  assert (Ec : (m_dev <$> launch (chars "prog") toy_machine) = Some (chars "Launched prog as PID: 2" ++ CRLF)) by (vm_compute; reflexivity).
  destruct (exec_launches toy_machine [idler] mother_thread fork_owned (chars "prog")) as [[_ E] | [(k & _ & _ & E) | (m1 & t & th & Hl & _ & _)]].
  - exact toy_case.
  - vm_compute. discriminate.
  - exfalso. rewrite E in Ec. vm_compute in Ec. discriminate Ec.
  - exfalso. rewrite E in Ec. discriminate Ec.
  - exists m1, t, th. split; [exact Hl | exact Ec].
Defined.

Lemma set_timeout_fires_witness : exists m1 p a, set_timeout 3 (chars "tea") toy_machine = Some m1 /\
  timeout_set toy_machine fork_owned 3 (chars "tea") m1 p a /\
  exists q, timer_list (m_kernel m1) = [TimerNode q (time_at 1 + 30000000) (CB_other timeout_callback_entry) a].
Proof.
  assert (Ec : ((fun m1 => length (timer_list (m_kernel m1))) <$> set_timeout 3 (chars "tea") toy_machine) = Some 1%nat) by (vm_compute; reflexivity).
  assert (Em : (m_dev <$> set_timeout 3 (chars "tea") toy_machine) = Some []) by (vm_compute; reflexivity).
  destruct (set_timeout_fires toy_machine fork_owned 3 (chars "tea")) as [[_ E] | [(_ & m0 & E & _ & Hd & _) | (m1 & p & a & E & Hs & _)]].
  - split; [exact fork_owns | constructor | constructor | constructor | intros x []%elem_of_nil].
  - reflexivity.
  - split; intros p [x Hx]; discriminate Hx.
  - discriminate.
  - vm_compute. discriminate.
  - exfalso. rewrite E in Em. vm_compute in Em. discriminate Em.
  - exfalso. rewrite E in Em. unfold say_line, say in Em. rewrite Hd in Em. vm_compute in Em. discriminate Em.
  - exists m1, p, a. split; [exact E |]. split; [exact Hs |]. rewrite E in Ec. injection Ec as Ec.
    destruct (to_timer _ _ _ _ _ _ _ Hs) as [[En _] | (q & l1 & l2 & El & Eq & _)]; [rewrite En in Ec; discriminate Ec |].
    symmetry in El. apply app_nil in El as [-> ->]. exists q. exact Eq.
Defined.

End ToyShell.
