(* ===== verification/Start.v ===== *)
(** * The boot sequence: [start_kernel] of [main.c]

    The initialisations of the other components in the order of the code, from the
    first message to the thread of the shell.  What the device tree describes comes
    from the parser of [Fdt], what the allocator reads of it through its class
    [BootInfo]; the sections of the kernel image are those of the linker script. *)

From Stdlib Require Import String.
From S2P Require Import Prelude Config Heap HeapInst Buddy Allocator Mmu Fdt VfsData Tmpfs Vfs Stdio Uart Plic Video Vma Kernel Sched Timer Thread Syscall Board Main.
#[local] Open Scope Z_scope.
#[local] Open Scope list_scope.

(** [_start], [_text_end] and [_rodata_end]. *)
Class Linker := { start_sym : Z; text_end_sym : Z; rodata_end_sym : Z }.

(** The bytes of what is given to [allocator_init]. *)
Class Blob (B : Type) := { blob_bytes : B -> fdt_blob }.

Definition SIE_STIE : Z := Z.shiftl 1 5.

(** The threads: [init_thread_system] and [thread_create(shell_thread)]. *)
Definition start_threads {H : Type} {HO : HeapOps H} {KT : KernelText} {MT : MainText} (k : kernel H) : option (kernel H) :=
  k ← init_thread_system k;
  '(_, k) ← thread_create shell_thread_entry k; Some k.

Section Start.
Context {dev : Type} {DV : Device dev} {P : Type} {PD : PlicDevice P} {F : Type} {FW : FwCfg F} {PF : Platform}.
Context {SU : Surroundings dev P F} {B : Type} {BI : BootInfo B} {BB : Blob B} {LK : Linker}.
Context {FR : Frames} {HC : Clock} {KT : KernelText} {RD : Initrd} {MT : MainText}.
Notation board := (board dev P F).
Notation machine := (machine allocator board).

(** The machine with the globals that keep what the boot code was given. *)
Record system := System { s_machine : machine; kernel_hartid : Z; kernel_fdt : option B }.

Definition on_kernel (f : kernel allocator -> option (kernel allocator)) (m : machine) : option machine :=
  k ← f (m_kernel m); Some (set_kernel k m).
Definition on_board (f : board -> board) (m : machine) : machine := set_dev (f (m_dev m)) m.

Definition set_uart_base (base : Z) (u : uart dev) : uart dev :=
  Uart base (uart_async u) (rx_ring u) (tx_ring u) (sie u) (device u).
(** [csrs sstatus, 1 << 1] *)
Definition interrupts_on (u : uart dev) : uart dev :=
  Uart (uart_base_addr u) (uart_async u) (rx_ring u) (tx_ring u) true (device u).
Definition set_plic_base (base : Z) (p : plic P) : plic P := Plic_ base (sie_csr p) (regs p).

Definition start_uart (fdt : fdt_blob) (m : machine) : option machine :=
  base ← init_uart_from_fdt fdt;
  Some (on_board (fun b => set_uart (set_uart_base (to_virt base) (b_uart b)) b) m).

Definition start_plic (hartid : Z) (fdt : fdt_blob) (m : machine) : option machine :=
  p ← plic_init hartid fdt (b_plic (m_dev m));
  let p := if negb (plic_base p =? 0) && (plic_base p <? PAGE_OFFSET) then set_plic_base (plic_base p ⊞ PAGE_OFFSET) p else p in
  Some (on_board (set_plic p) m).

(** What [mmu_init] reads from the linker, the allocator and the drivers. *)
Definition boot_layout (m : machine) : layout :=
  let b := bud (k_heap (m_kernel m)) in
  Layout start_sym text_end_sym rodata_end_sym (G_MEMPOOL_START b) (G_MEMPOOL_SIZE b) (uart_base_addr (b_uart (m_dev m))) (plic_base (b_plic (m_dev m))).

Definition start_mmu (m : machine) : option machine :=
  '(pgd, satp, vm) ← mmu_init (boot_layout m) (as_vm (m_kernel m));
  Some (set_kernel (set_satp satp (set_kernel_pgd pgd (with_vm (m_kernel m) vm))) m).

Definition start_irq (fdt : fdt_blob) (m : machine) : option machine :=
  uart_irq ← uart_get_irq (Some fdt);
  Some (on_board (fun b => set_plic (plic_enable_interrupt uart_irq (b_plic b)) (set_irq uart_irq b)) m).

(** The end of [timer_init] lets the interrupts in. *)
Definition start_timer (fdt : fdt_blob) (m : machine) : option machine :=
  freq ← fdt_get_timebase_frequency (Some fdt) (time_freq (m_kernel m));
  m ← on_kernel (timer_init freq) m;
  Some (on_board (fun b => set_uart (interrupts_on (b_uart b)) (set_plic (set_sie (Z.lor (sie_csr (b_plic b)) SIE_STIE) (b_plic b)) b)) m).

Definition start_video (fuel : nat) (m : machine) : option machine :=
  '(msg, v) ← video_init fuel (b_video (m_dev m));
  say msg [] (on_board (set_video v) m).

Definition start_vfs : machine -> option machine :=
  on_kernel (fun k => s ← vfs_init initrd_files (if initrd_start =? 0 then None else Some initrd_bytes) (as_fs k); Some (with_fs k s)).

(** Up to the endless loop of [idle].  [pc] is where the kernel runs. *)
Definition start_kernel (fuel : nat) (hartid : Z) (fdt : B) (pc : Z) (s : system) : option system :=
  let bytes := blob_bytes fdt in
  m ← start_uart bytes (s_machine s);
  m ← say (chars "Kernel is now running in virtual memory at PC: 0x%lx" ++ CRLF) [Word pc] m;
  m ← on_kernel (fun k => h ← allocator_init fuel (Some fdt) (k_heap k); Some (set_k_heap h k)) m;
  m ← start_plic hartid bytes m;
  m ← start_mmu m;
  m ← start_irq bytes m;
  m ← start_timer bytes m;
  m ← start_video fuel m;
  m ← start_vfs m;
  m ← say_line "Hello from Main Kernel! Initialization done." m;
  m ← on_kernel start_threads (on_board (fun b => set_uart (uart_setup_interrupts (b_uart b)) b) m);
  Some (System m hartid (Some fdt)).

End Start.
Arguments system : clear implicits.
