(* ===== verification/StartProps.v ===== *)
(** * Properties of the boot sequence

    The threads that [start_kernel] makes: the idle thread runs, and its first round
    enters the thread of the shell. *)

From S2P Require Import Prelude Config Heap CString VfsData Tmpfs Vfs Stdio Uart Vma Mmu PgdProps Kernel Sched SchedProps Timer TimerProps Thread Syscall ThreadProps FaultProps SignalProps ForkProps ReapProps Board Main MainProps Start.
#[local] Open Scope Z_scope.
#[local] Open Scope list_scope.

Section Threads.
Context {H : Type} {HO : HeapOps H} {HS : HeapSpec H} {KT : KernelText} {MT : MainText}.
Notation kernel := (kernel H).
Implicit Types (k : kernel) (mm : gmap Z (Z * Z)).

(** The kernel before its first thread; [r] is the root directory. *)
Record booted k (r : Z) mm : Prop := {
  bt_threads : threads k = ∅ /\ run_queue k = 0 /\ nr_threads k = 0 /\ tp k = 0;
  bt_satp : satp k = MAKE_SATP (kernel_pgd k ⊟ PAGE_OFFSET);
  bt_root : root_vnode (k_vfs k) = Some r;
  bt_owns : owns (k_heap k) mm;
}.

(** The idle thread [t] at [p], alone. *)
Record idling k r mm k1 (p : Z) (t : thread) mm1 : Prop := {
  id_case : create_case k1 [] t mm1;
  id_tp : tp k1 = p /\ mm !! p = None;
  id_thread : t_pid t = 0 /\ t_status t = THREAD_RUNNING /\ t_entry_func t = idle_entry /\ t_cwd t = r /\ t_root t = r /\ t_fdt t = replicate NR_FD 0;
  id_rest : nr_threads k1 = 1 /\ threads k1 = {[ p := t ]} /\ k_vfs k1 = k_vfs k /\ k_mem k1 = k_mem k /\ kernel_pgd k1 = kernel_pgd k;
  id_heap : mm ⊆ mm1;
}.

Lemma init_thread_system_spec k r mm : booted k r mm ->
  (h_allocate SIZEOF_THREAD (k_heap k) = Some (0, k_heap k) /\ init_thread_system k = None) \/
  exists k1 p t mm1, init_thread_system k = Some k1 /\ idling k r mm k1 p t mm1.
Proof.
  intros [(Ht & Hq & Hn & Htp) Hsatp Hroot Ho]. unfold init_thread_system, thread_create.
  destruct (owns_allocate _ _ SIZEOF_THREAD Ho) as [E | (p & h1 & n1 & E & _ & Hp & Ho1)]; [by vm_compute | |]; rewrite (kalloc_heap _ _ _ _ E); cbn [mbind option_bind].
  { left. split; [done |]. cbn [Z.eqb mbind option_bind]. unfold upd_thread. cbn [threads set_k_heap]. by rewrite Ht. }
  right. destruct (owns_bounds _ _ p n1 1 Ho1) as (Hp0 & _); [by rewrite lookup_insert_eq |]. destruct (Z.eqb_spec p 0); [lia |].
  assert (Hst : exists stack h2 mm2, h_allocate KERNEL_STACK_SIZE h1 = Some (stack, h2) /\ owns h2 mm2 /\ <[p := (n1, 1)]> mm ⊆ mm2).
  { destruct (owns_allocate _ _ KERNEL_STACK_SIZE Ho1) as [E2 | (st & h2 & n2 & E2 & _ & Hs & Ho2)]; [by vm_compute | |].
    - by exists 0, h1, (<[p := (n1, 1)]> mm).
    - exists st, h2, (<[st := (n2, 1)]> (<[p := (n1, 1)]> mm)). split_and!; [done | done | by apply insert_subseteq]. }
  destruct Hst as (stack & h2 & mm2 & E2 & Ho2 & HM).
  set (ka := set_nr_threads (i32 (nr_threads k + 1)) (set_k_heap h1 k)).
  match goal with |- context [kalloc KERNEL_STACK_SIZE ?x] => change x with ka end. rewrite (kalloc_heap _ ka _ _ E2). cbn [mbind option_bind].
  change (tp (set_k_heap h2 ka)) with (tp k). change (k_vfs (set_k_heap h2 ka)) with (k_vfs k). rewrite Htp, Z.eqb_refl, Hroot. cbn [mbind option_bind].
  set (t := Thread _ _ _ _ _ _ _ _ _ _ _ _ _ _ _ _ _ _ _ _ _ _ _ _). set (kb := put_thread p t _).
  unfold enqueue. change (run_queue kb) with (run_queue k). rewrite Hq, Z.eqb_refl. unfold upd_thread.
  assert (Eb : threads (set_run_queue p kb) !! p = Some t) by apply lookup_insert_eq. rewrite Eb. cbn [mbind option_bind]. set (kc := put_thread p (set_t_next p t) (set_run_queue p kb)).
  assert (Ec : threads kc = {[ p := set_t_next p t ]}).
  { change (threads kc) with (<[p := set_t_next p t]> (<[p := t]> (threads k))). by rewrite Ht, insert_insert_eq. }
  rewrite Ec, lookup_singleton_eq. cbn [mbind option_bind]. set (t' := set_t_status THREAD_RUNNING (set_t_next p t)).
  set (k1 := set_tp p (put_thread p t' kc)). exists k1, p, t', mm2. split; [reflexivity |].
  assert (Et : threads k1 = {[ p := t' ]}) by (change (threads k1) with (<[p := t']> (threads kc)); by rewrite Ec, insert_singleton_eq).
  assert (Hpt : threads k1 !! p = Some t') by (by rewrite Et, lookup_singleton_eq).
  split.
  - split; [| exact Hpt | exact Ho2 | |].
    + split; change (tp k1) with p.
      * intros ?%list_elem_of_singleton. lia.
      * split_and!; [apply NoDup_singleton | done |]. split; [done |]. exists t'. split; [exact Hpt | reflexivity].
      * by left.
      * exists p, t'. split_and!; [by left | exact Hpt |]. cbn. exact Hn.
      * intros x u ->%list_elem_of_singleton _ _. done.
      * intros u Hu. rewrite Hpt in Hu. injection Hu as <-. change (satp k1) with (satp k). rewrite Hsatp. unfold pgd_of. change (kernel_pgd k1) with (kernel_pgd k).
        change (t_pgd t') with (kernel_pgd k). by destruct (kernel_pgd k =? 0).
    + intros f Hf Hf0. cbn in Hf. change (f ∈ replicate NR_FD 0) in Hf. apply elem_of_replicate in Hf as [Ef _]. destruct (Hf0 Ef).
    + intros x u Hx. rewrite Et in Hx. apply lookup_singleton_Some in Hx as [<- _]. eexists. eapply lookup_weaken; [apply lookup_insert_eq | exact HM].
  - by split.
  - split_and!; try reflexivity. exact Hn.
  - split_and!; [| exact Et | reflexivity | reflexivity | reflexivity]. change (nr_threads k1) with (i32 (nr_threads k + 1)). by rewrite Hn.
  - etrans; [by apply (insert_subseteq _ p (n1, 1)) | exact HM].
Qed.

(** The shell's thread is ready behind the idle thread. *)
Record shell_ready k2 (i s : Z) (it st : thread) : Prop := {
  sr_sched : sched_ok k2 [s];
  sr_idle : tp k2 = i /\ threads k2 !! i = Some it /\ t_pid it = 0 /\ t_status it = THREAD_RUNNING;
  sr_shell : threads k2 !! s = Some st /\ t_pid st = 1 /\ t_status st = THREAD_READY /\ t_entry_func st = shell_thread_entry;
  sr_context : ra (t_context st) = kernel_thread_wrapper /\ sp (t_context st) = t_kernel_stack st ⊞ KERNEL_STACK_SIZE;
}.

(** The first round of the idle thread. *)
Lemma first_round k2 i s it st mm : shell_ready k2 i s it st -> nr_threads k2 = 2 -> owns (k_heap k2) mm ->
  exists k3, idle_round k2 = Some (true, k3) /\ tp k3 = s /\ cpu k3 = t_context st.
Proof.
  intros [Hs (Htp & Hi & Hpid & Hrun) (Hst & _ & Hready & _) _] Hn Ho. unfold idle_round.
  destruct (kill_zombies_clean k2 [s] it Hs) as (k' & E & Hs' & Hw & Ek); [by rewrite Htp | done | | cbn; lia | by exists mm |].
  { intros x t [-> | ->%list_elem_of_singleton]%elem_of_cons Hx; [rewrite Htp, Hi in Hx | rewrite Hst in Hx]; injection Hx as <-; [by rewrite Hrun | by rewrite Hready]. }
  rewrite E. cbn [mbind option_bind]. destruct (Hw s) as [_ B]. specialize (B ltac:(by intros ?%elem_of_nil)). rewrite Hst in B. destruct B as (st' & Hst' & L).
  destruct (schedule_spec k' [s] Hs') as (sw & k3 & nxt & xs' & E3 & Hnext & _ & Htp3 & Hsw & _ & _ & _ & _ & Hcpu & _).
  assert (nxt = s) as ->.
  { unfold next_thread in Hnext. cbn [app first_runnable] in Hnext. unfold is_runnable at 1 in Hnext. rewrite Hst', L in Hnext. cbn [t_status set_t_next] in Hnext.
    rewrite Hready in Hnext. exact Hnext. }
  assert (Hne : s <> tp k').
  { destruct (so_ring _ _ Hs') as (Hnd & _). apply NoDup_cons in Hnd as [Hnd _]. intros E'. apply Hnd. rewrite <- E'. by left. }
  exists k3. rewrite E3. rewrite (proj2 Hsw Hne). split_and!; [done | done |]. specialize (Hcpu Hne). rewrite Hst' in Hcpu. injection Hcpu as ->. rewrite L. reflexivity.
Qed.

(** C22: the last step of the boot: without memory for the idle thread it writes through
    NULL; else the idle thread runs with pid 0 in the root directory, the queue is
    well formed, and unless the allocator has no memory for it the shell's thread has pid 1 and
    the first round of the idle thread enters it on a stack of its own. *)
Theorem start_threads_enters_shell k r mm : booted k r mm ->
  (h_allocate SIZEOF_THREAD (k_heap k) = Some (0, k_heap k) /\ start_threads k = None) \/
  exists k1 i it mm1, init_thread_system k = Some k1 /\ idling k r mm k1 i it mm1 /\
    ((start_threads k = Some k1 /\ h_allocate SIZEOF_THREAD (k_heap k1) = Some (0, k_heap k1)) \/
     exists k2 s it' st, start_threads k = Some k2 /\ shell_ready k2 i s it' st /\ t_cwd st = r /\ t_root st = r /\
       exists k3, idle_round k2 = Some (true, k3) /\ tp k3 = s /\ cpu k3 = t_context st).
Proof.
  intros Hb. unfold start_threads. destruct (init_thread_system_spec k r mm Hb) as [[Ea ->] | (k1 & i & it & mm1 & -> & Hid)]; [by left | right].
  exists k1, i, it, mm1. split; [done |]. split; [done |]. cbn [mbind option_bind]. destruct Hid as [Hcase [Htp _] (Hpid & Hrun & _ & Hcwd & Hroot & _) (Hn & Et & _) _].
  destruct (thread_create_spec k1 [] it mm1 shell_thread_entry Hcase) as [[-> En] | (k2 & s & st & -> & Hct)]; [by left | right]. cbn [mbind option_bind].
  destruct (ct_queue _ _ _ _ _ _ _ _ Hct) as (xs' & Hs & ->%Permutation_singleton_r). destruct (ct_run _ _ _ _ _ _ _ _ Hct) as (Hf & Hst & Hp & _ & Hra & Hsp).
  destruct (ct_others _ _ _ _ _ _ _ _ Hct i it) as (it' & Hit' & L); [by rewrite Et, lookup_singleton_eq |].
  destruct (ct_rest _ _ _ _ _ _ _ _ Hct) as (_ & Htp2 & Hn2 & _). destruct (ct_shared _ _ _ _ _ _ _ _ Hct) as (_ & Hc & Hr).
  destruct (ct_heap _ _ _ _ _ _ _ _ Hct) as (mm2 & Ho2 & _). exists k2, s, it', st.
  assert (Hsr : shell_ready k2 i s it' st).
  { split; [done | | | done].
    - split_and!; [congruence | done | by rewrite L | by rewrite L].
    - split_and!; [exact (ct_thread _ _ _ _ _ _ _ _ Hct) | congruence | done | done]. }
  split; [done |]. split; [done |]. split_and!; [congruence | congruence |]. apply (first_round k2 i s it' st mm2 Hsr); [by rewrite Hn2, Hn | done].
Qed.

End Threads.

(** ** A concrete boot *)

#[local] Existing Instances pages_ops pages_spec toy_text.
#[local] Instance boot_entries : MainText := { user_program_loader_entry := 4096; timeout_callback_entry := 8192; shell_thread_entry := 12288 }.

Definition boot_kernel : kernel (gmap Z (Z * Z)) :=
  Kernel ∅ ∅ vfs0 ∅ 0 0 0 (Context_ 1 1 []) (MAKE_SATP (4096 ⊟ PAGE_OFFSET)) 4096 [] [] (2 ^ 64 - 1) 0 10000000 (-1).

Lemma start_threads_enters_shell_witness : exists k2 k3, start_threads boot_kernel = Some k2 /\ idle_round k2 = Some (true, k3) /\ nr_threads k2 = 2.
Proof.
  assert (En : (nr_threads <$> start_threads boot_kernel) = Some 2) by (vm_compute; reflexivity).
  destruct (start_threads_enters_shell boot_kernel 0 ∅) as [[_ E] | (k1 & i & it & mm1 & _ & Hid & [[E _] | (k2 & s & it' & st & E & _ & _ & _ & k3 & E3 & _)])].
  - split; [split_and!; reflexivity | reflexivity | reflexivity |]. split; [reflexivity |]. intros x y Hx. discriminate Hx.
  - exfalso. rewrite E in En. discriminate En.
  - exfalso. rewrite E in En. injection En as En. rewrite (proj1 (id_rest _ _ _ _ _ _ _ Hid)) in En. discriminate En.
  - exists k2, k3. split; [exact E |]. split; [exact E3 |]. rewrite E in En. injection En as En. exact En.
Defined.
